(** * Monit service-lifecycle engine: cron matcher and action dispatcher

    A shallow embedding of [libmonit/src/system/Time.c] (the cron schedule
    matcher [Time_incron]) and of [src/control.c] (the command executor, the
    convergence helpers and the dependency-aware dispatcher), with the
    properties the design document states about them. *)

From Stdlib Require Import ZArith String Ascii List Bool Lia.
From stdpp Require Import base list.
Import ListNotations.
Local Open Scope Z_scope.

(** ** Part A -- Time.c: the cron matcher *)

Module Cron.

(** [struct tm], as filled in by [localtime_r]. *)
Record tm := mk_tm {
  tm_sec : Z; tm_min : Z; tm_hour : Z; tm_mday : Z;
  tm_mon : Z; tm_year : Z; tm_wday : Z
}.

(** What a call of [Time_incron] can do: return its [int] (the value of
    [found == 5], or [false]), fail the [assert] that guards the field index
    after a comma, or read [fields[n]] outside the five-element array. *)
Inductive outcome :=
| Return (b : bool)
| AssertFailed
| OutOfBounds.

(** One pass through the [parse:] label either jumps back to it with the
    cursor advanced, or leaves the function. *)
Inductive action :=
| GotoParse (cron : list ascii) (n found : Z)
| Leave (o : outcome).

(** [unsigned char yych]. *)
Definition yych_of (c : ascii) : Z := Z.of_N (N_of_ascii c).

(** [*cron]: the byte under the cursor; the terminating NUL at the end. *)
Definition deref (cron : list ascii) : Z :=
  match cron with
  | [] => 0
  | c :: _ => yych_of c
  end.

(** [strlen]: a C string ends at its first NUL byte. *)
Fixpoint c_string (s : list ascii) : list ascii :=
  match s with
  | [] => []
  | c :: r => if yych_of c =? 0 then [] else c :: c_string r
  end.

(** The table [yybm]: 128 on the ten digits, 0 elsewhere. *)
Definition yybm (yych : Z) : Z :=
  if (48 <=? yych) && (yych <=? 57) then 128 else 0.

(** The labels the first dispatch of the generated lexer can jump to. *)
Inductive label := yy2 | yy4 | yy6 | yy8 | yy10.

(** The decision tree on the first byte of a token, comparison by
    comparison. *)
Definition dispatch (yych : Z) : label :=
  if yych <=? 32 (* ' ' *) then
    if yych <=? 12 (* '\f' *) then
      if yych <=? 8 then yy10
      else if 11 <=? yych (* '\v' *) then yy10
      else yy2
    else
      if yych <=? 13 (* '\r' *) then yy2
      else if yych <=? 31 then yy10
      else yy2
  else
    if yych <=? 43 (* '+' *) then
      if yych =? 42 (* '*' *) then yy4 else yy10
    else
      if yych <=? 44 (* ',' *) then yy6
      else if yych <=? 47 (* '/' *) then yy10
      else if yych <=? 57 (* '9' *) then yy8
      else yy10.

(** The loop [yy12]/[yy13]: advance over the bytes whose [yybm] entry has
    bit 128; the result is the cursor (and the marker [m]) after them. *)
Fixpoint yy13 (cron : list ascii) : list ascii :=
  match cron with
  | [] => []
  | c :: r => if negb (Z.land (yybm (yych_of c)) 128 =? 0) then yy13 r else cron
  end.

(** The loop [yy16]: advance while ['/' < yych <= '9']. *)
Fixpoint yy16 (cron : list ascii) : list ascii :=
  match cron with
  | [] => []
  | c :: r =>
      if yych_of c <=? 47 then cron
      else if yych_of c <=? 57 then yy16 r
      else cron
  end.

(** [strchr(s, '-')]: the suffix that starts at the first ['-'], if any. *)
Fixpoint strchr_minus (s : list ascii) : option (list ascii) :=
  match s with
  | [] => None
  | c :: r => if yych_of c =? 45 then Some s else strchr_minus r
  end.

Fixpoint parse_digits (acc : Z) (s : list ascii) : Z :=
  match s with
  | [] => acc
  | c :: r =>
      if (48 <=? yych_of c) && (yych_of c <=? 57)
      then parse_digits (10 * acc + (yych_of c - 48)) r
      else acc
  end.

(** Modelled from the spec: [Str_parseInt] (libmonit's [Str.c]) is not among
    the sources at hand.  The design document reads a field "integer N" as
    the number N, so the conversion is the decimal value of the digits the
    string starts with.  The lexer only ever hands it a string that starts
    with a digit; the range errors of the C conversion are left out. *)
Definition Str_parseInt (s : list ascii) : Z := parse_digits 0 s.

(** [fields[n]] for the array [int fields[5]]. *)
Definition fields_at (fields : list Z) (n : Z) : option Z :=
  if (0 <=? n) && (n <? 5) then fields !! Z.to_nat n else None.

(** A byte the lexer has no rule for, as the design document lists them:
    neither a digit, nor one of [*], [,], [-], nor blank (tab, line feed,
    carriage return, space); and not the NUL that ends the string. *)
Definition outside_grammar (c : ascii) : bool :=
  let y := yych_of c in
  negb (y =? 0) && negb ((48 <=? y) && (y <=? 57)) &&
  negb (y =? 42) && negb (y =? 44) && negb (y =? 45) &&
  negb (y =? 9) && negb (y =? 10) && negb (y =? 13) && negb (y =? 32).

(** The text holds no NUL byte, so that [strlen] reaches its end. *)
Definition is_c_string (s : string) : bool :=
  forallb (fun a => negb (yych_of a =? 0)) (list_ascii_of_string s).

(** *** The grammar and the matching rule of the design document

    Each field is a comma-separated list of elements; an element is [*], an
    integer or an inclusive range; an expression has five fields separated
    by a blank. *)
Inductive element :=
| Wildcard
| Number (digits : string)
| Range (from to : string).

Definition field := list element.

Definition is_digit (c : ascii) : bool :=
  (48 <=? yych_of c) && (yych_of c <=? 57).

(** A non-empty run of digits. *)
Definition is_number (s : string) : bool :=
  match list_ascii_of_string s with
  | [] => false
  | ds => forallb is_digit ds
  end.

Definition element_wf (e : element) : bool :=
  match e with
  | Wildcard => true
  | Number ds => is_number ds
  | Range from to => is_number from && is_number to
  end.

Definition field_wf (f : field) : bool :=
  match f with
  | [] => false
  | _ => forallb element_wf f
  end.

Definition expression_wf (e : list field) : bool :=
  (length e =? 5)%nat && forallb field_wf e.

Definition value (s : string) : Z := Str_parseInt (list_ascii_of_string s).

(** "[*] always matches; integer N matches if the field value equals N;
    [from-to] matches if the field value is in the inclusive range". *)
Definition element_matches (v : Z) (e : element) : bool :=
  match e with
  | Wildcard => true
  | Number ds => v =? value ds
  | Range from to => (value from <=? v) && (v <=? value to)
  end.

(** "a list matches if any element matches". *)
Definition field_matches (v : Z) (f : field) : bool :=
  existsb (element_matches v) f.

(** "The matcher succeeds iff all five fields match": the rule of the
    design document, on the five values of the time stamp. *)
Fixpoint spec_matches (vs : list Z) (e : list field) : bool :=
  match vs, e with
  | [], [] => true
  | v :: vs, f :: e => field_matches v f && spec_matches vs e
  | _, _ => false
  end.

(** What the code adds up instead: the number of matching elements. *)
Fixpoint field_hits (v : Z) (f : field) : Z :=
  match f with
  | [] => 0
  | e :: f => (if element_matches v e then 1 else 0) + field_hits v f
  end.

Fixpoint hits (vs : list Z) (e : list field) : Z :=
  match vs, e with
  | v :: vs, f :: e => field_hits v f + hits vs e
  | _, _ => 0
  end.

(** The text of an expression. *)
Definition render_element (e : element) : list ascii :=
  match e with
  | Wildcard => ["*"%char]
  | Number ds => list_ascii_of_string ds
  | Range from to =>
      list_ascii_of_string from ++ "-"%char :: list_ascii_of_string to
  end.

Fixpoint render_field (f : field) : list ascii :=
  match f with
  | [] => []
  | [e] => render_element e
  | e :: f => render_element e ++ ","%char :: render_field f
  end.

Fixpoint render (e : list field) : list ascii :=
  match e with
  | [] => []
  | [f] => render_field f
  | f :: e => render_field f ++ " "%char :: render e
  end.

Section WithLocaltime.

(** [localtime_r] of the C library, for the time zone in force. *)
Variable localtime_r : Z -> tm.

Definition Time_minutes (time : Z) : Z := tm_min (localtime_r time).
Definition Time_hour (time : Z) : Z := tm_hour (localtime_r time).
Definition Time_day (time : Z) : Z := tm_mday (localtime_r time).
Definition Time_month (time : Z) : Z := tm_mon (localtime_r time) + 1.
Definition Time_weekday (time : Z) : Z := tm_wday (localtime_r time).

(** [int fields[] = {...}]. *)
Definition fields_of (time : Z) : list Z :=
  [Time_minutes time; Time_hour time; Time_day time; Time_month time;
   Time_weekday time].

(** Action [yy9]: a single number, the token starting at [token]. *)
Definition yy9 (fields : list Z) (token cron : list ascii) (n found : Z)
  : action :=
  match fields_at fields n with
  | None => Leave OutOfBounds
  | Some f =>
      let found := if f =? Str_parseInt token then found + 1 else found in
      GotoParse cron (n + 1) found
  end.

(** Action [yy18]: a range [from-to]. *)
Definition yy18 (fields : list Z) (token cron : list ascii) (n found : Z)
  : action :=
  let from := Str_parseInt token in
  let to := Str_parseInt (match strchr_minus token with
                          | Some (_ :: r) => r
                          | _ => []
                          end) in
  match fields_at fields n with
  | None => Leave OutOfBounds
  | Some f =>
      let found := if (f <=? to) && (from <=? f) then found + 1 else found in
      GotoParse cron (n + 1) found
  end.

(** One pass from the label [parse:] to the next [goto parse] or [return]. *)
Definition parse_once (fields : list Z) (cron : list ascii) (n found : Z)
  : action :=
  match cron with
  | [] => Leave (Return (found =? 5))
  | c :: cron1 =>
      let token := cron in
      match dispatch (yych_of c) with
      | yy2 => GotoParse cron1 n found
      | yy4 => GotoParse cron1 (n + 1) (found + 1)
      | yy6 =>
          let n := n - 1 in
          if (n <? 5) && (0 <=? n) then GotoParse cron1 n found
          else Leave AssertFailed
      | yy8 =>
          let m := yy13 cron1 in
          if negb (deref m =? 45 (* '-' *)) then yy9 fields token m n found
          else
            let cron2 := tl m in
            if deref cron2 <=? 47 then yy9 fields token m n found
            else if deref cron2 <=? 57
                 then yy18 fields token (yy16 (tl cron2)) n found
                 else yy9 fields token m n found
      | yy10 => Leave (Return false)
      end
  end.

(** The [goto parse] loop.  Every pass moves the cursor forward, so one unit
    of fuel per byte, and one for the final test, is enough. *)
Fixpoint parse (fuel : nat) (fields : list Z) (cron : list ascii)
  (n found : Z) : option outcome :=
  match fuel with
  | O => None
  | S fuel =>
      match parse_once fields cron n found with
      | Leave o => Some o
      | GotoParse cron' n' found' => parse fuel fields cron' n' found'
      end
  end.

Definition Time_incron (cron : string) (time : Z) : option outcome :=
  let cron := c_string (list_ascii_of_string cron) in
  parse (S (length cron)) (fields_of time) cron 0 0.

(** The loop with exactly the fuel [Time_incron] gives it. *)
Definition run (fields : list Z) (cron : list ascii) (n found : Z)
  : option outcome :=
  parse (S (length cron)) fields cron n found.

Lemma yy13_length cron : (length (yy13 cron) <= length cron)%nat.
Proof.
  induction cron as [|c r IH]; simpl; [lia|].
  destruct (negb _); simpl; lia.
Qed.

Lemma yy16_length cron : (length (yy16 cron) <= length cron)%nat.
Proof.
  induction cron as [|c r IH]; simpl; [lia|].
  destruct (_ <=? 47); simpl; [lia|].
  destruct (_ <=? 57); simpl; lia.
Qed.

Lemma tl_length {A} (l : list A) : (length (tl l) <= length l)%nat.
Proof. destruct l; simpl; lia. Qed.

Lemma yy9_cursor fields token cron n found cron' n' found' :
  yy9 fields token cron n found = GotoParse cron' n' found' -> cron' = cron.
Proof.
  unfold yy9. destruct (fields_at fields n); intros H; congruence.
Qed.

Lemma yy18_cursor fields token cron n found cron' n' found' :
  yy18 fields token cron n found = GotoParse cron' n' found' -> cron' = cron.
Proof.
  unfold yy18. destruct (fields_at fields n); intros H; congruence.
Qed.

(** Every pass consumes at least one byte. *)
Lemma parse_once_advances fields cron n found cron' n' found' :
  parse_once fields cron n found = GotoParse cron' n' found' ->
  (length cron' < length cron)%nat.
Proof.
  destruct cron as [|c cron1]; simpl; [discriminate|].
  pose proof (yy13_length cron1) as H13.
  pose proof (tl_length (yy13 cron1)) as Htl.
  pose proof (tl_length (tl (yy13 cron1))) as Htl2.
  pose proof (yy16_length (tl (tl (yy13 cron1)))) as H16.
  destruct (dispatch (yych_of c)).
  - intros [= <- _ _]. lia.
  - intros [= <- _ _]. lia.
  - destruct (_ && _); [|discriminate]. intros [= <- _ _]. lia.
  - destruct (negb _).
    + intros H%yy9_cursor. subst. lia.
    + destruct (_ <=? 47).
      * intros H%yy9_cursor. subst. lia.
      * destruct (_ <=? 57).
        -- intros H%yy18_cursor. subst. lia.
        -- intros H%yy9_cursor. subst. lia.
  - discriminate.
Qed.

(** Fuel beyond the length of the text changes nothing. *)
Lemma parse_fuel_irrelevant fuel1 fuel2 fields cron n found :
  (length cron < fuel1)%nat -> (length cron < fuel2)%nat ->
  parse fuel1 fields cron n found = parse fuel2 fields cron n found.
Proof.
  revert fuel2 cron n found.
  induction fuel1 as [|fuel1 IH]; intros fuel2 cron n found H1 H2; [lia|].
  destruct fuel2 as [|fuel2]; [lia|].
  simpl. destruct (parse_once fields cron n found) as [cron' n' found'|o] eqn:E;
    [|reflexivity].
  apply parse_once_advances in E. apply IH; lia.
Qed.

Lemma parse_fuel fuel fields cron n found :
  (length cron < fuel)%nat ->
  parse fuel fields cron n found = run fields cron n found.
Proof. intros H. apply parse_fuel_irrelevant; [exact H|lia]. Qed.

(** The unfolding equation of the loop, free of fuel. *)
Lemma run_unfold fields cron n found :
  run fields cron n found =
  match parse_once fields cron n found with
  | Leave o => Some o
  | GotoParse cron' n' found' => run fields cron' n' found'
  end.
Proof.
  unfold run at 1. simpl.
  destruct (parse_once fields cron n found) as [cron' n' found'|o] eqn:E;
    [|reflexivity].
  apply parse_fuel. apply parse_once_advances in E. lia.
Qed.

(** The matcher always comes to an end. *)
Lemma run_total fields cron n found :
  exists o, run fields cron n found = Some o.
Proof.
  remember (length cron) as k eqn:Hk. revert cron n found Hk.
  induction k as [k IH] using lt_wf_ind. intros cron n found ->.
  rewrite run_unfold.
  destruct (parse_once fields cron n found) as [cron' n' found'|o] eqn:E;
    [|eauto].
  apply parse_once_advances in E. eapply IH; [exact E|reflexivity].
Qed.

Lemma Time_incron_total cron time :
  exists o, Time_incron cron time = Some o.
Proof. apply run_total. Qed.

(** *** Bytes outside the grammar *)

Lemma yych_of_range c : 0 <= yych_of c < 256.
Proof.
  unfold yych_of. pose proof (N_ascii_bounded c) as H. lia.
Qed.

Lemma outside_grammar_dispatch c :
  outside_grammar c = true -> dispatch (yych_of c) = yy10.
Proof.
  unfold outside_grammar, dispatch. pose proof (yych_of_range c) as Hr.
  set (y := yych_of c) in *. intros H.
  repeat (apply andb_prop in H; destruct H as [H ?]).
  repeat match goal with
         | H : negb _ = true |- _ => apply negb_true_iff in H
         end.
  repeat match goal with
         | H : _ && _ = false |- _ => apply andb_false_iff in H
         end.
  repeat match goal with
         | |- context [?a <=? ?b] => destruct (Z.leb_spec a b)
         | |- context [?a =? ?b] => destruct (Z.eqb_spec a b)
         end; try reflexivity; lia.
Qed.

Lemma outside_grammar_not_digit c :
  outside_grammar c = true ->
  (48 <=? yych_of c) && (yych_of c <=? 57) = false.
Proof.
  unfold outside_grammar. intros H.
  repeat (apply andb_prop in H; destruct H as [H ?]).
  now apply negb_true_iff.
Qed.

Lemma outside_grammar_not_minus c :
  outside_grammar c = true -> (yych_of c =? 45) = false.
Proof.
  unfold outside_grammar. intros H.
  repeat (apply andb_prop in H; destruct H as [H ?]).
  now apply negb_true_iff.
Qed.

Lemma yybm_bit y :
  negb (Z.land (yybm y) 128 =? 0) = (48 <=? y) && (y <=? 57).
Proof. unfold yybm. destruct (_ && _); reflexivity. Qed.

Lemma yy13_app pre c suf :
  (48 <=? yych_of c) && (yych_of c <=? 57) = false ->
  yy13 (pre ++ c :: suf) = yy13 pre ++ c :: suf.
Proof.
  intros Hc. induction pre as [|a pre IH]; simpl.
  - rewrite yybm_bit, Hc. reflexivity.
  - rewrite !yybm_bit.
    destruct ((48 <=? yych_of a) && (yych_of a <=? 57)); [exact IH|reflexivity].
Qed.

Lemma yy16_app pre c suf :
  (48 <=? yych_of c) && (yych_of c <=? 57) = false ->
  yy16 (pre ++ c :: suf) = yy16 pre ++ c :: suf.
Proof.
  intros Hc. induction pre as [|a pre IH]; simpl.
  - assert (Hd : yych_of c < 48 \/ 57 < yych_of c).
    { apply andb_false_iff in Hc.
      destruct Hc as [Hc|Hc]; apply Z.leb_gt in Hc; lia. }
    clear Hc.
    destruct (Z.leb_spec (yych_of c) 47); [reflexivity|].
    destruct (Z.leb_spec (yych_of c) 57); [lia|reflexivity].
  - destruct (yych_of a <=? 47); [reflexivity|].
    destruct (yych_of a <=? 57); [exact IH|reflexivity].
Qed.

Lemma parse_digits_app acc pre c suf :
  (48 <=? yych_of c) && (yych_of c <=? 57) = false ->
  parse_digits acc (pre ++ c :: suf) = parse_digits acc pre.
Proof.
  intros Hc. revert acc. induction pre as [|a pre IH]; intros acc; simpl.
  - rewrite Hc. reflexivity.
  - destruct ((48 <=? yych_of a) && (yych_of a <=? 57)); [apply IH|reflexivity].
Qed.

Lemma strchr_minus_app s x t :
  strchr_minus s = Some x -> strchr_minus (s ++ t) = Some (x ++ t).
Proof.
  induction s as [|a s IH]; simpl; [discriminate|].
  destruct (yych_of a =? 45); [|exact IH].
  intros [= <-]. reflexivity.
Qed.

Lemma strchr_minus_yy13 s :
  deref (yy13 s) = 45 -> exists a r, strchr_minus s = Some (a :: r).
Proof.
  induction s as [|a s IH]; simpl; [discriminate|].
  destruct (negb _) eqn:E.
  - intros H. destruct (yych_of a =? 45); eauto.
  - simpl. intros ->. simpl. eauto.
Qed.

(** The same pass, seen from a text that goes on with [c :: suf]. *)
Definition extend (c : ascii) (suf : list ascii) (a : action) : action :=
  match a with
  | GotoParse cron n found => GotoParse (cron ++ c :: suf) n found
  | Leave o => Leave o
  end.

Lemma yy9_app fields token m c suf n found :
  outside_grammar c = true ->
  yy9 fields (token ++ c :: suf) (m ++ c :: suf) n found =
  extend c suf (yy9 fields token m n found).
Proof.
  intros Hc%outside_grammar_not_digit. unfold yy9, Str_parseInt.
  rewrite parse_digits_app by exact Hc.
  destruct (fields_at fields n); reflexivity.
Qed.

Lemma yy18_app fields token m c suf n found :
  outside_grammar c = true ->
  (exists a r, strchr_minus token = Some (a :: r)) ->
  yy18 fields (token ++ c :: suf) (m ++ c :: suf) n found =
  extend c suf (yy18 fields token m n found).
Proof.
  intros Hc%outside_grammar_not_digit (a & r & Hs). unfold yy18, Str_parseInt.
  rewrite (strchr_minus_app _ _ (c :: suf) Hs), Hs. simpl.
  rewrite !parse_digits_app by exact Hc.
  destruct (fields_at fields n); reflexivity.
Qed.

Lemma parse_once_app fields a pre c suf n found :
  outside_grammar c = true ->
  parse_once fields ((a :: pre) ++ c :: suf) n found =
  extend c suf (parse_once fields (a :: pre) n found).
Proof.
  intros Hc.
  pose proof (outside_grammar_not_digit c Hc) as Hd.
  pose proof (outside_grammar_not_minus c Hc) as Hm.
  assert (Hr : yych_of c <= 47 \/ 57 < yych_of c).
  { apply andb_false_iff in Hd.
    destruct Hd as [Hd|Hd]; apply Z.leb_gt in Hd; lia. }
  cbn [parse_once app].
  destruct (dispatch (yych_of a)); try reflexivity.
  - destruct ((n - 1 <? 5) && (0 <=? n - 1)); reflexivity.
  - rewrite yy13_app by exact Hd.
    pose proof (fun m => yy9_app fields (a :: pre) m c suf n found Hc) as H9.
    destruct (yy13 pre) as [|d r] eqn:E13.
    + cbn [app deref tl negb]. rewrite Hm. cbn [negb]. exact (H9 []).
    + cbn [app deref tl].
      destruct (yych_of d =? 45) eqn:Ed; cbn [negb]; [|exact (H9 (d :: r))].
      destruct r as [|e r'].
      * cbn [app deref].
        destruct (Z.leb_spec (yych_of c) 47); [exact (H9 [d])|].
        destruct (Z.leb_spec (yych_of c) 57); [lia|exact (H9 [d])].
      * cbn [app deref tl].
        destruct (yych_of e <=? 47); [exact (H9 (d :: e :: r'))|].
        destruct (yych_of e <=? 57); [|exact (H9 (d :: e :: r'))].
        rewrite yy16_app by exact Hd.
        apply (yy18_app fields (a :: pre)); [exact Hc|].
        cbn [strchr_minus].
        destruct (yych_of a =? 45); [eauto|].
        apply strchr_minus_yy13. rewrite E13. cbn [deref].
        now apply Z.eqb_eq.
Qed.

(** Before the end of the text the only answer a pass can give is "no
    match". *)
Lemma parse_once_nonempty_return fields a pre n found b :
  parse_once fields (a :: pre) n found = Leave (Return b) -> b = false.
Proof.
  cbn [parse_once]. unfold yy9, yy18.
  destruct (dispatch (yych_of a)); try discriminate.
  - destruct ((n - 1 <? 5) && (0 <=? n - 1)); discriminate.
  - destruct (fields_at fields n);
      repeat match goal with
             | |- context [if ?b then _ else _] => destruct b
             end; discriminate.
  - intros [= <-]. reflexivity.
Qed.

(** How a call ends once a byte outside the grammar follows the text. *)
Definition rejecting (r : option outcome) : option outcome :=
  match r with
  | Some (Return _) => Some (Return false)
  | other => other
  end.

Lemma run_foreign_byte fields pre c suf n found :
  outside_grammar c = true ->
  run fields (pre ++ c :: suf) n found = rejecting (run fields pre n found).
Proof.
  intros Hc. remember (length pre) as k eqn:Hk. revert pre n found Hk.
  induction k as [k IH] using lt_wf_ind. intros pre n found ->.
  rewrite (run_unfold fields pre), (run_unfold fields (pre ++ c :: suf)).
  destruct pre as [|a pre].
  - cbn [app parse_once]. rewrite outside_grammar_dispatch by exact Hc.
    reflexivity.
  - rewrite parse_once_app by exact Hc.
    destruct (parse_once fields (a :: pre) n found)
      as [cron' n' found'|o] eqn:E; cbn [extend].
    + apply parse_once_advances in E. eapply IH; [exact E|reflexivity].
    + destruct o as [b| |]; try reflexivity.
      apply parse_once_nonempty_return in E. now subst b.
Qed.

Lemma c_string_app pre c suf :
  forallb (fun a => negb (yych_of a =? 0)) pre = true ->
  outside_grammar c = true ->
  c_string (pre ++ c :: suf) = pre ++ c :: c_string suf.
Proof.
  intros Hpre Hc. induction pre as [|a pre IH]; simpl in *.
  - unfold outside_grammar in Hc.
    repeat (apply andb_prop in Hc; destruct Hc as [Hc ?]).
    apply negb_true_iff in Hc. now rewrite Hc.
  - apply andb_prop in Hpre. destruct Hpre as [Ha Hpre].
    apply negb_true_iff in Ha. rewrite Ha, IH by exact Hpre. reflexivity.
Qed.

Lemma c_string_id s :
  forallb (fun a => negb (yych_of a =? 0)) s = true -> c_string s = s.
Proof.
  induction s as [|a s IH]; simpl; [reflexivity|].
  intros H. apply andb_prop in H. destruct H as [Ha H].
  apply negb_true_iff in Ha. rewrite Ha, IH by exact H. reflexivity.
Qed.

Lemma list_ascii_of_string_app s1 s2 :
  list_ascii_of_string (s1 ++ s2) =
  list_ascii_of_string s1 ++ list_ascii_of_string s2.
Proof. induction s1 as [|a s1 IH]; simpl; [reflexivity|now rewrite IH]. Qed.

(** *** Expressions of the grammar *)

(** The text goes on with neither a digit nor a [-]. *)
Definition boundary (rest : list ascii) : Prop :=
  (48 <=? deref rest) && (deref rest <=? 57) = false /\
  (deref rest =? 45) = false.

Lemma boundary_nil : boundary [].
Proof. split; reflexivity. Qed.

Lemma boundary_comma rest : boundary (","%char :: rest).
Proof. split; reflexivity. Qed.

Lemma boundary_blank rest : boundary (" "%char :: rest).
Proof. split; reflexivity. Qed.

Lemma yy13_digits ds rest :
  forallb is_digit ds = true -> boundary rest -> yy13 (ds ++ rest) = rest.
Proof.
  intros Hds [Hb _]. induction ds as [|d ds IH]; cbn [app].
  - destruct rest as [|c r]; [reflexivity|].
    cbn [yy13 deref] in *. now rewrite yybm_bit, Hb.
  - cbn [forallb] in Hds. apply andb_prop in Hds. destruct Hds as [Hd Hds].
    cbn [yy13]. rewrite yybm_bit. unfold is_digit in Hd. rewrite Hd.
    exact (IH Hds).
Qed.

Lemma yy16_digits ds rest :
  forallb is_digit ds = true -> boundary rest -> yy16 (ds ++ rest) = rest.
Proof.
  intros Hds [Hb _]. induction ds as [|d ds IH]; cbn [app].
  - destruct rest as [|c r]; [reflexivity|].
    cbn [yy16 deref] in *.
    assert (Hc : yych_of c < 48 \/ 57 < yych_of c).
    { apply andb_false_iff in Hb.
      destruct Hb as [Hb|Hb]; apply Z.leb_gt in Hb; lia. }
    clear Hb.
    destruct (Z.leb_spec (yych_of c) 47); [reflexivity|].
    destruct (Z.leb_spec (yych_of c) 57); [lia|reflexivity].
  - cbn [forallb] in Hds. apply andb_prop in Hds. destruct Hds as [Hd Hds].
    cbn [yy16]. unfold is_digit in Hd. apply andb_prop in Hd.
    destruct Hd as [Hd1 Hd2]. apply Z.leb_le in Hd1.
    destruct (Z.leb_spec (yych_of d) 47); [lia|].
    rewrite Hd2. exact (IH Hds).
Qed.

Lemma parse_digits_boundary acc ds rest :
  boundary rest -> parse_digits acc (ds ++ rest) = parse_digits acc ds.
Proof.
  intros [Hb _]. revert acc. induction ds as [|d ds IH]; intros acc; cbn [app].
  - destruct rest as [|c r]; [reflexivity|].
    cbn [parse_digits deref] in *. now rewrite Hb.
  - cbn [parse_digits].
    destruct ((48 <=? yych_of d) && (yych_of d <=? 57)); [apply IH|reflexivity].
Qed.

Lemma strchr_minus_digits ds rest :
  forallb is_digit ds = true ->
  strchr_minus (ds ++ "-"%char :: rest) = Some ("-"%char :: rest).
Proof.
  induction ds as [|d ds IH]; cbn [app forallb]; [reflexivity|].
  intros Hds. apply andb_prop in Hds. destruct Hds as [Hd Hds].
  cbn [strchr_minus]. unfold is_digit in Hd. apply andb_prop in Hd.
  destruct Hd as [Hd1 Hd2]. apply Z.leb_le in Hd1.
  destruct (Z.eqb_spec (yych_of d) 45); [lia|]. exact (IH Hds).
Qed.

Lemma is_digit_dispatch d : is_digit d = true -> dispatch (yych_of d) = yy8.
Proof.
  unfold is_digit, dispatch. intros H. apply andb_prop in H.
  destruct H as [H1 H2]. apply Z.leb_le in H1. apply Z.leb_le in H2.
  repeat match goal with
         | |- context [?a <=? ?b] => destruct (Z.leb_spec a b)
         | |- context [?a =? ?b] => destruct (Z.eqb_spec a b)
         end; try reflexivity; lia.
Qed.

Lemma is_number_inv s :
  is_number s = true ->
  exists d ds, list_ascii_of_string s = d :: ds /\
               is_digit d = true /\ forallb is_digit ds = true.
Proof.
  unfold is_number. destruct (list_ascii_of_string s) as [|d ds];
    [discriminate|].
  cbn [forallb]. intros H. apply andb_prop in H. destruct H. eauto.
Qed.

Lemma fields_at_range fields n v :
  fields_at fields n = Some v -> (n + 1 - 1 <? 5) && (0 <=? n + 1 - 1) = true.
Proof.
  unfold fields_at. replace (n + 1 - 1) with n by lia.
  destruct (0 <=? n); [|discriminate].
  destruct (n <? 5); [reflexivity|discriminate].
Qed.

(** One pass over one element of the grammar. *)
Lemma parse_once_element fields e rest n found v :
  element_wf e = true -> boundary rest -> fields_at fields n = Some v ->
  parse_once fields (render_element e ++ rest) n found =
  GotoParse rest (n + 1) (found + if element_matches v e then 1 else 0).
Proof.
  intros Hwf Hb Hv. destruct e as [|ds|from to]; cbn [render_element].
  - reflexivity.
  - cbn [element_wf] in Hwf. apply is_number_inv in Hwf.
    destruct Hwf as (d & ds' & Hs & Hd & Hds).
    cbn [element_matches]. unfold value. rewrite Hs. cbn [app parse_once].
    rewrite is_digit_dispatch by exact Hd.
    rewrite yy13_digits by assumption.
    destruct Hb as [Hb1 Hb2]. rewrite Hb2. cbn [negb].
    unfold yy9. rewrite Hv. unfold Str_parseInt.
    change (d :: ds' ++ rest) with ((d :: ds') ++ rest).
    rewrite parse_digits_boundary by (split; assumption).
    destruct (v =? _); f_equal; lia.
  - cbn [element_wf] in Hwf. apply andb_prop in Hwf.
    destruct Hwf as [Hf Ht].
    apply is_number_inv in Hf. destruct Hf as (d & ds' & Hs & Hd & Hds).
    apply is_number_inv in Ht. destruct Ht as (e & es' & Hs' & He & Hes).
    cbn [element_matches]. unfold value. rewrite Hs, Hs'.
    rewrite <- app_assoc. cbn [app parse_once].
    rewrite is_digit_dispatch by exact Hd.
    rewrite (yy13_app ds' "-"%char) by reflexivity.
    pose proof (yy13_digits ds' [] Hds boundary_nil) as H13.
    rewrite app_nil_r in H13. rewrite H13.
    cbn [app deref tl]. change (yych_of "-" =? 45) with true. cbn [negb].
    unfold is_digit in He. apply andb_prop in He. destruct He as [He1 He2].
    apply Z.leb_le in He1.
    destruct (Z.leb_spec (yych_of e) 47); [lia|]. rewrite He2.
    rewrite yy16_digits by assumption.
    unfold yy18. rewrite Hv. unfold Str_parseInt.
    change (d :: ds' ++ "-"%char :: e :: es' ++ rest)
      with ((d :: ds') ++ "-"%char :: (e :: es') ++ rest).
    rewrite strchr_minus_digits
      by (cbn [forallb]; rewrite Hd; exact Hds).
    rewrite (parse_digits_app 0 (d :: ds') "-"%char) by reflexivity.
    rewrite parse_digits_boundary by exact Hb.
    rewrite (andb_comm (v <=? _)).
    destruct (_ && _); f_equal; lia.
Qed.

(** The passes over one field: the comma steps the field index back, so
    every element is compared with the same value and every element that
    matches adds one to [found]. *)
Lemma run_field fields f rest n found v :
  field_wf f = true -> rest = [] \/ (exists r, rest = " "%char :: r) ->
  fields_at fields n = Some v ->
  run fields (render_field f ++ rest) n found =
  run fields rest (n + 1) (found + field_hits v f).
Proof.
  intros Hwf Hrest Hv.
  assert (Hb : boundary rest).
  { destruct Hrest as [->|[r ->]]; auto using boundary_nil, boundary_blank. }
  destruct f as [|e f]; [discriminate|]. cbn [field_wf] in Hwf.
  revert e found Hwf. induction f as [|e2 f IH]; intros e found Hwf.
  - cbn [forallb] in Hwf. rewrite andb_true_r in Hwf.
    cbn [render_field field_hits]. rewrite run_unfold.
    rewrite (parse_once_element _ _ _ _ _ v) by assumption.
    now rewrite Z.add_0_r.
  - cbn [forallb] in Hwf. apply andb_prop in Hwf. destruct Hwf as [He Hwf].
    change (render_field (e :: e2 :: f))
      with (render_element e ++ ","%char :: render_field (e2 :: f)).
    rewrite <- app_assoc. cbn [app]. rewrite run_unfold.
    rewrite (parse_once_element _ _ _ _ _ v)
      by auto using boundary_comma.
    rewrite run_unfold. cbn [parse_once].
    change (dispatch (yych_of ",")) with yy6. cbn iota.
    rewrite (fields_at_range fields n v Hv).
    replace (n + 1 - 1) with n by lia.
    rewrite (IH e2 _ Hwf). cbn [field_hits]. f_equal. lia.
Qed.

(** The passes over the remaining fields of an expression. *)
Lemma run_fields fields e :
  forall (n : nat) found,
  e <> [] -> forallb field_wf e = true ->
  (n + length e = 5)%nat -> length fields = 5%nat ->
  run fields (render e) (Z.of_nat n) found =
  Some (Return (found + hits (drop n fields) e =? 5)).
Proof.
  induction e as [|f e IH]; intros n found Hne Hwf Hn Hlen; [congruence|].
  cbn [forallb] in Hwf. apply andb_prop in Hwf. destruct Hwf as [Hf Hwf].
  cbn [length] in Hn.
  destruct (drop n fields) as [|v vs] eqn:Hdrop.
  { apply (f_equal length) in Hdrop. rewrite length_drop in Hdrop.
    cbn [length] in Hdrop. lia. }
  assert (Hlk : fields !! n = Some v).
  { rewrite <- (Nat.add_0_r n), <- lookup_drop, Hdrop. reflexivity. }
  assert (Hv : fields_at fields (Z.of_nat n) = Some v).
  { unfold fields_at.
    destruct (Z.leb_spec 0 (Z.of_nat n)); [|lia].
    destruct (Z.ltb_spec (Z.of_nat n) 5); [|lia].
    cbn [andb]. now rewrite Nat2Z.id. }
  assert (Hvs : drop (S n) fields = vs).
  { pose proof (drop_S _ _ _ Hlk) as HS. rewrite Hdrop in HS. congruence. }
  destruct e as [|f2 e].
  - cbn [render]. rewrite <- (app_nil_r (render_field f)).
    rewrite (run_field _ _ _ _ _ v) by auto.
    rewrite run_unfold. cbn [parse_once hits].
    replace (hits vs []) with 0 by (destruct vs; reflexivity).
    now rewrite Z.add_0_r.
  - change (render (f :: f2 :: e))
      with (render_field f ++ " "%char :: render (f2 :: e)).
    rewrite (run_field _ _ _ _ _ v) by eauto.
    rewrite run_unfold. cbn [parse_once].
    change (dispatch (yych_of " ")) with yy2. cbn iota.
    replace (Z.of_nat n + 1) with (Z.of_nat (S n)) by lia.
    rewrite IH; [|discriminate|exact Hwf|cbn [length] in *; lia|exact Hlen].
    rewrite Hvs. cbn [hits]. now rewrite Z.add_assoc.
Qed.

Lemma render_element_no_nul e :
  element_wf e = true ->
  forallb (fun a => negb (yych_of a =? 0)) (render_element e) = true.
Proof.
  assert (Hdig : forall ds, forallb is_digit ds = true ->
            forallb (fun a => negb (yych_of a =? 0)) ds = true).
  { intros ds H. apply forallb_forall. intros a Ha.
    rewrite forallb_forall in H. specialize (H a Ha).
    unfold is_digit in H. apply andb_prop in H. destruct H as [H _].
    apply Z.leb_le in H. destruct (Z.eqb_spec (yych_of a) 0); [lia|reflexivity]. }
  assert (Hnum : forall s, is_number s = true ->
            forallb (fun a => negb (yych_of a =? 0)) (list_ascii_of_string s)
            = true).
  { intros s (d & ds & -> & Hd & Hds)%is_number_inv. apply Hdig.
    cbn [forallb]. now rewrite Hd. }
  destruct e as [|ds|from to]; cbn [element_wf render_element]; intros H.
  - reflexivity.
  - auto.
  - apply andb_prop in H. destruct H as [H1 H2].
    rewrite forallb_app. cbn [forallb]. rewrite !Hnum by assumption.
    reflexivity.
Qed.

Lemma render_field_no_nul f :
  forallb element_wf f = true ->
  forallb (fun a => negb (yych_of a =? 0)) (render_field f) = true.
Proof.
  induction f as [|e f IH]; [reflexivity|]. cbn [forallb]. intros H.
  apply andb_prop in H. destruct H as [He Hf].
  destruct f as [|e2 f]; [now apply render_element_no_nul|].
  change (render_field (e :: e2 :: f))
    with (render_element e ++ ","%char :: render_field (e2 :: f)).
  rewrite forallb_app. cbn [forallb].
  rewrite render_element_no_nul, IH by assumption. reflexivity.
Qed.

Lemma render_no_nul e :
  forallb field_wf e = true ->
  forallb (fun a => negb (yych_of a =? 0)) (render e) = true.
Proof.
  assert (Hfield : forall f, field_wf f = true ->
            forallb (fun a => negb (yych_of a =? 0)) (render_field f) = true).
  { intros [|x f] H; [discriminate|]. now apply render_field_no_nul. }
  induction e as [|f e IH]; [reflexivity|]. cbn [forallb]. intros H.
  apply andb_prop in H. destruct H as [Hf He].
  destruct e as [|f2 e]; [now apply Hfield|].
  change (render (f :: f2 :: e))
    with (render_field f ++ " "%char :: render (f2 :: e)).
  rewrite forallb_app. cbn [forallb].
  rewrite Hfield, IH by assumption. reflexivity.
Qed.

(** What [Time_incron] computes on an expression of the grammar: it answers
    "match" exactly when the matching elements, counted over all the
    fields, are five. *)
Lemma incron_counts_elements (e : list field) (time : Z) :
  expression_wf e = true ->
  Time_incron (string_of_list_ascii (render e)) time =
  Some (Return (hits (fields_of time) e =? 5)).
Proof.
  unfold expression_wf, Time_incron. intros H. apply andb_prop in H.
  destruct H as [Hlen Hwf]. apply Nat.eqb_eq in Hlen.
  rewrite list_ascii_of_string_of_list_ascii.
  rewrite c_string_id by now apply render_no_nul.
  fold (run (fields_of time) (render e) 0 0).
  change 0 with (Z.of_nat 0) at 1.
  rewrite run_fields; [reflexivity| |exact Hwf|lia|reflexivity].
  intros ->. discriminate.
Qed.

End WithLocaltime.

(** A [localtime_r] that yields one fixed decomposition, for examples:
    [clock mi h d mo w] reads minute [mi], hour [h], day [d], month [mo]
    (1 to 12) and weekday [w]. *)
Definition clock (mi h d mo w : Z) : Z -> tm :=
  fun _ => mk_tm 0 mi h d (mo - 1) 115 w.

(** C1.  The design document asks for a match exactly when all five fields
    match, a list matching when any of its elements does.  The code adds
    one to [found] for every matching element and compares the sum with 5,
    so a list with two matching elements counts twice.  At minute 15 the
    expression [0-30,15 * * * *] has all five fields matching and is
    answered "no match"; at 08:05 the expression [5,5 7 * * *] has an hour
    field that does not match and is answered "match". *)
Theorem incron_counts_list_elements_twice :
  let e1 := [[Range "0" "30"; Number "15"];
             [Wildcard]; [Wildcard]; [Wildcard]; [Wildcard]] in
  let e2 := [[Number "5"; Number "5"]; [Number "7"];
             [Wildcard]; [Wildcard]; [Wildcard]] in
  (expression_wf e1 = true /\
   string_of_list_ascii (render e1) = "0-30,15 * * * *"%string /\
   spec_matches (fields_of (clock 15 4 1 1 1) 0) e1 = true /\
   Time_incron (clock 15 4 1 1 1) "0-30,15 * * * *" 0 = Some (Return false))
  /\
  (expression_wf e2 = true /\
   string_of_list_ascii (render e2) = "5,5 7 * * *"%string /\
   spec_matches (fields_of (clock 5 8 1 1 1) 0) e2 = false /\
   Time_incron (clock 5 8 1 1 1) "5,5 7 * * *" 0 = Some (Return true)).
Proof. cbv zeta. repeat split; vm_compute; reflexivity. Qed.

(** C8 (as amended).  When a cron expression holds a byte outside the
    grammar, [Time_incron] never reports a match: the call ends the way it
    would on the text before that byte, except that where that text alone
    would have been answered (match or no match) the answer is now "no
    match".  A failure of the field-index assertion on that text, or a read
    past the fifth field, still ends the call. *)
Theorem incron_rejects_foreign_byte
  (localtime_r : Z -> tm) (pre : string) (c : ascii) (suf : string)
  (time : Z) :
  outside_grammar c = true ->
  is_c_string pre = true ->
  Time_incron localtime_r (pre ++ String c suf) time =
  rejecting (Time_incron localtime_r pre time).
Proof.
  intros Hc Hpre. unfold Time_incron, is_c_string in *.
  rewrite list_ascii_of_string_app. cbn [list_ascii_of_string].
  rewrite c_string_app by assumption.
  rewrite (c_string_id (list_ascii_of_string pre)) by assumption.
  apply run_foreign_byte. exact Hc.
Qed.

Lemma incron_rejects_foreign_byte_witness :
  Time_incron (clock 5 4 1 1 1) "0-15,45 */1 * * 1-5" 0 = Some (Return false).
Proof.
  exact (incron_rejects_foreign_byte (clock 5 4 1 1 1) "0-15,45 *" "/"
           "1 * * 1-5" 0 eq_refl eq_refl).
Defined.

(** C8, as stated, fails: a comma with no field before it makes the
    assertion [n < 5 && n >= 0] fail before the [/] is reached. *)
Lemma incron_foreign_byte_assert_fails :
  existsb outside_grammar (list_ascii_of_string ",/") = true /\
  Time_incron (clock 5 4 1 1 1) ",/" 0 = Some AssertFailed /\
  Time_incron (clock 5 4 1 1 1) ",/" 0 <> Some (Return false).
Proof.
  split; [reflexivity|]. split; [vm_compute; reflexivity|].
  vm_compute. discriminate.
Qed.

(** *** When the count of elements is the count of fields *)

(** No field holds two elements that match its value. *)
Fixpoint unambiguous (vs : list Z) (e : list field) : bool :=
  match vs, e with
  | v :: vs, f :: e => (field_hits v f <=? 1) && unambiguous vs e
  | _, _ => true
  end.

Lemma field_hits_matches v f :
  0 <= field_hits v f /\ field_matches v f = (0 <? field_hits v f).
Proof.
  induction f as [|x f [IH1 IH2]]; [split; [cbn; lia|reflexivity]|].
  cbn [field_hits field_matches existsb]. fold (field_matches v f).
  rewrite IH2. destruct (element_matches v x); cbn [orb]; split; try lia;
    try reflexivity.
Qed.

Lemma hits_all_fields vs e :
  length vs = length e -> unambiguous vs e = true ->
  0 <= hits vs e <= Z.of_nat (length e) /\
  spec_matches vs e = (hits vs e =? Z.of_nat (length e)).
Proof.
  revert e. induction vs as [|v vs IH]; intros [|f e] Hlen Hu;
    try discriminate; [split; [cbn; lia|reflexivity]|].
  cbn [unambiguous] in Hu. apply andb_prop in Hu. destruct Hu as [H1 Hu].
  apply Z.leb_le in H1. injection Hlen as Hlen.
  destruct (IH e Hlen Hu) as [Hr Hs].
  destruct (field_hits_matches v f) as [H0 Hm].
  cbn [hits spec_matches length]. rewrite Hm, Hs, Nat2Z.inj_succ.
  split; [lia|].
  destruct (Z.ltb_spec 0 (field_hits v f)), (Z.eqb_spec (hits vs e) (Z.of_nat (length e)));
    cbn [andb]; symmetry; try (apply Z.eqb_eq; lia); apply Z.eqb_neq; lia.
Qed.

(** X1.  On an expression of the grammar in which no field holds two
    elements that match (one element per field, for one), [Time_incron]
    answers "match" exactly when all five fields match. *)
Theorem incron_matches_all_fields (localtime_r : Z -> tm) (e : list field)
  (time : Z) :
  expression_wf e = true ->
  unambiguous (fields_of localtime_r time) e = true ->
  Time_incron localtime_r (string_of_list_ascii (render e)) time =
  Some (Return (spec_matches (fields_of localtime_r time) e)).
Proof.
  intros Hwf Hu. rewrite incron_counts_elements by exact Hwf.
  unfold expression_wf in Hwf. apply andb_prop in Hwf.
  destruct Hwf as [Hlen _]. apply Nat.eqb_eq in Hlen.
  destruct (hits_all_fields (fields_of localtime_r time) e) as [_ Hs];
    [now rewrite Hlen|exact Hu|].
  rewrite Hs, Hlen. reflexivity.
Qed.

Lemma incron_matches_all_fields_witness :
  Time_incron (clock 15 4 1 1 1) "0-30 4 * * 1,5" 0 = Some (Return true).
Proof.
  exact (incron_matches_all_fields (clock 15 4 1 1 1)
           [[Range "0" "30"]; [Number "4"]; [Wildcard]; [Wildcard];
            [Number "1"; Number "5"]] 0 eq_refl eq_refl).
Defined.

(** *** A sixth field *)

Lemma render_cons f f2 e :
  render (f :: f2 :: e) = render_field f ++ " "%char :: render (f2 :: e).
Proof. reflexivity. Qed.

Lemma render_app e1 e2 :
  e1 <> [] -> e2 <> [] -> render (e1 ++ e2) = render e1 ++ " "%char :: render e2.
Proof.
  intros H1 H2. induction e1 as [|f e1 IH]; [congruence|].
  destruct e1 as [|f2 e1].
  - destruct e2 as [|g e2]; [congruence|]. reflexivity.
  - change ((f :: f2 :: e1) ++ e2) with (f :: f2 :: (e1 ++ e2)).
    rewrite !render_cons. change (f2 :: e1 ++ e2) with ((f2 :: e1) ++ e2).
    rewrite IH by discriminate. now rewrite <- app_assoc.
Qed.

(** The passes over the first fields of a longer text. *)
Lemma run_fields_more (localtime_r : Z -> tm) fields e r :
  forall (n : nat) found,
  e <> [] -> forallb field_wf e = true ->
  (n + length e <= 5)%nat -> length fields = 5%nat ->
  run fields (render e ++ " "%char :: r) (Z.of_nat n) found =
  run fields r (Z.of_nat (n + length e)) (found + hits (drop n fields) e).
Proof.
  induction e as [|f e IH]; intros n found Hne Hwf Hn Hlen; [congruence|].
  cbn [forallb] in Hwf. apply andb_prop in Hwf. destruct Hwf as [Hf Hwf].
  cbn [length] in Hn.
  destruct (drop n fields) as [|v vs] eqn:Hdrop.
  { apply (f_equal length) in Hdrop. rewrite length_drop in Hdrop.
    cbn [length] in Hdrop. lia. }
  assert (Hlk : fields !! n = Some v).
  { rewrite <- (Nat.add_0_r n), <- lookup_drop, Hdrop. reflexivity. }
  assert (Hv : fields_at fields (Z.of_nat n) = Some v).
  { unfold fields_at.
    destruct (Z.leb_spec 0 (Z.of_nat n)); [|lia].
    destruct (Z.ltb_spec (Z.of_nat n) 5); [|lia].
    cbn [andb]. now rewrite Nat2Z.id. }
  assert (Hvs : drop (S n) fields = vs).
  { pose proof (drop_S _ _ _ Hlk) as HS. rewrite Hdrop in HS. congruence. }
  assert (Hblank : forall t k h,
            run fields (" "%char :: t) k h = run fields t k h).
  { intros t k h. rewrite run_unfold. reflexivity. }
  destruct e as [|f2 e].
  - cbn [render length hits].
    rewrite (run_field _ _ _ _ _ v) by eauto.
    rewrite Hblank. replace (hits vs []) with 0 by (destruct vs; reflexivity).
    f_equal; lia.
  - rewrite render_cons, <- app_assoc. cbn [app].
    rewrite (run_field _ _ _ _ _ v) by eauto.
    rewrite Hblank.
    replace (Z.of_nat n + 1) with (Z.of_nat (S n)) by lia.
    rewrite IH; [|discriminate|exact Hwf|cbn [length] in *; lia|exact Hlen].
    rewrite Hvs. cbn [hits length]. f_equal; [f_equal; lia|lia].
Qed.

(** One pass over a number or a range when the field index has left the
    array. *)
Lemma parse_once_element_outside fields x rest n found :
  element_wf x = true -> x <> Wildcard -> boundary rest ->
  fields_at fields n = None ->
  parse_once fields (render_element x ++ rest) n found = Leave OutOfBounds.
Proof.
  intros Hwf Hx Hb Hv. destruct x as [|ds|from to]; cbn [render_element];
    [congruence| |].
  - cbn [element_wf] in Hwf. apply is_number_inv in Hwf.
    destruct Hwf as (d & ds' & Hs & Hd & Hds).
    rewrite Hs. cbn [app parse_once].
    rewrite is_digit_dispatch by exact Hd.
    rewrite yy13_digits by assumption.
    destruct Hb as [Hb1 Hb2]. rewrite Hb2. cbn [negb].
    unfold yy9. now rewrite Hv.
  - cbn [element_wf] in Hwf. apply andb_prop in Hwf.
    destruct Hwf as [Hf Ht].
    apply is_number_inv in Hf. destruct Hf as (d & ds' & Hs & Hd & Hds).
    apply is_number_inv in Ht. destruct Ht as (e & es' & Hs' & He & Hes).
    rewrite Hs, Hs'. rewrite <- app_assoc. cbn [app parse_once].
    rewrite is_digit_dispatch by exact Hd.
    rewrite (yy13_app ds' "-"%char) by reflexivity.
    pose proof (yy13_digits ds' [] Hds boundary_nil) as H13.
    rewrite app_nil_r in H13. rewrite H13.
    cbn [app deref tl]. change (yych_of "-" =? 45) with true. cbn [negb].
    unfold is_digit in He. apply andb_prop in He. destruct He as [He1 He2].
    apply Z.leb_le in He1.
    destruct (Z.leb_spec (yych_of e) 47); [lia|]. rewrite He2.
    unfold yy18. now rewrite Hv.
Qed.

Lemma render_head x f more :
  exists rest, render ((x :: f) :: more) = render_element x ++ rest /\
               boundary rest.
Proof.
  assert (Hf : exists r1, render_field (x :: f) = render_element x ++ r1 /\
                          (r1 = [] \/ exists t, r1 = ","%char :: t)).
  { destruct f as [|y f].
    - exists []. cbn [render_field]. rewrite app_nil_r. auto.
    - eexists. split; [reflexivity|]. eauto. }
  destruct Hf as (r1 & Hr1 & Hcase). destruct more as [|g more].
  - exists r1. cbn [render]. split; [exact Hr1|].
    destruct Hcase as [->|[t ->]]; auto using boundary_nil, boundary_comma.
  - exists (r1 ++ " "%char :: render (g :: more)).
    rewrite render_cons, Hr1, <- app_assoc. split; [reflexivity|].
    destruct Hcase as [->|[t ->]]; cbn [app];
      auto using boundary_blank, boundary_comma.
Qed.

(** X2.  After five fields of the grammar, a further field that starts
    with a number or a range makes [Time_incron] read [fields[5]], outside
    the five-element array. *)
Theorem incron_sixth_field_out_of_bounds (localtime_r : Z -> tm)
  (e : list field) (x : element) (f : field) (more : list field) (time : Z) :
  expression_wf e = true ->
  element_wf x = true -> x <> Wildcard ->
  forallb element_wf f = true -> forallb field_wf more = true ->
  Time_incron localtime_r
    (string_of_list_ascii (render (e ++ (x :: f) :: more))) time =
  Some OutOfBounds.
Proof.
  intros Hwf Hx Hnw Hf Hmore. unfold expression_wf in Hwf.
  apply andb_prop in Hwf. destruct Hwf as [Hlen Hwf].
  apply Nat.eqb_eq in Hlen.
  assert (Hne : e <> []) by (intros ->; discriminate).
  unfold Time_incron. rewrite list_ascii_of_string_of_list_ascii.
  rewrite c_string_id.
  2:{ apply render_no_nul. rewrite forallb_app, Hwf. cbn [forallb field_wf].
      now rewrite Hx, Hf, Hmore. }
  fold (run (fields_of localtime_r time) (render (e ++ (x :: f) :: more)) 0 0).
  rewrite render_app by (auto; discriminate).
  change 0 with (Z.of_nat 0) at 1.
  rewrite (run_fields_more localtime_r); [|exact Hne|exact Hwf|lia|reflexivity].
  destruct (render_head x f more) as (rest & -> & Hb).
  rewrite run_unfold, parse_once_element_outside; auto.
  unfold fields_at. rewrite Hlen. reflexivity.
Qed.

Lemma incron_sixth_field_out_of_bounds_witness :
  Time_incron (clock 15 4 1 1 1) "* * * * * 7" 0 = Some OutOfBounds.
Proof.
  exact (incron_sixth_field_out_of_bounds (clock 15 4 1 1 1)
           [[Wildcard]; [Wildcard]; [Wildcard]; [Wildcard]; [Wildcard]]
           (Number "7") [] [] 0 eq_refl eq_refl
           ltac:(discriminate) eq_refl eq_refl).
Defined.

End Cron.

(** ** Part A, continued -- Time.c: the date stamp *)

Module Clock.

Import Cron.

(** A computation in C stays defined or it does not: an access outside its
    object and an overflow of [int] arithmetic are undefined behaviour. *)
Inductive defined (A : Type) :=
| Done (a : A)
| Undefined.
Arguments Done {A} a.
Arguments Undefined {A}.

Definition and_then {A B} (m : defined A) (k : A -> defined B) : defined B :=
  match m with
  | Done a => k a
  | Undefined => Undefined
  end.

(** The result of an operation on [int]. *)
Definition int (z : Z) : defined Z :=
  if (- 2 ^ 31 <=? z) && (z <? 2 ^ 31) then Done z else Undefined.

(** The conversion of an [int] to [char], as the byte it leaves. *)
Definition char_of_int (z : Z) : ascii := ascii_of_N (Z.to_N (z mod 256)).

Definition NUL : ascii := zero.

(** [static const char days[]] and [months[]], with the NUL that ends
    them. *)
Definition days : list ascii :=
  list_ascii_of_string "SunMonTueWedThuFriSat" ++ [NUL].

Definition months : list ascii :=
  list_ascii_of_string "JanFebMarAprMayJunJulAugSepOctNovDec" ++ [NUL].

(** The literal the result is first filled with: 25 characters and the
    NUL written in the literal (the NUL that ends the literal is not
    copied). *)
Definition template : list ascii :=
  list_ascii_of_string "aaa, xx aaa xxxx xx:xx:xx" ++ [NUL].

(** Reading [n] bytes at [src + from], and writing bytes at [dst + off]. *)
Definition fetch (src : list ascii) (from : Z) (n : nat)
  : defined (list ascii) :=
  if (0 <=? from) && (from + Z.of_nat n <=? Z.of_nat (length src))
  then Done (take n (drop (Z.to_nat from) src))
  else Undefined.

Definition store (dst : list ascii) (off : nat) (bytes : list ascii)
  : defined (list ascii) :=
  if (off + length bytes <=? length dst)%nat
  then Done (take off dst ++ bytes ++ drop (off + length bytes) dst)
  else Undefined.

(** [memcpy(dst + off, src + from, n)]. *)
Definition memcpy (dst : list ascii) (off : nat) (src : list ascii) (from : Z)
  (n : nat) : defined (list ascii) :=
  and_then (fetch src from n) (store dst off).

(** The macro [i2a]: [x[0] = (i/10) + '0'], [x[1] = (i%10) + '0'], the
    division of C rounding towards zero. *)
Definition i2a (i : Z) : ascii * ascii :=
  (char_of_int (Z.quot i 10 + 48), char_of_int (Z.rem i 10 + 48)).

(** [result[at] = x[0]; result[at + 1] = x[1]] after [i2a(i)]. *)
Definition put_i2a (result : list ascii) (at_ : nat) (i : Z)
  : defined (list ascii) :=
  let x := i2a i in
  and_then (store result at_ [fst x]) (fun result =>
  store result (S at_) [snd x]).

Section WithLocaltime.

Variable localtime_r : Z -> tm.

(** [Time_string]: the pointer [result] is NULL (none) or points to the
    bytes of the caller's buffer; the function returns the pointer. *)
Definition Time_string (time : Z) (result : option (list ascii))
  : defined (option (list ascii)) :=
  match result with
  | None => Done None
  | Some result =>
      let ts := localtime_r time in
      and_then (memcpy result 0 template 0 26) (fun result =>
      and_then (int (3 * tm_wday ts)) (fun from =>
      and_then (memcpy result 0 days from 3) (fun result =>
      and_then (put_i2a result 5 (tm_mday ts)) (fun result =>
      and_then (int (3 * tm_mon ts)) (fun from =>
      and_then (memcpy result 8 months from 3) (fun result =>
      and_then (int (tm_year ts + 1900)) (fun year =>
      and_then (put_i2a result 12 (Z.quot year 100)) (fun result =>
      and_then (put_i2a result 14 (Z.rem year 100)) (fun result =>
      and_then (put_i2a result 17 (tm_hour ts)) (fun result =>
      and_then (put_i2a result 20 (tm_min ts)) (fun result =>
      and_then (put_i2a result 23 (tm_sec ts)) (fun result =>
      Done (Some result)))))))))))))
  end.

End WithLocaltime.

(** The literal of [Time_gmtstring]: 29 characters and the NUL written in
    the literal. *)
Definition gmt_template : list ascii :=
  list_ascii_of_string "aaa, xx aaa xxxx xx:xx:xx GMT" ++ [NUL].

Section WithGmtime.

(** [gmtime_r] of the C library. *)
Variable gmtime_r : Z -> tm.

Definition Time_gmtstring (time : Z) (result : option (list ascii))
  : defined (option (list ascii)) :=
  match result with
  | None => Done None
  | Some result =>
      let ts := gmtime_r time in
      and_then (memcpy result 0 gmt_template 0 30) (fun result =>
      and_then (int (3 * tm_wday ts)) (fun from =>
      and_then (memcpy result 0 days from 3) (fun result =>
      and_then (put_i2a result 5 (tm_mday ts)) (fun result =>
      and_then (int (3 * tm_mon ts)) (fun from =>
      and_then (memcpy result 8 months from 3) (fun result =>
      and_then (int (tm_year ts + 1900)) (fun year =>
      and_then (put_i2a result 12 (Z.quot year 100)) (fun result =>
      and_then (put_i2a result 14 (Z.rem year 100)) (fun result =>
      and_then (put_i2a result 17 (tm_hour ts)) (fun result =>
      and_then (put_i2a result 20 (tm_min ts)) (fun result =>
      and_then (put_i2a result 23 (tm_sec ts)) (fun result =>
      Done (Some result)))))))))))))
  end.

End WithGmtime.

(** *** Reading a date stamp *)

Definition digit (c : ascii) : option Z :=
  if is_digit c then Some (yych_of c - 48) else None.

(** The number a run of decimal digits stands for. *)
Fixpoint number (acc : Z) (cs : list ascii) : option Z :=
  match cs with
  | [] => Some acc
  | c :: cs =>
      match digit c with
      | Some d => number (10 * acc + d) cs
      | None => None
      end
  end.

Definition same (a b : list ascii) : bool :=
  if List.list_eq_dec ascii_dec a b then true else false.

(** The position of a three-letter name in a table of [count] names. *)
Fixpoint name_index (table : list ascii) (count : nat) (n : list ascii)
  : option Z :=
  match count with
  | O => None
  | S count =>
      if same (take 3 table) n then Some 0
      else match name_index (drop 3 table) count n with
           | Some i => Some (i + 1)
           | None => None
           end
  end.

(** The time a stamp of the form [Www, dd Mmm yyyy hh:mm:ss] shows. *)
Definition read_date (text : list ascii) : option tm :=
  match text with
  | [w1; w2; w3; p1; p2; d1; d2; p3; m1; m2; m3; p4; y1; y2; y3; y4; p5;
     h1; h2; p6; i1; i2; p7; s1; s2] =>
      if same [p1; p2; p3; p4; p5; p6; p7]
              (list_ascii_of_string ",    ::")
      then
        match name_index days 7 [w1; w2; w3], number 0 [d1; d2],
              name_index months 12 [m1; m2; m3], number 0 [y1; y2; y3; y4],
              number 0 [h1; h2], number 0 [i1; i2], number 0 [s1; s2] with
        | Some wday, Some mday, Some mon, Some year, Some hour, Some min,
          Some sec =>
            Some (mk_tm sec min hour mday mon (year - 1900) wday)
        | _, _, _, _, _, _, _ => None
        end
      else None
  | _ => None
  end.

(** *** The uptime *)

(** The decimal digits of a number that is not negative, most significant
    first, in front of [acc]. *)
Fixpoint decimal (fuel : nat) (n : Z) (acc : list ascii) : list ascii :=
  match fuel with
  | O => acc
  | S fuel =>
      let acc := char_of_int (n mod 10 + 48) :: acc in
      if n <? 10 then acc else decimal fuel (n / 10) acc
  end.

(** The conversion [%lld] of the C library: a [long long] has at most 19
    digits. *)
Definition lld (n : Z) : list ascii :=
  if n <? 0 then "-"%char :: decimal 19 (- n) [] else decimal 19 n [].

(** [snprintf(dst + off, size, ...)] of the C library, for the formatted
    output [text]: [size] is converted to [size_t] (64 bits); unless it is
    zero, at most [size - 1] characters of [text] and a NUL are written;
    the call returns the length of [text], an [int]. *)
Definition snprintf (dst : list ascii) (off size : Z) (text : list ascii)
  : defined (list ascii * Z) :=
  let size := size mod 2 ^ 64 in
  and_then (int (Z.of_nat (length text))) (fun n =>
  if size =? 0 then Done (dst, n)
  else if off <? 0 then Undefined
  else
    and_then (store dst (Z.to_nat off)
                (take (Z.to_nat (size - 1)) text ++ [NUL])) (fun dst =>
    Done (dst, n))).

(** [n ? ", " : ""]. *)
Definition separator (n : Z) : list ascii :=
  if n =? 0 then [] else list_ascii_of_string ", ".

(** [Time_uptime]: [sec] is a [time_t], [n] an [int]; the pointer
    [result] is NULL or points to the bytes of the caller's buffer. *)
Definition Time_uptime (sec : Z) (result : option (list ascii))
  : defined (option (list ascii)) :=
  match result with
  | None => Done None
  | Some result =>
      and_then (store result 0 [NUL]) (fun result =>
      if 0 <? sec then
        let r := Z.quot sec 86400 in
        and_then
          (if 0 <? r then
             and_then (snprintf result 0 24 (lld r ++ ["d"%char]))
               (fun '(result, n) => Done (result, n, sec - r * 86400))
           else Done (result, 0, sec))
          (fun '(result, n, sec) =>
        let r := Z.quot sec 3600 in
        and_then
          (if 0 <? r then
             and_then (snprintf result n (24 - n)
                         (separator n ++ lld r ++ ["h"%char]))
               (fun '(result, k) =>
                  and_then (int (n + k)) (fun n =>
                  Done (result, n, sec - r * 3600)))
           else Done (result, n, sec))
          (fun '(result, n, sec) =>
        let r := Z.quot sec 60 in
        and_then (snprintf result n (24 - n)
                    (separator n ++ lld r ++ ["m"%char]))
          (fun '(result, _) => Done (Some result))))
      else Done (Some result))
  end.

(** The number a text begins with, and the text after it. *)
Fixpoint read_number (acc : Z) (cs : list ascii) : Z * list ascii :=
  match cs with
  | [] => (acc, [])
  | c :: rest =>
      match digit c with
      | Some d => read_number (10 * acc + d) rest
      | None => (acc, cs)
      end
  end.

(** A number of at least one digit. *)
Definition read_count (text : list ascii) : option (Z * list ascii) :=
  match text with
  | [] => None
  | c :: _ => if is_digit c then Some (read_number 0 text) else None
  end.

(** The days, hours and minutes an uptime of the form [Dd, Hh, Mm] shows;
    the days, or the days and the hours, may be missing. *)
Definition read_uptime (text : list ascii) : option (Z * Z * Z) :=
  let minutes (d h : Z) (text : list ascii) :=
    match read_count text with
    | Some (m, ["m"%char]) => Some (d, h, m)
    | _ => None
    end in
  let hours (d : Z) (text : list ascii) :=
    match read_count text with
    | Some (h, "h"%char :: ","%char :: " "%char :: text) => minutes d h text
    | Some (m, ["m"%char]) => Some (d, 0, m)
    | _ => None
    end in
  match read_count text with
  | Some (d, "d"%char :: ","%char :: " "%char :: text) => hours d text
  | Some (h, "h"%char :: ","%char :: " "%char :: text) => minutes 0 h text
  | Some (m, ["m"%char]) => Some (0, 0, m)
  | _ => None
  end.

Lemma int_in_range z : - 2 ^ 31 <= z < 2 ^ 31 -> int z = Done z.
Proof.
  intros [H1 H2]. unfold int.
  destruct (Z.leb_spec (- 2 ^ 31) z); [|lia].
  destruct (Z.ltb_spec z (2 ^ 31)); [reflexivity|lia].
Qed.

Lemma digit_char q : 0 <= q <= 9 -> digit (char_of_int (q + 48)) = Some q.
Proof.
  intros Hq. unfold digit, is_digit, char_of_int, yych_of.
  rewrite Z.mod_small by lia.
  rewrite N_ascii_embedding by lia.
  rewrite Z2N.id by lia.
  destruct (Z.leb_spec 48 (q + 48)); [|lia].
  destruct (Z.leb_spec (q + 48) 57); [|lia].
  cbn [andb]. f_equal. lia.
Qed.

Lemma i2a_number acc i :
  0 <= i <= 99 ->
  forall rest,
    number acc (fst (i2a i) :: snd (i2a i) :: rest) =
    number (100 * acc + i) rest.
Proof.
  intros Hi rest. unfold i2a. cbn [fst snd number].
  rewrite Z.quot_div_nonneg, Z.rem_mod_nonneg by lia.
  pose proof (Z.div_mod i 10 ltac:(lia)) as Hdm.
  pose proof (Z.mod_pos_bound i 10 ltac:(lia)) as Hm.
  assert (Hd : 0 <= i / 10 <= 9) by lia.
  rewrite !digit_char by lia. f_equal. lia.
Qed.

Lemma fetch_day w :
  0 <= w <= 6 ->
  exists a b c, fetch days (3 * w) 3 = Done [a; b; c] /\
                name_index days 7 [a; b; c] = Some w.
Proof.
  intros Hw.
  assert (H : w = 0 \/ w = 1 \/ w = 2 \/ w = 3 \/ w = 4 \/ w = 5 \/ w = 6)
    by lia.
  repeat (destruct H as [->|H]); [..|subst w];
    (eexists _, _, _; split; [vm_compute; reflexivity|vm_compute; reflexivity]).
Qed.

Lemma fetch_month m :
  0 <= m <= 11 ->
  exists a b c, fetch months (3 * m) 3 = Done [a; b; c] /\
                name_index months 12 [a; b; c] = Some m.
Proof.
  intros Hm.
  assert (H : m = 0 \/ m = 1 \/ m = 2 \/ m = 3 \/ m = 4 \/ m = 5 \/ m = 6 \/
              m = 7 \/ m = 8 \/ m = 9 \/ m = 10 \/ m = 11) by lia.
  repeat (destruct H as [->|H]); [..|subst m];
    (eexists _, _, _; split; [vm_compute; reflexivity|vm_compute; reflexivity]).
Qed.

Lemma store_template buf :
  (26 <= length buf)%nat ->
  store buf 0 template = Done (template ++ drop 26 buf).
Proof.
  intros H. unfold store. change (0 + length template)%nat with 26%nat.
  destruct (Nat.leb_spec 26 (length buf)); [|lia]. reflexivity.
Qed.

(** X13.  For a broken-down time in the ranges [localtime_r] yields (and
    any year from 0 to 9999) and a buffer of at least 26 bytes,
    [Time_string] stays inside the buffer and the two tables, writes 25
    characters and a NUL and leaves the rest of the buffer alone; the
    characters are a stamp [Www, dd Mmm yyyy hh:mm:ss] that reads back as
    the weekday, day, month, year, hour, minute and second it was made
    from. *)
Theorem Time_string_reads_back (localtime_r : Z -> tm) (time : Z)
  (buf : list ascii) :
  let ts := localtime_r time in
  0 <= tm_wday ts <= 6 -> 0 <= tm_mon ts <= 11 ->
  0 <= tm_mday ts <= 99 -> 0 <= tm_year ts + 1900 <= 9999 ->
  0 <= tm_hour ts <= 99 -> 0 <= tm_min ts <= 99 -> 0 <= tm_sec ts <= 99 ->
  (26 <= length buf)%nat ->
  exists text,
    Time_string localtime_r time (Some buf) =
      Done (Some (text ++ NUL :: drop 26 buf)) /\
    length text = 25%nat /\
    read_date text = Some ts.
Proof.
  cbv zeta.
  destruct (localtime_r time) as [sec min hour mday mon year wday] eqn:Hts.
  cbn [tm_sec tm_min tm_hour tm_mday tm_mon tm_year tm_wday].
  intros Hwday Hmon Hmday Hyear Hhour Hmin Hsec Hbuf.
  unfold Time_string. rewrite Hts.
  cbn [tm_sec tm_min tm_hour tm_mday tm_mon tm_year tm_wday].
  unfold memcpy at 1.
  change (fetch template 0 26) with (Done template).
  cbn [and_then]. rewrite store_template by exact Hbuf.
  rewrite !int_in_range by lia. cbn [and_then].
  destruct (fetch_day wday Hwday) as (w1 & w2 & w3 & Hfd & Hnd).
  destruct (fetch_month mon Hmon) as (m1 & m2 & m3 & Hfm & Hnm).
  unfold memcpy. rewrite Hfd, Hfm. cbn [and_then].
  let t := eval vm_compute in template in change template with t.
  unfold put_i2a, store.
  cbn [length app Nat.add Nat.leb take drop and_then].
  set (y := year + 1900) in *.
  exists [w1; w2; w3; ","%char; " "%char; fst (i2a mday); snd (i2a mday);
          " "%char; m1; m2; m3; " "%char;
          fst (i2a (Z.quot y 100)); snd (i2a (Z.quot y 100));
          fst (i2a (Z.rem y 100)); snd (i2a (Z.rem y 100)); " "%char;
          fst (i2a hour); snd (i2a hour); ":"%char;
          fst (i2a min); snd (i2a min); ":"%char;
          fst (i2a sec); snd (i2a sec)].
  split; [reflexivity|]. split; [reflexivity|].
  cbn [read_date].
  change (same _ (list_ascii_of_string ",    ::")) with true. cbn iota.
  rewrite Hnd, Hnm.
  assert (Hq : 0 <= Z.quot y 100 <= 99 /\ 0 <= Z.rem y 100 <= 99 /\
               100 * Z.quot y 100 + Z.rem y 100 = y).
  { rewrite Z.quot_div_nonneg, Z.rem_mod_nonneg by lia.
    pose proof (Z.div_mod y 100 ltac:(lia)).
    pose proof (Z.mod_pos_bound y 100 ltac:(lia)). lia. }
  destruct Hq as (Hq1 & Hq2 & Hq3).
  rewrite !i2a_number by lia. cbn [number].
  do 2 f_equal; lia.
Qed.

(** A [localtime_r] for the example: Friday, 30 October 2026, 01:19:36. *)
Definition a_friday : Z -> tm := fun _ => mk_tm 36 19 1 30 9 126 5.

Lemma Time_string_reads_back_witness :
  exists text,
    Time_string a_friday 0 (Some (repeat "?"%char 30)) =
      Done (Some (text ++ NUL :: repeat "?"%char 4)) /\
    read_date text = Some (a_friday 0).
Proof.
  destruct (Time_string_reads_back a_friday 0 (repeat "?"%char 30))
    as (text & H1 & _ & H3); cbn; try lia.
  exists text. split; [exact H1|exact H3].
Defined.

Example Time_string_of_a_friday :
  Time_string a_friday 0 (Some (repeat "?"%char 26)) =
  Done (Some (list_ascii_of_string "Fri, 30 Oct 2026 01:19:36" ++ [NUL])).
Proof. vm_compute. reflexivity. Qed.

(** A weekday outside the table makes [memcpy] read past its end; a buffer
    that is too short is overrun; and without a buffer nothing is done. *)
Example Time_string_undefined :
  Time_string (fun _ => mk_tm 36 19 1 30 9 126 7) 0
    (Some (repeat "?"%char 26)) = Undefined /\
  Time_string a_friday 0 (Some (repeat "?"%char 25)) = Undefined /\
  Time_string a_friday 0 None = Done None.
Proof. repeat split; vm_compute; reflexivity. Qed.

Lemma store_gmt_template buf :
  (30 <= length buf)%nat ->
  store buf 0 gmt_template = Done (gmt_template ++ drop 30 buf).
Proof.
  intros H. unfold store. change (0 + length gmt_template)%nat with 30%nat.
  destruct (Nat.leb_spec 30 (length buf)); [|lia]. reflexivity.
Qed.

(** X14.  The same for [Time_gmtstring], whose stamp is followed by
    [ GMT]: for a broken-down time in those ranges and a buffer of at
    least 30 bytes it writes 29 characters and a NUL, stays inside the
    buffer and the tables, and the first 25 characters read back as the
    time they were made from. *)
Theorem Time_gmtstring_reads_back (gmtime_r : Z -> tm) (time : Z)
  (buf : list ascii) :
  let ts := gmtime_r time in
  0 <= tm_wday ts <= 6 -> 0 <= tm_mon ts <= 11 ->
  0 <= tm_mday ts <= 99 -> 0 <= tm_year ts + 1900 <= 9999 ->
  0 <= tm_hour ts <= 99 -> 0 <= tm_min ts <= 99 -> 0 <= tm_sec ts <= 99 ->
  (30 <= length buf)%nat ->
  exists text,
    Time_gmtstring gmtime_r time (Some buf) =
      Done (Some (text ++ list_ascii_of_string " GMT" ++ NUL :: drop 30 buf)) /\
    length text = 25%nat /\
    read_date text = Some ts.
Proof.
  cbv zeta.
  destruct (gmtime_r time) as [sec min hour mday mon year wday] eqn:Hts.
  cbn [tm_sec tm_min tm_hour tm_mday tm_mon tm_year tm_wday].
  intros Hwday Hmon Hmday Hyear Hhour Hmin Hsec Hbuf.
  unfold Time_gmtstring. rewrite Hts.
  cbn [tm_sec tm_min tm_hour tm_mday tm_mon tm_year tm_wday].
  unfold memcpy at 1.
  change (fetch gmt_template 0 30) with (Done gmt_template).
  cbn [and_then]. rewrite store_gmt_template by exact Hbuf.
  rewrite !int_in_range by lia. cbn [and_then].
  destruct (fetch_day wday Hwday) as (w1 & w2 & w3 & Hfd & Hnd).
  destruct (fetch_month mon Hmon) as (m1 & m2 & m3 & Hfm & Hnm).
  unfold memcpy. rewrite Hfd, Hfm. cbn [and_then].
  let t := eval vm_compute in gmt_template in change gmt_template with t.
  unfold put_i2a, store.
  cbn [length app Nat.add Nat.leb take drop and_then].
  set (y := year + 1900) in *.
  exists [w1; w2; w3; ","%char; " "%char; fst (i2a mday); snd (i2a mday);
          " "%char; m1; m2; m3; " "%char;
          fst (i2a (Z.quot y 100)); snd (i2a (Z.quot y 100));
          fst (i2a (Z.rem y 100)); snd (i2a (Z.rem y 100)); " "%char;
          fst (i2a hour); snd (i2a hour); ":"%char;
          fst (i2a min); snd (i2a min); ":"%char;
          fst (i2a sec); snd (i2a sec)].
  split; [reflexivity|]. split; [reflexivity|].
  cbn [read_date].
  change (same _ (list_ascii_of_string ",    ::")) with true. cbn iota.
  rewrite Hnd, Hnm.
  assert (Hq : 0 <= Z.quot y 100 <= 99 /\ 0 <= Z.rem y 100 <= 99 /\
               100 * Z.quot y 100 + Z.rem y 100 = y).
  { rewrite Z.quot_div_nonneg, Z.rem_mod_nonneg by lia.
    pose proof (Z.div_mod y 100 ltac:(lia)).
    pose proof (Z.mod_pos_bound y 100 ltac:(lia)). lia. }
  destruct Hq as (Hq1 & Hq2 & Hq3).
  rewrite !i2a_number by lia. cbn [number].
  do 2 f_equal; lia.
Qed.

Lemma Time_gmtstring_reads_back_witness :
  exists text,
    Time_gmtstring a_friday 0 (Some (repeat "?"%char 30)) =
      Done (Some (text ++ list_ascii_of_string " GMT" ++ [NUL])) /\
    read_date text = Some (a_friday 0).
Proof.
  destruct (Time_gmtstring_reads_back a_friday 0 (repeat "?"%char 30))
    as (text & H1 & _ & H3); cbn; try lia.
  exists text. split; [exact H1|exact H3].
Defined.

Example Time_gmtstring_of_a_friday :
  Time_gmtstring a_friday 0 (Some (repeat "?"%char 30)) =
  Done (Some (list_ascii_of_string "Fri, 30 Oct 2026 01:19:36 GMT" ++ [NUL])).
Proof. vm_compute. reflexivity. Qed.

(** *** The uptime, read back *)

Lemma decimal_app fuel n acc rest :
  decimal fuel n acc ++ rest = decimal fuel n (acc ++ rest).
Proof.
  revert n acc. induction fuel as [|fuel IH]; intros n acc; [reflexivity|].
  cbn [decimal]. destruct (n <? 10); [reflexivity|]. now rewrite IH.
Qed.

Lemma decimal_read fuel n acc :
  0 <= n < 10 ^ Z.of_nat fuel ->
  read_number 0 (decimal fuel n acc) = read_number n acc.
Proof.
  revert n acc. induction fuel as [|fuel IH]; intros n acc Hn.
  { cbn in Hn. assert (n = 0) by lia. now subst n. }
  rewrite Nat2Z.inj_succ, Z.pow_succ_r in Hn by lia.
  pose proof (Z.div_mod n 10 ltac:(lia)) as Hdm.
  pose proof (Z.mod_pos_bound n 10 ltac:(lia)) as Hm.
  cbn [decimal]. destruct (Z.ltb_spec n 10) as [Hlt|Hge].
  - cbn [read_number]. rewrite digit_char by lia. f_equal.
    rewrite Z.mod_small by lia. lia.
  - rewrite IH by (split; [apply Z.div_pos; lia|
                            apply Z.div_lt_upper_bound; lia]).
    cbn [read_number]. rewrite digit_char by lia. f_equal. lia.
Qed.

Lemma decimal_head fuel n acc :
  0 <= n ->
  exists c rest, decimal (S fuel) n acc = c :: rest /\ is_digit c = true.
Proof.
  revert n acc. induction fuel as [|fuel IH]; intros n acc Hn;
    pose proof (Z.mod_pos_bound n 10 ltac:(lia)) as Hm;
    assert (Hd : is_digit (char_of_int (n mod 10 + 48)) = true)
      by (pose proof (digit_char (n mod 10) ltac:(lia)) as H;
          unfold digit in H;
          destruct (is_digit (char_of_int (n mod 10 + 48)));
          [reflexivity|discriminate]).
  - cbn [decimal]. destruct (n <? 10); eauto.
  - change (decimal (S (S fuel)) n acc)
      with (if n <? 10 then char_of_int (n mod 10 + 48) :: acc
            else decimal (S fuel) (n / 10)
                   (char_of_int (n mod 10 + 48) :: acc)).
    destruct (n <? 10); [eauto|]. apply IH. apply Z.div_pos; lia.
Qed.

Lemma decimal_length fuel k n acc :
  0 <= n < 10 ^ Z.of_nat (S k) ->
  (length (decimal fuel n acc) <= length acc + S k)%nat.
Proof.
  revert k n acc. induction fuel as [|fuel IH]; intros k n acc Hn;
    [cbn; lia|].
  cbn [decimal]. destruct (Z.ltb_spec n 10) as [Hlt|Hge]; [cbn; lia|].
  destruct k as [|k]; [cbn in Hn; lia|].
  rewrite Nat2Z.inj_succ, Z.pow_succ_r in Hn by lia.
  etransitivity.
  - apply (IH k). split; [apply Z.div_pos; lia|].
    apply Z.div_lt_upper_bound; lia.
  - cbn [length]. lia.
Qed.

(** What [%lld] leaves of a number that is not negative is read back as
    this number. *)
Lemma lld_read n c rest :
  0 <= n < 10 ^ 19 -> digit c = None ->
  read_count (lld n ++ c :: rest) = Some (n, c :: rest).
Proof.
  intros Hn Hc. unfold lld. destruct (Z.ltb_spec n 0); [lia|].
  rewrite decimal_app. cbn [app].
  destruct (decimal_head 18 n (c :: rest) ltac:(lia)) as (c0 & r0 & E0 & D0).
  unfold read_count. rewrite E0, D0, <- E0.
  rewrite decimal_read by (change (10 ^ Z.of_nat 19) with (10 ^ 19); lia).
  cbn [read_number]. now rewrite Hc.
Qed.

Lemma lld_length k n :
  0 <= n < 10 ^ Z.of_nat (S k) -> (1 <= length (lld n) <= S k)%nat.
Proof.
  intros Hn. unfold lld. destruct (Z.ltb_spec n 0); [lia|]. split.
  - destruct (decimal_head 18 n [] ltac:(lia)) as (c0 & r0 & E0 & _).
    rewrite E0. cbn. lia.
  - exact (decimal_length 19 k n [] Hn).
Qed.

(** A call of [snprintf] for the end of the text in the buffer, with
    room for its output, appends the output. *)
Lemma snprintf_appends (buf text piece : list ascii) (n size : Z) :
  n = Z.of_nat (length text) -> size = 24 - n ->
  (24 <= length buf)%nat ->
  (length text + length piece < 24)%nat ->
  snprintf (text ++ NUL :: drop (S (length text)) buf) n size piece =
  Done ((text ++ piece) ++ NUL :: drop (S (length (text ++ piece))) buf,
        Z.of_nat (length piece)).
Proof.
  intros -> -> Hbuf Hroom. unfold snprintf.
  rewrite Z.mod_small by lia.
  rewrite int_in_range by lia. cbn [and_then].
  destruct (Z.eqb_spec (24 - Z.of_nat (length text)) 0); [lia|].
  destruct (Z.ltb_spec (Z.of_nat (length text)) 0); [lia|].
  rewrite Nat2Z.id, take_ge by lia.
  unfold store. rewrite !length_app, !length_cons, length_drop.
  cbn [length].
  match goal with
  | |- context [(?a <=? ?b)%nat] => destruct (Nat.leb_spec a b); [|lia]
  end.
  cbn [and_then]. f_equal. f_equal.
  rewrite take_app_length, <- !app_assoc. f_equal. f_equal. cbn [app].
  f_equal.
  replace (length text + (length piece + 1))%nat
    with (length text + S (length piece))%nat by lia.
  rewrite drop_app_add'  by reflexivity.
  cbn [drop]. rewrite drop_drop. f_equal; lia.
Qed.

Lemma separator_length n : (length (separator n) <= 2)%nat.
Proof. unfold separator. destruct (n =? 0); cbn; lia. Qed.

Lemma separator_some n : 0 < n -> separator n = [","%char; " "%char].
Proof.
  intros Hn. unfold separator. destruct (Z.eqb_spec n 0); [lia|reflexivity].
Qed.

(** The last call: the minutes. *)
Lemma uptime_minutes (buf text : list ascii) (n s : Z) :
  n = Z.of_nat (length text) -> (length text <= 18)%nat ->
  (24 <= length buf)%nat -> 0 <= s < 3600 ->
  let out := text ++ separator n ++ lld (Z.quot s 60) ++ ["m"%char] in
  and_then
    (snprintf (text ++ NUL :: drop (S (length text)) buf) n (24 - n)
       (separator n ++ lld (Z.quot s 60) ++ ["m"%char]))
    (fun '(result, _) => Done (Some result)) =
  Done (Some (out ++ NUL :: drop (S (length out)) buf)) /\
  (length out < 24)%nat.
Proof.
  intros Hn Htext Hbuf Hs. cbv zeta.
  rewrite Z.quot_div_nonneg by lia.
  assert (Hm : 0 <= s / 60 < 10 ^ Z.of_nat 2).
  { split; [apply Z.div_pos; lia|].
    apply Z.div_lt_upper_bound; [lia|]. change (10 ^ Z.of_nat 2) with 100.
    lia. }
  pose proof (lld_length 1 _ Hm) as Hl.
  pose proof (separator_length n) as Hsep.
  assert (Hroom : (length text +
                   length (separator n ++ lld (s / 60) ++ ["m"%char]) < 24)%nat)
    by (rewrite !length_app; cbn [length]; lia).
  rewrite (snprintf_appends buf text _ n (24 - n) Hn eq_refl Hbuf Hroom).
  cbn [and_then]. split; [reflexivity|].
  rewrite length_app. exact Hroom.
Qed.

(** The call before it: the hours, when there are any. *)
Lemma uptime_hours (buf text : list ascii) (n s : Z) :
  n = Z.of_nat (length text) -> (length text <= 13)%nat ->
  (24 <= length buf)%nat -> 0 <= s < 86400 ->
  let r := Z.quot s 3600 in
  let out := if 0 <? r then text ++ separator n ++ lld r ++ ["h"%char]
             else text in
  (if 0 <? r then
     and_then (snprintf (text ++ NUL :: drop (S (length text)) buf) n (24 - n)
                 (separator n ++ lld r ++ ["h"%char]))
       (fun '(result, k) =>
          and_then (int (n + k)) (fun n =>
          Done (result, n, s - r * 3600)))
   else Done (text ++ NUL :: drop (S (length text)) buf, n, s)) =
  Done (out ++ NUL :: drop (S (length out)) buf, Z.of_nat (length out),
        s - r * 3600) /\
  (length out <= 18)%nat.
Proof.
  intros Hn Htext Hbuf Hs. cbv zeta.
  rewrite Z.quot_div_nonneg by lia.
  assert (Hh : 0 <= s / 3600 < 10 ^ Z.of_nat 2).
  { split; [apply Z.div_pos; lia|].
    apply Z.div_lt_upper_bound; [lia|]. change (10 ^ Z.of_nat 2) with 100.
    lia. }
  destruct (Z.ltb_spec 0 (s / 3600)) as [Hpos|Hzero].
  - pose proof (lld_length 1 _ Hh) as Hl.
    pose proof (separator_length n) as Hsep.
    assert (Hroom : (length text +
                     length (separator n ++ lld (s / 3600) ++ ["h"%char])
                     <= 18)%nat)
      by (rewrite !length_app; cbn [length]; lia).
    rewrite (snprintf_appends buf text _ n (24 - n) Hn eq_refl Hbuf)
      by lia.
    cbn [and_then]. rewrite int_in_range by lia. cbn [and_then].
    rewrite (length_app text). split; [|exact Hroom].
    now rewrite Nat2Z.inj_add, <- Hn.
  - assert (Hr : s / 3600 = 0) by lia. rewrite Hr.
    change (0 * 3600) with 0. rewrite Z.sub_0_r, <- Hn.
    split; [reflexivity|lia].
Qed.

(** X18.  For an uptime of less than 10^12 days and a buffer of at least
    24 bytes, [Time_uptime] stays inside the buffer, writes a text of less
    than 24 characters and a NUL and leaves the rest of the buffer alone;
    the text reads back as days, hours below 24 and minutes below 60 that
    make up the seconds it was given, to the minute. *)
Theorem Time_uptime_reads_back (sec : Z) (buf : list ascii) :
  0 < sec < 86400 * 10 ^ 12 ->
  (24 <= length buf)%nat ->
  exists text d h m,
    Time_uptime sec (Some buf) =
      Done (Some (text ++ NUL :: drop (S (length text)) buf)) /\
    (length text < 24)%nat /\
    read_uptime text = Some (d, h, m) /\
    0 <= d /\ 0 <= h < 24 /\ 0 <= m < 60 /\
    d * 86400 + h * 3600 + m * 60 <= sec < d * 86400 + h * 3600 + m * 60 + 60.
Proof.
  intros [Hpos Hmax] Hbuf.
  pose proof (Z.div_mod sec 86400 ltac:(lia)) as Hd.
  pose proof (Z.mod_pos_bound sec 86400 ltac:(lia)) as Hdm.
  set (d := sec / 86400) in *.
  set (s1 := sec - d * 86400).
  assert (Hs1 : 0 <= s1 < 86400) by (unfold s1; lia).
  pose proof (Z.div_mod s1 3600 ltac:(lia)) as Hh.
  pose proof (Z.mod_pos_bound s1 3600 ltac:(lia)) as Hhm.
  set (h := s1 / 3600) in *.
  set (s2 := s1 - h * 3600).
  assert (Hs2 : 0 <= s2 < 3600) by (unfold s2; lia).
  pose proof (Z.div_mod s2 60 ltac:(lia)) as Hm.
  pose proof (Z.mod_pos_bound s2 60 ltac:(lia)) as Hmm.
  set (m := s2 / 60) in *.
  assert (Hdr : 0 <= d < 10 ^ Z.of_nat 12).
  { split; [apply Z.div_pos; lia|].
    apply Z.div_lt_upper_bound; [lia|].
    change (10 ^ Z.of_nat 12) with (10 ^ 12). lia. }
  assert (Hhr : 0 <= h < 24) by lia.
  assert (Hmr : 0 <= m < 60) by lia.
  (* the first call *)
  set (t1 := if 0 <? d then lld d ++ ["d"%char] else []).
  assert (Ht1 : (length t1 <= 13)%nat).
  { unfold t1. destruct (0 <? d); [|cbn; lia].
    pose proof (lld_length 11 d Hdr). rewrite length_app. cbn [length]. lia. }
  destruct (uptime_hours buf t1 (Z.of_nat (length t1)) s1 eq_refl Ht1 Hbuf Hs1)
    as [Hrun2 Ht2].
  rewrite Z.quot_div_nonneg in Hrun2, Ht2 by lia. fold h in Hrun2, Ht2.
  fold s2 in Hrun2.
  set (t2 := if 0 <? h
             then t1 ++ separator (Z.of_nat (length t1)) ++ lld h ++ ["h"%char]
             else t1) in *.
  destruct (uptime_minutes buf t2 (Z.of_nat (length t2)) s2 eq_refl Ht2 Hbuf
              Hs2) as [Hrun3 Ht3].
  rewrite Z.quot_div_nonneg in Hrun3, Ht3 by lia. fold m in Hrun3, Ht3.
  set (t3 := t2 ++ separator (Z.of_nat (length t2)) ++ lld m ++ ["m"%char])
    in *.
  exists t3, d, h, m.
  split; [|split; [exact Ht3|split; [|repeat split; lia]]].
  - unfold Time_uptime, store. cbn [length Nat.add].
    destruct (Nat.leb_spec 1 (length buf)); [|lia].
    cbn [and_then]. change (take 0 buf) with (@nil ascii). cbn [app].
    destruct (Z.ltb_spec 0 sec); [|lia].
    rewrite Z.quot_div_nonneg by lia. fold d.
    assert (Hrun1 :
      (if 0 <? d
       then and_then (snprintf (NUL :: drop 1 buf) 0 24 (lld d ++ ["d"%char]))
              (fun '(result, n) => Done (result, n, sec - d * 86400))
       else Done (NUL :: drop 1 buf, 0, sec)) =
      Done (t1 ++ NUL :: drop (S (length t1)) buf, Z.of_nat (length t1), s1)).
    { unfold t1. destruct (Z.ltb_spec 0 d) as [Hdp|Hdz].
      - pose proof (lld_length 11 d Hdr).
        change (NUL :: drop 1 buf)
          with ([] ++ NUL :: drop (S (length (@nil ascii))) buf).
        rewrite (snprintf_appends buf [] (lld d ++ ["d"%char]) 0 24 eq_refl
                   eq_refl Hbuf)
          by (rewrite length_app; cbn [length]; lia).
        reflexivity.
      - assert (Hd0 : d = 0) by lia. unfold s1. rewrite Hd0.
        change (0 * 86400) with 0. now rewrite Z.sub_0_r. }
    rewrite Hrun1. cbn [and_then].
    rewrite (Z.quot_div_nonneg s1 3600) by lia. fold h. fold s2.
    rewrite Hrun2. cbn [and_then].
    rewrite (Z.quot_div_nonneg s2 60) by lia. fold m.
    exact Hrun3.
  - assert (Hd19 : 0 <= d < 10 ^ 19) by
      (change (10 ^ Z.of_nat 12) with (10 ^ 12) in Hdr; lia).
    assert (Hh19 : 0 <= h < 10 ^ 19) by lia.
    assert (Hm19 : 0 <= m < 10 ^ 19) by lia.
    assert (Hl1 : 0 < d -> (1 <= length t1)%nat).
    { intros Hdp. unfold t1. destruct (Z.ltb_spec 0 d); [|lia].
      rewrite length_app. cbn [length]. lia. }
    assert (Hsep1 : separator (Z.of_nat (length t1)) =
                    if 0 <? d then [","%char; " "%char] else []).
    { clear Hrun2 Hrun3. revert Hl1. unfold t1.
      destruct (Z.ltb_spec 0 d) as [Hdp|Hdz]; intros Hl1; [|reflexivity].
      apply separator_some. specialize (Hl1 Hdp). lia. }
    assert (Hsep2 : separator (Z.of_nat (length t2)) =
                    if (0 <? d) || (0 <? h) then [","%char; " "%char] else []).
    { unfold t2. destruct (Z.ltb_spec 0 h) as [Hhp|Hhz].
      - rewrite orb_true_r. apply separator_some. rewrite !length_app.
        cbn [length]. lia.
      - rewrite orb_false_r. exact Hsep1. }
    unfold t3. rewrite Hsep2. unfold t2. rewrite Hsep1. unfold t1.
    unfold read_uptime.
    destruct (Z.ltb_spec 0 d) as [Hdp|Hdz];
      destruct (Z.ltb_spec 0 h) as [Hhp|Hhz];
      cbn [orb]; rewrite <- ?app_assoc; cbn [app];
      rewrite ?lld_read by (reflexivity || lia); cbv beta iota zeta;
      rewrite ?lld_read by (reflexivity || lia); cbv beta iota zeta;
      rewrite ?lld_read by (reflexivity || lia); cbv beta iota zeta;
      repeat f_equal; lia.
Qed.


Lemma Time_uptime_reads_back_witness :
  exists text d h m,
    Time_uptime 93784 (Some (repeat "?"%char 24)) =
      Done (Some (text ++ NUL :: drop (S (length text))
                                   (repeat "?"%char 24))) /\
    read_uptime text = Some (d, h, m) /\
    d * 86400 + h * 3600 + m * 60 <= 93784 <
    d * 86400 + h * 3600 + m * 60 + 60.
Proof.
  destruct (Time_uptime_reads_back 93784 (repeat "?"%char 24))
    as (text & d & h & m & H1 & _ & H3 & _ & _ & _ & H7).
  - split; reflexivity.
  - cbn. lia.
  - exists text, d, h, m. split; [exact H1|]. split; [exact H3|exact H7].
Defined.

(** A day, two hours, three minutes and four seconds. *)
Example Time_uptime_of_a_day :
  Time_uptime 93784 (Some (repeat "?"%char 24)) =
  Done (Some (list_ascii_of_string "1d, 2h, 3m" ++ NUL ::
              repeat "?"%char 13)).
Proof. vm_compute. reflexivity. Qed.

(** Less than an hour: the minutes alone; less than a minute: [0m]. *)
Example Time_uptime_of_minutes :
  Time_uptime 185 (Some (repeat "?"%char 24)) =
    Done (Some (list_ascii_of_string "3m" ++ NUL :: repeat "?"%char 21)) /\
  Time_uptime 59 (Some (repeat "?"%char 24)) =
    Done (Some (list_ascii_of_string "0m" ++ NUL :: repeat "?"%char 21)).
Proof. split; vm_compute; reflexivity. Qed.

(** No uptime, or a negative one: the empty text.  No buffer: nothing. *)
Lemma Time_uptime_nothing (sec : Z) (buf : list ascii) :
  sec <= 0 -> (1 <= length buf)%nat ->
  Time_uptime sec (Some buf) = Done (Some (NUL :: drop 1 buf)) /\
  Time_uptime sec None = Done None.
Proof.
  intros Hsec Hbuf. split; [|reflexivity]. unfold Time_uptime, store.
  cbn [length Nat.add]. destruct (Nat.leb_spec 1 (length buf)); [|lia].
  cbn [and_then]. destruct (Z.ltb_spec 0 sec); [lia|reflexivity].
Qed.

(** The largest [time_t] of 64 bits: the text is cut at 23 characters and
    the minutes are lost. *)
Example Time_uptime_cut :
  Time_uptime (2 ^ 63 - 1) (Some (repeat "?"%char 24)) =
  Done (Some (list_ascii_of_string "106751991167300d, 15h, " ++ [NUL])).
Proof. vm_compute. reflexivity. Qed.

End Clock.

(** ** Part B -- control.c: executor, convergence helpers, dispatcher *)

Module Control.

(** *** Data model

    [monit.h] is not among the sources at hand; the types below carry the
    fields [control.c] reads and writes, with the enumerations of the
    design document's data model. *)

Inductive Service_Type :=
| Service_Filesystem | Service_Directory | Service_File | Service_Process
| Service_Host | Service_System | Service_Fifo | Service_Program
| Service_Net.

Inductive Monitor_State :=
| Monitor_Not | Monitor_Yes | Monitor_Init | Monitor_Waiting.

Inductive Action_Type :=
| Action_Ignored | Action_Alert | Action_Restart | Action_Stop
| Action_Exec | Action_Unmonitor | Action_Start | Action_Monitor.

Inductive State_Type :=
| State_Succeeded | State_Failed | State_Changed | State_Init.

Inductive Process_Status := Process_Stopped | Process_Started.

(** [command_t]: the argument vector ([length] is its length), the optional
    uid and gid, and the timeout in seconds. *)
Record command_t := mk_command {
  arg : list string;
  has_uid : bool; uid : Z;
  has_gid : bool; gid : Z;
  timeout : Z
}.

Record Service := mk_service {
  name : string;
  type : Service_Type;
  start : option command_t;
  stop : option command_t;
  restart : option command_t;
  dependantlist : list string;
  monitor : Monitor_State;
  visited : bool;
  depend_visited : bool
}.

(** A [Service_T] is a pointer to a node of the list [servicelist]; here,
    the position of the node. *)
Abbreviation Service_T := nat (only parsing).

(** The [command_t] pointer handed to the executor always is one of the three
    descriptors of the service; the code compares it with [S->start] and
    [S->stop]. *)
Inductive command_ref := Ref_start | Ref_stop | Ref_restart.

Inductive stream := Error_stream | Input_stream.

(** The text of a posted event: [printf] format and arguments. *)
Inductive message :=
| Failed_to_start (status : Z) (msg : string)
| Started
| Failed_to_stop (status : Z) (msg : string)
| Stopped
| Failed_to_restart (status : Z) (msg : string)
| Restarted.

(** The lines written through [LogInfo], [LogDebug] and [LogError]. *)
Inductive log_line :=
| Log_start (s : Service_T) (program : string)
| Log_start_skipped (s : Service_T)
| Log_stop (s : Service_T) (program : string)
| Log_stop_skipped (s : Service_T)
| Log_restart (s : Service_T) (program : string)
| Log_restart_skipped (s : Service_T)
| Log_trying_to_restart (s : Service_T)
| Log_doesnt_exist (S : string)
| Log_invalid_action (S : string) (A : Action_Type)
| Log_debug_output (buf : string).

(** Everything the engine does to, or asks of, the world outside, in the
    order it happens. *)
Inductive event :=
| Ev_usleep (u : Z)
| Ev_isProcessRunning (s : Service_T) (refresh : bool)
| Ev_Command_new (program : string)
| Ev_Command_execute (s : Service_T) (c : command_ref) (argv : list string)
    (env : list (string * string))
| Ev_Process_exitStatus
| Ev_readBytes (st : stream)
| Ev_Process_free
| Ev_getpgid (pid : Z)
| Ev_post (s : Service_T) (state : State_Type) (m : message)
| Ev_monitorSet (s : Service_T)
| Ev_monitorUnset (s : Service_T)
| Ev_resetInfo (s : Service_T)
| Ev_log (l : log_line).

(** The world outside the engine.  Each answer may depend on everything
    that has happened so far, so it is a function of the history. *)
Record environment := mk_environment {
  (** [Util_isProcessRunning(s, refresh)]: the pid, or 0. *)
  Util_isProcessRunning : list event -> Service_T -> bool -> Z;
  (** [Command_new]: [Some reason] when it throws. *)
  Command_new : list event -> string -> option string;
  (** [Command_execute]: whether a process handle comes back. *)
  Command_execute : list event -> bool;
  (** The exit status of the child, once it has exited. *)
  child_exited : list event -> option nat;
  (** [InputStream_readBytes] with a zero timeout: the bytes at hand, none
      standing for a result [<= 0]. *)
  InputStream_readBytes : list event -> stream -> string;
  (** [getpgid(pid)] and the [errno] it leaves. *)
  getpgid : list event -> Z -> Z * Z;
  (** The flags [Run.stopped] (set by the signal handler) and
      [Run.debug]. *)
  Run_stopped : list event -> bool;
  Run_debug : bool;
  (** The macros [STRLEN] and [IS] of [monit.h]. *)
  STRLEN : nat;
  IS : string -> string -> bool
}.

Definition EPERM : Z := 1.

(** Modelled from the spec: the macro [USEC_PER_SEC] ([monit.h]) is not among
    the sources at hand; descriptors give their timeout in seconds and the
    remaining-timeout counters run in microseconds. *)
Definition USEC_PER_SEC : Z := 1000000.

Record world := mk_world {
  servicelist : list Service;
  trace : list event
}.

(** A call returns, or fails an [ASSERT], or (in this model) is cut off
    because the recursion went deeper than the fuel allows. *)
Inductive outcome (A : Type) :=
| Ret (a : A) (w : world)
| AssertFailure (w : world)
| OutOfFuel.
Arguments Ret {A} a w.
Arguments AssertFailure {A} w.
Arguments OutOfFuel {A}.

Definition M (A : Type) := world -> outcome A.

Definition ret {A} (a : A) : M A := fun w => Ret a w.

Definition bind {A B} (m : M A) (k : A -> M B) : M B :=
  fun w =>
    match m w with
    | Ret a w' => k a w'
    | AssertFailure w' => AssertFailure w'
    | OutOfFuel => OutOfFuel
    end.

Notation "'let*' x := m 'in' k" := (bind m (fun x => k))
  (at level 10, x pattern, m at level 100, k at level 200, only parsing).
Notation "m ;;; k" := (bind m (fun _ => k))
  (at level 100, k at level 200, only parsing, right associativity).

Definition emit (e : event) : M unit :=
  fun w => Ret tt (mk_world (servicelist w) (trace w ++ [e])).

(** Ask the world: the answer is read off the history, and the question
    joins the history. *)
Definition ask {A} (answer : list event -> A) (e : event) : M A :=
  fun w => Ret (answer (trace w)) (mk_world (servicelist w) (trace w ++ [e])).

(** Read a flag without any effect. *)
Definition peek {A} (answer : list event -> A) : M A :=
  fun w => Ret (answer (trace w)) w.

Definition ASSERT (b : bool) : M unit :=
  fun w => if b then Ret tt w else AssertFailure w.

(** [for] over a list. *)
Fixpoint for_each {A} (l : list A) (body : A -> M unit) : M unit :=
  match l with
  | [] => ret tt
  | x :: l => body x ;;; for_each l body
  end.

(** [snprintf(msg, size, "%s", text)]: at most [size - 1] bytes are kept. *)
Definition snprintf (size : nat) (text : string) : string :=
  substring 0 (size - 1) text.

(** What [%s] prints of a buffer: the bytes before its first NUL. *)
Fixpoint c_str (buf : string) : string :=
  match buf with
  | EmptyString => EmptyString
  | String c buf =>
      if Ascii.eqb c zero then EmptyString else String c (c_str buf)
  end.

Definition arg0 (c : command_t) : string := hd EmptyString (arg c).

Definition is_process (t : Service_Type) : bool :=
  match t with Service_Process => true | _ => false end.

Definition command_of (sv : Service) (c : command_ref) : option command_t :=
  match c with
  | Ref_start => start sv
  | Ref_stop => stop sv
  | Ref_restart => restart sv
  end.

Definition set_visited (b : bool) (sv : Service) : Service :=
  mk_service (name sv) (type sv) (start sv) (stop sv) (restart sv)
    (dependantlist sv) (monitor sv) b (depend_visited sv).

Definition set_depend_visited (b : bool) (sv : Service) : Service :=
  mk_service (name sv) (type sv) (start sv) (stop sv) (restart sv)
    (dependantlist sv) (monitor sv) (visited sv) b.

Definition set_monitor (m : Monitor_State) (sv : Service) : Service :=
  mk_service (name sv) (type sv) (start sv) (stop sv) (restart sv)
    (dependantlist sv) m (visited sv) (depend_visited sv).

(** [ASSERT(s)] and the read of [*s]. *)
Definition get_service (s : Service_T) : M Service :=
  fun w =>
    match servicelist w !! s with
    | Some sv => Ret sv w
    | None => AssertFailure w
    end.

(** An assignment to a field of [*s]. *)
Definition update (s : Service_T) (f : Service -> Service) : M unit :=
  fun w => Ret tt (mk_world (alter f s (servicelist w)) (trace w)).

Fixpoint find_service (same : string -> bool) (l : list Service)
  (i : Service_T) : option Service_T :=
  match l with
  | [] => None
  | sv :: l => if same (name sv) then Some i else find_service same l (S i)
  end.

(** *** Reasoning about calls

    [wp m Q w]: started in [w], the call [m] returns, with a result and a
    world that satisfy [Q].  [wlp m Q w]: if it returns, they do. *)
Definition wp {A} (m : M A) (Q : A -> world -> Prop) (w : world) : Prop :=
  exists a w', m w = Ret a w' /\ Q a w'.

Definition wlp {A} (m : M A) (Q : A -> world -> Prop) (w : world) : Prop :=
  forall a w', m w = Ret a w' -> Q a w'.

Lemma wp_ret {A} (a : A) Q w : Q a w -> wp (ret a) Q w.
Proof. intros H. exists a, w. auto. Qed.

Lemma wp_bind {A B} (m : M A) (k : A -> M B) Q w :
  wp m (fun a w' => wp (k a) Q w') w -> wp (bind m k) Q w.
Proof.
  intros (a & w' & Hm & b & w'' & Hk & HQ). exists b, w''.
  unfold bind. rewrite Hm. auto.
Qed.

Lemma wp_seq {A B} (m : M A) (k : A -> M B) (P : A -> world -> Prop) Q w :
  wp m P w -> (forall a w', P a w' -> wp (k a) Q w') -> wp (bind m k) Q w.
Proof.
  intros (a & w' & Hm & HP) Hk. destruct (Hk a w' HP) as (b & w'' & Hb & HQ).
  exists b, w''. unfold bind. rewrite Hm. auto.
Qed.

Lemma wp_mono {A} (m : M A) (Q Q' : A -> world -> Prop) w :
  wp m Q w -> (forall a w', Q a w' -> Q' a w') -> wp m Q' w.
Proof. intros (a & w' & Hm & HQ) H. exists a, w'. auto. Qed.

Lemma wp_wlp {A} (m : M A) (Q Q' : A -> world -> Prop) w :
  wp m Q w -> wlp m Q' w -> wp m (fun a w' => Q a w' /\ Q' a w') w.
Proof. intros (a & w' & Hm & HQ) H. exists a, w'. auto. Qed.

Lemma wlp_ret {A} (a : A) (Q : A -> world -> Prop) w :
  Q a w -> wlp (ret a) Q w.
Proof. intros H a' w' [= <- <-]. exact H. Qed.

Lemma wlp_bind {A B} (m : M A) (k : A -> M B) Q w :
  wlp m (fun a w' => wlp (k a) Q w') w -> wlp (bind m k) Q w.
Proof.
  intros H b w''. unfold bind. destruct (m w) as [a w'| |] eqn:Hm;
    try discriminate.
  intros Hk. exact (H a w' Hm b w'' Hk).
Qed.

Lemma wlp_mono {A} (m : M A) (Q Q' : A -> world -> Prop) w :
  wlp m Q w -> (forall a w', Q a w' -> Q' a w') -> wlp m Q' w.
Proof. intros H HQ a w' Hm. auto. Qed.

Lemma wp_emit e Q w :
  Q tt (mk_world (servicelist w) (trace w ++ [e])) -> wp (emit e) Q w.
Proof. intros H. eexists _, _. split; [reflexivity|exact H]. Qed.

Lemma wp_ask {A} (answer : list event -> A) e Q w :
  Q (answer (trace w)) (mk_world (servicelist w) (trace w ++ [e])) ->
  wp (ask answer e) Q w.
Proof. intros H. eexists _, _. split; [reflexivity|exact H]. Qed.

Lemma wp_peek {A} (answer : list event -> A) Q w :
  Q (answer (trace w)) w -> wp (peek answer) Q w.
Proof. intros H. eexists _, _. split; [reflexivity|exact H]. Qed.


Lemma wp_get_service s sv Q w :
  servicelist w !! s = Some sv -> Q sv w -> wp (get_service s) Q w.
Proof.
  intros Hs H. exists sv, w. unfold get_service. rewrite Hs. auto.
Qed.

Lemma wp_update s f Q w :
  Q tt (mk_world (alter f s (servicelist w)) (trace w)) ->
  wp (update s f) Q w.
Proof. intros H. eexists _, _. split; [reflexivity|exact H]. Qed.

Lemma wlp_emit e (Q : unit -> world -> Prop) w :
  Q tt (mk_world (servicelist w) (trace w ++ [e])) -> wlp (emit e) Q w.
Proof. intros H a w' [= <- <-]. exact H. Qed.

Lemma wlp_ask {A} (answer : list event -> A) e (Q : A -> world -> Prop) w :
  Q (answer (trace w)) (mk_world (servicelist w) (trace w ++ [e])) ->
  wlp (ask answer e) Q w.
Proof. intros H a w' [= <- <-]. exact H. Qed.

Lemma wlp_peek {A} (answer : list event -> A) (Q : A -> world -> Prop) w :
  Q (answer (trace w)) w -> wlp (peek answer) Q w.
Proof. intros H a w' [= <- <-]. exact H. Qed.

Lemma wlp_get_service s (Q : Service -> world -> Prop) w :
  (forall sv, servicelist w !! s = Some sv -> Q sv w) ->
  wlp (get_service s) Q w.
Proof.
  intros H a w'. unfold get_service.
  destruct (servicelist w !! s) as [sv|] eqn:Hs; [|discriminate].
  intros [= <- <-]. auto.
Qed.

Lemma wlp_update s f (Q : unit -> world -> Prop) w :
  Q tt (mk_world (alter f s (servicelist w)) (trace w)) ->
  wlp (update s f) Q w.
Proof. intros H a w' [= <- <-]. exact H. Qed.

(** A loop over a list, with an invariant that sees what is left to do. *)
Lemma wp_for_each {A} (I : list A -> world -> Prop) (body : A -> M unit) :
  (forall x rest w, I (x :: rest) w -> wp (body x) (fun _ w' => I rest w') w) ->
  forall l w, I l w -> wp (for_each l body) (fun _ w' => I [] w') w.
Proof.
  intros Hbody l. induction l as [|x l IH]; intros w HI.
  - now apply wp_ret.
  - cbn [for_each]. apply wp_bind.
    eapply wp_mono; [exact (Hbody x l w HI)|].
    intros [] w' HI'. cbv beta in *. now apply IH.
Qed.

Lemma wlp_for_each {A} (I : list A -> world -> Prop) (body : A -> M unit) :
  (forall x rest w, I (x :: rest) w -> wlp (body x) (fun _ w' => I rest w') w) ->
  forall l w, I l w -> wlp (for_each l body) (fun _ w' => I [] w') w.
Proof.
  intros Hbody l. induction l as [|x l IH]; intros w HI.
  - now apply wlp_ret.
  - cbn [for_each]. apply wlp_bind.
    eapply wlp_mono; [exact (Hbody x l w HI)|].
    intros [] w' HI'. cbv beta in *. now apply IH.
Qed.

(** The sleep intervals in a history, in order. *)
Definition sleeps (tr : list event) : list Z :=
  omap (fun e => match e with Ev_usleep u => Some u | _ => None end) tr.

(** The events of waiting: sleeping and looking at a process. *)
Definition is_wait_event (e : event) : bool :=
  match e with
  | Ev_usleep _ | Ev_isProcessRunning _ _ | Ev_getpgid _
  | Ev_Process_exitStatus => true
  | _ => false
  end.

(** The events of collecting the output of a child. *)
Definition is_output_event (e : event) : bool :=
  match e with
  | Ev_readBytes _ | Ev_log (Log_debug_output _) => true
  | _ => false
  end.

(** The call left the services as they were and added to the history only
    events of the kind [P]. *)
Definition adds (P : event -> bool) (w w' : world) : Prop :=
  servicelist w' = servicelist w /\
  exists evs, trace w' = trace w ++ evs /\ forallb P evs = true.

Lemma adds_refl P w : adds P w w.
Proof. split; [reflexivity|]. exists []. now rewrite app_nil_r. Qed.

Lemma adds_trans P w1 w2 w3 : adds P w1 w2 -> adds P w2 w3 -> adds P w1 w3.
Proof.
  intros [H1 (e1 & T1 & S1)] [H2 (e2 & T2 & S2)]. split; [congruence|].
  exists (e1 ++ e2). rewrite T2, T1, app_assoc, forallb_app, S1, S2. auto.
Qed.

Lemma adds_emit P w e :
  P e = true -> adds P w (mk_world (servicelist w) (trace w ++ [e])).
Proof.
  intros H. split; [reflexivity|]. exists [e]. cbn [forallb]. now rewrite H.
Qed.

Lemma adds_weaken (P Q : event -> bool) w w' :
  (forall e, P e = true -> Q e = true) -> adds P w w' -> adds Q w w'.
Proof.
  intros HPQ [H1 (evs & T & S)]. split; [exact H1|]. exists evs.
  split; [exact T|]. rewrite forallb_forall in *. auto.
Qed.

(** What the traversals never change in a service, marks apart. *)
Definition config (sv : Service) :=
  (name sv, type sv, start sv, stop sv, restart sv, dependantlist sv).

Definition is_exec (e : event) : bool :=
  match e with Ev_Command_execute _ _ _ _ => true | _ => false end.

Definition is_start_exec (e : event) : bool :=
  match e with Ev_Command_execute _ Ref_start _ _ => true | _ => false end.

(** What the executor does around the spawning of the child. *)
Definition is_inner_event (e : event) : bool :=
  is_wait_event e || is_output_event e ||
  match e with Ev_Command_new _ | Ev_Process_free => true | _ => false end.

(** The call changed no configuration and no [visited] mark, and added to
    the history only events of the kind [P]. *)
Definition stays (P : event -> bool) (w w' : world) : Prop :=
  (fun sv => (config sv, visited sv)) <$> servicelist w' =
  (fun sv => (config sv, visited sv)) <$> servicelist w /\
  exists evs, trace w' = trace w ++ evs /\ forallb P evs = true.

Lemma stays_refl P w : stays P w w.
Proof. split; [reflexivity|]. exists []. now rewrite app_nil_r. Qed.

Lemma stays_trans P w1 w2 w3 :
  stays P w1 w2 -> stays P w2 w3 -> stays P w1 w3.
Proof.
  intros [H1 (e1 & T1 & S1)] [H2 (e2 & T2 & S2)]. split; [congruence|].
  exists (e1 ++ e2). rewrite T2, T1, app_assoc, forallb_app, S1, S2. auto.
Qed.

Lemma stays_emit P w e :
  P e = true -> stays P w (mk_world (servicelist w) (trace w ++ [e])).
Proof.
  intros H. split; [reflexivity|]. exists [e]. cbn [forallb]. now rewrite H.
Qed.

Lemma stays_emit2 P w e1 e2 :
  P e1 = true -> P e2 = true ->
  stays P w (mk_world (servicelist w) ((trace w ++ [e1]) ++ [e2])).
Proof.
  intros H1 H2. split; [reflexivity|]. exists [e1; e2].
  cbn [forallb trace]. now rewrite H1, H2, <- app_assoc.
Qed.

Lemma stays_update P w s f :
  (forall sv, (config (f sv), visited (f sv)) = (config sv, visited sv)) ->
  stays P w (mk_world (alter f s (servicelist w)) (trace w)).
Proof.
  intros Hf. split.
  - cbn [servicelist]. generalize (servicelist w) s. clear -Hf.
    intros l. induction l as [|sv l IH]; intros [|s]; cbn; try reflexivity.
    + now rewrite Hf.
    + f_equal. apply IH.
  - exists []. cbn [trace]. now rewrite app_nil_r.
Qed.

Lemma stays_adds (P Q : event -> bool) w w' :
  (forall e, Q e = true -> P e = true) -> adds Q w w' -> stays P w w'.
Proof.
  intros HQP [H1 (evs & T & S)]. split; [now rewrite H1|]. exists evs.
  split; [exact T|]. rewrite forallb_forall in *. auto.
Qed.

Lemma stays_weaken (P Q : event -> bool) w w' :
  (forall e, Q e = true -> P e = true) -> stays Q w w' -> stays P w w'.
Proof.
  intros HQP [H1 (evs & T & S)]. split; [exact H1|]. exists evs.
  split; [exact T|]. rewrite forallb_forall in *. auto.
Qed.

Lemma stays_lookup P w w' s sv :
  stays P w w' -> servicelist w !! s = Some sv ->
  exists sv', servicelist w' !! s = Some sv' /\
              config sv' = config sv /\ visited sv' = visited sv.
Proof.
  intros [H _] Hs. apply (f_equal (fun l => l !! s)) in H.
  rewrite !list_lookup_fmap, Hs in H. cbn in H.
  destruct (servicelist w' !! s) as [sv'|]; [|discriminate].
  exists sv'. cbn in H. split; [reflexivity|]. split; congruence.
Qed.

(** What [_doStop] does to the world outside. *)
Definition is_stop_event (e : event) : bool :=
  is_inner_event e ||
  match e with
  | Ev_log _ | Ev_post _ _ _ | Ev_monitorUnset _ | Ev_resetInfo _ => true
  | Ev_Command_execute _ Ref_stop _ _ => true
  | _ => false
  end.

(** What is left of it when no stop program is run. *)
Definition is_idle_event (e : event) : bool :=
  match e with
  | Ev_isProcessRunning _ _ | Ev_log _ | Ev_monitorUnset _
  | Ev_resetInfo _ => true
  | _ => false
  end.

(** Between [w] and [w'] a failure to stop [s] was posted. *)
Definition posted_stop_failure (s : Service_T) (w w' : world) : Prop :=
  exists evs status msg,
    trace w' = trace w ++ evs /\
    In (Ev_post s State_Failed (Failed_to_stop status msg)) evs.

Lemma stays_extends P w w' :
  stays P w w' -> exists evs, trace w' = trace w ++ evs.
Proof. intros [_ (evs & H & _)]. eauto. Qed.

Lemma posted_before s w w1 w2 :
  (exists evs, trace w1 = trace w ++ evs) ->
  posted_stop_failure s w1 w2 -> posted_stop_failure s w w2.
Proof.
  intros [e1 H1] (evs & status & msg & H2 & Hin).
  exists (e1 ++ evs), status, msg. rewrite H2, H1, app_assoc.
  split; [reflexivity|]. apply in_or_app. auto.
Qed.

Lemma posted_after s w w1 w2 :
  posted_stop_failure s w w1 ->
  (exists evs, trace w2 = trace w1 ++ evs) ->
  posted_stop_failure s w w2.
Proof.
  intros (evs & status & msg & H1 & Hin) [e2 H2].
  exists (evs ++ e2), status, msg. rewrite H2, H1, app_assoc.
  split; [reflexivity|]. apply in_or_app. auto.
Qed.

Lemma lookup_alter_same {A} (f : A -> A) (l : list A) i x :
  l !! i = Some x -> alter f i l !! i = Some (f x).
Proof. intros H. now rewrite list_lookup_alter_eq, H. Qed.

(** The services whose start program a history executes, and the services
    whose start step it completes (the step ends with the call of
    [Util_monitorSet]), both in order. *)
Definition started (evs : list event) : list Service_T :=
  omap (fun e => match e with
                 | Ev_Command_execute x Ref_start _ _ => Some x
                 | _ => None
                 end) evs.

Definition finished (evs : list event) : list Service_T :=
  omap (fun e => match e with Ev_monitorSet v => Some v | _ => None end) evs.

(** The mark [visited] of the service at position [v]. *)
Definition vis (w : world) (v : Service_T) : bool :=
  match servicelist w !! v with
  | Some sv => visited sv
  | None => false
  end.

Lemma started_app e1 e2 : started (e1 ++ e2) = started e1 ++ started e2.
Proof. apply omap_app. Qed.

Lemma finished_app e1 e2 : finished (e1 ++ e2) = finished e1 ++ finished e2.
Proof. apply omap_app. Qed.

Lemma In_finished v evs : In v (finished evs) <-> In (Ev_monitorSet v) evs.
Proof.
  induction evs as [|e evs IH]; [reflexivity|].
  change (e :: evs) with ([e] ++ evs). rewrite finished_app.
  rewrite !in_app_iff, IH. destruct e; cbn; split; intros [H|H]; auto;
    try (destruct H as [H|[]]); try discriminate; try contradiction.
  - left. left. congruence.
  - left. left. congruence.
Qed.

Lemma started_inner evs :
  forallb (fun e => negb (is_start_exec e)) evs = true -> started evs = [].
Proof.
  induction evs as [|e evs IH]; [reflexivity|]. cbn [forallb]. intros H.
  apply andb_prop in H. destruct H as [He H].
  change (e :: evs) with ([e] ++ evs). rewrite started_app, (IH H).
  destruct e as [| | | ? [] | | | | | | | | |]; try reflexivity; discriminate.
Qed.

Lemma finished_none (P : event -> bool) evs :
  (forall v, P (Ev_monitorSet v) = false) ->
  forallb P evs = true -> finished evs = [].
Proof.
  intros HP. induction evs as [|e evs IH]; [reflexivity|]. cbn [forallb].
  intros H. apply andb_prop in H. destruct H as [He H].
  change (e :: evs) with ([e] ++ evs). rewrite finished_app, (IH H).
  destruct e; try reflexivity. rewrite HP in He. discriminate.
Qed.


Lemma cfg_same w w' :
  (fun sv => (config sv, visited sv)) <$> servicelist w' =
  (fun sv => (config sv, visited sv)) <$> servicelist w ->
  config <$> servicelist w' = config <$> servicelist w.
Proof.
  intros H. apply (f_equal (fmap fst)) in H.
  rewrite <- !list_fmap_compose in H. exact H.
Qed.

Lemma vis_mark_eq w s sv t :
  servicelist w !! s = Some sv ->
  vis (mk_world (alter (set_visited true) s (servicelist w)) t) s = true.
Proof.
  intros Hs. unfold vis. cbn [servicelist].
  now rewrite (lookup_alter_same _ _ _ _ Hs).
Qed.

Lemma vis_mark_ne w s v t :
  v <> s ->
  vis (mk_world (alter (set_visited true) s (servicelist w)) t) v = vis w v.
Proof.
  intros Hne. unfold vis. cbn [servicelist].
  now rewrite list_lookup_alter_ne by congruence.
Qed.

Lemma cfg_mark w s :
  config <$> alter (set_visited true) s (servicelist w) =
  config <$> servicelist w.
Proof.
  generalize (servicelist w) s. intros l.
  induction l as [|sv l IH]; intros [|i]; cbn; try reflexivity.
  f_equal. apply IH.
Qed.

Lemma cfg_lookup (l l' : list Service) s sv :
  config <$> l' = config <$> l -> l !! s = Some sv ->
  exists sv', l' !! s = Some sv' /\ config sv' = config sv.
Proof.
  intros H Hs. apply (f_equal (fun l => l !! s)) in H.
  rewrite !list_lookup_fmap, Hs in H. cbn in H.
  destruct (l' !! s) as [sv'|]; [|discriminate].
  exists sv'. split; [reflexivity|]. cbn in H. congruence.
Qed.

Lemma find_service_cfg same (l l' : list Service) i :
  config <$> l' = config <$> l ->
  find_service same l' i = find_service same l i.
Proof.
  revert l' i. induction l as [|sv l IH]; intros [|sv' l'] i H;
    try discriminate; [reflexivity|].
  cbn in H. injection H as Hc H. cbn [find_service].
  assert (Hn : name sv' = name sv) by (unfold config in Hc; congruence).
  rewrite Hn. destruct (same (name sv)); [reflexivity|]. now apply IH.
Qed.

Lemma find_service_lookup same (l : list Service) i p :
  find_service same l i = Some p ->
  exists sv, l !! (p - i)%nat = Some sv /\ (i <= p)%nat.
Proof.
  revert i. induction l as [|sv l IH]; intros i; cbn [find_service];
    [discriminate|].
  destruct (same (name sv)).
  - intros [= <-]. exists sv. rewrite Nat.sub_diag. split; [reflexivity|lia].
  - intros H. destruct (IH _ H) as (sv' & Hl & Hle). exists sv'.
    split; [|lia]. replace (p - i)%nat with (S (p - S i)) by lia. exact Hl.
Qed.

Lemma wp_to_wlp {A} (m : M A) (Q : A -> world -> Prop) w :
  wp m Q w -> wlp m Q w.
Proof.
  intros (a & w' & Hm & HQ) a' w'' Hm'. rewrite Hm in Hm'.
  injection Hm' as <- <-. exact HQ.
Qed.

Lemma sleeps_app tr1 tr2 : sleeps (tr1 ++ tr2) = sleeps tr1 ++ sleeps tr2.
Proof. apply omap_app. Qed.

Lemma output_events_no_sleep evs :
  forallb is_output_event evs = true -> sleeps evs = [].
Proof.
  induction evs as [|e evs IH]; [reflexivity|]. cbn [forallb]. intros H.
  apply andb_prop in H. destruct H as [He H].
  change (e :: evs) with ([e] ++ evs). rewrite sleeps_app, (IH H).
  destruct e; try discriminate; reflexivity.
Qed.

Section Engine.

Variable E : environment.

(** Modelled from the spec: [Util_getService] ([util.c]) is not among the
    sources at hand.  It finds the service of the given (unique) name by
    going through [servicelist], and yields NULL if there is none. *)
Definition Util_getService (S : string) : M (option Service_T) :=
  fun w => Ret (find_service (fun n => IS E n S) (servicelist w) 0%nat) w.

(** Modelled from the spec: [Util_monitorSet] ([util.c]) is not among the
    sources at hand.  It enables monitoring: a service that is not
    monitored is put in the state [Init], from which the next cycle takes it
    to [Yes]. *)
Definition Util_monitorSet (s : Service_T) : M unit :=
  let* sv := get_service s in
  emit (Ev_monitorSet s) ;;;
  match monitor sv with
  | Monitor_Not => update s (set_monitor Monitor_Init)
  | _ => ret tt
  end.

(** Modelled from the spec: [Util_monitorUnset] ([util.c]) is not among the
    sources at hand.  It disables monitoring of the service. *)
Definition Util_monitorUnset (s : Service_T) : M unit :=
  get_service s ;;;
  emit (Ev_monitorUnset s) ;;;
  update s (set_monitor Monitor_Not).

(** Modelled from the spec: [Util_resetInfo] ([util.c]) is not among the
    sources at hand.  It clears the sampled observation [info], which is not
    part of this model. *)
Definition Util_resetInfo (s : Service_T) : M unit :=
  get_service s ;;;
  emit (Ev_resetInfo s).

Definition isProcessRunning (s : Service_T) (refresh : bool) : M Z :=
  ask (fun tr => Util_isProcessRunning E tr s refresh)
      (Ev_isProcessRunning s refresh).

(** Modelled from the spec: [Process_exitStatus] (libmonit's [Process.c])
    is not among the sources at hand.  It yields the exit status of the
    child once the child has exited, and -1 before. *)
Definition exit_status (tr : list event) : Z :=
  match child_exited E tr with
  | Some st => Z.of_nat st
  | None => -1
  end.

Definition Process_exitStatus : M Z := ask exit_status Ev_Process_exitStatus.

Definition Event_post (s : Service_T) (state : State_Type) (m : message)
  : M unit :=
  emit (Ev_post s state m).

Definition Time_usleep (u : Z) : M unit := emit (Ev_usleep u).

(** [_getOutput]: the bytes read, at most [buflen - 1] of them. *)
Definition _getOutput (st : stream) (buflen : nat) : M string :=
  ask (fun tr => substring 0 (buflen - 1) (InputStream_readBytes E tr st))
      (Ev_readBytes st).

(** *** [_commandExecute] *)

(** The [do ... while] that waits for the child: the result is the last
    exit status read and the remaining timeout. *)
Fixpoint poll_loop (fuel : nat) (timeout : Z) : M (Z * Z) :=
  match fuel with
  | O => fun _ => OutOfFuel
  | S fuel =>
      Time_usleep 100000 ;;;
      let timeout := timeout - 100000 in
      let* status := Process_exitStatus in
      let* stopped := peek (Run_stopped E) in
      if (status <? 0) && (0 <? timeout) && negb stopped
      then poll_loop fuel timeout
      else ret (status, timeout)
  end.

(** The loop runs once and then only while the timeout is positive. *)
Definition poll_fuel (timeout : Z) : nat := S (Z.to_nat (timeout / 100000)).

(** The [do ... while] that collects the output of the child: [n] is the
    number of bytes read; [buf[n] = 0] ends them, and the two [%s] print
    them as far as their first NUL. *)
Fixpoint drain_loop (fuel : nat) (program : string) (msglen : nat)
  (timeout : Z) (total : Z) (msg : string) : M string :=
  match fuel with
  | O => fun _ => OutOfFuel
  | S fuel =>
      let* err := _getOutput Error_stream (STRLEN E) in
      let* buf := (if Z.of_nat (String.length err) <=? 0
              then _getOutput Input_stream (STRLEN E) else ret err) in
      let n := Z.of_nat (String.length buf) in
      if 0 <? n then
        emit (Ev_log (Log_debug_output (c_str buf))) ;;;
        let msg :=
          if total =? 0
          then snprintf msglen
                 (program ++ ": " ++
                  (if (timeout <=? 0)%Z then "Program timed out -- " else "") ++
                  c_str buf)%string
          else msg in
        let total := total + n in
        if Run_debug E && (total <? 2048)
        then drain_loop fuel program msglen timeout total msg
        else ret msg
      else ret msg
  end.

Definition drain_fuel : nat := 2048.

(** The environment overlay, as far as it is made of the data of this
    model: [MONIT_DATE], [MONIT_HOST] and the process figures come from
    outside. *)
Definition overlay (sv : Service) (c : command_ref) : list (string * string) :=
  let what := match c with
              | Ref_start => "Started"
              | Ref_stop => "Stopped"
              | Ref_restart => "Restarted"
              end%string in
  [("MONIT_SERVICE", name sv); ("MONIT_EVENT", what);
   ("MONIT_DESCRIPTION", what)]%string.

(** The result is the [int] returned, the text left in [msg] and the value
    left in [*timeout]. *)
Definition _commandExecute (S : Service_T) (c : command_ref) (msglen : nat)
  (timeout : Z) : M (Z * string * Z) :=
  let* sv := get_service S in
  match command_of sv c with
  | None => AssertFailure
  | Some cmd =>
      let msg := EmptyString in
      let status := -1 in
      let* thrown := ask (fun tr => Command_new E tr (arg0 cmd))
                    (Ev_Command_new (arg0 cmd)) in
      match thrown with
      | Some reason =>
          ret (status,
               snprintf msglen
                 ("Program " ++ arg0 cmd ++ " failed: " ++ reason)%string,
               timeout)
      | None =>
          (if is_process (type sv)
           then isProcessRunning S false ;;; ret tt else ret tt) ;;;
          let* P := ask (Command_execute E)
                   (Ev_Command_execute S c (arg cmd) (overlay sv c)) in
          if P : bool then
            let* (status, timeout) := poll_loop (poll_fuel timeout) timeout in
            let msg :=
              if timeout <=? 0
              then snprintf msglen
                     ("Program " ++ arg0 cmd ++ " timed out")%string
              else msg in
            let* msg := drain_loop drain_fuel (arg0 cmd) msglen timeout 0 msg in
            emit Ev_Process_free ;;;
            ret (status, msg, timeout)
          else ret (status, msg, timeout)
      end
  end.

(** *** [_waitStart] and [_waitStop] *)

Fixpoint waitStart_loop (fuel : nat) (s : Service_T) (wait timeout : Z)
  : M (Process_Status * Z) :=
  match fuel with
  | O => fun _ => OutOfFuel
  | S fuel =>
      let* pid := isProcessRunning s true in
      if negb (pid =? 0) then ret (Process_Started, timeout)
      else
        Time_usleep wait ;;;
        let timeout := timeout - wait in
        let wait := if wait <? 1000000 then wait * 2 else 1000000 in
        let* stopped := peek (Run_stopped E) in
        if (0 <? timeout) && negb stopped
        then waitStart_loop fuel s wait timeout
        else ret (Process_Stopped, timeout)
  end.

Definition waitStart_fuel (timeout : Z) : nat := S (Z.to_nat (timeout / 50000)).

Definition _waitStart (s : Service_T) (timeout : Z) : M (Process_Status * Z) :=
  waitStart_loop (waitStart_fuel timeout) s 50000 timeout.

Fixpoint waitStop_loop (fuel : nat) (pid : Z) (timeout : Z)
  : M (Process_Status * Z) :=
  match fuel with
  | O => fun _ => OutOfFuel
  | S fuel =>
      let* gone :=
        (if pid =? 0 then ret true
         else let* (r, errno) := ask (fun tr => getpgid E tr pid)
                                     (Ev_getpgid pid) in
              ret ((r =? -1) && negb (errno =? EPERM))) in
      if gone : bool then ret (Process_Stopped, timeout)
      else
        Time_usleep 100000 ;;;
        let timeout := timeout - 100000 in
        let* stopped := peek (Run_stopped E) in
        if (0 <? timeout) && negb stopped
        then waitStop_loop fuel pid timeout
        else ret (Process_Started, timeout)
  end.

Definition _waitStop (pid : Z) (timeout : Z) : M (Process_Status * Z) :=
  waitStop_loop (poll_fuel timeout) pid timeout.

(** *** The dispatcher *)

(** [*msg ? msg : "no output"]. *)
Definition or_no_output (msg : string) : string :=
  match msg with
  | EmptyString => "no output"%string
  | _ => msg
  end.

(** The statement [if (s->start) { ... } else { ... }] of [_doStart]: run
    the start program, unless the service is a process that runs already,
    and post the outcome. *)
Definition start_program (s : Service_T) : M unit :=
  let* sv := get_service s in
  match start sv with
  | Some cmd =>
      let* idle :=
        (if negb (is_process (type sv)) then ret true
         else let* pid := isProcessRunning s false in
              ret (pid =? 0)) in
      if idle : bool then
        emit (Ev_log (Log_start s (arg0 cmd))) ;;;
        let timeout := timeout cmd * USEC_PER_SEC in
        let* (r, timeout) :=
          _commandExecute s Ref_start (STRLEN E) timeout in
        let (status, msg) := r : Z * string in
        let* failed :=
          (if is_process (type sv)
           then let* (st, _) := _waitStart s timeout in
                match st with
                | Process_Started => ret (status <? 0)
                | Process_Stopped => ret true
                end
           else ret (status <? 0)) in
        if failed : bool
        then Event_post s State_Failed
               (Failed_to_start status (or_no_output msg))
        else Event_post s State_Succeeded Started
      else ret tt
  | None => emit (Ev_log (Log_start_skipped s))
  end.

(** The recursion of [_doStart] follows the dependency graph; [fuel] bounds
    its depth. *)
Fixpoint _doStart (fuel : nat) (s : Service_T) : M unit :=
  match fuel with
  | O => fun _ => OutOfFuel
  | S fuel =>
      let* sv := get_service s in
      if visited sv then ret tt
      else
        update s (set_visited true) ;;;
        for_each (dependantlist sv) (fun d =>
          let* parent := Util_getService d in
          match parent with
          | None => AssertFailure
          | Some parent => _doStart fuel parent
          end) ;;;
        start_program s ;;;
        Util_monitorSet s
  end.

Definition _doStop (s : Service_T) (flag : bool) : M bool :=
  let* sv := get_service s in
  if depend_visited sv then ret true
  else
    update s (set_depend_visited true) ;;;
    let* rv :=
      match stop sv with
      | Some cmd =>
          let* busy :=
            (if negb (is_process (type sv)) then ret true
             else let* pid := isProcessRunning s false in
                  ret (negb (pid =? 0))) in
          if busy : bool then
            emit (Ev_log (Log_stop s (arg0 cmd))) ;;;
            let timeout := timeout cmd * USEC_PER_SEC in
            let* pid := isProcessRunning s true in
            let* (r, timeout) :=
              _commandExecute s Ref_stop (STRLEN E) timeout in
            let (status, msg) := r : Z * string in
            let* failed :=
              (if is_process (type sv)
               then let* (st, _) := _waitStop pid timeout in
                    match st with
                    | Process_Stopped => ret (status <? 0)
                    | Process_Started => ret true
                    end
               else ret (status <? 0)) in
            if failed : bool
            then Event_post s State_Failed
                   (Failed_to_stop status (or_no_output msg)) ;;;
                 ret false
            else Event_post s State_Succeeded Stopped ;;; ret true
          else ret true
      | None => emit (Ev_log (Log_stop_skipped s)) ;;; ret true
      end in
    (if flag then Util_monitorUnset s else Util_resetInfo s) ;;;
    ret rv.

Definition _doRestart (s : Service_T) : M unit :=
  let* sv := get_service s in
  match restart sv with
  | Some cmd =>
      emit (Ev_log (Log_restart s (arg0 cmd))) ;;;
      Util_resetInfo s ;;;
      let timeout := timeout cmd * USEC_PER_SEC in
      let* (r, timeout) :=
        _commandExecute s Ref_restart (STRLEN E) timeout in
      let (status, msg) := r : Z * string in
      let* failed :=
        (if is_process (type sv)
         then let* (st, _) := _waitStart s timeout in
              match st with
              | Process_Started => ret (status <? 0)
              | Process_Stopped => ret true
              end
         else ret (status <? 0)) in
      if failed : bool
      then Event_post s State_Failed (Failed_to_restart status msg)
      else Event_post s State_Succeeded Restarted
  | None => emit (Ev_log (Log_restart_skipped s))
  end ;;;
  Util_monitorSet s.

Fixpoint _doMonitor (fuel : nat) (s : Service_T) (flag : bool) : M unit :=
  match fuel with
  | O => fun _ => OutOfFuel
  | S fuel =>
      let* sv := get_service s in
      if visited sv then ret tt
      else
        update s (set_visited true) ;;;
        for_each (dependantlist sv) (fun d =>
          let* parent := Util_getService d in
          match parent with
          | None => AssertFailure
          | Some parent => _doMonitor fuel parent flag
          end) ;;;
        Util_monitorSet s
  end.

Definition _doUnmonitor (s : Service_T) (flag : bool) : M unit :=
  let* sv := get_service s in
  if depend_visited sv then ret tt
  else
    update s (set_depend_visited true) ;;;
    Util_monitorUnset s.

(** [for (child = servicelist; child; child = child->next)]: the nodes of the
    list, in order. *)
Definition each_service (body : Service_T -> M unit) : M unit :=
  fun w => for_each (seq 0 (length (servicelist w))) body w.

Fixpoint _doDepend (fuel : nat) (s : Service_T) (action : Action_Type)
  (flag : bool) : M unit :=
  match fuel with
  | O => fun _ => OutOfFuel
  | S fuel =>
      get_service s ;;;
      each_service (fun child =>
        let* cv := get_service child in
        let* sv := get_service s in
        if existsb (fun d => IS E d (name sv)) (dependantlist cv) then
          match action with
          | Action_Start => _doStart fuel child
          | Action_Monitor => _doMonitor fuel child flag
          | _ => ret tt
          end ;;;
          _doDepend fuel child action flag ;;;
          match action with
          | Action_Stop => _doStop child flag ;;; ret tt
          | Action_Unmonitor => _doUnmonitor child flag
          | _ => ret tt
          end
        else ret tt)
  end.

Definition control_service (fuel : nat) (S : string) (A : Action_Type)
  : M bool :=
  let* found := Util_getService S in
  match found with
  | None => emit (Ev_log (Log_doesnt_exist S)) ;;; ret false
  | Some s =>
      match A with
      | Action_Start =>
          _doDepend fuel s Action_Stop false ;;;
          _doStart fuel s ;;;
          _doDepend fuel s Action_Start false ;;;
          ret true
      | Action_Stop =>
          _doDepend fuel s Action_Stop true ;;;
          _doStop s true ;;;
          ret true
      | Action_Restart =>
          emit (Ev_log (Log_trying_to_restart s)) ;;;
          _doDepend fuel s Action_Stop false ;;;
          let* sv := get_service s in
          match restart sv with
          | Some _ =>
              _doRestart s ;;;
              _doDepend fuel s Action_Start false ;;;
              ret true
          | None =>
              let* stopped := _doStop s false in
              if stopped : bool then
                _doStart fuel s ;;;
                _doDepend fuel s Action_Start false ;;;
                ret true
              else
                Util_monitorSet s ;;;
                ret true
          end
      | Action_Monitor => _doMonitor fuel s false ;;; ret true
      | Action_Unmonitor =>
          _doDepend fuel s Action_Unmonitor false ;;;
          _doUnmonitor s false ;;;
          ret true
      | _ => emit (Ev_log (Log_invalid_action S A)) ;;; ret false
      end
  end.

Definition reset_depend : M unit :=
  fun w =>
    Ret tt (mk_world
              (map (fun sv => set_depend_visited false (set_visited false sv))
                   (servicelist w))
              (trace w)).

(** *** The wait loops come to an end *)

Ltac step_call :=
  unfold bind, isProcessRunning, Process_exitStatus, Time_usleep, _getOutput,
    Event_post, ask, emit, peek, ret; cbn beta iota.

Lemma waitStart_loop_returns fuel s wait timeout w :
  50000 <= wait -> timeout < Z.of_nat fuel * 50000 -> (0 < fuel)%nat ->
  wp (waitStart_loop fuel s wait timeout) (fun _ w' => adds is_wait_event w w') w.
Proof.
  revert wait timeout w.
  induction fuel as [|fuel IH]; intros wait timeout w Hwait Hfuel Hpos; [lia|].
  cbn [waitStart_loop]. unfold wp. step_call.
  destruct (negb _).
  { eexists _, _. split; [reflexivity|]. now apply adds_emit. }
  destruct (Z.ltb_spec 0 (timeout - wait)); cbn [andb];
    [destruct (negb _)|].
  - destruct (IH (if wait <? 1000000 then wait * 2 else 1000000)
                (timeout - wait)
                (mk_world (servicelist w)
                   ((trace w ++ [Ev_isProcessRunning s true]) ++
                    [Ev_usleep wait])))
      as (a & w' & Hrun & Hev).
    + destruct (wait <? 1000000); lia.
    + lia.
    + lia.
    + exists a, w'. split; [exact Hrun|].
      eapply adds_trans; [|exact Hev].
      split; [reflexivity|]. cbn [trace]. rewrite <- app_assoc.
      eexists. split; reflexivity.
  - eexists _, _. split; [reflexivity|].
    split; [reflexivity|]. cbn [trace]. rewrite <- app_assoc.
    eexists. split; reflexivity.
  - eexists _, _. split; [reflexivity|].
    split; [reflexivity|]. cbn [trace]. rewrite <- app_assoc.
    eexists. split; reflexivity.
Qed.

Lemma fuel_enough timeout q :
  0 < q -> timeout < Z.of_nat (S (Z.to_nat (timeout / q))) * q.
Proof.
  intros Hq. rewrite Nat2Z.inj_succ.
  destruct (Z.le_gt_cases 0 timeout) as [H|H].
  - rewrite Z2Nat.id by (apply Z.div_pos; lia).
    pose proof (Z.mod_pos_bound timeout q Hq).
    pose proof (Z.div_mod timeout q). nia.
  - assert (0 <= Z.of_nat (Z.to_nat (timeout / q))) by lia. nia.
Qed.

Lemma waitStart_returns s timeout w :
  wp (_waitStart s timeout) (fun _ w' => adds is_wait_event w w') w.
Proof.
  apply waitStart_loop_returns; [lia| |unfold waitStart_fuel; lia].
  apply fuel_enough. lia.
Qed.

Lemma waitStop_loop_returns fuel pid timeout w :
  timeout < Z.of_nat fuel * 100000 -> (0 < fuel)%nat ->
  wp (waitStop_loop fuel pid timeout) (fun _ w' => adds is_wait_event w w') w.
Proof.
  revert timeout w.
  induction fuel as [|fuel IH]; intros timeout w Hfuel Hpos; [lia|].
  cbn [waitStop_loop]. unfold wp. step_call.
  assert (Hgo : forall w1, adds is_wait_event w w1 ->
    exists a w',
      (if (0 <? timeout - 100000) &&
          negb (Run_stopped E (trace w1 ++ [Ev_usleep 100000]))
       then waitStop_loop fuel pid (timeout - 100000)
       else fun w => Ret (Process_Started, timeout - 100000) w)
        (mk_world (servicelist w1) (trace w1 ++ [Ev_usleep 100000]))
      = Ret a w' /\ adds is_wait_event w w').
  { intros w1 Hw1.
    assert (Hev : adds is_wait_event w
              (mk_world (servicelist w1) (trace w1 ++ [Ev_usleep 100000]))).
    { eapply adds_trans; [exact Hw1|now apply adds_emit]. }
    destruct (Z.ltb_spec 0 (timeout - 100000)); cbn [andb];
      [destruct (negb _)|]; try (eexists _, _; split; [reflexivity|exact Hev]).
    destruct (IH (timeout - 100000)
                (mk_world (servicelist w1) (trace w1 ++ [Ev_usleep 100000])))
      as (a & w' & Hrun & Hev'); [lia|lia|].
    exists a, w'. split; [exact Hrun|].
    eapply adds_trans; [exact Hev|exact Hev']. }
  destruct (pid =? 0).
  - eexists _, _. split; [reflexivity|apply adds_refl].
  - destruct (getpgid E (trace w) pid) as [r errno]. cbn beta iota.
    destruct ((r =? -1) && negb (errno =? EPERM)).
    + eexists _, _. split; [reflexivity|now apply adds_emit].
    + apply (Hgo (mk_world (servicelist w) (trace w ++ [Ev_getpgid pid]))).
      now apply adds_emit.
Qed.

Lemma waitStop_returns pid timeout w :
  wp (_waitStop pid timeout) (fun _ w' => adds is_wait_event w w') w.
Proof.
  apply waitStop_loop_returns; [|unfold poll_fuel; lia].
  apply fuel_enough. lia.
Qed.

Lemma poll_loop_returns fuel timeout w :
  timeout < Z.of_nat fuel * 100000 -> (0 < fuel)%nat ->
  wp (poll_loop fuel timeout) (fun _ w' => adds is_wait_event w w') w.
Proof.
  revert timeout w.
  induction fuel as [|fuel IH]; intros timeout w Hfuel Hpos; [lia|].
  cbn [poll_loop]. unfold wp. step_call.
  set (w1 := mk_world (servicelist w)
               ((trace w ++ [Ev_usleep 100000]) ++ [Ev_Process_exitStatus])).
  assert (Hev : adds is_wait_event w w1).
  { split; [reflexivity|]. cbn [trace w1]. rewrite <- app_assoc.
    eexists. split; reflexivity. }
  destruct (_ <? 0); cbn [andb];
    [|eexists _, _; split; [reflexivity|exact Hev]].
  destruct (Z.ltb_spec 0 (timeout - 100000)); cbn [andb];
    [destruct (negb _)|]; try (eexists _, _; split; [reflexivity|exact Hev]).
  destruct (IH (timeout - 100000) w1) as (a & w' & Hrun & Hev'); [lia|lia|].
  exists a, w'. split; [exact Hrun|].
  eapply adds_trans; [exact Hev|exact Hev'].
Qed.

Lemma drain_loop_returns fuel program msglen timeout total msg w :
  2048 <= Z.of_nat fuel + total -> (0 < fuel)%nat ->
  wp (drain_loop fuel program msglen timeout total msg)
     (fun msg' w' => adds is_output_event w w' /\ (0 < total -> msg' = msg)) w.
Proof.
  revert total msg w.
  induction fuel as [|fuel IH]; intros total msg w Hfuel Hpos; [lia|].
  cbn [drain_loop]. unfold _getOutput.
  apply wp_bind, wp_ask.
  apply wp_seq with (P := fun _ w2 => adds is_output_event w w2).
  { destruct (_ <=? 0); [apply wp_ask|apply wp_ret]; cbn [trace servicelist].
    - split; [reflexivity|]. rewrite <- app_assoc.
      eexists. split; reflexivity.
    - now apply adds_emit. }
  intros buf w2 Hw2.
  destruct (Z.ltb_spec 0 (Z.of_nat (String.length buf))) as [Hn|Hn];
    [|apply wp_ret; auto].
  apply wp_bind, wp_emit.
  set (w3 := mk_world _ _).
  assert (Hw3 : adds is_output_event w w3).
  { eapply adds_trans; [exact Hw2|now apply adds_emit]. }
  match goal with
  | |- wp (if _ then _ else ret ?m) _ _ =>
      assert (Hmsg : 0 < total -> m = msg)
  end.
  { intros Ht. destruct (Z.eqb_spec total 0); [lia|reflexivity]. }
  destruct (Run_debug E); cbn [andb]; [|apply wp_ret; auto].
  destruct (Z.ltb_spec (total + Z.of_nat (String.length buf)) 2048);
    [|apply wp_ret; auto].
  eapply wp_mono; [apply IH; lia|].
  intros a w' [Hev Hkeep]. split.
  - eapply adds_trans; [exact Hw3|exact Hev].
  - intros Ht. rewrite Hkeep by lia. auto.
Qed.

(** *** One turn of each wait loop *)

(** [_waitStart]: the process is not seen, the timeout has not run out and
    no shutdown is requested: the loop sleeps and goes round again. *)
Lemma waitStart_loop_again fuel s wait timeout w :
  Util_isProcessRunning E (trace w) s true = 0 ->
  Run_stopped E (trace w ++ [Ev_isProcessRunning s true; Ev_usleep wait])
    = false ->
  0 < timeout - wait ->
  waitStart_loop (S fuel) s wait timeout w =
  waitStart_loop fuel s (if wait <? 1000000 then wait * 2 else 1000000)
    (timeout - wait)
    (mk_world (servicelist w)
       (trace w ++ [Ev_isProcessRunning s true; Ev_usleep wait])).
Proof.
  intros Hrun Hstop Ht. cbn [waitStart_loop]. step_call.
  rewrite Hrun. cbn [Z.eqb negb trace servicelist].
  rewrite <- app_assoc. cbn [app]. rewrite Hstop.
  destruct (Z.ltb_spec 0 (timeout - wait)); [reflexivity|lia].
Qed.

Lemma waitStart_loop_turn fuel s wait timeout wait' timeout' w :
  Util_isProcessRunning E (trace w) s true = 0 ->
  Run_stopped E (trace w ++ [Ev_isProcessRunning s true; Ev_usleep wait])
    = false ->
  (0 <? timeout') = true ->
  timeout' = timeout - wait ->
  wait' = (if wait <? 1000000 then wait * 2 else 1000000) ->
  waitStart_loop (S fuel) s wait timeout w =
  waitStart_loop fuel s wait' timeout'
    (mk_world (servicelist w)
       (trace w ++ [Ev_isProcessRunning s true; Ev_usleep wait])).
Proof.
  intros Hrun Hstop Ht -> ->. apply waitStart_loop_again; auto.
  now apply Z.ltb_lt.
Qed.

(** [_waitStart]: the process is not seen and, after the sleep, the timeout
    has run out or shutdown is requested: the loop is left. *)
Lemma waitStart_loop_leave fuel s wait timeout w :
  Util_isProcessRunning E (trace w) s true = 0 ->
  timeout - wait <= 0 \/
  Run_stopped E (trace w ++ [Ev_isProcessRunning s true; Ev_usleep wait])
    = true ->
  waitStart_loop (S fuel) s wait timeout w =
  Ret (Process_Stopped, timeout - wait)
    (mk_world (servicelist w)
       (trace w ++ [Ev_isProcessRunning s true; Ev_usleep wait])).
Proof.
  intros Hrun Hend. cbn [waitStart_loop]. step_call.
  rewrite Hrun. cbn [Z.eqb negb trace servicelist].
  rewrite <- app_assoc. cbn [app].
  destruct Hend as [Ht|Hstop].
  - destruct (Z.ltb_spec 0 (timeout - wait)); [lia|reflexivity].
  - rewrite Hstop, andb_false_r. reflexivity.
Qed.

(** [_waitStop] and the executor leave their loops after the one sleep of
    100 ms at whose end [Run.stopped] is found set. *)
Lemma waitStop_loop_shutdown fuel pid timeout w :
  pid <> 0 ->
  (let '(r, errno) := getpgid E (trace w) pid in
   (r =? -1) && negb (errno =? EPERM)) = false ->
  Run_stopped E (trace w ++ [Ev_getpgid pid; Ev_usleep 100000]) = true ->
  waitStop_loop (S fuel) pid timeout w =
  Ret (Process_Started, timeout - 100000)
    (mk_world (servicelist w)
       (trace w ++ [Ev_getpgid pid; Ev_usleep 100000])).
Proof.
  intros Hpid Halive Hstop. cbn [waitStop_loop]. step_call.
  destruct (Z.eqb_spec pid 0); [contradiction|].
  destruct (getpgid E (trace w) pid) as [r errno]. cbn beta iota.
  rewrite Halive. cbn [trace servicelist]. rewrite <- app_assoc. cbn [app].
  rewrite Hstop, andb_false_r. reflexivity.
Qed.

Lemma poll_loop_shutdown fuel timeout w :
  Run_stopped E (trace w ++ [Ev_usleep 100000; Ev_Process_exitStatus])
    = true ->
  exists status,
    poll_loop (S fuel) timeout w =
    Ret (status, timeout - 100000)
      (mk_world (servicelist w)
         (trace w ++ [Ev_usleep 100000; Ev_Process_exitStatus])).
Proof.
  intros Hstop. cbn [poll_loop]. step_call. cbn [trace servicelist].
  rewrite <- app_assoc. cbn [app]. rewrite Hstop, andb_false_r.
  eexists. reflexivity.
Qed.

(** *** What the executor does once the child is spawned *)

(** The history of [k] polls: a sleep of 100 ms and a look at the exit
    status, [k] times. *)
Fixpoint polls (k : nat) : list event :=
  match k with
  | O => []
  | S k => Ev_usleep 100000 :: Ev_Process_exitStatus :: polls k
  end.

(** The exit status read by poll number [j] (from 1) after history [tr]. *)
Definition status_at (tr : list event) (j : nat) : Z :=
  exit_status (tr ++ polls (j - 1) ++ [Ev_usleep 100000]).

(** The loop condition after poll number [j]: no exit status yet, timeout
    left, no shutdown requested. *)
Definition keeps_waiting (tr : list event) (timeout : Z) (j : nat) : bool :=
  (status_at tr j <? 0) && (0 <? timeout - 100000 * Z.of_nat j) &&
  negb (Run_stopped E (tr ++ polls j)).

Lemma polls_succ_r k :
  polls (S k) = polls k ++ [Ev_usleep 100000; Ev_Process_exitStatus].
Proof. induction k as [|k IH]; [reflexivity|]. cbn [polls app] in *. now rewrite <- IH. Qed.

Lemma status_at_shift tr j :
  (1 <= j)%nat ->
  status_at (tr ++ [Ev_usleep 100000; Ev_Process_exitStatus]) j =
  status_at tr (S j).
Proof.
  intros Hj. unfold status_at. destruct j as [|j]; [lia|].
  cbn [Nat.sub]. rewrite Nat.sub_0_r. cbn [polls].
  rewrite <- app_assoc. reflexivity.
Qed.

Lemma keeps_waiting_shift tr timeout j :
  (1 <= j)%nat ->
  keeps_waiting (tr ++ [Ev_usleep 100000; Ev_Process_exitStatus])
    (timeout - 100000) j =
  keeps_waiting tr timeout (S j).
Proof.
  intros Hj. unfold keeps_waiting. rewrite status_at_shift by exact Hj.
  rewrite <- app_assoc. cbn [app polls].
  replace (timeout - 100000 - 100000 * Z.of_nat j)
    with (timeout - 100000 * Z.of_nat (S j)) by lia.
  reflexivity.
Qed.

(** The wait loop of the executor: [k] polls, the first [k - 1] of which
    found the loop condition true and the last of which found it false. *)
Lemma poll_loop_spec fuel timeout w :
  timeout < Z.of_nat fuel * 100000 -> (0 < fuel)%nat ->
  exists k, (1 <= k)%nat /\
    poll_loop fuel timeout w =
      Ret (status_at (trace w) k, timeout - 100000 * Z.of_nat k)
          (mk_world (servicelist w) (trace w ++ polls k)) /\
    keeps_waiting (trace w) timeout k = false /\
    forall j, (1 <= j < k)%nat -> keeps_waiting (trace w) timeout j = true.
Proof.
  revert timeout w.
  induction fuel as [|fuel IH]; intros timeout w Hfuel Hpos; [lia|].
  cbn [poll_loop]. step_call. cbn [trace servicelist].
  rewrite <- app_assoc. cbn [app].
  change (exit_status (trace w ++ [Ev_usleep 100000]))
    with (status_at (trace w) 1).
  change (trace w ++ [Ev_usleep 100000; Ev_Process_exitStatus])
    with (trace w ++ polls 1).
  assert (Hc : (status_at (trace w) 1 <? 0) && (0 <? timeout - 100000) &&
               negb (Run_stopped E (trace w ++ polls 1)) =
               keeps_waiting (trace w) timeout 1).
  { unfold keeps_waiting.
    replace (100000 * Z.of_nat 1) with 100000 by lia. reflexivity. }
  rewrite Hc. clear Hc.
  destruct (keeps_waiting (trace w) timeout 1) eqn:Hk.
  - assert (Ht : 0 < timeout - 100000).
    { unfold keeps_waiting in Hk. apply andb_prop in Hk. destruct Hk as [Hk _].
      apply andb_prop in Hk. destruct Hk as [_ Hk]. apply Z.ltb_lt in Hk. lia. }
    destruct (IH (timeout - 100000)
                (mk_world (servicelist w) (trace w ++ polls 1)))
      as (k & Hk1 & Hrun & Hend & Hbefore); [lia|lia|].
    exists (S k). split; [lia|]. cbn [trace servicelist polls] in *.
    rewrite Hrun, status_at_shift by exact Hk1.
    rewrite keeps_waiting_shift in Hend by exact Hk1.
    rewrite <- app_assoc. cbn [app].
    replace (timeout - 100000 - 100000 * Z.of_nat k)
      with (timeout - 100000 * Z.of_nat (S k)) by lia.
    split; [reflexivity|]. split; [exact Hend|].
    intros j Hj. destruct j as [|[|j]]; [lia|exact Hk|].
    rewrite <- keeps_waiting_shift by lia. apply Hbefore. lia.
  - exists 1%nat. split; [lia|]. split; [reflexivity|].
    split; [exact Hk|]. intros j Hj. lia.
Qed.

(** The bytes the first turn of the output loop gets: those of the error
    stream, or else those of the input stream. *)
Definition first_output (tr : list event) : string :=
  let err := substring 0 (STRLEN E - 1)
               (InputStream_readBytes E tr Error_stream) in
  if Z.of_nat (String.length err) <=? 0
  then substring 0 (STRLEN E - 1)
         (InputStream_readBytes E (tr ++ [Ev_readBytes Error_stream])
            Input_stream)
  else err.

(** The message after the output loop: the first output as far as its
    first NUL, with its prefix, or the message as it was when there is
    none. *)
Definition reported (program : string) (msglen : nat) (timeout : Z)
  (msg out : string) : string :=
  match out with
  | EmptyString => msg
  | _ => snprintf msglen
           (program ++ ": " ++
            (if (timeout <=? 0)%Z then "Program timed out -- " else "") ++
            c_str out)%string
  end.

Lemma drain_loop_message fuel program msglen timeout msg w :
  (2048 <= fuel)%nat ->
  wp (drain_loop fuel program msglen timeout 0 msg)
     (fun msg' w' =>
        adds is_output_event w w' /\
        msg' = reported program msglen timeout msg (first_output (trace w))) w.
Proof.
  intros Hfuel. destruct fuel as [|fuel]; [lia|].
  cbn [drain_loop]. unfold _getOutput.
  apply wp_bind, wp_ask.
  apply wp_seq with
    (P := fun buf w2 => adds is_output_event w w2 /\ buf = first_output (trace w)).
  { unfold first_output. cbv zeta.
    destruct (_ <=? 0); [apply wp_ask|apply wp_ret]; cbn [trace servicelist].
    - split; [|reflexivity]. split; [reflexivity|].
      rewrite <- app_assoc. eexists. split; reflexivity.
    - split; [now apply adds_emit|reflexivity]. }
  intros buf w2 [Hw2 ->]. unfold reported.
  destruct (first_output (trace w)) as [|c out] eqn:Hout.
  { cbn [String.length Z.of_nat Z.ltb Z.compare]. apply wp_ret. auto. }
  assert (Hn : 0 < Z.of_nat (String.length (String c out))).
  { cbn [String.length]. lia. }
  destruct (Z.ltb_spec 0 (Z.of_nat (String.length (String c out))));
    [|lia].
  apply wp_bind, wp_emit. set (w3 := mk_world _ _).
  assert (Hw3 : adds is_output_event w w3).
  { eapply adds_trans; [exact Hw2|now apply adds_emit]. }
  change (0 =? 0) with true. cbv iota.
  destruct (Run_debug E); cbn [andb]; [|apply wp_ret; auto].
  destruct (Z.ltb_spec (0 + Z.of_nat (String.length (String c out))) 2048);
    [|apply wp_ret; auto].
  eapply wp_mono; [apply drain_loop_returns; lia|].
  intros a w' [Hev Hkeep]. split.
  - eapply adds_trans; [exact Hw3|exact Hev].
  - apply Hkeep. lia.
Qed.

(** The history up to the moment the child is spawned. *)
Definition spawned (S : Service_T) (c : command_ref) (sv : Service)
  (cmd : command_t) (tr : list event) : list event :=
  tr ++ Ev_Command_new (arg0 cmd) ::
        (if is_process (type sv) then [Ev_isProcessRunning S false] else []) ++
        [Ev_Command_execute S c (arg cmd) (overlay sv c)].

(** C6 (as amended).  Once the child is spawned, the executor polls it every
    100 ms and takes 100 ms off the remaining timeout at each poll; the wait
    ends at the first poll after which the child has exited, the timeout
    has run out or shutdown is requested; the exit status read by that poll
    is returned, which is -1 when the child has not exited; and when the
    timeout has run out the message is ["Program <p> timed out"], or, if
    the child has output, ["<p>: Program timed out -- <output>"] with the
    output as far as its first NUL byte, each cut to [msglen - 1] bytes. *)
Theorem commandExecute_polls_and_reports (S : Service_T) (c : command_ref)
  (msglen : nat) (timeout : Z) (w : world) (sv : Service) (cmd : command_t) :
  servicelist w !! S = Some sv ->
  command_of sv c = Some cmd ->
  Command_new E (trace w) (arg0 cmd) = None ->
  Command_execute E
    (trace w ++ Ev_Command_new (arg0 cmd) ::
       (if is_process (type sv) then [Ev_isProcessRunning S false] else []))
    = true ->
  let tr := spawned S c sv cmd (trace w) in
  exists k : nat,
    (1 <= k)%nat /\
    keeps_waiting tr timeout k = false /\
    (forall j, (1 <= j < k)%nat -> keeps_waiting tr timeout j = true) /\
    let left := timeout - 100000 * Z.of_nat k in
    let out := first_output (tr ++ polls k) in
    exists msg w' evs,
      _commandExecute S c msglen timeout w =
        Ret (status_at tr k, msg, left) w' /\
      trace w' = tr ++ polls k ++ evs /\ sleeps evs = [] /\
      (status_at tr k =
         match child_exited E (tr ++ polls (k - 1) ++ [Ev_usleep 100000]) with
         | Some st => Z.of_nat st
         | None => -1
         end) /\
      (left <= 0 -> out = EmptyString ->
       msg = snprintf msglen ("Program " ++ arg0 cmd ++ " timed out")%string) /\
      (left <= 0 -> out <> EmptyString ->
       msg = snprintf msglen
               (arg0 cmd ++ ": Program timed out -- " ++ c_str out)%string).
Proof.
  intros Hs Hc Hnew Hexec tr.
  set (w2 := mk_world (servicelist w) tr).
  destruct (poll_loop_spec (poll_fuel timeout) timeout w2)
    as (k & Hk & Hpoll & Hend & Hbefore).
  { apply fuel_enough. lia. }
  { unfold poll_fuel. lia. }
  exists k. split; [exact Hk|]. split; [exact Hend|]. split; [exact Hbefore|].
  cbv zeta.
  set (left := timeout - 100000 * Z.of_nat k) in *.
  set (msg0 := if left <=? 0
               then snprintf msglen ("Program " ++ arg0 cmd ++ " timed out")
               else EmptyString).
  destruct (drain_loop_message drain_fuel (arg0 cmd) msglen left msg0
              (mk_world (servicelist w) (tr ++ polls k)))
    as (msg & w3 & Hdrain & [Hsv (evs & Htr & Hsl)] & Hmsg);
    [unfold drain_fuel; lia|].
  cbn [trace servicelist] in *.
  exists msg, (mk_world (servicelist w3) (trace w3 ++ [Ev_Process_free])),
    (evs ++ [Ev_Process_free]).
  split; [|split; [|split; [|split; [|split]]]].
  - unfold _commandExecute, bind at 1, get_service. rewrite Hs, Hc.
    unfold bind at 1, ask at 1. rewrite Hnew. cbn beta iota.
    clear Hmsg Htr Hend Hbefore. subst msg0 left.
    revert Hpoll Hdrain Hexec. unfold w2, tr, spawned.
    destruct (is_process (type sv)); cbn [app trace servicelist];
      intros Hpoll Hdrain Hexec;
      step_call; cbn [trace servicelist]; rewrite <- ?app_assoc; cbn [app];
      rewrite Hexec, Hpoll; cbn [trace servicelist];
      rewrite Hdrain; reflexivity.
  - cbn [trace]. rewrite Htr, <- !app_assoc. reflexivity.
  - rewrite sleeps_app, (output_events_no_sleep _ Hsl). reflexivity.
  - reflexivity.
  - intros Hleft Hout. rewrite Hmsg, Hout. cbn [reported]. unfold msg0.
    destruct (Z.leb_spec left 0); [reflexivity|lia].
  - intros Hleft Hout. rewrite Hmsg. unfold reported.
    destruct (first_output (tr ++ polls k)); [congruence|].
    destruct (Z.leb_spec left 0); [reflexivity|lia].
Qed.

(** Without a child the executor returns -1: when [Command_new] throws the
    message names the reason, and when no process handle comes back the
    message is empty. *)
Lemma commandExecute_not_spawned (S : Service_T) (c : command_ref)
  (msglen : nat) (timeout : Z) (w : world) (sv : Service) (cmd : command_t)
  (reason : string) :
  servicelist w !! S = Some sv ->
  command_of sv c = Some cmd ->
  Command_new E (trace w) (arg0 cmd) = Some reason ->
  _commandExecute S c msglen timeout w =
  Ret (-1,
       snprintf msglen ("Program " ++ arg0 cmd ++ " failed: " ++ reason)%string,
       timeout)
      (mk_world (servicelist w) (trace w ++ [Ev_Command_new (arg0 cmd)])).
Proof.
  intros Hs Hc Hnew. unfold _commandExecute, bind at 1, get_service.
  rewrite Hs, Hc. unfold bind at 1, ask at 1. rewrite Hnew. reflexivity.
Qed.

(** *** The executor, as the dispatcher sees it *)

(** The executor always returns; it leaves the services alone and spawns at
    most one child, for the command it was given. *)
Lemma commandExecute_returns (S : Service_T) (c : command_ref) (msglen : nat)
  (timeout : Z) (w : world) (sv : Service) (cmd : command_t) :
  servicelist w !! S = Some sv ->
  command_of sv c = Some cmd ->
  wp (_commandExecute S c msglen timeout)
     (fun _ w' =>
        servicelist w' = servicelist w /\
        exists pre mid post,
          trace w' = trace w ++ pre ++ mid ++ post /\
          forallb is_inner_event pre = true /\
          forallb is_inner_event post = true /\
          (mid = [] \/
           mid = [Ev_Command_execute S c (arg cmd) (overlay sv c)])) w.
Proof.
  intros Hs Hc. unfold _commandExecute.
  apply wp_bind, (wp_get_service _ _ _ _ Hs). rewrite Hc.
  apply wp_bind, wp_ask. cbn [trace servicelist].
  destruct (Command_new E (trace w) (arg0 cmd)) as [reason|].
  { apply wp_ret. cbn [trace servicelist]. split; [reflexivity|].
    exists [Ev_Command_new (arg0 cmd)], [], []. auto. }
  set (pre := Ev_Command_new (arg0 cmd) ::
              (if is_process (type sv) then [Ev_isProcessRunning S false]
               else [])).
  assert (Hpre : forallb is_inner_event pre = true).
  { unfold pre. destruct (is_process (type sv)); reflexivity. }
  apply wp_seq with
    (P := fun _ w1 => w1 = mk_world (servicelist w) (trace w ++ pre)).
  { unfold pre. destruct (is_process (type sv)).
    - apply wp_bind. unfold isProcessRunning. apply wp_ask, wp_ret.
      cbn [trace servicelist]. now rewrite <- app_assoc.
    - apply wp_ret. reflexivity. }
  intros _ w1 ->. apply wp_bind, wp_ask. cbn [trace servicelist].
  set (mid := [Ev_Command_execute S c (arg cmd) (overlay sv c)]).
  destruct (Command_execute E (trace w ++ pre)).
  2:{ apply wp_ret. cbn [trace servicelist]. split; [reflexivity|].
      exists pre, mid, []. rewrite app_nil_r, <- app_assoc. auto. }
  apply wp_seq with
    (P := fun _ w2 =>
            adds is_wait_event
              (mk_world (servicelist w) ((trace w ++ pre) ++ mid)) w2).
  { apply poll_loop_returns; [apply fuel_enough; lia|unfold poll_fuel; lia]. }
  intros [status left] w2 Hw2.
  apply wp_seq with (P := fun _ w3 => adds is_output_event w2 w3).
  { eapply wp_mono; [apply drain_loop_returns; unfold drain_fuel; lia|].
    intros a w3 [H _]. exact H. }
  intros msg w3 Hw3. apply wp_bind, wp_emit, wp_ret. cbn [trace servicelist].
  destruct Hw2 as [Hl2 (e2 & T2 & F2)]. destruct Hw3 as [Hl3 (e3 & T3 & F3)].
  cbn [trace servicelist] in *. split; [congruence|].
  exists pre, mid, (e2 ++ e3 ++ [Ev_Process_free]).
  rewrite T3, T2, <- !app_assoc. split; [reflexivity|].
  split; [exact Hpre|]. split; [|auto].
  rewrite !forallb_app. rewrite forallb_forall in F2, F3.
  rewrite !andb_true_iff. repeat split; try reflexivity;
    apply forallb_forall; intros e He; unfold is_inner_event.
  - now rewrite (F2 e He).
  - rewrite (F3 e He). now rewrite orb_true_r.
Qed.

(** *** [_doStop] *)

Lemma monitorUnset_returns s w sv :
  servicelist w !! s = Some sv ->
  wp (Util_monitorUnset s) (fun _ w' => stays is_idle_event w w') w.
Proof.
  intros Hs. unfold Util_monitorUnset.
  apply wp_bind, (wp_get_service _ _ _ _ Hs), wp_bind, wp_emit, wp_update.
  eapply stays_trans; [|now apply stays_update].
  now apply stays_emit.
Qed.

Lemma resetInfo_returns s w sv :
  servicelist w !! s = Some sv ->
  wp (Util_resetInfo s) (fun _ w' => stays is_idle_event w w') w.
Proof.
  intros Hs. unfold Util_resetInfo.
  apply wp_bind, (wp_get_service _ _ _ _ Hs), wp_emit.
  now apply stays_emit.
Qed.

Lemma idle_is_stop_event e : is_idle_event e = true -> is_stop_event e = true.
Proof.
  destruct e; try discriminate; intros _; unfold is_stop_event;
    now rewrite ?orb_true_r.
Qed.

Lemma wait_is_stop_event e : is_wait_event e = true -> is_stop_event e = true.
Proof. destruct e; try discriminate; reflexivity. Qed.

Lemma inner_is_stop_event e : is_inner_event e = true -> is_stop_event e = true.
Proof. unfold is_stop_event. now intros ->. Qed.

(** [_doStop] always returns; it spawns nothing but the stop program, and
    when it answers false it has posted the failure. *)
Lemma doStop_returns s flag w sv :
  servicelist w !! s = Some sv ->
  wp (_doStop s flag)
     (fun rv w' =>
        stays is_stop_event w w' /\
        (rv = false -> posted_stop_failure s w w')) w.
Proof.
  intros Hs. unfold _doStop. apply wp_bind, (wp_get_service _ _ _ _ Hs).
  destruct (depend_visited sv).
  { apply wp_ret. split; [apply stays_refl|discriminate]. }
  apply wp_bind, wp_update.
  set (wa := mk_world _ _).
  assert (Hwa : stays is_stop_event w wa) by now apply stays_update.
  assert (Hsa : servicelist wa !! s = Some (set_depend_visited true sv))
    by now apply lookup_alter_same.
  apply wp_seq with
    (P := fun rv w1 => stays is_stop_event wa w1 /\
                       (rv = false -> posted_stop_failure s wa w1)).
  2:{ intros rv w1 [H1 Hpost].
      destruct (stays_lookup _ _ _ _ _ H1 Hsa) as (sv1 & Hs1 & _).
      apply wp_seq with (P := fun _ w2 => stays is_stop_event w1 w2).
      { destruct flag;
          (eapply wp_mono;
           [eapply monitorUnset_returns || eapply resetInfo_returns;
            exact Hs1|]);
          intros [] w2 H2; exact (stays_weaken _ _ _ _ idle_is_stop_event H2). }
      intros [] w2 H2. apply wp_ret. split.
      - eauto using stays_trans.
      - intros Hrv. eapply posted_before; [exact (stays_extends _ _ _ Hwa)|].
        eapply posted_after; [exact (Hpost Hrv)|exact (stays_extends _ _ _ H2)]. }
  destruct (stop sv) as [cmd|] eqn:Hstop.
  2:{ apply wp_bind, wp_emit, wp_ret.
      split; [now apply stays_emit|discriminate]. }
  apply wp_seq with (P := fun _ w1 => stays is_stop_event wa w1).
  { destruct (negb (is_process (type sv))).
    - apply wp_ret, stays_refl.
    - apply wp_bind. unfold isProcessRunning. apply wp_ask, wp_ret.
      now apply stays_emit. }
  intros busy w1 H1. destruct busy.
  2:{ apply wp_ret. split; [exact H1|discriminate]. }
  apply wp_bind, wp_emit, wp_bind. unfold isProcessRunning. apply wp_ask.
  cbn [trace servicelist].
  set (w2 := mk_world (servicelist w1) ((trace w1 ++ _) ++ _)).
  assert (H2 : stays is_stop_event wa w2).
  { eapply stays_trans; [exact H1|]. now apply stays_emit2. }
  destruct (stays_lookup _ _ _ _ _ H2 Hsa) as (sv2 & Hs2 & Hc2 & _).
  assert (Hcmd : command_of sv2 Ref_stop = Some cmd).
  { cbn [command_of]. injection Hc2 as _ _ _ Hc2 _ _.
    cbn [stop set_depend_visited] in Hc2. congruence. }
  eapply wp_seq; [exact (commandExecute_returns _ _ _ _ _ _ _ Hs2 Hcmd)|].
  intros [[status msg] left] w3 [Hl3 (pre & mid & post & T3 & Fpre & Fpost & Hmid)].
  cbv beta iota.
  assert (H3 : stays is_stop_event w2 w3).
  { split; [now rewrite Hl3|]. exists (pre ++ mid ++ post).
    split; [exact T3|]. rewrite !forallb_app.
    rewrite (proj2 (forallb_forall is_stop_event pre)),
            (proj2 (forallb_forall is_stop_event post)).
    - destruct Hmid as [->| ->]; reflexivity.
    - intros e He. apply inner_is_stop_event.
      exact (proj1 (forallb_forall _ _) Fpost e He).
    - intros e He. apply inner_is_stop_event.
      exact (proj1 (forallb_forall _ _) Fpre e He). }
  apply wp_seq with (P := fun _ w4 => stays is_stop_event w3 w4).
  { destruct (is_process (type sv)).
    - apply wp_bind. eapply wp_mono; [apply waitStop_returns|].
      intros [st t] w4 H4. cbv beta iota.
      destruct st; apply wp_ret;
        exact (stays_adds _ _ _ _ wait_is_stop_event H4).
    - apply wp_ret, stays_refl. }
  intros failed w4 H4.
  assert (H14 : stays is_stop_event wa w4) by eauto using stays_trans.
  destruct failed; apply wp_bind; unfold Event_post; apply wp_emit, wp_ret.
  - split; [eapply stays_trans; [exact H14|now apply stays_emit]|].
    intros _. destruct (stays_extends _ _ _ H14) as [evs Hevs].
    exists (evs ++ [Ev_post s State_Failed
                      (Failed_to_stop status (or_no_output msg))]),
      status, (or_no_output msg).
    cbn [trace]. rewrite Hevs, app_assoc. split; [reflexivity|].
    apply in_or_app. right. now left.
  - split; [eapply stays_trans; [exact H14|now apply stays_emit]|discriminate].
Qed.


(** *** Stopping the dependants *)

Lemma wlp_each_service (I : world -> Prop) (body : Service_T -> M unit) :
  (forall x w, I w -> wlp (body x) (fun _ w' => I w') w) ->
  forall w, I w -> wlp (each_service body) (fun _ w' => I w') w.
Proof.
  intros Hbody w HI. unfold each_service, wlp.
  apply (wlp_for_each (fun _ => I) body); [|exact HI].
  intros x rest w0. apply Hbody.
Qed.

(** [_doDepend] with the action Stop spawns nothing but stop programs and
    leaves configuration and [visited] marks alone. *)
Lemma doDepend_stop_stays fuel s flag w :
  wlp (_doDepend fuel s Action_Stop flag)
      (fun _ w' => stays is_stop_event w w') w.
Proof.
  revert s w. induction fuel as [|fuel IH]; intros s w; [discriminate|].
  cbn [_doDepend]. apply wlp_bind, wlp_get_service. intros sv Hs.
  apply (wlp_each_service (fun w' => stays is_stop_event w w'));
    [|apply stays_refl].
  intros child w1 H1.
  apply wlp_bind, wlp_get_service. intros cv Hcv.
  apply wlp_bind, wlp_get_service. intros sv1 Hsv1.
  destruct (existsb _ _); [|now apply wlp_ret].
  apply wlp_bind, wlp_ret, wlp_bind.
  eapply wlp_mono; [apply IH|]. intros [] w2 H2. cbv beta.
  destruct (stays_lookup _ _ _ _ _ H2 Hcv) as (cv2 & Hcv2 & _).
  apply wlp_bind.
  eapply wlp_mono; [exact (wp_to_wlp _ _ _ (doStop_returns _ flag _ _ Hcv2))|].
  intros rv w3 [H3 _]. apply wlp_ret. eauto using stays_trans.
Qed.

Lemma stop_event_not_start e :
  is_stop_event e = true -> negb (is_start_exec e) = true.
Proof. destruct e as [| | | ? [] | | | | | | | | |]; try reflexivity. discriminate. Qed.


Lemma monitorSet_returns s w sv :
  servicelist w !! s = Some sv ->
  exists sv' w',
    Util_monitorSet s w = Ret tt w' /\
    trace w' = trace w ++ [Ev_monitorSet s] /\
    servicelist w' !! s = Some sv' /\ monitor sv' <> Monitor_Not /\
    config sv' = config sv /\ visited sv' = visited sv /\
    (fun sv => (config sv, visited sv)) <$> servicelist w' =
    (fun sv => (config sv, visited sv)) <$> servicelist w.
Proof.
  intros Hs. unfold Util_monitorSet, bind, get_service. rewrite Hs.
  unfold emit. destruct (monitor sv) eqn:Hm.
  - exists (set_monitor Monitor_Init sv). eexists.
    split; [reflexivity|]. cbn [trace servicelist].
    split; [reflexivity|].
    split; [exact (lookup_alter_same _ _ _ _ Hs)|].
    split; [discriminate|]. split; [reflexivity|]. split; [reflexivity|].
    apply (stays_update (fun _ => true) w s (set_monitor Monitor_Init)).
    reflexivity.
  - exists sv. eexists. split; [reflexivity|]. cbn [trace servicelist].
    rewrite Hm. repeat split; auto; discriminate.
  - exists sv. eexists. split; [reflexivity|]. cbn [trace servicelist].
    rewrite Hm. repeat split; auto; discriminate.
  - exists sv. eexists. split; [reflexivity|]. cbn [trace servicelist].
    rewrite Hm. repeat split; auto; discriminate.
Qed.


(** *** The stop of the dependants comes to an end *)

(** The services that name [s] as a dependant rank above [s], and no rank
    exceeds [N]: the graph of the design document, seen from the side
    [_doDepend] walks it. *)
Definition dependants_ranked (rank : Service_T -> nat) (N : nat)
  (l : list Service) : Prop :=
  (forall x sv, l !! x = Some sv -> (rank x <= N)%nat) /\
  forall c cv s sv,
    l !! c = Some cv -> l !! s = Some sv ->
    existsb (fun d => IS E d (name sv)) (dependantlist cv) = true ->
    (rank s < rank c)%nat.

Lemma wp_each_service (I : world -> Prop) (body : Service_T -> M unit) w :
  (forall x wi, (x < length (servicelist w))%nat -> I wi ->
                wp (body x) (fun _ w' => I w') wi) ->
  I w -> wp (each_service body) (fun _ w' => I w') w.
Proof.
  intros Hbody HI. unfold each_service.
  eapply wp_mono.
  - apply (wp_for_each
             (fun rest wi =>
                I wi /\
                Forall (fun x => x < length (servicelist w))%nat rest)
             body).
    + intros x rest wi [Hi Hall]. eapply wp_mono.
      * apply Hbody; [exact (Forall_inv Hall)|exact Hi].
      * intros [] w' H'. split; [exact H'|]. exact (Forall_inv_tail Hall).
    + split; [exact HI|]. apply Forall_forall. intros x Hx.
      apply list_elem_of_In, in_seq in Hx. lia.
  - intros [] w' [H' _]. exact H'.
Qed.

(** *** [_doStart]: post-order, and every service at most once *)

Lemma started_class (P : event -> bool) evs :
  (forall e, P e = true -> is_start_exec e = false) ->
  forallb P evs = true -> started evs = [].
Proof.
  intros HP H. apply started_inner, forallb_forall. intros e He.
  rewrite (HP e); [reflexivity|]. exact (proj1 (forallb_forall _ _) H e He).
Qed.

Lemma wait_not_start e : is_wait_event e = true -> is_start_exec e = false.
Proof. destruct e; try discriminate; reflexivity. Qed.

Lemma inner_not_start e : is_inner_event e = true -> is_start_exec e = false.
Proof. destruct e; try discriminate; reflexivity. Qed.

Lemma inner_not_finish v : is_inner_event (Ev_monitorSet v) = false.
Proof. reflexivity. Qed.

Lemma wait_not_finish v : is_wait_event (Ev_monitorSet v) = false.
Proof. reflexivity. Qed.

(** [Util_getService], as a function of the list. *)
Definition lookup_name (l : list Service) (d : string) : option Service_T :=
  find_service (fun n => IS E n d) l 0%nat.

(** The dependency graph of the design document: every dependant names a
    service, and the graph has no cycle: some rank goes down along every
    edge. *)
Definition acyclic (rank : Service_T -> nat) (l : list Service) : Prop :=
  forall x sv d,
    l !! x = Some sv -> In d (dependantlist sv) ->
    exists p, lookup_name l d = Some p /\ (rank p < rank x)%nat.

(** The list [f evs] names no service twice, and names only services that
    were not marked in [w] and are marked in [w']. *)
Definition once (f : list event -> list Service_T) (w w' : world)
  (evs : list event) : Prop :=
  NoDup (f evs) /\
  forall x, In x (f evs) -> vis w x = false /\ vis w' x = true.

Lemma once_nil f w w' : f [] = [] -> once f w w' [].
Proof. intros H. unfold once. rewrite H. split; [constructor|intros x []]. Qed.

Lemma once_app f w w1 w2 e1 e2 :
  (forall a b, f (a ++ b) = f a ++ f b) ->
  once f w w1 e1 -> once f w1 w2 e2 ->
  (forall v, vis w v = true -> vis w1 v = true) ->
  (forall v, vis w1 v = true -> vis w2 v = true) ->
  once f w w2 (e1 ++ e2).
Proof.
  intros Hf [N1 H1] [N2 H2] M1 M2. unfold once. rewrite Hf. split.
  - apply NoDup_app. split; [exact N1|]. split; [|exact N2].
    intros x Hx1 Hx2. apply list_elem_of_In in Hx1, Hx2.
    destruct (H1 x Hx1) as [_ Ha]. destruct (H2 x Hx2) as [Hb _]. congruence.
  - intros x Hx. apply in_app_or in Hx. destruct Hx as [Hx|Hx].
    + destruct (H1 x Hx). auto.
    + destruct (H2 x Hx) as [Ha Hb]. split; [|exact Hb].
      destruct (vis w x) eqn:Hw; [|reflexivity].
      rewrite (M1 x Hw) in Ha. discriminate.
Qed.

Lemma once_close f w wa wb w' e1 e2 s :
  (forall a b, f (a ++ b) = f a ++ f b) ->
  once f wa wb e1 -> f e2 = [] \/ f e2 = [s] ->
  vis wa s = true -> vis w s = false -> vis w' s = true ->
  (forall v, vis w v = true -> vis wa v = true) ->
  (forall v, vis wb v = true -> vis w' v = true) ->
  once f w w' (e1 ++ e2).
Proof.
  intros Hf [N1 H1] H2 Hsa Hsw Hs' M1 M2. unfold once. rewrite Hf.
  assert (Hin : forall x, In x (f e2) -> x = s).
  { intros x Hx. destruct H2 as [H2|H2]; rewrite H2 in Hx;
      [destruct Hx|destruct Hx as [Hx|[]]; auto]. }
  split.
  - apply NoDup_app. split; [exact N1|]. split.
    + intros x Hx1 Hx2. apply list_elem_of_In in Hx1, Hx2.
      apply Hin in Hx2. subst x. destruct (H1 s Hx1). congruence.
    + destruct H2 as [-> | ->]; [constructor|apply NoDup_singleton].
  - intros x Hx. apply in_app_or in Hx. destruct Hx as [Hx|Hx].
    + destruct (H1 x Hx) as [Ha Hb]. split; [|auto].
      destruct (vis w x) eqn:Hw; [|reflexivity].
      rewrite (M1 x Hw) in Ha. discriminate.
    + apply Hin in Hx. subst x. auto.
Qed.

Lemma doStart_marked fuel s w :
  vis w s = true -> _doStart (S fuel) s w = Ret tt w.
Proof.
  unfold vis. intros H. cbn [_doStart]. unfold bind, get_service.
  destruct (servicelist w !! s) as [sv|]; [|discriminate].
  now rewrite H.
Qed.

(** *** Every action comes to an end *)

(** The call changed no configuration, and added to the history only events
    of the kind [P]. *)
Definition keeps (P : event -> bool) (w w' : world) : Prop :=
  config <$> servicelist w' = config <$> servicelist w /\
  exists evs, trace w' = trace w ++ evs /\ forallb P evs = true.

Lemma keeps_refl P w : keeps P w w.
Proof. split; [reflexivity|]. exists []. now rewrite app_nil_r. Qed.

Lemma keeps_trans P w1 w2 w3 :
  keeps P w1 w2 -> keeps P w2 w3 -> keeps P w1 w3.
Proof.
  intros [H1 (e1 & T1 & S1)] [H2 (e2 & T2 & S2)]. split; [congruence|].
  exists (e1 ++ e2). rewrite T2, T1, app_assoc, forallb_app, S1, S2. auto.
Qed.

Lemma keeps_stays P w w' : stays P w w' -> keeps P w w'.
Proof. intros [H1 H2]. split; [exact (cfg_same _ _ H1)|exact H2]. Qed.

Lemma keeps_adds P w w' : adds P w w' -> keeps P w w'.
Proof. intros [H1 H2]. split; [now rewrite H1|exact H2]. Qed.

Lemma keeps_weaken (P Q : event -> bool) w w' :
  (forall e, Q e = true -> P e = true) -> keeps Q w w' -> keeps P w w'.
Proof.
  intros HQP [H1 (evs & T & S)]. split; [exact H1|]. exists evs.
  split; [exact T|]. rewrite forallb_forall in *. auto.
Qed.

Lemma keeps_lookup P w w' s sv :
  keeps P w w' -> servicelist w !! s = Some sv ->
  exists sv', servicelist w' !! s = Some sv' /\ config sv' = config sv.
Proof. intros [H _]. exact (cfg_lookup _ _ _ _ H). Qed.

Lemma keeps_mark P w s :
  keeps P w (mk_world (alter (set_visited true) s (servicelist w)) (trace w)).
Proof.
  split; [apply cfg_mark|]. exists []. cbn [trace]. now rewrite app_nil_r.
Qed.

(** What the start of a service does to the world outside, what a restart
    does, and what enabling and disabling monitoring do. *)
Definition is_start_event (e : event) : bool :=
  is_inner_event e ||
  match e with
  | Ev_log _ | Ev_post _ _ _ | Ev_monitorSet _ => true
  | Ev_Command_execute _ Ref_start _ _ => true
  | _ => false
  end.

Definition is_restart_event (e : event) : bool :=
  is_inner_event e ||
  match e with
  | Ev_log _ | Ev_post _ _ _ | Ev_monitorSet _ | Ev_resetInfo _ => true
  | Ev_Command_execute _ Ref_restart _ _ => true
  | _ => false
  end.

Definition is_monitor_event (e : event) : bool :=
  match e with Ev_monitorSet _ => true | _ => false end.

Definition is_unmonitor_event (e : event) : bool :=
  match e with Ev_monitorUnset _ => true | _ => false end.

(** The events of the walk [_doDepend] makes for an action. *)
Definition action_event (A : Action_Type) : event -> bool :=
  match A with
  | Action_Start => is_start_event
  | Action_Stop => is_stop_event
  | Action_Monitor => is_monitor_event
  | Action_Unmonitor => is_unmonitor_event
  | _ => fun _ => false
  end.

(** The events of a whole call of [control_service]. *)
Definition control_event (A : Action_Type) (e : event) : bool :=
  match A with
  | Action_Start => is_stop_event e || is_start_event e
  | Action_Stop => is_stop_event e
  | Action_Restart => is_stop_event e || is_restart_event e || is_start_event e
  | Action_Monitor => is_monitor_event e
  | Action_Unmonitor => is_unmonitor_event e
  | _ => false
  end.

Lemma inner_is_start_event e : is_inner_event e = true -> is_start_event e = true.
Proof. unfold is_start_event. now intros ->. Qed.

Lemma wait_is_inner_event e : is_wait_event e = true -> is_inner_event e = true.
Proof. unfold is_inner_event. now intros ->. Qed.

Lemma inner_is_restart_event e :
  is_inner_event e = true -> is_restart_event e = true.
Proof. unfold is_restart_event. now intros ->. Qed.

(** The executor adds the events of the executor and the execution of the
    command it was given. *)
Lemma commandExecute_adds (P : event -> bool) (S : Service_T)
  (c : command_ref) (msglen : nat) (timeout : Z) (w : world) (sv : Service)
  (cmd : command_t) :
  servicelist w !! S = Some sv ->
  command_of sv c = Some cmd ->
  (forall e, is_inner_event e = true -> P e = true) ->
  (forall argv env, P (Ev_Command_execute S c argv env) = true) ->
  wp (_commandExecute S c msglen timeout) (fun _ w' => adds P w w') w.
Proof.
  intros Hs Hc Hin Hex.
  eapply wp_mono; [exact (commandExecute_returns S c msglen timeout w sv cmd Hs Hc)|].
  intros r w' [Hl (pre & mid & post & T & Fpre & Fpost & Hmid)].
  split; [exact Hl|]. exists (pre ++ mid ++ post). split; [exact T|].
  rewrite !forallb_app.
  rewrite (proj2 (forallb_forall P pre)), (proj2 (forallb_forall P post)).
  - destruct Hmid as [->| ->]; cbn [forallb]; now rewrite ?Hex.
  - intros e He. apply Hin. exact (proj1 (forallb_forall _ _) Fpost e He).
  - intros e He. apply Hin. exact (proj1 (forallb_forall _ _) Fpre e He).
Qed.

Lemma start_program_events s w sv :
  servicelist w !! s = Some sv ->
  wp (start_program s) (fun _ w' => adds is_start_event w w') w.
Proof.
  intros Hs. unfold start_program.
  apply wp_bind, (wp_get_service _ _ _ _ Hs).
  destruct (start sv) as [cmd|] eqn:Hstart.
  2:{ apply wp_emit. now apply adds_emit. }
  apply wp_seq with (P := fun _ w1 => adds is_start_event w w1).
  { destruct (negb (is_process (type sv))).
    - apply wp_ret, adds_refl.
    - apply wp_bind. unfold isProcessRunning. apply wp_ask, wp_ret.
      now apply adds_emit. }
  intros idle w1 H1. destruct idle; [|now apply wp_ret].
  apply wp_bind, wp_emit. set (w2 := mk_world _ _).
  assert (H2 : adds is_start_event w w2).
  { eapply adds_trans; [exact H1|now apply adds_emit]. }
  assert (Hs2 : servicelist w2 !! s = Some sv).
  { destruct H2 as [-> _]. exact Hs. }
  eapply wp_seq.
  { apply (commandExecute_adds is_start_event s Ref_start _ _ w2 sv cmd Hs2 Hstart).
    - exact inner_is_start_event.
    - reflexivity. }
  intros [[status msg] left] w3 H3. cbv beta iota.
  apply wp_seq with (P := fun _ w4 => adds is_start_event w3 w4).
  { destruct (is_process (type sv)).
    - apply wp_bind. eapply wp_mono; [apply waitStart_returns|].
      intros [st t] w4 H4. cbv beta iota.
      assert (adds is_start_event w3 w4).
      { apply (adds_weaken is_wait_event); [|exact H4].
        intros e He. now apply inner_is_start_event, wait_is_inner_event. }
      destruct st; now apply wp_ret.
    - apply wp_ret, adds_refl. }
  intros failed w4 H4.
  assert (H04 : adds is_start_event w w4) by eauto using adds_trans.
  destruct failed; unfold Event_post; apply wp_emit;
    (eapply adds_trans; [exact H04|now apply adds_emit]).
Qed.

(** The loop of [_doStart] and [_doMonitor] over the services [s] depends
    on. *)
Lemma wp_parents rank l0 (P : event -> bool) (visit : Service_T -> M unit)
  s sv0 :
  acyclic rank l0 -> l0 !! s = Some sv0 ->
  (forall p w svp,
     config <$> servicelist w = config <$> l0 ->
     servicelist w !! p = Some svp -> (rank p < rank s)%nat ->
     wp (visit p) (fun _ w' => keeps P w w') w) ->
  forall w,
    config <$> servicelist w = config <$> l0 ->
    wp (for_each (dependantlist sv0) (fun d =>
          let* parent := Util_getService d in
          match parent with
          | None => AssertFailure
          | Some parent => visit parent
          end))
       (fun _ w' => keeps P w w') w.
Proof.
  intros Hwf Hs Hvisit w Hcfg.
  eapply wp_mono.
  - apply (wp_for_each
             (fun rest wi => keeps P w wi /\
                             forall d, In d rest -> In d (dependantlist sv0))).
    2:{ split; [apply keeps_refl|auto]. }
    intros d rest wi [Hi Hrest].
    destruct (Hwf s sv0 d Hs (Hrest d (or_introl eq_refl))) as (p & Hp & Hrank).
    assert (Hcfgi : config <$> servicelist wi = config <$> l0).
    { destruct Hi as [Hi _]. congruence. }
    apply wp_bind. unfold Util_getService. eexists _, _.
    split; [reflexivity|].
    rewrite (find_service_cfg _ _ _ _ Hcfgi). fold (lookup_name l0 d).
    rewrite Hp.
    destruct (find_service_lookup _ _ _ _ Hp) as (svp0 & Hp0 & _).
    rewrite Nat.sub_0_r in Hp0.
    destruct (cfg_lookup _ _ _ _ Hcfgi Hp0) as (svp & Hpi & _).
    eapply wp_mono; [exact (Hvisit p wi svp Hcfgi Hpi Hrank)|].
    intros [] wj Hj. split; [eauto using keeps_trans|].
    intros d' Hd'. apply Hrest. now right.
  - intros [] w' [H _]. exact H.
Qed.

Lemma monitorSet_keeps (P : event -> bool) s w sv :
  servicelist w !! s = Some sv ->
  (forall v, P (Ev_monitorSet v) = true) ->
  wp (Util_monitorSet s) (fun _ w' => keeps P w w') w.
Proof.
  intros Hs HP.
  destruct (monitorSet_returns s w sv Hs) as (sv' & w' & Hrun & T & _ & _ & _ & _ & Hmap).
  exists tt, w'. split; [exact Hrun|]. split; [exact (cfg_same _ _ Hmap)|].
  exists [Ev_monitorSet s]. split; [exact T|]. cbn [forallb]. now rewrite HP.
Qed.

(** [_doStart] returns, from any state of the marks. *)
Lemma doStart_keeps rank l0 :
  acyclic rank l0 ->
  forall fuel s w sv,
    config <$> servicelist w = config <$> l0 ->
    servicelist w !! s = Some sv ->
    (rank s < fuel)%nat ->
    wp (_doStart fuel s) (fun _ w' => keeps is_start_event w w') w.
Proof.
  intros Hwf. induction fuel as [|fuel IH]; intros s w sv Hcfg Hs Hfuel; [lia|].
  cbn [_doStart]. apply wp_bind, (wp_get_service _ _ _ _ Hs).
  destruct (visited sv); [apply wp_ret, keeps_refl|].
  apply wp_bind, wp_update. set (wa := mk_world _ _).
  assert (Ha : keeps is_start_event w wa) by apply keeps_mark.
  assert (Hcfga : config <$> servicelist wa = config <$> l0).
  { destruct Ha as [Ha _]. congruence. }
  destruct (cfg_lookup _ _ _ _ (eq_sym Hcfg) Hs) as (sv0 & Hs0 & Hc0).
  assert (Hdeps : dependantlist sv = dependantlist sv0).
  { unfold config in Hc0. congruence. }
  rewrite Hdeps.
  eapply wp_seq.
  { apply (wp_parents rank l0 is_start_event (_doStart fuel) s sv0 Hwf Hs0);
      [|exact Hcfga].
    intros p wi svp Hcfgi Hpi Hrank. apply (IH p wi svp Hcfgi Hpi). lia. }
  intros [] wb Hb. cbv beta.
  assert (Hwb : keeps is_start_event w wb) by eauto using keeps_trans.
  destruct (keeps_lookup _ _ _ _ _ Hwb Hs) as (svb & Hsb & _).
  eapply wp_seq; [exact (start_program_events s wb svb Hsb)|].
  intros [] wc Hc. cbv beta.
  assert (Hsc : servicelist wc !! s = Some svb).
  { destruct Hc as [-> _]. exact Hsb. }
  eapply wp_mono; [apply (monitorSet_keeps is_start_event s wc svb Hsc); reflexivity|].
  intros [] w' H'. cbv beta.
  eapply keeps_trans; [exact Hwb|].
  eapply keeps_trans; [exact (keeps_adds _ _ _ Hc)|exact H'].
Qed.

(** [_doMonitor] returns, and does nothing but enable monitoring. *)
Lemma doMonitor_keeps rank l0 flag :
  acyclic rank l0 ->
  forall fuel s w sv,
    config <$> servicelist w = config <$> l0 ->
    servicelist w !! s = Some sv ->
    (rank s < fuel)%nat ->
    wp (_doMonitor fuel s flag) (fun _ w' => keeps is_monitor_event w w') w.
Proof.
  intros Hwf. induction fuel as [|fuel IH]; intros s w sv Hcfg Hs Hfuel; [lia|].
  cbn [_doMonitor]. apply wp_bind, (wp_get_service _ _ _ _ Hs).
  destruct (visited sv); [apply wp_ret, keeps_refl|].
  apply wp_bind, wp_update. set (wa := mk_world _ _).
  assert (Ha : keeps is_monitor_event w wa) by apply keeps_mark.
  assert (Hcfga : config <$> servicelist wa = config <$> l0).
  { destruct Ha as [Ha _]. congruence. }
  destruct (cfg_lookup _ _ _ _ (eq_sym Hcfg) Hs) as (sv0 & Hs0 & Hc0).
  assert (Hdeps : dependantlist sv = dependantlist sv0).
  { unfold config in Hc0. congruence. }
  rewrite Hdeps.
  eapply wp_seq.
  { apply (wp_parents rank l0 is_monitor_event
             (fun p => _doMonitor fuel p flag) s sv0 Hwf Hs0); [|exact Hcfga].
    intros p wi svp Hcfgi Hpi Hrank. apply (IH p wi svp Hcfgi Hpi). lia. }
  intros [] wb Hb. cbv beta.
  assert (Hwb : keeps is_monitor_event w wb) by eauto using keeps_trans.
  destruct (keeps_lookup _ _ _ _ _ Hwb Hs) as (svb & Hsb & _).
  eapply wp_mono; [apply (monitorSet_keeps is_monitor_event s wb svb Hsb); reflexivity|].
  intros [] w' H'. cbv beta. eauto using keeps_trans.
Qed.

Lemma doUnmonitor_keeps s flag w sv :
  servicelist w !! s = Some sv ->
  wp (_doUnmonitor s flag) (fun _ w' => keeps is_unmonitor_event w w') w.
Proof.
  intros Hs. unfold _doUnmonitor. apply wp_bind, (wp_get_service _ _ _ _ Hs).
  destruct (depend_visited sv); [apply wp_ret, keeps_refl|].
  apply wp_bind, wp_update. set (wa := mk_world _ _).
  assert (Hsa : servicelist wa !! s = Some (set_depend_visited true sv))
    by now apply lookup_alter_same.
  unfold Util_monitorUnset.
  apply wp_bind, (wp_get_service _ _ _ _ Hsa), wp_bind, wp_emit, wp_update.
  apply keeps_stays.
  eapply stays_trans; [apply (stays_update _ w s (set_depend_visited true)); reflexivity|].
  eapply stays_trans; [apply (stays_emit _ wa (Ev_monitorUnset s)); reflexivity|].
  now apply stays_update.
Qed.

(** [_doRestart] returns; of the three programs of the service it runs the
    restart program only. *)
Lemma doRestart_keeps s w sv :
  servicelist w !! s = Some sv ->
  wp (_doRestart s) (fun _ w' => keeps is_restart_event w w') w.
Proof.
  intros Hs. unfold _doRestart. apply wp_bind, (wp_get_service _ _ _ _ Hs).
  apply wp_seq with (P := fun _ w1 => adds is_restart_event w w1).
  2:{ intros [] w1 H1.
      assert (Hs1 : servicelist w1 !! s = Some sv).
      { destruct H1 as [-> _]. exact Hs. }
      eapply wp_mono;
        [apply (monitorSet_keeps is_restart_event s w1 sv Hs1); reflexivity|].
      intros [] w' H'. cbv beta.
      eapply keeps_trans; [exact (keeps_adds _ _ _ H1)|exact H']. }
  destruct (restart sv) as [cmd|] eqn:Hrestart.
  2:{ apply wp_emit. now apply adds_emit. }
  apply wp_bind, wp_emit. set (w1 := mk_world _ _).
  assert (Hs1 : servicelist w1 !! s = Some sv) by exact Hs.
  unfold Util_resetInfo.
  apply wp_bind, wp_bind, (wp_get_service _ _ _ _ Hs1), wp_emit.
  set (w2 := mk_world _ _).
  assert (H2 : adds is_restart_event w w2).
  { split; [reflexivity|]. exists [Ev_log (Log_restart s (arg0 cmd)); Ev_resetInfo s].
    split; [|reflexivity]. unfold w2, w1. cbn [trace]. now rewrite <- app_assoc. }
  assert (Hs2 : servicelist w2 !! s = Some sv) by exact Hs.
  eapply wp_seq.
  { apply (commandExecute_adds is_restart_event s Ref_restart _ _ w2 sv cmd Hs2 Hrestart).
    - exact inner_is_restart_event.
    - reflexivity. }
  intros [[status msg] left] w3 H3. cbv beta iota.
  apply wp_seq with (P := fun _ w4 => adds is_restart_event w3 w4).
  { destruct (is_process (type sv)).
    - apply wp_bind. eapply wp_mono; [apply waitStart_returns|].
      intros [st t] w4 H4. cbv beta iota.
      assert (adds is_restart_event w3 w4).
      { apply (adds_weaken is_wait_event); [|exact H4].
        intros e He. now apply inner_is_restart_event, wait_is_inner_event. }
      destruct st; now apply wp_ret.
    - apply wp_ret, adds_refl. }
  intros failed w4 H4.
  assert (H04 : adds is_restart_event w w4) by eauto using adds_trans.
  destruct failed; unfold Event_post; apply wp_emit;
    (eapply adds_trans; [exact H04|now apply adds_emit]).
Qed.

(** The walk over the dependants returns, whatever the action. *)
Lemma doDepend_keeps rank N l0 A flag :
  acyclic rank l0 -> dependants_ranked rank N l0 ->
  forall fuel s w sv,
    config <$> servicelist w = config <$> l0 ->
    servicelist w !! s = Some sv ->
    (N + (N - rank s) < fuel)%nat ->
    wp (_doDepend fuel s A flag) (fun _ w' => keeps (action_event A) w w') w.
Proof.
  intros Hwf [Hbound Hrank]. induction fuel as [|fuel IH];
    intros s w sv Hcfg Hs Hfuel; [lia|].
  cbn [_doDepend]. apply wp_bind, (wp_get_service _ _ _ _ Hs).
  apply (wp_each_service (fun w' => keeps (action_event A) w w'));
    [|apply keeps_refl].
  intros child wi Hlen Hi.
  destruct (lookup_lt_is_Some_2 (servicelist w) child Hlen) as [cv0 Hc0].
  destruct (keeps_lookup _ _ _ _ _ Hi Hc0) as (cv & Hcv & Hcc).
  destruct (keeps_lookup _ _ _ _ _ Hi Hs) as (svi & Hsi & Hsc).
  apply wp_bind, (wp_get_service _ _ _ _ Hcv).
  apply wp_bind, (wp_get_service _ _ _ _ Hsi).
  destruct (existsb _ _) eqn:Hdep; [|now apply wp_ret].
  assert (Hcfgi : config <$> servicelist wi = config <$> l0).
  { destruct Hi as [Hi _]. congruence. }
  destruct (cfg_lookup _ _ _ _ (eq_sym Hcfgi) Hcv) as (cvl & Hcl & Hccl).
  destruct (cfg_lookup _ _ _ _ (eq_sym Hcfgi) Hsi) as (svl & Hsl & Hscl).
  assert (Hlt : (rank s < rank child)%nat).
  { apply (Hrank child cvl s svl Hcl Hsl).
    unfold config in Hccl, Hscl.
    replace (dependantlist cvl) with (dependantlist cv) by congruence.
    replace (name svl) with (name svi) by congruence. exact Hdep. }
  pose proof (Hbound child cvl Hcl) as Hle.
  apply wp_seq with (P := fun _ w1 => keeps (action_event A) wi w1).
  { destruct A; try apply wp_ret, keeps_refl.
    - apply (doStart_keeps rank l0 Hwf fuel child wi cv Hcfgi Hcv). lia.
    - apply (doMonitor_keeps rank l0 flag Hwf fuel child wi cv Hcfgi Hcv). lia. }
  intros [] w1 H1.
  assert (Hcfg1 : config <$> servicelist w1 = config <$> l0).
  { destruct H1 as [H1 _]. congruence. }
  destruct (keeps_lookup _ _ _ _ _ H1 Hcv) as (cv1 & Hcv1 & _).
  eapply wp_seq; [apply (IH child w1 cv1 Hcfg1 Hcv1); lia|].
  intros [] w2 H2. cbv beta.
  destruct (keeps_lookup _ _ _ _ _ H2 Hcv1) as (cv2 & Hcv2 & _).
  assert (H02 : keeps (action_event A) w w2) by eauto using keeps_trans.
  destruct A; try (apply wp_ret; exact H02).
  - apply wp_bind.
    eapply wp_mono; [exact (doStop_returns _ flag _ _ Hcv2)|].
    intros rv w3 [H3 _]. apply wp_ret.
    eapply keeps_trans; [exact H02|exact (keeps_stays _ _ _ H3)].
  - eapply wp_mono; [exact (doUnmonitor_keeps _ flag _ _ Hcv2)|].
    intros [] w3 H3. eapply keeps_trans; [exact H02|exact H3].
Qed.

Lemma keeps_cfg P w w' l0 :
  keeps P w w' -> config <$> servicelist w = config <$> l0 ->
  config <$> servicelist w' = config <$> l0.
Proof. intros [H _] H0. congruence. Qed.

(** The action Start: first the stop of the dependants, then the starts. *)
Lemma control_service_start_phases rank N fuel S w s :
  acyclic rank (servicelist w) -> dependants_ranked rank N (servicelist w) ->
  (2 * N < fuel)%nat ->
  find_service (fun n => IS E n S) (servicelist w) 0%nat = Some s ->
  wp (control_service fuel S Action_Start)
     (fun r w' => r = true /\
                  exists w1, keeps is_stop_event w w1 /\
                             keeps is_start_event w1 w') w.
Proof.
  intros Hwf Hranked Hfuel Hfind.
  destruct (find_service_lookup _ _ _ _ Hfind) as (sv & Hs & _).
  rewrite Nat.sub_0_r in Hs.
  assert (Hrs : (rank s <= N)%nat) by exact (proj1 Hranked s sv Hs).
  unfold control_service. apply wp_bind. unfold Util_getService.
  eexists _, _. split; [reflexivity|]. rewrite Hfind.
  eapply wp_seq.
  { apply (doDepend_keeps rank N (servicelist w) Action_Stop false Hwf Hranked
             fuel s w sv eq_refl Hs). lia. }
  intros [] w1 H1. cbv beta.
  destruct (keeps_lookup _ _ _ _ _ H1 Hs) as (sv1 & Hs1 & _).
  pose proof (keeps_cfg _ _ _ _ H1 eq_refl) as Hcfg1.
  eapply wp_seq.
  { apply (doStart_keeps rank (servicelist w) Hwf fuel s w1 sv1 Hcfg1 Hs1). lia. }
  intros [] w2 H2. cbv beta.
  destruct (keeps_lookup _ _ _ _ _ H2 Hs1) as (sv2 & Hs2 & _).
  pose proof (keeps_cfg _ _ _ _ H2 Hcfg1) as Hcfg2.
  eapply wp_seq.
  { apply (doDepend_keeps rank N (servicelist w) Action_Start false Hwf Hranked
             fuel s w2 sv2 Hcfg2 Hs2). lia. }
  intros [] w3 H3. apply wp_ret. split; [reflexivity|].
  exists w1. split; [exact H1|]. eapply keeps_trans; [exact H2|exact H3].
Qed.

(** Every action the dispatcher knows comes to an end and answers true. *)
Lemma control_service_keeps rank N fuel S A w s :
  acyclic rank (servicelist w) -> dependants_ranked rank N (servicelist w) ->
  (2 * N < fuel)%nat ->
  find_service (fun n => IS E n S) (servicelist w) 0%nat = Some s ->
  match A with
  | Action_Start | Action_Stop | Action_Restart | Action_Monitor
  | Action_Unmonitor => True
  | _ => False
  end ->
  wp (control_service fuel S A)
     (fun r w' => r = true /\ keeps (control_event A) w w') w.
Proof.
  intros Hwf Hranked Hfuel Hfind HA.
  destruct (find_service_lookup _ _ _ _ Hfind) as (sv & Hs & _).
  rewrite Nat.sub_0_r in Hs.
  assert (Hrs : (rank s <= N)%nat) by exact (proj1 Hranked s sv Hs).
  assert (Hstop : forall flag w0 sv0,
            config <$> servicelist w0 = config <$> servicelist w ->
            servicelist w0 !! s = Some sv0 ->
            wp (_doDepend fuel s Action_Stop flag)
               (fun _ w' => keeps is_stop_event w0 w') w0).
  { intros flag w0 sv0 Hcfg0 Hs0.
    apply (doDepend_keeps rank N (servicelist w) Action_Stop flag Hwf Hranked
             fuel s w0 sv0 Hcfg0 Hs0). lia. }
  assert (Hstart : forall w0 sv0,
            config <$> servicelist w0 = config <$> servicelist w ->
            servicelist w0 !! s = Some sv0 ->
            wp (bind (_doStart fuel s)
                  (fun _ => bind (_doDepend fuel s Action_Start false)
                              (fun _ => ret true)))
               (fun r w' => r = true /\ keeps is_start_event w0 w') w0).
  { intros w0 sv0 Hcfg0 Hs0. eapply wp_seq.
    { apply (doStart_keeps rank (servicelist w) Hwf fuel s w0 sv0 Hcfg0 Hs0).
      lia. }
    intros [] w2 H2. cbv beta.
    destruct (keeps_lookup _ _ _ _ _ H2 Hs0) as (sv2 & Hs2 & _).
    pose proof (keeps_cfg _ _ _ _ H2 Hcfg0) as Hcfg2.
    eapply wp_seq.
    { apply (doDepend_keeps rank N (servicelist w) Action_Start false Hwf
               Hranked fuel s w2 sv2 Hcfg2 Hs2). lia. }
    intros [] w3 H3. apply wp_ret. split; [reflexivity|].
    eapply keeps_trans; [exact H2|exact H3]. }
  destruct A; try contradiction.
  - (* Restart *)
    unfold control_service. apply wp_bind. unfold Util_getService.
    eexists _, _. split; [reflexivity|]. rewrite Hfind.
    apply wp_bind, wp_emit. set (w0 := mk_world _ _).
    assert (H0 : keeps (control_event Action_Restart) w w0).
    { apply keeps_adds. now apply adds_emit. }
    eapply wp_seq; [exact (Hstop false w0 sv eq_refl Hs)|].
    intros [] w1 H1. cbv beta.
    destruct (keeps_lookup _ _ _ _ _ H1 Hs) as (sv1 & Hs1 & Hc1).
    pose proof (keeps_cfg _ w0 w1 (servicelist w) H1 eq_refl) as Hcfg1.
    assert (H01 : keeps (control_event Action_Restart) w w1).
    { eapply keeps_trans; [exact H0|].
      apply (keeps_weaken _ is_stop_event); [|exact H1].
      intros e He. cbn. now rewrite He. }
    apply wp_bind, (wp_get_service _ _ _ _ Hs1).
    destruct (restart sv1) as [cmd|].
    + eapply wp_seq; [exact (doRestart_keeps s w1 sv1 Hs1)|].
      intros [] w2 H2. cbv beta.
      destruct (keeps_lookup _ _ _ _ _ H2 Hs1) as (sv2 & Hs2 & _).
      pose proof (keeps_cfg _ _ _ _ H2 Hcfg1) as Hcfg2.
      eapply wp_seq.
      { apply (doDepend_keeps rank N (servicelist w) Action_Start false Hwf
                 Hranked fuel s w2 sv2 Hcfg2 Hs2). lia. }
      intros [] w3 H3. apply wp_ret. split; [reflexivity|].
      eapply keeps_trans; [exact H01|].
      eapply keeps_trans.
      * apply (keeps_weaken _ is_restart_event); [|exact H2].
        intros e He. cbn. now rewrite He, orb_true_r.
      * apply (keeps_weaken _ is_start_event); [|exact H3].
        intros e He. cbn. now rewrite He, !orb_true_r.
    + eapply wp_seq; [exact (doStop_returns s false w1 sv1 Hs1)|].
      intros stopped w2 [H2 _].
      apply keeps_stays in H2.
      destruct (keeps_lookup _ _ _ _ _ H2 Hs1) as (sv2 & Hs2 & _).
      pose proof (keeps_cfg _ _ _ _ H2 Hcfg1) as Hcfg2.
      assert (H02 : keeps (control_event Action_Restart) w w2).
      { eapply keeps_trans; [exact H01|].
        apply (keeps_weaken _ is_stop_event); [|exact H2].
        intros e He. cbn. now rewrite He. }
      destruct stopped.
      * eapply wp_mono; [exact (Hstart w2 sv2 Hcfg2 Hs2)|].
        intros r w3 [-> H3]. split; [reflexivity|].
        eapply keeps_trans; [exact H02|].
        apply (keeps_weaken _ is_start_event); [|exact H3].
        intros e He. cbn. now rewrite He, !orb_true_r.
      * eapply wp_seq;
          [apply (monitorSet_keeps is_start_event s w2 sv2 Hs2); reflexivity|].
        intros [] w3 H3. apply wp_ret. split; [reflexivity|].
        eapply keeps_trans; [exact H02|].
        apply (keeps_weaken _ is_start_event); [|exact H3].
        intros e He. cbn. now rewrite He, !orb_true_r.
  - (* Stop *)
    unfold control_service. apply wp_bind. unfold Util_getService.
    eexists _, _. split; [reflexivity|]. rewrite Hfind.
    eapply wp_seq; [exact (Hstop true w sv eq_refl Hs)|].
    intros [] w1 H1. cbv beta.
    destruct (keeps_lookup _ _ _ _ _ H1 Hs) as (sv1 & Hs1 & _).
    eapply wp_seq; [exact (doStop_returns s true w1 sv1 Hs1)|].
    intros rv w2 [H2 _]. apply wp_ret. split; [reflexivity|].
    eapply keeps_trans; [exact H1|exact (keeps_stays _ _ _ H2)].
  - (* Unmonitor *)
    unfold control_service. apply wp_bind. unfold Util_getService.
    eexists _, _. split; [reflexivity|]. rewrite Hfind.
    eapply wp_seq.
    { apply (doDepend_keeps rank N (servicelist w) Action_Unmonitor false Hwf
               Hranked fuel s w sv eq_refl Hs). lia. }
    intros [] w1 H1. cbv beta.
    destruct (keeps_lookup _ _ _ _ _ H1 Hs) as (sv1 & Hs1 & _).
    eapply wp_seq; [exact (doUnmonitor_keeps s false w1 sv1 Hs1)|].
    intros [] w2 H2. apply wp_ret. split; [reflexivity|].
    eapply keeps_trans; [exact H1|exact H2].
  - (* Start *)
    eapply wp_mono;
      [exact (control_service_start_phases rank N fuel S w s Hwf Hranked
                Hfuel Hfind)|].
    intros r w' [-> (w1 & H1 & H2)]. split; [reflexivity|].
    eapply keeps_trans.
    + apply (keeps_weaken _ is_stop_event); [|exact H1].
      intros e He. cbn. now rewrite He.
    + apply (keeps_weaken _ is_start_event); [|exact H2].
      intros e He. cbn. now rewrite He, orb_true_r.
  - (* Monitor *)
    unfold control_service. apply wp_bind. unfold Util_getService.
    eexists _, _. split; [reflexivity|]. rewrite Hfind.
    eapply wp_seq.
    { apply (doMonitor_keeps rank (servicelist w) false Hwf fuel s w sv eq_refl
               Hs). lia. }
    intros [] w1 H1. apply wp_ret. split; [reflexivity|exact H1].
Qed.

(** *** The walk over the dependants, and the marks [depend_visited] *)

(** [c] lists [s] among the services it depends on. *)
Definition needs (l : list Service) (c s : Service_T) : Prop :=
  exists cv sv,
    l !! c = Some cv /\ l !! s = Some sv /\
    existsb (fun d => IS E d (name sv)) (dependantlist cv) = true.

(** The services above [s]: those that depend on [s], directly or through
    other services. *)
Inductive above (l : list Service) (s : Service_T) : Service_T -> Prop :=
| above_one c : needs l c s -> above l s c
| above_more c x : needs l c s -> above l c x -> above l s x.

(** The mark [mark] of the service at position [v]. *)
Definition marked (mark : Service -> bool) (w : world) (v : Service_T)
  : bool :=
  match servicelist w !! v with
  | Some sv => mark sv
  | None => false
  end.

(** Between [w] and [w'] nothing happened to the services but this: some
    that were not marked have become [f] of what they were. *)
Definition changed (mark : Service -> bool) (f : Service -> Service)
  (w w' : world) : Prop :=
  length (servicelist w') = length (servicelist w) /\
  forall x sv, servicelist w !! x = Some sv ->
    servicelist w' !! x = Some sv \/
    (mark sv = false /\ servicelist w' !! x = Some (f sv)).

Lemma changed_refl mark f w : changed mark f w w.
Proof. split; [reflexivity|]. intros x sv Hx. now left. Qed.

Lemma changed_trans mark f w1 w2 w3 :
  (forall sv, mark (f sv) = true) ->
  changed mark f w1 w2 -> changed mark f w2 w3 -> changed mark f w1 w3.
Proof.
  intros Hf [L1 H1] [L2 H2]. split; [congruence|]. intros x sv Hx.
  destruct (H1 x sv Hx) as [Ha|[Hd Ha]].
  - exact (H2 x sv Ha).
  - destruct (H2 x (f sv) Ha) as [Hb|[Hd' _]]; [now right|].
    rewrite Hf in Hd'. discriminate.
Qed.

Lemma changed_cfg mark f w w' :
  (forall sv, config (f sv) = config sv) ->
  changed mark f w w' ->
  config <$> servicelist w' = config <$> servicelist w.
Proof.
  intros Hf [L H]. apply list_eq. intros i. rewrite !list_lookup_fmap.
  destruct (servicelist w !! i) as [sv|] eqn:Hi.
  - destruct (H i sv Hi) as [->|[_ ->]]; cbn; [reflexivity|now rewrite Hf].
  - apply lookup_ge_None in Hi. rewrite <- L in Hi.
    apply lookup_ge_None in Hi. now rewrite Hi.
Qed.

Lemma changed_mark mark f w w' v :
  (forall sv, mark (f sv) = true) ->
  changed mark f w w' -> marked mark w v = true -> marked mark w' v = true.
Proof.
  intros Hf [_ H]. unfold marked.
  destruct (servicelist w !! v) as [sv|] eqn:Hv; [|discriminate].
  destruct (H v sv Hv) as [->|[_ ->]]; [auto|]. intros _. apply Hf.
Qed.

(** A service that has become marked has become [f] of what it was; the
    others are what they were. *)
Lemma changed_new mark f w w' v :
  changed mark f w w' -> marked mark w v = false ->
  marked mark w' v = true ->
  exists sv, servicelist w !! v = Some sv /\ servicelist w' !! v = Some (f sv).
Proof.
  intros [L H]. unfold marked.
  destruct (servicelist w !! v) as [sv|] eqn:Hv.
  - destruct (H v sv Hv) as [->|[_ ->]]; [congruence|]. eauto.
  - apply lookup_ge_None in Hv. rewrite <- L in Hv.
    apply lookup_ge_None in Hv. rewrite Hv. discriminate.
Qed.

Lemma changed_same mark f w w' v :
  (forall sv, mark (f sv) = true) ->
  changed mark f w w' -> marked mark w' v = marked mark w v ->
  servicelist w' !! v = servicelist w !! v.
Proof.
  intros Hf [L H]. unfold marked.
  destruct (servicelist w !! v) as [sv|] eqn:Hv.
  - destruct (H v sv Hv) as [->|[Hd ->]]; [reflexivity|].
    rewrite Hf, Hd. discriminate.
  - intros _. apply lookup_ge_None in Hv. rewrite <- L in Hv.
    now apply lookup_ge_None in Hv.
Qed.

(** In a batch that starts with no service marked, the services a walk has
    marked are the services it has changed. *)
Lemma changed_reach mark (f : Service -> Service) (P : Service_T -> Prop)
  w w' :
  (forall sv, mark (f sv) = true) ->
  changed mark f w w' ->
  (forall v, marked mark w v = false) ->
  (forall x, P x -> marked mark w' x = true) ->
  (forall v, marked mark w' v = true -> marked mark w v = true \/ P v) ->
  (forall x sv, P x -> servicelist w !! x = Some sv ->
                servicelist w' !! x = Some (f sv)) /\
  (forall x, ~ P x -> servicelist w' !! x = servicelist w !! x).
Proof.
  intros Hf Ht Hfresh Hin Hout. split.
  - intros x sv Hx Hs.
    destruct (changed_new mark f w w' x Ht (Hfresh x) (Hin x Hx))
      as (sv' & H1 & H2).
    congruence.
  - intros x Hx. apply (changed_same mark f w w' x Hf Ht).
    rewrite Hfresh. destruct (marked mark w' x) eqn:Hd; [|reflexivity].
    destruct (Hout x Hd) as [H|H]; [now rewrite Hfresh in H|contradiction].
Qed.

(** The mark [depend_visited] of the service at position [v], and the
    changes to services that were not marked so. *)
Definition dvis (w : world) (v : Service_T) : bool :=
  marked depend_visited w v.

Definition touched (f : Service -> Service) (w w' : world) : Prop :=
  changed depend_visited f w w'.

Lemma touched_refl f w : touched f w w.
Proof. apply changed_refl. Qed.

Lemma touched_trans f w1 w2 w3 :
  (forall sv, depend_visited (f sv) = true) ->
  touched f w1 w2 -> touched f w2 w3 -> touched f w1 w3.
Proof. apply changed_trans. Qed.

Lemma touched_cfg f w w' :
  (forall sv, config (f sv) = config sv) ->
  touched f w w' -> config <$> servicelist w' = config <$> servicelist w.
Proof. apply changed_cfg. Qed.

Lemma touched_mark f w w' v :
  (forall sv, depend_visited (f sv) = true) ->
  touched f w w' -> dvis w v = true -> dvis w' v = true.
Proof. apply changed_mark. Qed.

Lemma needs_cfg l l' c s :
  config <$> l' = config <$> l -> needs l c s -> needs l' c s.
Proof.
  intros Hcfg (cv & sv & Hc & Hs & Hdep).
  destruct (cfg_lookup _ _ _ _ Hcfg Hc) as (cv' & Hc' & Hcc).
  destruct (cfg_lookup _ _ _ _ Hcfg Hs) as (sv' & Hs' & Hsc).
  exists cv', sv'. split; [exact Hc'|]. split; [exact Hs'|].
  unfold config in Hcc, Hsc.
  replace (dependantlist cv') with (dependantlist cv) by congruence.
  replace (name sv') with (name sv) by congruence. exact Hdep.
Qed.

Lemma cfg_length (l l' : list Service) :
  config <$> l' = config <$> l -> length l' = length l.
Proof.
  intros H. apply (f_equal length) in H. now rewrite !length_fmap in H.
Qed.

(** The walk [_doDepend] for the actions Stop and Unmonitor, which handle a
    dependant after the services above it.  [R] relates the worlds before
    and after a step; the step on a dependant [c] is taken when every
    service above [c] is marked, and it marks [c] and nothing else. *)
Lemma doDepend_late rank N l0 (A : Action_Type) flag
  (R : world -> world -> Prop) (Inv : world -> Prop) :
  dependants_ranked rank N l0 ->
  A = Action_Stop \/ A = Action_Unmonitor ->
  (forall w, R w w) ->
  (forall w1 w2 w3, R w1 w2 -> R w2 w3 -> R w1 w3) ->
  (forall w w', R w w' -> config <$> servicelist w' = config <$> servicelist w) ->
  (forall w w' v, R w w' -> dvis w v = true -> dvis w' v = true) ->
  (forall w w', R w w' -> Inv w -> Inv w') ->
  (forall c w cv,
     config <$> servicelist w = config <$> l0 ->
     servicelist w !! c = Some cv ->
     Inv w -> (forall x, above l0 c x -> dvis w x = true) ->
     wp (match A with
         | Action_Stop => _doStop c flag ;;; ret tt
         | Action_Unmonitor => _doUnmonitor c flag
         | _ => ret tt
         end)
        (fun _ w' => R w w' /\ dvis w' c = true /\
                     forall v, dvis w' v = true -> dvis w v = true \/ v = c) w) ->
  forall fuel s w sv,
    config <$> servicelist w = config <$> l0 ->
    servicelist w !! s = Some sv ->
    (N - rank s < fuel)%nat -> Inv w ->
    wp (_doDepend fuel s A flag)
       (fun _ w' =>
          R w w' /\ (forall x, above l0 s x -> dvis w' x = true) /\
          (forall v, dvis w' v = true -> dvis w v = true \/ above l0 s v)) w.
Proof.
  intros [Hbound Hrank] HA Rrefl Rtrans Rcfg Rmark Rinv Hlate.
  induction fuel as [|fuel IH]; intros s w sv Hcfg Hs Hfuel Hinv; [lia|].
  cbn [_doDepend]. apply wp_bind, (wp_get_service _ _ _ _ Hs).
  unfold each_service.
  assert (Hlen : length (servicelist w) = length l0) by now apply cfg_length.
  eapply wp_mono.
  - apply (wp_for_each (fun rest wi =>
        R w wi /\ Forall (fun x => (x < length l0)%nat) rest /\
        (forall c, ~ In c rest -> needs l0 c s ->
           dvis wi c = true /\ forall x, above l0 c x -> dvis wi x = true) /\
        (forall v, dvis wi v = true -> dvis w v = true \/ above l0 s v))).
    + intros child rest wi (Hi & Hall & Hdone & Hnew).
      pose proof (Forall_inv Hall) as Hchild.
      pose proof (Forall_inv_tail Hall) as Hrest.
      assert (Hcfgi : config <$> servicelist wi = config <$> l0).
      { rewrite (Rcfg _ _ Hi). exact Hcfg. }
      destruct (lookup_lt_is_Some_2 l0 child Hchild) as [cvl Hcl].
      destruct (cfg_lookup _ _ _ _ Hcfgi Hcl) as (cv & Hcv & Hcc).
      destruct (cfg_lookup _ _ _ _ (eq_sym Hcfg) Hs) as (svl & Hsl & Hscl).
      destruct (cfg_lookup _ _ _ _ Hcfgi Hsl) as (svi & Hsi & Hsci).
      apply wp_bind, (wp_get_service _ _ _ _ Hcv).
      apply wp_bind, (wp_get_service _ _ _ _ Hsi).
      assert (Htest : existsb (fun d => IS E d (name svi)) (dependantlist cv) =
                      existsb (fun d => IS E d (name svl)) (dependantlist cvl)).
      { unfold config in Hcc, Hsci.
        replace (dependantlist cv) with (dependantlist cvl) by congruence.
        replace (name svi) with (name svl) by congruence. reflexivity. }
      rewrite Htest.
      destruct (existsb _ (dependantlist cvl)) eqn:Hdep.
      2:{ apply wp_ret. split; [exact Hi|]. split; [exact Hrest|].
          split; [|exact Hnew]. intros c Hc Hneed.
          destruct (Nat.eq_dec c child) as [->|Hne].
          - destruct Hneed as (cv' & sv' & Hc' & Hs' & Hd').
            assert (cv' = cvl) by congruence. assert (sv' = svl) by congruence.
            subst. congruence.
          - apply Hdone; [|exact Hneed]. intros [Heq|Hin]; auto. }
      assert (Hneed : needs l0 child s) by (exists cvl, svl; auto).
      assert (Hlt : (rank s < rank child)%nat)
        by exact (Hrank child cvl s svl Hcl Hsl Hdep).
      pose proof (Hbound child cvl Hcl) as Hle.
      apply wp_seq with (P := fun _ w1 => w1 = wi).
      { destruct HA as [->| ->]; now apply wp_ret. }
      intros [] ? ->.
      eapply wp_seq.
      { apply (IH child wi cv Hcfgi Hcv); [lia|]. exact (Rinv _ _ Hi Hinv). }
      intros [] w2 (H2 & Hup2 & Hnew2). cbv beta.
      assert (Hcfg2 : config <$> servicelist w2 = config <$> l0).
      { rewrite (Rcfg _ _ H2). exact Hcfgi. }
      destruct (cfg_lookup _ _ _ _ Hcfg2 Hcl) as (cv2 & Hcv2 & _).
      eapply wp_mono.
      { apply (Hlate child w2 cv2 Hcfg2 Hcv2); [|exact Hup2].
        exact (Rinv _ _ H2 (Rinv _ _ Hi Hinv)). }
      intros [] w3 (H3 & Hc3 & Hnew3). cbv beta.
      split; [eauto|]. split; [exact Hrest|]. split.
      * intros c Hc Hneedc.
        destruct (Nat.eq_dec c child) as [->|Hne].
        -- split; [exact Hc3|]. intros x Hx. eauto.
        -- destruct (Hdone c) as [Hd1 Hd2]; [intros [Heq|Hin]; auto|exact Hneedc|].
           split; [eauto|]. intros x Hx. eauto.
      * intros v Hv. destruct (Hnew3 v Hv) as [Hv2| ->].
        -- destruct (Hnew2 v Hv2) as [Hvi|Hab]; [auto|].
           right. exact (above_more _ _ _ _ Hneed Hab).
        -- right. now apply above_one.
    + split; [apply Rrefl|]. split.
      { apply Forall_forall. intros x Hx.
        apply list_elem_of_In, in_seq in Hx. lia. }
      split; [|auto]. intros c Hc Hneedc. exfalso. apply Hc.
      apply in_seq. destruct Hneedc as (cv' & _ & Hc' & _).
      apply lookup_lt_Some in Hc'. lia.
  - intros [] w' (H' & _ & Hdone & Hnew). cbv beta.
    split; [exact H'|]. split; [|exact Hnew].
    intros x Hx. destruct Hx as [c Hc|c x Hc Hx].
    + exact (proj1 (Hdone c (fun F => F) Hc)).
    + exact (proj2 (Hdone c (fun F => F) Hc) x Hx).
Qed.

(** *** Unmonitor *)

(** What [_doUnmonitor] makes of a service that is not marked. *)
Definition unmonitored (sv : Service) : Service :=
  set_monitor Monitor_Not (set_depend_visited true sv).

Lemma dvis_lookup w s sv :
  servicelist w !! s = Some sv -> dvis w s = depend_visited sv.
Proof. intros H. unfold dvis, marked. now rewrite H. Qed.

Lemma touched_alter (f : Service -> Service) w s sv t :
  servicelist w !! s = Some sv -> depend_visited sv = false ->
  touched f w (mk_world (alter f s (servicelist w)) t).
Proof.
  intros Hs Hd. split; [apply length_alter|]. intros x svx Hx.
  cbn [servicelist]. destruct (Nat.eq_dec x s) as [->|Hne].
  - right. assert (svx = sv) by congruence. subst svx.
    split; [exact Hd|]. exact (lookup_alter_same _ _ _ _ Hs).
  - left. now rewrite list_lookup_alter_ne by congruence.
Qed.

Lemma dvis_alter (f : Service -> Service) w s t v :
  dvis (mk_world (alter f s (servicelist w)) t) v = true ->
  dvis w v = true \/ v = s.
Proof.
  destruct (Nat.eq_dec v s) as [->|Hne]; [auto|].
  unfold dvis, marked. cbn [servicelist].
  rewrite list_lookup_alter_ne by congruence. auto.
Qed.

Lemma doUnmonitor_effect s flag w sv :
  servicelist w !! s = Some sv ->
  wp (_doUnmonitor s flag)
     (fun _ w' =>
        touched unmonitored w w' /\
        trace w' =
          trace w ++ (if depend_visited sv then [] else [Ev_monitorUnset s]) /\
        dvis w' s = true /\
        forall v, dvis w' v = true -> dvis w v = true \/ v = s) w.
Proof.
  intros Hs. unfold _doUnmonitor. apply wp_bind, (wp_get_service _ _ _ _ Hs).
  destruct (depend_visited sv) eqn:Hd.
  { apply wp_ret. split; [apply touched_refl|].
    split; [now rewrite app_nil_r|].
    split; [now rewrite (dvis_lookup _ _ _ Hs)|auto]. }
  apply wp_bind, wp_update. set (wa := mk_world _ _).
  assert (Hsa : servicelist wa !! s = Some (set_depend_visited true sv))
    by now apply lookup_alter_same.
  unfold Util_monitorUnset.
  apply wp_bind, (wp_get_service _ _ _ _ Hsa), wp_bind, wp_emit, wp_update.
  cbn [servicelist trace]. unfold wa. cbn [servicelist trace].
  rewrite list_alter_alter_eq.
  split; [exact (touched_alter unmonitored w s sv _ Hs Hd)|].
  split; [reflexivity|]. split.
  - unfold dvis, marked. cbn [servicelist].
    now rewrite (lookup_alter_same _ _ _ _ Hs).
  - apply dvis_alter.
Qed.

(** A step of the walk for Unmonitor: services that were not marked have
    been marked and taken out of monitoring, and nothing else was done. *)
Definition unmonitor_step (w w' : world) : Prop :=
  touched unmonitored w w' /\
  exists evs, trace w' = trace w ++ evs /\
              forallb is_unmonitor_event evs = true.

Lemma unmonitor_step_trans w1 w2 w3 :
  unmonitor_step w1 w2 -> unmonitor_step w2 w3 -> unmonitor_step w1 w3.
Proof.
  intros [H1 (e1 & T1 & F1)] [H2 (e2 & T2 & F2)]. split.
  - exact (touched_trans unmonitored _ _ _ (fun _ => eq_refl) H1 H2).
  - exists (e1 ++ e2). rewrite T2, T1, app_assoc, forallb_app, F1, F2. auto.
Qed.

Lemma unmonitor_walk rank N l0 flag :
  dependants_ranked rank N l0 ->
  forall fuel s w sv,
    config <$> servicelist w = config <$> l0 ->
    servicelist w !! s = Some sv ->
    (N - rank s < fuel)%nat ->
    wp (_doDepend fuel s Action_Unmonitor flag)
       (fun _ w' =>
          unmonitor_step w w' /\
          (forall x, above l0 s x -> dvis w' x = true) /\
          (forall v, dvis w' v = true -> dvis w v = true \/ above l0 s v)) w.
Proof.
  intros Hranked fuel s w sv Hcfg Hs Hfuel.
  apply (doDepend_late rank N l0 Action_Unmonitor flag unmonitor_step
           (fun _ => True) Hranked (or_intror eq_refl)) with (sv := sv);
    auto.
  - intros w0. split; [apply touched_refl|]. exists [].
    now rewrite app_nil_r.
  - exact unmonitor_step_trans.
  - intros w0 w' [H _]. exact (touched_cfg unmonitored _ _ (fun _ => eq_refl) H).
  - intros w0 w' v [H _].
    exact (touched_mark unmonitored _ _ v (fun _ => eq_refl) H).
  - intros c w0 cv _ Hc _ _.
    eapply wp_mono; [exact (doUnmonitor_effect c flag w0 cv Hc)|].
    intros [] w' (H1 & H2 & H3 & H4). split; [|auto].
    split; [exact H1|]. eexists. split; [exact H2|].
    destruct (depend_visited cv); reflexivity.
Qed.

(** *** Stop *)

(** What [_doStop] makes of a service that is not marked. *)
Definition stopped_service (flag : bool) (sv : Service) : Service :=
  if flag then set_monitor Monitor_Not (set_depend_visited true sv)
  else set_depend_visited true sv.

(** The services whose stop program a history executes, and the services
    whose stop step it completes (the step ends with the call of
    [Util_monitorUnset] or [Util_resetInfo]), both in order. *)
Definition stopped (evs : list event) : list Service_T :=
  omap (fun e => match e with
                 | Ev_Command_execute x Ref_stop _ _ => Some x
                 | _ => None
                 end) evs.

Definition stop_finished (evs : list event) : list Service_T :=
  omap (fun e => match e with
                 | Ev_monitorUnset v | Ev_resetInfo v => Some v
                 | _ => None
                 end) evs.

Lemma stopped_app e1 e2 : stopped (e1 ++ e2) = stopped e1 ++ stopped e2.
Proof. apply omap_app. Qed.

Lemma stop_finished_app e1 e2 :
  stop_finished (e1 ++ e2) = stop_finished e1 ++ stop_finished e2.
Proof. apply omap_app. Qed.

(** What goes on around the execution of a program: the executor's own
    events, the log and the posting of the outcome. *)
Definition is_calm_event (e : event) : bool :=
  is_inner_event e ||
  match e with Ev_log _ | Ev_post _ _ _ => true | _ => false end.

Lemma calm_is_stop_event e : is_calm_event e = true -> is_stop_event e = true.
Proof.
  destruct e; try discriminate; intros _; unfold is_stop_event;
    now rewrite ?orb_true_r.
Qed.

Lemma stopped_calm evs : forallb is_calm_event evs = true -> stopped evs = [].
Proof.
  induction evs as [|e evs IH]; [reflexivity|]. cbn [forallb]. intros H.
  apply andb_prop in H. destruct H as [He H].
  change (e :: evs) with ([e] ++ evs). rewrite stopped_app, (IH H).
  destruct e; try discriminate; reflexivity.
Qed.

Lemma stop_finished_calm evs :
  forallb is_calm_event evs = true -> stop_finished evs = [].
Proof.
  induction evs as [|e evs IH]; [reflexivity|]. cbn [forallb]. intros H.
  apply andb_prop in H. destruct H as [He H].
  change (e :: evs) with ([e] ++ evs). rewrite stop_finished_app, (IH H).
  destruct e; try discriminate; reflexivity.
Qed.

Lemma inner_is_calm_event e : is_inner_event e = true -> is_calm_event e = true.
Proof. unfold is_calm_event. now intros ->. Qed.

(** The stop step of a service that is not marked: the service is marked
    and, with the flag set, taken out of monitoring, whatever becomes of
    the stop program; the stop program is executed at most once. *)
Lemma doStop_effect s flag w sv :
  servicelist w !! s = Some sv -> depend_visited sv = false ->
  wp (_doStop s flag)
     (fun rv w' =>
        servicelist w' = alter (stopped_service flag) s (servicelist w) /\
        exists c1 mid c2,
          trace w' =
            trace w ++ c1 ++ mid ++ c2 ++
            [if flag then Ev_monitorUnset s else Ev_resetInfo s] /\
          forallb is_calm_event c1 = true /\
          forallb is_calm_event c2 = true /\
          (mid = [] \/
           exists argv env, mid = [Ev_Command_execute s Ref_stop argv env]) /\
          (rv = false ->
           exists status msg,
             In (Ev_post s State_Failed (Failed_to_stop status msg)) c2)) w.
Proof.
  intros Hs Hd. unfold _doStop. apply wp_bind, (wp_get_service _ _ _ _ Hs).
  rewrite Hd. apply wp_bind, wp_update. set (wa := mk_world _ _).
  assert (Hsa : servicelist wa !! s = Some (set_depend_visited true sv))
    by now apply lookup_alter_same.
  apply wp_seq with
    (P := fun rv w1 =>
            servicelist w1 = servicelist wa /\
            exists c1 mid c2,
              trace w1 = trace wa ++ c1 ++ mid ++ c2 /\
              forallb is_calm_event c1 = true /\
              forallb is_calm_event c2 = true /\
              (mid = [] \/
               exists argv env,
                 mid = [Ev_Command_execute s Ref_stop argv env]) /\
              (rv = false ->
               exists status msg,
                 In (Ev_post s State_Failed (Failed_to_stop status msg)) c2)).
  2:{ intros rv w1 (Hl1 & c1 & mid & c2 & T1 & F1 & F2 & Hmid & Hpost).
      assert (Hs1 : servicelist w1 !! s = Some (set_depend_visited true sv))
        by now rewrite Hl1.
      destruct flag.
      - unfold Util_monitorUnset.
        apply wp_bind, wp_bind, (wp_get_service _ _ _ _ Hs1), wp_bind, wp_emit,
          wp_update, wp_ret.
        cbn [servicelist trace]. split.
        + rewrite Hl1. unfold wa. cbn [servicelist].
          now rewrite list_alter_alter_eq.
        + exists c1, mid, c2. rewrite T1. unfold wa. cbn [trace].
          rewrite <- !app_assoc. auto.
      - unfold Util_resetInfo.
        apply wp_bind, wp_bind, (wp_get_service _ _ _ _ Hs1), wp_emit, wp_ret.
        cbn [servicelist trace]. split; [exact Hl1|].
        exists c1, mid, c2. rewrite T1. unfold wa. cbn [trace].
        rewrite <- !app_assoc. auto. }
  destruct (stop sv) as [cmd|] eqn:Hstop.
  2:{ apply wp_bind, wp_emit, wp_ret. cbn [servicelist trace].
      split; [reflexivity|].
      exists [Ev_log (Log_stop_skipped s)], [], []. rewrite app_nil_r.
      repeat split; auto. discriminate. }
  apply wp_seq with (P := fun _ w1 => adds is_calm_event wa w1).
  { destruct (negb (is_process (type sv))).
    - apply wp_ret, adds_refl.
    - apply wp_bind. unfold isProcessRunning. apply wp_ask, wp_ret.
      now apply adds_emit. }
  intros busy w1 H1. destruct busy.
  2:{ apply wp_ret. destruct H1 as [Hl1 (e1 & T1 & F1)].
      split; [exact Hl1|]. exists e1, [], []. rewrite app_nil_r.
      repeat split; auto. discriminate. }
  apply wp_bind, wp_emit, wp_bind. unfold isProcessRunning. apply wp_ask.
  cbn [trace servicelist].
  set (w2 := mk_world (servicelist w1) ((trace w1 ++ _) ++ _)).
  assert (H2 : adds is_calm_event wa w2).
  { eapply adds_trans; [exact H1|]. split; [reflexivity|].
    eexists. unfold w2. cbn [trace]. rewrite <- app_assoc.
    split; reflexivity. }
  assert (Hs2 : servicelist w2 !! s = Some (set_depend_visited true sv)).
  { destruct H2 as [-> _]. exact Hsa. }
  eapply wp_seq;
    [exact (commandExecute_returns s Ref_stop _ _ w2 _ cmd Hs2 Hstop)|].
  intros [[status msg] left] w3
    [Hl3 (pre & mid & post & T3 & Fpre & Fpost & Hmid)].
  cbv beta iota.
  apply wp_seq with (P := fun _ w4 => adds is_calm_event w3 w4).
  { destruct (is_process (type sv)).
    - apply wp_bind. eapply wp_mono; [apply waitStop_returns|].
      intros [st t] w4 H4. cbv beta iota.
      assert (adds is_calm_event w3 w4).
      { apply (adds_weaken is_wait_event); [|exact H4].
        intros e He. now apply inner_is_calm_event, wait_is_inner_event. }
      destruct st; now apply wp_ret.
    - apply wp_ret, adds_refl. }
  intros failed w4 [Hl4 (e4 & T4 & F4)].
  destruct H2 as [Hl2 (e2 & T2 & F2)].
  assert (Hcalm : forall evs, forallb is_inner_event evs = true ->
                              forallb is_calm_event evs = true).
  { intros evs H. apply forallb_forall. intros e He.
    apply inner_is_calm_event. exact (proj1 (forallb_forall _ _) H e He). }
  assert (Hend : forall rv ev,
            is_calm_event ev = true ->
            (rv = false ->
             exists status msg,
               ev = Ev_post s State_Failed (Failed_to_stop status msg)) ->
            wp (ret rv)
              (fun rv w1 =>
                 servicelist w1 = servicelist wa /\
                 exists c1 mid c2,
                   trace w1 = trace wa ++ c1 ++ mid ++ c2 /\
                   forallb is_calm_event c1 = true /\
                   forallb is_calm_event c2 = true /\
                   (mid = [] \/
                    exists argv env,
                      mid = [Ev_Command_execute s Ref_stop argv env]) /\
                   (rv = false ->
                    exists status msg,
                      In (Ev_post s State_Failed (Failed_to_stop status msg))
                         c2))
              (mk_world (servicelist w4) (trace w4 ++ [ev]))).
  { intros rv ev Hev Hrv. apply wp_ret. cbn [servicelist trace].
    split; [congruence|].
    exists (e2 ++ pre), mid, (post ++ e4 ++ [ev]).
    split; [rewrite T4, T3, T2; now rewrite <- !app_assoc|].
    split; [rewrite forallb_app, F2; now apply Hcalm|].
    split.
    { rewrite !forallb_app, (Hcalm post Fpost), F4. cbn [forallb].
      now rewrite Hev. }
    split.
    { destruct Hmid as [->| ->]; [now left|right; eauto]. }
    intros Hf. destruct (Hrv Hf) as (st & m & ->). exists st, m.
    apply in_or_app. right. apply in_or_app. right. now left. }
  destruct failed; apply wp_bind; unfold Event_post; apply wp_emit.
  - apply Hend; [reflexivity|]. eauto.
  - apply Hend; [reflexivity|discriminate].
Qed.

Lemma doStop_marked s flag w sv :
  servicelist w !! s = Some sv -> depend_visited sv = true ->
  _doStop s flag w = Ret true w.
Proof.
  intros Hs Hd. unfold _doStop, bind, get_service. now rewrite Hs, Hd.
Qed.

(** Each stop program in [evs] is executed after the services that depend
    on its service have completed their stop step. *)
Fixpoint stop_order (l : list Service) (before evs : list event) : Prop :=
  match evs with
  | [] => True
  | e :: evs =>
      match e with
      | Ev_Command_execute x Ref_stop _ _ =>
          forall c, needs l c x -> In c (stop_finished before)
      | _ => True
      end /\ stop_order l (before ++ [e]) evs
  end.

Lemma stop_order_app l before e1 e2 :
  stop_order l before (e1 ++ e2) <->
  stop_order l before e1 /\ stop_order l (before ++ e1) e2.
Proof.
  revert before. induction e1 as [|e e1 IH]; intros before; cbn [app stop_order].
  - rewrite app_nil_r. tauto.
  - rewrite IH, <- app_assoc. cbn [app]. tauto.
Qed.

Lemma stop_order_own l before evs s :
  (forall x, In x (stopped evs) -> x = s) ->
  (forall c, needs l c s -> In c (stop_finished before)) ->
  stop_order l before evs.
Proof.
  revert before. induction evs as [|e evs IH]; intros before Hown Hdone;
    [exact I|].
  cbn [stop_order]. split.
  - destruct e as [| | |x [] argv env| | | | | | | | |]; try exact I.
    rewrite (Hown x); [exact Hdone|]. now left.
  - apply IH.
    + intros x Hx. apply Hown. change (e :: evs) with ([e] ++ evs).
      rewrite stopped_app. apply in_or_app. now right.
    + intros c Hc. rewrite stop_finished_app. apply in_or_app. auto.
Qed.

Lemma stop_order_before l before l1 l2 x argv env :
  stop_order l before (l1 ++ Ev_Command_execute x Ref_stop argv env :: l2) ->
  forall c, needs l c x -> In c (stop_finished (before ++ l1)).
Proof. rewrite stop_order_app. cbn [stop_order]. tauto. Qed.

(** The list [f evs] names no service twice, and names only services that
    were not marked [depend_visited] in [w] and are marked in [w']. *)
Definition once_d (f : list event -> list Service_T) (w w' : world)
  (evs : list event) : Prop :=
  NoDup (f evs) /\
  forall x, In x (f evs) -> dvis w x = false /\ dvis w' x = true.

Lemma once_d_nil f w w' : f [] = [] -> once_d f w w' [].
Proof.
  intros H. unfold once_d. rewrite H. split; [constructor|intros x []].
Qed.

Lemma once_d_app f w w1 w2 e1 e2 :
  (forall a b, f (a ++ b) = f a ++ f b) ->
  once_d f w w1 e1 -> once_d f w1 w2 e2 ->
  (forall v, dvis w v = true -> dvis w1 v = true) ->
  (forall v, dvis w1 v = true -> dvis w2 v = true) ->
  once_d f w w2 (e1 ++ e2).
Proof.
  intros Hf [N1 H1] [N2 H2] M1 M2. unfold once_d. rewrite Hf. split.
  - apply NoDup_app. split; [exact N1|]. split; [|exact N2].
    intros x Hx1 Hx2. apply list_elem_of_In in Hx1, Hx2.
    destruct (H1 x Hx1) as [_ Ha]. destruct (H2 x Hx2) as [Hb _]. congruence.
  - intros x Hx. apply in_app_or in Hx. destruct Hx as [Hx|Hx].
    + destruct (H1 x Hx). auto.
    + destruct (H2 x Hx) as [Ha Hb]. split; [|exact Hb].
      destruct (dvis w x) eqn:Hw; [|reflexivity].
      rewrite (M1 x Hw) in Ha. discriminate.
Qed.

(** A step of the walk for Stop, in a batch whose history started after
    [tr0]. *)
Definition stop_step (tr0 : list event) (l0 : list Service) (flag : bool)
  (w w' : world) : Prop :=
  touched (stopped_service flag) w w' /\
  exists evs,
    trace w' = trace w ++ evs /\
    forallb is_stop_event evs = true /\
    (forall b, trace w = tr0 ++ b -> stop_order l0 b evs) /\
    once_d stopped w w' evs /\
    once_d stop_finished w w' evs /\
    (forall x, dvis w' x = true ->
               dvis w x = true \/ In x (stop_finished evs)).

(** Every marked service has completed its stop step in this batch. *)
Definition stop_inv (tr0 : list event) (w : world) : Prop :=
  exists b, trace w = tr0 ++ b /\
            forall v, dvis w v = true -> In v (stop_finished b).

Lemma stopped_service_marked flag sv :
  depend_visited (stopped_service flag sv) = true.
Proof. destruct flag; reflexivity. Qed.

Lemma stopped_service_config flag sv :
  config (stopped_service flag sv) = config sv.
Proof. destruct flag; reflexivity. Qed.

Lemma stop_step_refl tr0 l0 flag w : stop_step tr0 l0 flag w w.
Proof.
  split; [apply touched_refl|]. exists []. rewrite app_nil_r.
  split; [reflexivity|]. split; [reflexivity|]. split; [intros; exact I|].
  split; [now apply once_d_nil|]. split; [now apply once_d_nil|auto].
Qed.

Lemma stop_step_mark tr0 l0 flag w w' v :
  stop_step tr0 l0 flag w w' -> dvis w v = true -> dvis w' v = true.
Proof.
  intros [H _]. exact (touched_mark _ _ _ v (stopped_service_marked flag) H).
Qed.

Lemma stop_step_trans tr0 l0 flag w1 w2 w3 :
  stop_step tr0 l0 flag w1 w2 -> stop_step tr0 l0 flag w2 w3 ->
  stop_step tr0 l0 flag w1 w3.
Proof.
  intros Ha Hb.
  pose proof (fun v => stop_step_mark _ _ _ _ _ v Ha) as M1.
  pose proof (fun v => stop_step_mark _ _ _ _ _ v Hb) as M2.
  destruct Ha as [H1 (e1 & T1 & F1 & O1 & S1 & D1 & N1)].
  destruct Hb as [H2 (e2 & T2 & F2 & O2 & S2 & D2 & N2)].
  split; [exact (touched_trans _ _ _ _ (stopped_service_marked flag) H1 H2)|].
  exists (e1 ++ e2). split; [rewrite T2, T1; now rewrite app_assoc|].
  split; [now rewrite forallb_app, F1, F2|].
  split.
  { intros b Hb. apply stop_order_app. split; [auto|].
    apply O2. rewrite T1, Hb. now rewrite app_assoc. }
  split; [exact (once_d_app _ _ _ _ _ _ stopped_app S1 S2 M1 M2)|].
  split; [exact (once_d_app _ _ _ _ _ _ stop_finished_app D1 D2 M1 M2)|].
  intros x Hx. rewrite stop_finished_app, in_app_iff.
  destruct (N2 x Hx) as [Hx2|Hin]; [|auto].
  destruct (N1 x Hx2); auto.
Qed.

Lemma stop_step_inv tr0 l0 flag w w' :
  stop_step tr0 l0 flag w w' -> stop_inv tr0 w -> stop_inv tr0 w'.
Proof.
  intros [_ (evs & T & _ & _ & _ & _ & N)] (b & Hb & Hdone).
  exists (b ++ evs). split; [rewrite T, Hb; now rewrite app_assoc|].
  intros v Hv. rewrite stop_finished_app, in_app_iff.
  destruct (N v Hv); auto.
Qed.

(** The stop step of a dependant, taken when every service above it is
    marked. *)
Lemma stop_late tr0 l0 flag c w cv :
  servicelist w !! c = Some cv ->
  stop_inv tr0 w ->
  (forall x, above l0 c x -> dvis w x = true) ->
  wp (_doStop c flag)
     (fun _ w' =>
        stop_step tr0 l0 flag w w' /\ dvis w' c = true /\
        forall v, dvis w' v = true -> dvis w v = true \/ v = c) w.
Proof.
  intros Hc (b0 & Hb0 & Hdone) Habove.
  destruct (depend_visited cv) eqn:Hd.
  { exists true, w. split; [exact (doStop_marked c flag w cv Hc Hd)|].
    split; [apply stop_step_refl|].
    split; [now rewrite (dvis_lookup _ _ _ Hc)|auto]. }
  eapply wp_mono; [exact (doStop_effect c flag w cv Hc Hd)|].
  intros rv w' (Hl & c1 & mid & c2 & T & F1 & F2 & Hmid & _). cbv beta.
  assert (Hc' : servicelist w' !! c = Some (stopped_service flag cv)).
  { rewrite Hl. exact (lookup_alter_same _ _ _ _ Hc). }
  assert (Hdc : dvis w c = false) by now rewrite (dvis_lookup _ _ _ Hc).
  assert (Hdc' : dvis w' c = true).
  { rewrite (dvis_lookup _ _ _ Hc'). apply stopped_service_marked. }
  assert (Hnew : forall v, dvis w' v = true -> dvis w v = true \/ v = c).
  { intros v. destruct (Nat.eq_dec v c) as [->|Hne]; [auto|].
    unfold dvis, marked. rewrite Hl, list_lookup_alter_ne by congruence. auto. }
  set (fin := if flag then Ev_monitorUnset c else Ev_resetInfo c) in *.
  assert (Hfin : stop_finished [fin] = [c]) by (unfold fin; now destruct flag).
  assert (Hstopped : stopped (c1 ++ mid ++ c2 ++ [fin]) = stopped mid).
  { rewrite !stopped_app, (stopped_calm c1 F1), (stopped_calm c2 F2).
    assert (stopped [fin] = []) as -> by (unfold fin; now destruct flag).
    now rewrite !app_nil_r. }
  assert (Hmid' : stopped mid = [] \/ stopped mid = [c]).
  { destruct Hmid as [->|(argv & env & ->)]; auto. }
  assert (Hfinished : stop_finished (c1 ++ mid ++ c2 ++ [fin]) = [c]).
  { rewrite !stop_finished_app, (stop_finished_calm c1 F1),
      (stop_finished_calm c2 F2), Hfin.
    destruct Hmid as [->|(argv & env & ->)]; reflexivity. }
  split; [|auto]. split.
  { split; [rewrite Hl; apply length_alter|]. intros x svx Hx.
    rewrite Hl. destruct (Nat.eq_dec x c) as [->|Hne].
    - right. assert (svx = cv) by congruence. subst svx.
      split; [exact Hd|]. exact (lookup_alter_same _ _ _ _ Hc).
    - left. now rewrite list_lookup_alter_ne by congruence. }
  exists (c1 ++ mid ++ c2 ++ [fin]). split; [exact T|].
  split.
  { rewrite !forallb_app.
    rewrite (proj2 (forallb_forall is_stop_event c1)),
            (proj2 (forallb_forall is_stop_event c2)).
    - destruct Hmid as [->|(argv & env & ->)]; unfold fin; now destruct flag.
    - intros e He. apply calm_is_stop_event.
      exact (proj1 (forallb_forall _ _) F2 e He).
    - intros e He. apply calm_is_stop_event.
      exact (proj1 (forallb_forall _ _) F1 e He). }
  split.
  { intros b Hb. apply (stop_order_own _ _ _ c).
    - rewrite Hstopped. intros x Hx.
      destruct Hmid' as [H|H]; rewrite H in Hx;
        [destruct Hx|destruct Hx as [Hx|[]]; auto].
    - intros g Hg. rewrite Hb0 in Hb. apply app_inv_head in Hb. subst b.
      apply Hdone, Habove. now apply above_one. }
  split.
  { unfold once_d. rewrite Hstopped. split.
    - destruct Hmid' as [->| ->]; [constructor|apply NoDup_singleton].
    - intros x Hx. destruct Hmid' as [H|H]; rewrite H in Hx;
        [destruct Hx|destruct Hx as [<-|[]]; auto]. }
  split.
  { unfold once_d. rewrite Hfinished. split; [apply NoDup_singleton|].
    intros x [<-|[]]. auto. }
  intros x Hx. rewrite Hfinished. destruct (Hnew x Hx) as [?| ->]; [auto|].
  right. now left.
Qed.

Lemma stop_walk rank N l0 flag tr0 :
  dependants_ranked rank N l0 ->
  forall fuel s w sv,
    config <$> servicelist w = config <$> l0 ->
    servicelist w !! s = Some sv ->
    (N - rank s < fuel)%nat ->
    stop_inv tr0 w ->
    wp (_doDepend fuel s Action_Stop flag)
       (fun _ w' =>
          stop_step tr0 l0 flag w w' /\
          (forall x, above l0 s x -> dvis w' x = true) /\
          (forall v, dvis w' v = true -> dvis w v = true \/ above l0 s v)) w.
Proof.
  intros Hranked fuel s w sv Hcfg Hs Hfuel Hinv.
  apply (doDepend_late rank N l0 Action_Stop flag (stop_step tr0 l0 flag)
           (stop_inv tr0) Hranked (or_introl eq_refl)) with (sv := sv);
    auto.
  - apply stop_step_refl.
  - apply stop_step_trans.
  - intros w0 w' [H _].
    exact (touched_cfg _ _ _ (stopped_service_config flag) H).
  - intros w0 w' v. apply stop_step_mark.
  - apply stop_step_inv.
  - intros c w0 cv _ Hc Hi Hab. apply wp_bind.
    eapply wp_mono; [exact (stop_late tr0 l0 flag c w0 cv Hc Hi Hab)|].
    intros rv w' H. now apply wp_ret.
Qed.

Lemma touched_reach (f : Service -> Service) (P : Service_T -> Prop) w w' :
  (forall sv, depend_visited (f sv) = true) ->
  touched f w w' ->
  (forall v, dvis w v = false) ->
  (forall x, P x -> dvis w' x = true) ->
  (forall v, dvis w' v = true -> dvis w v = true \/ P v) ->
  (forall x sv, P x -> servicelist w !! x = Some sv ->
                servicelist w' !! x = Some (f sv)) /\
  (forall x, ~ P x -> servicelist w' !! x = servicelist w !! x).
Proof. apply changed_reach. Qed.

(** *** [_doRestart] *)



(** *** The verdict of the wait loops, and the time they take *)

(** How [_waitStop] ends: the process was seen gone by the last look at
    it, or the loop slept and then gave up. *)
Definition waitStop_verdict (pid timeout : Z) (k : nat) (st : Process_Status)
  (w' : world) : Prop :=
  match st with
  | Process_Stopped =>
      k = 0%nat /\ pid = 0 \/
      exists tr errno,
        trace w' = tr ++ [Ev_getpgid pid] /\
        getpgid E tr pid = (-1, errno) /\ errno <> EPERM
  | Process_Started =>
      (1 <= k)%nat /\
      (timeout - 100000 * Z.of_nat k <= 0 \/ Run_stopped E (trace w') = true)
  end.

Lemma waitStop_loop_verdict fuel pid timeout w :
  timeout < Z.of_nat fuel * 100000 -> (0 < fuel)%nat ->
  exists k st w' evs,
    waitStop_loop fuel pid timeout w =
      Ret (st, timeout - 100000 * Z.of_nat k) w' /\
    servicelist w' = servicelist w /\
    trace w' = trace w ++ evs /\
    sleeps evs = repeat 100000 k /\
    (forall j, (1 <= j < k)%nat -> 0 < timeout - 100000 * Z.of_nat j) /\
    waitStop_verdict pid timeout k st w' /\
    (pid = 0 -> evs = []).
Proof.
  revert timeout w.
  induction fuel as [|fuel IH]; intros timeout w Hfuel Hpos; [lia|].
  cbn [waitStop_loop]. step_call.
  destruct (Z.eqb_spec pid 0) as [Hpid|Hpid].
  { exists 0%nat, Process_Stopped, w, []. rewrite Z.mul_0_r, Z.sub_0_r.
    rewrite app_nil_r. repeat split; auto; try lia. now left. }
  destruct (getpgid E (trace w) pid) as [r errno] eqn:Hget.
  cbn beta iota. cbn [trace servicelist].
  destruct ((r =? -1) && negb (errno =? EPERM)) eqn:Hgone.
  { exists 0%nat, Process_Stopped,
      (mk_world (servicelist w) (trace w ++ [Ev_getpgid pid])),
      [Ev_getpgid pid].
    rewrite Z.mul_0_r, Z.sub_0_r. repeat split; auto; try lia.
    right. exists (trace w), errno. cbn [trace].
    apply andb_prop in Hgone. destruct Hgone as [Hr He].
    apply Z.eqb_eq in Hr. subst r. split; [reflexivity|]. split; [exact Hget|].
    intros ->. now rewrite Z.eqb_refl in He. }
  cbn [trace servicelist].
  set (w2 := mk_world (servicelist w)
               ((trace w ++ [Ev_getpgid pid]) ++ [Ev_usleep 100000])).
  destruct (Z.ltb_spec 0 (timeout - 100000)) as [Hleft|Hleft]; cbn [andb].
  2:{ exists 1%nat, Process_Started, w2, [Ev_getpgid pid; Ev_usleep 100000].
      replace (timeout - 100000 * Z.of_nat 1) with (timeout - 100000) by lia.
      split; [reflexivity|]. split; [reflexivity|].
      split; [unfold w2; cbn [trace]; now rewrite <- app_assoc|].
      split; [reflexivity|]. split; [intros j Hj; lia|].
      split; [|contradiction]. split; [lia|]. left. lia. }
  destruct (Run_stopped E ((trace w ++ [Ev_getpgid pid]) ++ [Ev_usleep 100000]))
    eqn:Hstop; cbn [negb].
  { exists 1%nat, Process_Started, w2, [Ev_getpgid pid; Ev_usleep 100000].
    replace (timeout - 100000 * Z.of_nat 1) with (timeout - 100000) by lia.
    split; [reflexivity|]. split; [reflexivity|].
    split; [unfold w2; cbn [trace]; now rewrite <- app_assoc|].
    split; [reflexivity|]. split; [intros j Hj; lia|].
    split; [|contradiction]. split; [lia|]. right. exact Hstop. }
  destruct (IH (timeout - 100000) w2) as
    (k & st & w' & evs & Hrun & Hl & T & Hsl & Hpos' & Hv & _); [lia|lia|].
  exists (S k), st, w', ([Ev_getpgid pid; Ev_usleep 100000] ++ evs).
  replace (timeout - 100000 * Z.of_nat (S k))
    with (timeout - 100000 - 100000 * Z.of_nat k) by lia.
  split; [exact Hrun|]. split; [exact Hl|].
  split; [rewrite T; unfold w2; cbn [trace]; now rewrite <- !app_assoc|].
  split; [rewrite sleeps_app, Hsl; reflexivity|].
  split.
  { intros j Hj. destruct (Nat.eq_dec j 1%nat) as [->|Hne]; [lia|].
    specialize (Hpos' (j - 1)%nat). lia. }
  split; [|contradiction].
  unfold waitStop_verdict in *. destruct st.
  - destruct Hv as [[_ Hv]|Hv]; [contradiction|now right].
  - destruct Hv as [Hk Hv]. split; [lia|].
    destruct Hv as [Hv|Hv]; [left; lia|now right].
Qed.

(** How [_waitStart] ends: the process was seen by the last look at it, or
    the loop slept and then gave up. *)
Definition waitStart_verdict (s : Service_T) (left : Z) (st : Process_Status)
  (evs : list event) (w' : world) : Prop :=
  match st with
  | Process_Started =>
      exists tr, trace w' = tr ++ [Ev_isProcessRunning s true] /\
                 Util_isProcessRunning E tr s true <> 0
  | Process_Stopped =>
      sleeps evs <> [] /\ (left <= 0 \/ Run_stopped E (trace w') = true)
  end.

Fixpoint sum (l : list Z) : Z :=
  match l with
  | [] => 0
  | x :: l => x + sum l
  end.

Lemma waitStart_loop_verdict fuel s wait timeout w :
  50000 <= wait -> timeout < Z.of_nat fuel * 50000 -> (0 < fuel)%nat ->
  exists st left w' evs,
    waitStart_loop fuel s wait timeout w = Ret (st, left) w' /\
    servicelist w' = servicelist w /\
    trace w' = trace w ++ evs /\
    left = timeout - sum (sleeps evs) /\
    waitStart_verdict s left st evs w'.
Proof.
  revert wait timeout w.
  induction fuel as [|fuel IH]; intros wait timeout w Hwait Hfuel Hpos; [lia|].
  cbn [waitStart_loop]. step_call. cbn [trace servicelist].
  destruct (Z.eqb_spec (Util_isProcessRunning E (trace w) s true) 0)
    as [Hpid|Hpid]; cbn [negb].
  2:{ exists Process_Started, timeout,
        (mk_world (servicelist w) (trace w ++ [Ev_isProcessRunning s true])),
        [Ev_isProcessRunning s true].
      split; [reflexivity|]. split; [reflexivity|]. split; [reflexivity|].
      split; [cbn; lia|].
      exists (trace w). auto. }
  cbn [trace servicelist].
  set (w2 := mk_world (servicelist w)
               ((trace w ++ [Ev_isProcessRunning s true]) ++ [Ev_usleep wait])).
  assert (Hgive : timeout - wait <= 0 \/ Run_stopped E (trace w2) = true ->
    exists st left w' evs,
      Ret (Process_Stopped, timeout - wait) w2 = Ret (st, left) w' /\
      servicelist w' = servicelist w /\ trace w' = trace w ++ evs /\
      left = timeout - sum (sleeps evs) /\
      waitStart_verdict s left st evs w').
  { intros Hwhy.
    exists Process_Stopped, (timeout - wait), w2,
      [Ev_isProcessRunning s true; Ev_usleep wait].
    split; [reflexivity|]. split; [reflexivity|].
    split; [unfold w2; cbn [trace]; now rewrite <- app_assoc|].
    split; [cbn; lia|].
    split; [discriminate|exact Hwhy]. }
  destruct (Z.ltb_spec 0 (timeout - wait)) as [Hleft|Hleft]; cbn [andb];
    [|exact (Hgive (or_introl Hleft))].
  destruct (Run_stopped E
              ((trace w ++ [Ev_isProcessRunning s true]) ++ [Ev_usleep wait]))
    eqn:Hstop; cbn [negb]; [exact (Hgive (or_intror Hstop))|].
  destruct (IH (if wait <? 1000000 then wait * 2 else 1000000)
              (timeout - wait) w2)
    as (st & left & w' & evs & Hrun & Hl & T & Hleft' & Hv).
  { destruct (wait <? 1000000); lia. }
  { lia. }
  { lia. }
  exists st, left, w', ([Ev_isProcessRunning s true; Ev_usleep wait] ++ evs).
  split; [exact Hrun|]. split; [exact Hl|].
  split; [rewrite T; unfold w2; cbn [trace]; now rewrite <- !app_assoc|].
  split; [rewrite sleeps_app; cbn; lia|].
  unfold waitStart_verdict in *. destruct st; [|exact Hv].
  destruct Hv as [Hne Hv]. split; [|exact Hv].
  rewrite sleeps_app. discriminate.
Qed.

(** *** Monitor *)

(** [p] is one of the services [x] names among its dependants. *)
Definition depends_on (l : list Service) (x p : Service_T) : Prop :=
  exists sv d,
    l !! x = Some sv /\ In d (dependantlist sv) /\ lookup_name l d = Some p.

(** The services below [s]: those [s] depends on, directly or through
    other services. *)
Inductive below (l : list Service) (s : Service_T) : Service_T -> Prop :=
| below_one p : depends_on l s p -> below l s p
| below_more p x : depends_on l s p -> below l p x -> below l s x.

(** What [_doMonitor] makes of a service that is not marked: it is marked
    [visited], and monitoring is enabled if it was not. *)
Definition monitored (sv : Service) : Service :=
  match monitor sv with
  | Monitor_Not => set_monitor Monitor_Init (set_visited true sv)
  | _ => set_visited true sv
  end.

Lemma monitored_marked sv : visited (monitored sv) = true.
Proof. unfold monitored. now destruct (monitor sv). Qed.

Lemma monitored_config sv : config (monitored sv) = config sv.
Proof. unfold monitored. now destruct (monitor sv). Qed.

Lemma monitored_monitor sv : monitor (monitored sv) <> Monitor_Not.
Proof.
  unfold monitored. destruct (monitor sv) eqn:H; cbn; congruence.
Qed.

(** A step of the walk for Monitor. *)
Definition monitor_step (w w' : world) : Prop :=
  changed visited monitored w w' /\
  exists evs, trace w' = trace w ++ evs /\
              forallb is_monitor_event evs = true.

Lemma monitor_step_refl w : monitor_step w w.
Proof.
  split; [apply changed_refl|]. exists []. now rewrite app_nil_r.
Qed.

Lemma monitor_step_trans w1 w2 w3 :
  monitor_step w1 w2 -> monitor_step w2 w3 -> monitor_step w1 w3.
Proof.
  intros [H1 (e1 & T1 & F1)] [H2 (e2 & T2 & F2)]. split.
  - exact (changed_trans visited monitored _ _ _ monitored_marked H1 H2).
  - exists (e1 ++ e2). rewrite T2, T1, app_assoc, forallb_app, F1, F2. auto.
Qed.

Lemma monitor_step_vis w w' v :
  monitor_step w w' -> vis w v = true -> vis w' v = true.
Proof.
  intros [H _]. exact (changed_mark visited monitored w w' v monitored_marked H).
Qed.

Lemma monitor_step_cfg w w' :
  monitor_step w w' -> config <$> servicelist w' = config <$> servicelist w.
Proof.
  intros [H _]. exact (changed_cfg visited monitored w w' monitored_config H).
Qed.

(** Every service below [v] is marked. *)
Definition closed (l : list Service) (w : world) (v : Service_T) : Prop :=
  forall x, below l v x -> vis w x = true.

Lemma closed_mono l w w' v :
  (forall x, vis w x = true -> vis w' x = true) ->
  closed l w v -> closed l w' v.
Proof. intros M H x Hx. auto. Qed.

Lemma vis_lookup w s sv :
  servicelist w !! s = Some sv -> vis w s = visited sv.
Proof. intros H. unfold vis. now rewrite H. Qed.

(** The walk of [_doMonitor]: in a batch in which every service that is
    marked has everything below it marked, or is still being handled
    further up. *)
Lemma monitor_walk rank l0 flag :
  acyclic rank l0 ->
  forall fuel s w sv,
    config <$> servicelist w = config <$> l0 ->
    servicelist w !! s = Some sv ->
    (rank s < fuel)%nat ->
    (forall v, vis w v = true -> closed l0 w v \/ (rank s < rank v)%nat) ->
    wp (_doMonitor fuel s flag)
       (fun _ w' =>
          monitor_step w w' /\ vis w' s = true /\ closed l0 w' s /\
          (forall v, vis w' v = true ->
                     vis w v = true \/ v = s \/ below l0 s v) /\
          (forall v, vis w' v = true -> vis w v = true \/ closed l0 w' v)) w.
Proof.
  intros Hwf. induction fuel as [|fuel IH];
    intros s w sv Hcfg Hs Hfuel Hpre; [lia|].
  cbn [_doMonitor]. apply wp_bind, (wp_get_service _ _ _ _ Hs).
  destruct (visited sv) eqn:Hv.
  { assert (Hvs : vis w s = true) by now rewrite (vis_lookup _ _ _ Hs).
    apply wp_ret. split; [apply monitor_step_refl|]. split; [exact Hvs|].
    split; [destruct (Hpre s Hvs); [assumption|lia]|]. auto. }
  assert (Hvs : vis w s = false) by now rewrite (vis_lookup _ _ _ Hs).
  apply wp_bind, wp_update. set (wa := mk_world _ _).
  assert (Hcfga : config <$> servicelist wa = config <$> l0).
  { unfold wa. cbn [servicelist]. now rewrite cfg_mark. }
  assert (Hsa : servicelist wa !! s = Some (set_visited true sv))
    by exact (lookup_alter_same _ _ _ _ Hs).
  assert (Hvsa : vis wa s = true) by exact (vis_mark_eq w s sv _ Hs).
  assert (Hwa : forall v, vis w v = true -> vis wa v = true).
  { intros v Hvv. destruct (Nat.eq_dec v s) as [->|Hne]; [exact Hvsa|].
    unfold wa. now rewrite vis_mark_ne. }
  assert (Haw : forall v, vis wa v = true -> v = s \/ vis w v = true).
  { intros v Hvv. destruct (Nat.eq_dec v s) as [->|Hne]; [now left|].
    right. unfold wa in Hvv. now rewrite vis_mark_ne in Hvv. }
  destruct (cfg_lookup _ _ _ _ (eq_sym Hcfg) Hs) as (sv0 & Hs0 & Hc0).
  assert (Hdeps : dependantlist sv = dependantlist sv0).
  { unfold config in Hc0. congruence. }
  rewrite Hdeps.
  apply wp_seq with
    (P := fun _ wb =>
            monitor_step wa wb /\
            (forall d p, In d (dependantlist sv0) ->
                         lookup_name l0 d = Some p ->
                         vis wb p = true /\ closed l0 wb p) /\
            (forall v, vis wb v = true -> vis wa v = true \/ below l0 s v) /\
            (forall v, vis wb v = true -> vis wa v = true \/ closed l0 wb v)).
  { eapply wp_mono.
    - apply (wp_for_each (fun rest wi =>
        monitor_step wa wi /\
        (exists done, dependantlist sv0 = done ++ rest /\
           forall d p, In d done -> lookup_name l0 d = Some p ->
                       vis wi p = true /\ closed l0 wi p) /\
        (forall v, vis wi v = true -> vis wa v = true \/ below l0 s v) /\
        (forall v, vis wi v = true -> vis wa v = true \/ closed l0 wi v))).
      2:{ split; [apply monitor_step_refl|]. split; [|auto].
          exists []. split; [reflexivity|]. intros d p []. }
      intros d rest wi (Hi & (done & Hdone & Hd) & Hin & Hcl).
      assert (Hdin : In d (dependantlist sv0)).
      { rewrite Hdone. apply in_or_app. right. now left. }
      destruct (Hwf s sv0 d Hs0 Hdin) as (p & Hp & Hrank).
      assert (Hcfgi : config <$> servicelist wi = config <$> l0).
      { rewrite (monitor_step_cfg _ _ Hi). exact Hcfga. }
      apply wp_bind. unfold Util_getService. eexists _, _.
      split; [reflexivity|].
      rewrite (find_service_cfg _ _ _ _ Hcfgi). fold (lookup_name l0 d).
      rewrite Hp.
      destruct (find_service_lookup _ _ _ _ Hp) as (svp0 & Hp0 & _).
      rewrite Nat.sub_0_r in Hp0.
      destruct (cfg_lookup _ _ _ _ Hcfgi Hp0) as (svp & Hpi & _).
      eapply wp_mono.
      { apply (IH p wi svp Hcfgi Hpi); [lia|].
        intros v Hvi. destruct (Hcl v Hvi) as [Hva|Hc]; [|now left].
        destruct (Haw v Hva) as [->|Hvw]; [right; lia|].
        destruct (Hpre v Hvw) as [Hc|Hr]; [|right; lia].
        left. apply (closed_mono l0 w wi); [|exact Hc].
        intros x Hx. apply (monitor_step_vis wa wi x Hi). auto. }
      intros [] wj (Hj & Hvp & Hcp & Hinj & Hclj). cbv beta.
      pose proof (fun x => monitor_step_vis wi wj x Hj) as Mj.
      split; [eauto using monitor_step_trans|]. split.
      { exists (done ++ [d]). split; [rewrite Hdone; now rewrite <- app_assoc|].
        intros d' p' Hd' Hp'. apply in_app_or in Hd'.
        destruct Hd' as [Hd'|[<-|[]]].
        - destruct (Hd d' p' Hd' Hp') as [H1 H2]. split; [auto|].
          exact (closed_mono l0 wi wj p' Mj H2).
        - assert (p' = p) by congruence. subst p'. auto. }
      assert (Hsp : depends_on l0 s p) by (exists sv0, d; auto).
      split.
      { intros v Hvj. destruct (Hinj v Hvj) as [Hvi|[->|Hb]]; [auto| |].
        - right. now apply below_one.
        - right. exact (below_more _ _ _ _ Hsp Hb). }
      intros v Hvj. destruct (Hclj v Hvj) as [Hvi|Hc]; [|now right].
      destruct (Hcl v Hvi) as [Hva|Hc]; [now left|].
      right. exact (closed_mono l0 wi wj v Mj Hc).
    - intros [] wb (Hb & (done & Hdone & Hd) & Hin & Hcl). cbv beta.
      rewrite app_nil_r in Hdone. subst done. auto. }
  intros [] wb (Hb & Hd & Hin & Hcl).
  pose proof (fun x => monitor_step_vis wa wb x Hb) as Mb.
  destruct Hb as [Hchg (evs & Tb & Fb)].
  assert (Hsb : servicelist wb !! s = Some (set_visited true sv)).
  { destruct Hchg as [_ Hchg].
    destruct (Hchg s _ Hsa) as [H|[H _]]; [exact H|discriminate]. }
  assert (Hother : forall x svx, x <> s -> servicelist w !! x = Some svx ->
            servicelist wb !! x = Some svx \/
            (visited svx = false /\
             servicelist wb !! x = Some (monitored svx))).
  { intros x svx Hx Hlx. destruct Hchg as [_ Hchg]. apply Hchg.
    unfold wa. cbn [servicelist]. now rewrite list_lookup_alter_ne by congruence. }
  assert (Hlenb : length (servicelist wb) = length (servicelist w)).
  { destruct Hchg as [-> _]. unfold wa. cbn [servicelist]. apply length_alter. }
  assert (Hclosed : closed l0 wb s).
  { intros x Hx. destruct Hx as [p (sv' & d & Hs' & Hdin & Hp)
                                 |p x (sv' & d & Hs' & Hdin & Hp) Hx].
    - assert (sv' = sv0) by congruence. subst sv'.
      exact (proj1 (Hd d p Hdin Hp)).
    - assert (sv' = sv0) by congruence. subst sv'.
      exact (proj2 (Hd d p Hdin Hp) x Hx). }
  unfold Util_monitorSet.
  apply wp_bind, (wp_get_service _ _ _ _ Hsb), wp_bind, wp_emit.
  assert (Hfinal : forall l',
            length l' = length (servicelist wb) ->
            l' !! s = Some (monitored sv) ->
            (forall x, x <> s -> l' !! x = servicelist wb !! x) ->
            let w' := mk_world l' (trace wb ++ [Ev_monitorSet s]) in
            monitor_step w w' /\ vis w' s = true /\ closed l0 w' s /\
            (forall v, vis w' v = true ->
                       vis w v = true \/ v = s \/ below l0 s v) /\
            (forall v, vis w' v = true -> vis w v = true \/ closed l0 w' v)).
  { intros l' Hlen' Hs' Hx' w'.
    assert (Hvis' : forall v, vis w' v = vis wb v).
    { intros v. unfold vis, w'. cbn [servicelist].
      destruct (Nat.eq_dec v s) as [->|Hne].
      - rewrite Hs', Hsb. apply monitored_marked.
      - now rewrite Hx'. }
    assert (Hcl' : forall v, closed l0 wb v -> closed l0 w' v).
    { intros v Hc x Hx. rewrite Hvis'. auto. }
    split.
    { split.
      - split; [unfold w'; cbn [servicelist]; congruence|].
        intros x svx Hlx. unfold w'. cbn [servicelist].
        destruct (Nat.eq_dec x s) as [->|Hne].
        + right. assert (svx = sv) by congruence. subst svx. auto.
        + rewrite Hx' by exact Hne. exact (Hother x svx Hne Hlx).
      - exists (evs ++ [Ev_monitorSet s]). unfold w'. cbn [trace].
        rewrite Tb. unfold wa. cbn [trace].
        split; [now rewrite <- app_assoc|].
        now rewrite forallb_app, Fb. }
    split; [rewrite Hvis'; auto|]. split; [auto|]. split.
    - intros v Hv'. rewrite Hvis' in Hv'.
      destruct (Hin v Hv') as [Hva|Hb]; [|auto].
      destruct (Haw v Hva); auto.
    - intros v Hv'. rewrite Hvis' in Hv'.
      destruct (Hcl v Hv') as [Hva|Hc]; [|auto].
      destruct (Haw v Hva) as [->|Hvw]; auto. }
  change (monitor (set_visited true sv)) with (monitor sv).
  destruct (monitor sv) eqn:Hm.
  - apply wp_update. apply Hfinal.
    + apply length_alter.
    + rewrite (lookup_alter_same _ _ _ _ Hsb). unfold monitored.
      now rewrite Hm.
    + intros x Hx. now rewrite list_lookup_alter_ne by congruence.
  - apply wp_ret. apply Hfinal; [reflexivity| |auto].
    rewrite Hsb. unfold monitored. now rewrite Hm.
  - apply wp_ret. apply Hfinal; [reflexivity| |auto].
    rewrite Hsb. unfold monitored. now rewrite Hm.
  - apply wp_ret. apply Hfinal; [reflexivity| |auto].
    rewrite Hsb. unfold monitored. now rewrite Hm.
Qed.

(** *** Whole batches *)

Lemma changed_other {B} mark f (other : Service -> B) w w' v :
  (forall sv, other (f sv) = other sv) ->
  changed mark f w w' ->
  other <$> servicelist w' !! v = other <$> servicelist w !! v.
Proof.
  intros Hf [L H].
  destruct (servicelist w !! v) as [sv|] eqn:Hv.
  - destruct (H v sv Hv) as [->|[_ ->]]; cbn; [reflexivity|now rewrite Hf].
  - apply lookup_ge_None in Hv. rewrite <- L in Hv.
    apply lookup_ge_None in Hv. now rewrite Hv.
Qed.

(** When a batch that started with no mark has marked every service, it
    has made every service [f] of what it was. *)
Lemma changed_all mark (f : Service -> Service) w w' :
  changed mark f w w' ->
  (forall v, marked mark w v = false) ->
  (forall x, (x < length (servicelist w))%nat -> marked mark w' x = true) ->
  servicelist w' = f <$> servicelist w.
Proof.
  intros Hc Hfresh Hall. apply list_eq. intros i.
  rewrite list_lookup_fmap.
  destruct (servicelist w !! i) as [sv|] eqn:Hi.
  - pose proof (lookup_lt_Some _ _ _ Hi) as Hlt.
    destruct (changed_new mark f w w' i Hc (Hfresh i) (Hall i Hlt))
      as (sv' & H1 & H2).
    rewrite H2. cbn. congruence.
  - destruct Hc as [L _]. apply lookup_ge_None in Hi. rewrite <- L in Hi.
    apply lookup_ge_None in Hi. now rewrite Hi.
Qed.

Lemma wp_same {A} (m m' : M A) Q w : m w = m' w -> wp m' Q w -> wp m Q w.
Proof. unfold wp. now intros ->. Qed.

(** Every service is found under its own name. *)
Definition names_resolve (l : list Service) : Prop :=
  forall x sv, l !! x = Some sv -> lookup_name l (name sv) = Some x.

Lemma getService_own l0 w x sv :
  names_resolve l0 ->
  config <$> servicelist w = config <$> l0 ->
  servicelist w !! x = Some sv ->
  find_service (fun n => IS E n (name sv)) (servicelist w) 0%nat = Some x.
Proof.
  intros Hnames Hcfg Hx.
  destruct (cfg_lookup _ _ _ _ (eq_sym Hcfg) Hx) as (sv0 & Hx0 & Hc0).
  rewrite (find_service_cfg _ _ _ _ Hcfg).
  replace (name sv) with (name sv0) by (unfold config in Hc0; congruence).
  exact (Hnames x sv0 Hx0).
Qed.

End Engine.

(** *** Worlds for the examples *)

(** Nothing ever happens: no process is seen, commands spawn and never
    exit nor print, [getpgid] finds no process (ESRCH), no shutdown. *)
Definition quiet : environment :=
  mk_environment (fun _ _ _ => 0) (fun _ _ => None) (fun _ => true)
    (fun _ => None) (fun _ _ => EmptyString) (fun _ _ => (-1, 3))
    (fun _ => false) false 256 String.eqb.

Definition with_Run_stopped (f : list event -> bool) (E : environment)
  : environment :=
  mk_environment (Util_isProcessRunning E) (Command_new E)
    (Command_execute E) (child_exited E) (InputStream_readBytes E)
    (getpgid E) f (Run_debug E) (STRLEN E) (IS E).

Definition with_output (f : list event -> stream -> string)
  (E : environment) : environment :=
  mk_environment (Util_isProcessRunning E) (Command_new E)
    (Command_execute E) (child_exited E) f
    (getpgid E) (Run_stopped E) (Run_debug E) (STRLEN E) (IS E).

Definition with_isProcessRunning (f : list event -> Service_T -> bool -> Z)
  (E : environment) : environment :=
  mk_environment f (Command_new E)
    (Command_execute E) (child_exited E) (InputStream_readBytes E)
    (getpgid E) (Run_stopped E) (Run_debug E) (STRLEN E) (IS E).

Definition with_child_exited (f : list event -> option nat)
  (E : environment) : environment :=
  mk_environment (Util_isProcessRunning E) (Command_new E)
    (Command_execute E) f (InputStream_readBytes E)
    (getpgid E) (Run_stopped E) (Run_debug E) (STRLEN E) (IS E).

(** The shutdown request arrives while the engine sleeps for [u]
    microseconds. *)
Definition shutdown_during (u : Z) (tr : list event) : bool :=
  existsb (fun e => match e with Ev_usleep v => v =? u | _ => false end) tr.

Definition a_command (program : string) (seconds : Z) : command_t :=
  mk_command [program] false 0 false 0 seconds.

Definition a_service (n : string) (t : Service_Type)
  (st sp rs : option command_t) (deps : list string) : Service :=
  mk_service n t st sp rs deps Monitor_Yes false false.

(** *** The dispatcher: refusals and the marks *)

(** The five actions [control_service] carries out. *)
Definition is_control_action (A : Action_Type) : bool :=
  match A with
  | Action_Start | Action_Stop | Action_Restart | Action_Monitor
  | Action_Unmonitor => true
  | _ => false
  end.

(** C10.  For a name that is not in the service list, and for an action
    other than Start, Stop, Restart, Monitor and Unmonitor,
    [control_service] returns false; it writes one line to the error log and
    leaves every service as it was: nothing is executed and no monitor state
    and no mark is changed. *)
Theorem control_service_refuses (E : environment) (fuel : nat) (S : string)
  (A : Action_Type) (w : world) :
  find_service (fun n => IS E n S) (servicelist w) 0%nat = None \/
  is_control_action A = false ->
  exists line,
    control_service E fuel S A w =
    Ret false (mk_world (servicelist w) (trace w ++ [Ev_log line])).
Proof.
  intros H. unfold control_service, bind at 1, Util_getService.
  destruct (find_service _ _ _) as [s|] eqn:Hs.
  - destruct H as [H|H]; [discriminate|].
    destruct A; try discriminate; eexists; reflexivity.
  - eexists. reflexivity.
Qed.

Lemma control_service_refuses_witness :
  exists line,
    control_service quiet 0 "nginx" Action_Start
      (mk_world
         [a_service "a" Service_File (Some (a_command "/bin/a" 1)) None None []]
         []) =
    Ret false
      (mk_world
         [a_service "a" Service_File (Some (a_command "/bin/a" 1)) None None []]
         ([] ++ [Ev_log line])).
Proof.
  exact (control_service_refuses quiet 0 "nginx" Action_Start
           (mk_world
              [a_service "a" Service_File (Some (a_command "/bin/a" 1))
                 None None []] [])
           (or_introl eq_refl)).
Defined.

(** Every mark of every service is false. *)
Definition marks_clear (w : world) : Prop :=
  Forall (fun sv => visited sv = false /\ depend_visited sv = false)
         (servicelist w).

(** C3, as stated, fails: after [control_service] has started the only
    service, that service is still marked [visited]. *)
Lemma control_service_leaves_marks :
  exists w sv,
    control_service quiet 1 "a" Action_Start
      (mk_world [a_service "a" Service_File None None None []] []) =
      Ret true w /\
    servicelist w !! 0%nat = Some sv /\ visited sv = true /\
    ~ marks_clear w.
Proof.
  eexists _, _. split; [vm_compute; reflexivity|].
  split; [reflexivity|]. split; [reflexivity|].
  intros H. apply Forall_inv in H. destruct H as [H _]. discriminate.
Qed.

(** *** Start: examples *)

(** Three services: [c] depends on [b], and [b] on [a]. *)
Definition chain : world :=
  mk_world
    [a_service "a" Service_File (Some (a_command "/bin/a" 1)) None None [];
     a_service "b" Service_File (Some (a_command "/bin/b" 1)) None None
       ["a"%string];
     a_service "c" Service_File (Some (a_command "/bin/c" 1)) None None
       ["b"%string]]
    [].

(** The order of the start programs on the chain: [a], then [b], then [c];
    and a second start of [c] in the same batch does nothing. *)
Example chain_order :
  exists w',
    _doStart quiet 3 2%nat chain = Ret tt w' /\
    started (trace w') = [0; 1; 2]%nat /\
    finished (trace w') = [0; 1; 2]%nat /\
    _doStart quiet 3 2%nat w' = Ret tt w'.
Proof.
  eexists. split; [vm_compute; reflexivity|].
  split; [reflexivity|]. split; reflexivity.
Qed.

(** Two services [x] and [y] that both depend on [z]: the start of [x] and
    the start of [y] in one batch start [z] once. *)
Example shared_subtree :
  let w := mk_world
    [a_service "z" Service_File (Some (a_command "/bin/z" 1)) None None [];
     a_service "x" Service_File (Some (a_command "/bin/x" 1)) None None
       ["z"%string];
     a_service "y" Service_File (Some (a_command "/bin/y" 1)) None None
       ["z"%string]] [] in
  exists w1 w2,
    _doStart quiet 2 1%nat w = Ret tt w1 /\
    _doStart quiet 2 2%nat w1 = Ret tt w2 /\
    started (trace w2) = [0; 1; 2]%nat.
Proof.
  cbv zeta. eexists _, _. split; [vm_compute; reflexivity|].
  split; [vm_compute; reflexivity|reflexivity].
Qed.

(** *** Restart: examples *)

(** One service [a], a file with a start and a stop program and no restart
    program; in the quiet world its stop program never exits. *)
Definition file_with_stop : Service :=
  a_service "a" Service_File (Some (a_command "/bin/a" 1))
    (Some (a_command "/bin/stop-a" 1)) None [].

(** With the stop program of [a] never exiting, the Restart posts the
    failure, executes the stop program only, and leaves [a] monitored. *)
Example restart_with_failing_stop :
  exists w3 sv3,
    control_service quiet 1 "a" Action_Restart
      (mk_world [file_with_stop] []) = Ret true w3 /\
    started (trace w3) = [] /\
    In (Ev_post 0%nat State_Failed
          (Failed_to_stop (-1) "Program /bin/stop-a timed out"))
       (trace w3) /\
    servicelist w3 !! 0%nat = Some sv3 /\ monitor sv3 = Monitor_Yes.
Proof.
  eexists _, _. split; [vm_compute; reflexivity|].
  split; [reflexivity|]. split; [|split; reflexivity].
  cbn [trace]. repeat (first [now left|right]).
Qed.



(** One service [a], a file with a start program, for the examples of the
    executor. *)
Definition one_file : world :=
  mk_world
    [a_service "a" Service_File (Some (a_command "/bin/a" 1)) None None []]
    [].

Lemma commandExecute_polls_and_reports_witness :
  exists (k : nat) msg w',
    (1 <= k)%nat /\
    _commandExecute quiet 0%nat Ref_start 256 300000 one_file =
      Ret (status_at quiet
             (spawned 0%nat Ref_start
                (a_service "a" Service_File (Some (a_command "/bin/a" 1))
                   None None [])
                (a_command "/bin/a" 1) []) k,
           msg, 300000 - 100000 * Z.of_nat k) w'.
Proof.
  destruct (commandExecute_polls_and_reports quiet 0%nat Ref_start 256 300000
              one_file
              (a_service "a" Service_File (Some (a_command "/bin/a" 1))
                 None None [])
              (a_command "/bin/a" 1) eq_refl eq_refl eq_refl eq_refl)
    as (k & Hk & _ & _ & msg & w' & evs & Hrun & _).
  exists k, msg, w'. split; [exact Hk|exact Hrun].
Defined.

(** C6, as stated, fails: when the child has printed [boom] and the timeout
    has run out, the message is not the output prefixed with
    ["Program timed out -- "]: the program name and a colon come first. *)
Lemma commandExecute_timeout_message_names_program :
  let E := with_output
             (fun _ st => match st with
                          | Error_stream => "boom"
                          | Input_stream => ""
                          end)%string quiet in
  exists w',
    _commandExecute E 0%nat Ref_start 256 100000 one_file =
      Ret (-1, "/bin/a: Program timed out -- boom"%string, 0) w' /\
    "/bin/a: Program timed out -- boom"%string <>
    ("Program timed out -- " ++ "boom")%string.
Proof.
  cbv zeta. eexists. split; [vm_compute; reflexivity|discriminate].
Qed.

(** The output of the child is reported as far as its first NUL byte. *)
Example commandExecute_output_ends_at_NUL :
  let E := with_output
             (fun _ st => match st with
                          | Error_stream => String zero "abc"
                          | Input_stream => ""
                          end)%string quiet in
  exists w',
    _commandExecute E 0%nat Ref_start 256 100000 one_file =
      Ret (-1, "/bin/a: Program timed out -- "%string, 0) w'.
Proof.
  cbv zeta. eexists. vm_compute. reflexivity.
Qed.

(** C2.  The design document has the back-off intervals of [_waitStart]
    double from 50 ms and never exceed 1 s.  The code doubles the interval
    whenever it is still under 1 s, so 800 ms is followed by 1.6 s, and only
    then by 1 s: with a timeout of 5 s, a process that is never seen and no
    shutdown, the intervals are 50, 100, 200, 400, 800, 1600, 1000 and
    1000 ms. *)
Theorem waitStart_sixth_interval (E : environment) (s : Service_T)
  (w : world) :
  (forall tr, Util_isProcessRunning E tr s true = 0) ->
  (forall tr, Run_stopped E tr = false) ->
  exists t w' evs,
    _waitStart E s 5000000 w = Ret (Process_Stopped, t) w' /\
    trace w' = trace w ++ evs /\
    sleeps evs =
    [50000; 100000; 200000; 400000; 800000; 1600000; 1000000; 1000000].
Proof.
  intros Hrun Hstop. unfold _waitStart.
  assert (Hfuel : (8 <= waitStart_fuel 5000000)%nat) by (vm_compute; lia).
  revert Hfuel. generalize (waitStart_fuel 5000000). intros fuel Hfuel.
  do 8 (destruct fuel as [|fuel]; [lia|]). clear Hfuel.
  rewrite (waitStart_loop_turn E _ s 50000 5000000 100000 4950000)
    by (auto; reflexivity).
  rewrite (waitStart_loop_turn E _ s 100000 4950000 200000 4850000)
    by (auto; reflexivity).
  rewrite (waitStart_loop_turn E _ s 200000 4850000 400000 4650000)
    by (auto; reflexivity).
  rewrite (waitStart_loop_turn E _ s 400000 4650000 800000 4250000)
    by (auto; reflexivity).
  rewrite (waitStart_loop_turn E _ s 800000 4250000 1600000 3450000)
    by (auto; reflexivity).
  rewrite (waitStart_loop_turn E _ s 1600000 3450000 1000000 1850000)
    by (auto; reflexivity).
  rewrite (waitStart_loop_turn E _ s 1000000 1850000 1000000 850000)
    by (auto; reflexivity).
  rewrite waitStart_loop_leave by (auto; left; lia).
  eexists _, _, _. split; [reflexivity|]. cbn [trace].
  rewrite <- !app_assoc. split; reflexivity.
Qed.

Lemma waitStart_sixth_interval_witness :
  exists t w' evs,
    _waitStart quiet 0%nat 5000000 (mk_world [] []) =
      Ret (Process_Stopped, t) w' /\
    trace w' = [] ++ evs /\
    sleeps evs =
    [50000; 100000; 200000; 400000; 800000; 1600000; 1000000; 1000000].
Proof.
  exact (waitStart_sixth_interval quiet 0%nat (mk_world [] [])
           (fun _ => eq_refl) (fun _ => eq_refl)).
Defined.

(** C7.  Each wait loop tests [Run.stopped] on every turn and is left after
    the sleep at whose end the flag is found set (the lemmas
    [waitStart_loop_leave], [waitStop_loop_shutdown] and
    [poll_loop_shutdown]).  In [_waitStop] and in the executor that sleep is
    100 ms; in [_waitStart] it can be the 1.6 s interval, longer than the
    bound of 1 s: a request that arrives during the sixth sleep is seen
    1.6 s after that sleep began. *)
Theorem waitStart_shutdown_after_long_interval :
  let E := with_Run_stopped (shutdown_during 1600000) quiet in
  exists w',
    _waitStart E 0%nat 30000000 (mk_world [] []) =
      Ret (Process_Stopped, 26850000) w' /\
    sleeps (trace w') = [50000; 100000; 200000; 400000; 800000; 1600000] /\
    Run_stopped E (removelast (trace w')) = false /\
    Run_stopped E (trace w') = true.
Proof.
  cbv zeta. eexists. split; [vm_compute; reflexivity|].
  split; [reflexivity|]. split; reflexivity.
Qed.

(** ** Part C -- the dispatcher as a whole *)

Lemma chain_acyclic : acyclic quiet (fun x => x) (servicelist chain).
Proof.
  intros x sv d Hx Hd.
  destruct x as [|[|[|x]]]; cbn in Hx; try discriminate;
    injection Hx as <-; cbn in Hd.
  - destruct Hd.
  - destruct Hd as [<-|[]]. exists 0%nat. split; [reflexivity|lia].
  - destruct Hd as [<-|[]]. exists 1%nat. split; [reflexivity|lia].
Defined.

Lemma chain_ranked : dependants_ranked quiet (fun x => x) 2 (servicelist chain).
Proof.
  split.
  - intros [|[|[|x]]] sv Hx; cbn in Hx; try discriminate; lia.
  - intros c cv s sv Hc Hs Hdep.
    destruct c as [|[|[|c]]]; cbn in Hc; try discriminate;
      injection Hc as <-;
      destruct s as [|[|[|s]]]; cbn in Hs; try discriminate;
      injection Hs as <-; vm_compute in Hdep; try discriminate; lia.
Defined.

(** X3.  On a configuration whose dependency graph is well formed (every
    dependency names a service, and there is no cycle), a call of
    [control_service] for a service that exists and one of the five actions
    comes to an end and answers true, whatever the programs it runs do; it
    changes the configuration of no service, and what it does to the world
    outside is of the kind that belongs to the action: a Stop runs no
    start and no restart program, and Monitor and Unmonitor do nothing but
    enable, or disable, monitoring. *)
Theorem control_service_answers_true (E : environment)
  (rank : Service_T -> nat) (N fuel : nat) (S : string) (A : Action_Type)
  (w : world) (s : Service_T) :
  acyclic E rank (servicelist w) ->
  dependants_ranked E rank N (servicelist w) ->
  (2 * N < fuel)%nat ->
  find_service (fun n => IS E n S) (servicelist w) 0%nat = Some s ->
  is_control_action A = true ->
  exists w' evs,
    control_service E fuel S A w = Ret true w' /\
    config <$> servicelist w' = config <$> servicelist w /\
    trace w' = trace w ++ evs /\
    forallb (control_event A) evs = true.
Proof.
  intros Hwf Hranked Hfuel Hfind HA.
  destruct (control_service_keeps E rank N fuel S A w s Hwf Hranked Hfuel Hfind)
    as (r & w' & Hrun & -> & Hcfg & evs & T & F).
  { destruct A; try discriminate; exact I. }
  exists w', evs. auto.
Qed.

Lemma control_service_answers_true_witness :
  exists w' evs,
    control_service quiet 5 "a" Action_Stop chain = Ret true w' /\
    config <$> servicelist w' = config <$> servicelist chain /\
    trace w' = [] ++ evs /\
    forallb is_stop_event evs = true.
Proof.
  exact (control_service_answers_true quiet (fun x => x) 2 5 "a" Action_Stop
           chain 0%nat chain_acyclic chain_ranked
           ltac:(vm_compute; lia) eq_refl eq_refl).
Defined.



(** On the chain, the start of [a] logs the skipped stops of [c] and [b],
    and then starts [a], [b] and [c]. *)
Example start_of_the_chain :
  exists w',
    control_service quiet 5 "a" Action_Start chain = Ret true w' /\
    started (trace w') = [0; 1; 2]%nat /\
    firstn 4 (trace w') =
      [Ev_log (Log_stop_skipped 2%nat); Ev_resetInfo 2%nat;
       Ev_log (Log_stop_skipped 1%nat); Ev_resetInfo 1%nat].
Proof.
  eexists. split; [vm_compute; reflexivity|]. split; reflexivity.
Qed.

(** X5.  In a batch that starts with no service marked, the action
    Unmonitor takes the service and every service that depends on it,
    directly or through other services, out of monitoring, and marks
    them; it leaves every other service exactly as it was, and it does
    nothing else: no program is executed and nothing is posted. *)
Theorem control_service_unmonitor_reach (E : environment)
  (rank : Service_T -> nat) (N fuel : nat) (S : string) (w : world)
  (s : Service_T) :
  dependants_ranked E rank N (servicelist w) ->
  (N < fuel)%nat ->
  find_service (fun n => IS E n S) (servicelist w) 0%nat = Some s ->
  (forall v, dvis w v = false) ->
  exists w' evs,
    control_service E fuel S Action_Unmonitor w = Ret true w' /\
    trace w' = trace w ++ evs /\
    forallb is_unmonitor_event evs = true /\
    (forall x sv,
       x = s \/ above E (servicelist w) s x ->
       servicelist w !! x = Some sv ->
       servicelist w' !! x =
         Some (set_monitor Monitor_Not (set_depend_visited true sv))) /\
    (forall x,
       ~ (x = s \/ above E (servicelist w) s x) ->
       servicelist w' !! x = servicelist w !! x).
Proof.
  intros Hranked Hfuel Hfind Hfresh.
  destruct (find_service_lookup _ _ _ _ Hfind) as (sv & Hs & _).
  rewrite Nat.sub_0_r in Hs.
  destruct (unmonitor_walk E rank N (servicelist w) false Hranked fuel s w sv
              eq_refl Hs) as ([] & w1 & Hrun1 & H1 & Hin1 & Hout1); [lia|].
  assert (Hcfg1 : config <$> servicelist w1 = config <$> servicelist w).
  { destruct H1 as [H1 _]. exact (touched_cfg unmonitored _ _ (fun _ => eq_refl) H1). }
  destruct (cfg_lookup _ _ _ _ Hcfg1 Hs) as (sv1 & Hs1 & _).
  destruct (doUnmonitor_effect s false w1 sv1 Hs1)
    as ([] & w2 & Hrun2 & H2 & T2 & Hs2 & Hout2).
  assert (H02 : unmonitor_step w w2).
  { eapply unmonitor_step_trans; [exact H1|]. split; [exact H2|].
    eexists. split; [exact T2|]. destruct (depend_visited sv1); reflexivity. }
  destruct H02 as [Ht (evs & T & F)].
  exists w2, evs. split.
  { unfold control_service, bind, Util_getService. rewrite Hfind, Hrun1, Hrun2.
    reflexivity. }
  split; [exact T|]. split; [exact F|].
  apply (touched_reach unmonitored
           (fun x => x = s \/ above E (servicelist w) s x) w w2
           (fun _ => eq_refl) Ht Hfresh).
  - intros x [->|Hx]; [exact Hs2|].
    apply (touched_mark unmonitored w1 w2 x (fun _ => eq_refl) H2). auto.
  - intros v Hv. destruct (Hout2 v Hv) as [Hv1| ->]; [|auto].
    destruct (Hout1 v Hv1); auto.
Qed.

Lemma chain_fresh : forall v, dvis chain v = false.
Proof. intros [|[|[|v]]]; reflexivity. Defined.

Lemma control_service_unmonitor_reach_witness :
  exists w' evs,
    control_service quiet 3 "b" Action_Unmonitor chain = Ret true w' /\
    trace w' = [] ++ evs /\
    forallb is_unmonitor_event evs = true /\
    servicelist w' !! 0%nat = servicelist chain !! 0%nat.
Proof.
  destruct (control_service_unmonitor_reach quiet (fun x => x) 2 3 "b" chain
              1%nat chain_ranked ltac:(lia) eq_refl chain_fresh)
    as (w' & evs & H1 & H2 & H3 & _ & H5).
  exists w', evs. split; [exact H1|]. split; [exact H2|]. split; [exact H3|].
  apply H5. intros [H|H]; [discriminate|].
  assert (Hno : forall y, ~ needs quiet (servicelist chain) 0%nat y).
  { intros y (cv & sv & Hc & _ & Hd). injection Hc as <-. discriminate. }
  assert (Hup : forall y x, above quiet (servicelist chain) y x -> x <> 0%nat).
  { intros y x Hab. induction Hab as [y c Hc|y c x Hc Hab IH]; [|exact IH].
    intros ->. exact (Hno y Hc). }
  exact (Hup _ _ H eq_refl).
Defined.

(** On the chain, Unmonitor of [b] takes [c] and then [b] out of
    monitoring and leaves [a] alone. *)
Example unmonitor_in_the_chain :
  exists w',
    control_service quiet 3 "b" Action_Unmonitor chain = Ret true w' /\
    trace w' = [Ev_monitorUnset 2%nat; Ev_monitorUnset 1%nat] /\
    (monitor <$> servicelist w') = [Monitor_Yes; Monitor_Not; Monitor_Not].
Proof. eexists. split; [vm_compute; reflexivity|]. split; reflexivity. Qed.

(** X6.  In a batch that starts with no service marked, the action Stop
    stops the dependants first: when the stop program of a service is
    executed, every service that depends on it has completed its stop
    step.  No stop program is executed twice and no service completes its
    stop step twice; the service and every service that depends on it,
    directly or through others, complete their stop step, are marked and
    are taken out of monitoring, whatever the stop programs did; every
    other service is left exactly as it was. *)
Theorem control_service_stop_order (E : environment)
  (rank : Service_T -> nat) (N fuel : nat) (S : string) (w : world)
  (s : Service_T) :
  dependants_ranked E rank N (servicelist w) ->
  (N < fuel)%nat ->
  find_service (fun n => IS E n S) (servicelist w) 0%nat = Some s ->
  (forall v, dvis w v = false) ->
  exists w' evs,
    control_service E fuel S Action_Stop w = Ret true w' /\
    trace w' = trace w ++ evs /\
    (forall l1 l2 x argv env,
       evs = l1 ++ Ev_Command_execute x Ref_stop argv env :: l2 ->
       forall c, needs E (servicelist w) c x -> In c (stop_finished l1)) /\
    NoDup (stopped evs) /\
    NoDup (stop_finished evs) /\
    (forall x, x = s \/ above E (servicelist w) s x ->
               In x (stop_finished evs)) /\
    (forall x sv,
       x = s \/ above E (servicelist w) s x ->
       servicelist w !! x = Some sv ->
       servicelist w' !! x =
         Some (set_monitor Monitor_Not (set_depend_visited true sv))) /\
    (forall x,
       ~ (x = s \/ above E (servicelist w) s x) ->
       servicelist w' !! x = servicelist w !! x).
Proof.
  intros Hranked Hfuel Hfind Hfresh.
  destruct (find_service_lookup _ _ _ _ Hfind) as (sv & Hs & _).
  rewrite Nat.sub_0_r in Hs.
  assert (Hinv : stop_inv (trace w) w).
  { exists []. split; [now rewrite app_nil_r|]. intros v Hv.
    rewrite Hfresh in Hv. discriminate. }
  destruct (stop_walk E rank N (servicelist w) true (trace w) Hranked fuel s w
              sv eq_refl Hs) as ([] & w1 & Hrun1 & H1 & Hin1 & Hout1);
    [lia|exact Hinv|].
  assert (Hcfg1 : config <$> servicelist w1 = config <$> servicelist w).
  { destruct H1 as [H1 _].
    exact (touched_cfg _ _ _ (stopped_service_config true) H1). }
  destruct (cfg_lookup _ _ _ _ Hcfg1 Hs) as (sv1 & Hs1 & _).
  destruct (stop_late E (trace w) (servicelist w) true s w1 sv1 Hs1)
    as (rv & w2 & Hrun2 & H2 & Hs2 & Hout2);
    [exact (stop_step_inv E _ _ _ _ _ H1 Hinv)|exact Hin1|].
  pose proof (stop_step_trans E _ _ _ _ _ _ H1 H2) as H02.
  assert (Hreach : forall x, x = s \/ above E (servicelist w) s x ->
                             dvis w2 x = true).
  { intros x [->|Hx]; [exact Hs2|].
    apply (stop_step_mark E _ _ _ _ _ x H2). auto. }
  assert (Honly : forall v, dvis w2 v = true ->
            dvis w v = true \/ (v = s \/ above E (servicelist w) s v)).
  { intros v Hv. destruct (Hout2 v Hv) as [Hv1| ->]; [|auto].
    destruct (Hout1 v Hv1); auto. }
  destruct H02 as [Ht (evs & T & F & Hord & [Nd1 _] & [Nd2 _] & Hfin)].
  exists w2, evs. split.
  { unfold control_service, bind, Util_getService. rewrite Hfind, Hrun1.
    fold (bind (_doStop E s true) (fun _ => ret true) w1).
    unfold bind. rewrite Hrun2. reflexivity. }
  split; [exact T|]. split.
  { intros l1 l2 x argv env -> c Hc.
    exact (stop_order_before E _ [] _ _ _ _ _
             (Hord [] (eq_sym (app_nil_r _))) c Hc). }
  split; [exact Nd1|]. split; [exact Nd2|]. split.
  { intros x Hx. destruct (Hfin x (Hreach x Hx)) as [H|H]; [|exact H].
    rewrite Hfresh in H. discriminate. }
  exact (touched_reach (stopped_service true)
           (fun x => x = s \/ above E (servicelist w) s x) w w2
           (stopped_service_marked true) Ht Hfresh Hreach Honly).
Qed.

(** The chain with stop programs. *)
Definition chain_with_stops : world :=
  mk_world
    [a_service "a" Service_File None (Some (a_command "/bin/stop-a" 1)) None [];
     a_service "b" Service_File None (Some (a_command "/bin/stop-b" 1)) None
       ["a"%string];
     a_service "c" Service_File None (Some (a_command "/bin/stop-c" 1)) None
       ["b"%string]]
    [].

Lemma chain_with_stops_ranked :
  dependants_ranked quiet (fun x => x) 2 (servicelist chain_with_stops).
Proof.
  split.
  - intros [|[|[|x]]] sv Hx; cbn in Hx; try discriminate; lia.
  - intros c cv s sv Hc Hs Hdep.
    destruct c as [|[|[|c]]]; cbn in Hc; try discriminate;
      injection Hc as <-;
      destruct s as [|[|[|s]]]; cbn in Hs; try discriminate;
      injection Hs as <-; vm_compute in Hdep; try discriminate; lia.
Defined.

Lemma chain_with_stops_fresh : forall v, dvis chain_with_stops v = false.
Proof. intros [|[|[|v]]]; reflexivity. Defined.

Lemma control_service_stop_order_witness :
  exists w' evs,
    control_service quiet 3 "a" Action_Stop chain_with_stops = Ret true w' /\
    trace w' = [] ++ evs /\
    NoDup (stopped evs) /\ NoDup (stop_finished evs) /\
    In 0%nat (stop_finished evs).
Proof.
  destruct (control_service_stop_order quiet (fun x => x) 2 3 "a"
              chain_with_stops 0%nat chain_with_stops_ranked ltac:(lia)
              eq_refl chain_with_stops_fresh)
    as (w' & evs & H1 & H2 & _ & H4 & H5 & H6 & _).
  exists w', evs. split; [exact H1|]. split; [exact H2|].
  split; [exact H4|]. split; [exact H5|]. apply H6. now left.
Defined.

(** The stop of [a] in that chain runs the stop programs of [c], [b] and
    [a], in this order, and takes all three out of monitoring although
    every stop program timed out. *)
Example stop_of_the_chain :
  exists w',
    control_service quiet 3 "a" Action_Stop chain_with_stops = Ret true w' /\
    stopped (trace w') = [2; 1; 0]%nat /\
    stop_finished (trace w') = [2; 1; 0]%nat /\
    (monitor <$> servicelist w') = [Monitor_Not; Monitor_Not; Monitor_Not].
Proof.
  eexists. split; [vm_compute; reflexivity|].
  split; [reflexivity|]. split; reflexivity.
Qed.

(** X7.  The stop step of a service that is not yet marked in the batch
    marks it and, with the flag set, takes it out of monitoring (without
    the flag its monitoring state stays), whether or not the stop program
    succeeded; a failure is posted before the step ends; no other service
    is touched; and a further stop step of the same service in the same
    batch answers true at once and does nothing, also after a failure. *)
Theorem doStop_marks_whatever_happens (E : environment) (s : Service_T)
  (flag : bool) (w : world) (sv : Service) :
  servicelist w !! s = Some sv ->
  depend_visited sv = false ->
  exists rv w' evs,
    _doStop E s flag w = Ret rv w' /\
    trace w' =
      trace w ++ evs ++ [if flag then Ev_monitorUnset s else Ev_resetInfo s] /\
    servicelist w' =
      alter (fun sv => if flag
                       then set_monitor Monitor_Not (set_depend_visited true sv)
                       else set_depend_visited true sv) s (servicelist w) /\
    (rv = false ->
     exists status msg,
       In (Ev_post s State_Failed (Failed_to_stop status msg)) evs) /\
    (forall flag', _doStop E s flag' w' = Ret true w').
Proof.
  intros Hs Hd.
  destruct (doStop_effect E s flag w sv Hs Hd)
    as (rv & w' & Hrun & Hl & c1 & mid & c2 & T & _ & _ & _ & Hpost).
  exists rv, w', (c1 ++ mid ++ c2). split; [exact Hrun|].
  split; [rewrite T; now rewrite <- !app_assoc|].
  split; [exact Hl|]. split.
  - intros Hrv. destruct (Hpost Hrv) as (status & msg & Hin).
    exists status, msg. apply in_or_app. right. apply in_or_app. now right.
  - intros flag'.
    apply (doStop_marked E s flag' w' (stopped_service flag sv)).
    + rewrite Hl. exact (lookup_alter_same _ _ _ _ Hs).
    + apply stopped_service_marked.
Qed.

Lemma doStop_marks_whatever_happens_witness :
  exists rv w' evs,
    _doStop quiet 0%nat true (mk_world [file_with_stop] []) = Ret rv w' /\
    trace w' = [] ++ evs ++ [Ev_monitorUnset 0%nat] /\
    (forall flag', _doStop quiet 0%nat flag' w' = Ret true w').
Proof.
  destruct (doStop_marks_whatever_happens quiet 0%nat true
              (mk_world [file_with_stop] []) file_with_stop eq_refl eq_refl)
    as (rv & w' & evs & H1 & H2 & _ & _ & H5).
  exists rv, w', evs. auto.
Defined.

(** The stop program of [a] never exits: the stop step answers false and
    has taken [a] out of monitoring all the same. *)
Example failed_stop_unmonitors :
  exists w',
    _doStop quiet 0%nat true (mk_world [file_with_stop] []) = Ret false w' /\
    (monitor <$> servicelist w') = [Monitor_Not] /\
    _doStop quiet 0%nat true w' = Ret true w'.
Proof.
  eexists. split; [vm_compute; reflexivity|]. split; reflexivity.
Qed.


(** A service with a restart program. *)
Definition file_with_restart : Service :=
  a_service "a" Service_File (Some (a_command "/bin/a" 1))
    (Some (a_command "/bin/stop-a" 1)) (Some (a_command "/bin/restart-a" 1)) [].


(** The Restart of that service runs the restart program and neither the
    stop nor the start program. *)
Example restart_with_restart_program :
  exists w',
    control_service quiet 1 "a" Action_Restart
      (mk_world [file_with_restart] []) = Ret true w' /\
    omap (fun e => match e with
                   | Ev_Command_execute x c _ _ => Some (x, c)
                   | _ => None
                   end) (trace w') = [(0%nat, Ref_restart)].
Proof. eexists. split; [vm_compute; reflexivity|reflexivity]. Qed.

(** ** Part D -- the wait loops and the executor *)

(** X9.  [_waitStop] sleeps in steps of 100 ms and takes each step off the
    timeout; it goes round again only while the timeout is positive; it
    answers "stopped" only when there is no pid or when [getpgid] has just
    failed with an error other than EPERM, and "still running" only after
    at least one sleep, once the timeout has run out or a shutdown was
    requested.  It changes no service, and without a pid it does nothing. *)
Theorem waitStop_gives_up_late (E : environment) (pid timeout : Z) (w : world) :
  exists (k : nat) st w' evs,
    _waitStop E pid timeout w =
      Ret (st, timeout - 100000 * Z.of_nat k) w' /\
    servicelist w' = servicelist w /\
    trace w' = trace w ++ evs /\
    sleeps evs = repeat 100000 k /\
    (forall j, (1 <= j < k)%nat -> 0 < timeout - 100000 * Z.of_nat j) /\
    (st = Process_Stopped ->
     k = 0%nat /\ pid = 0 \/
     exists tr errno,
       trace w' = tr ++ [Ev_getpgid pid] /\
       getpgid E tr pid = (-1, errno) /\ errno <> EPERM) /\
    (st = Process_Started ->
     (1 <= k)%nat /\
     (timeout - 100000 * Z.of_nat k <= 0 \/
      Run_stopped E (trace w') = true)) /\
    (pid = 0 -> evs = []).
Proof.
  destruct (waitStop_loop_verdict E (poll_fuel timeout) pid timeout w)
    as (k & st & w' & evs & Hrun & Hl & T & Hsl & Hpos & Hv & Hnil).
  { apply fuel_enough. lia. }
  { unfold poll_fuel. lia. }
  exists k, st, w', evs. split; [exact Hrun|]. split; [exact Hl|].
  split; [exact T|]. split; [exact Hsl|]. split; [exact Hpos|].
  split; [|split; [|exact Hnil]]; intros ->; exact Hv.
Qed.

(** X10.  [_waitStart] takes every sleep off the timeout: what is left is
    the timeout less the sum of the sleeps.  It answers "started" only
    when the process has just been seen, and "not started" only after at
    least one sleep, once the timeout has run out or a shutdown was
    requested.  It changes no service. *)
Theorem waitStart_gives_up_late (E : environment) (s : Service_T)
  (timeout : Z) (w : world) :
  exists st left w' evs,
    _waitStart E s timeout w = Ret (st, left) w' /\
    servicelist w' = servicelist w /\
    trace w' = trace w ++ evs /\
    left = timeout - sum (sleeps evs) /\
    (st = Process_Started ->
     exists tr, trace w' = tr ++ [Ev_isProcessRunning s true] /\
                Util_isProcessRunning E tr s true <> 0) /\
    (st = Process_Stopped ->
     sleeps evs <> [] /\
     (left <= 0 \/ Run_stopped E (trace w') = true)).
Proof.
  destruct (waitStart_loop_verdict E (waitStart_fuel timeout) s 50000 timeout w)
    as (st & left & w' & evs & Hrun & Hl & T & Hleft & Hv).
  { lia. }
  { apply fuel_enough. lia. }
  { unfold waitStart_fuel. lia. }
  exists st, left, w', evs. split; [exact Hrun|]. split; [exact Hl|].
  split; [exact T|]. split; [exact Hleft|].
  split; intros ->; exact Hv.
Qed.

(** With a process that comes up while the loop sleeps for the third time,
    [_waitStart] has slept 50, 100 and 200 ms and leaves 650 ms of a
    second. *)
Example waitStart_third_look :
  let E := with_isProcessRunning
             (fun tr _ _ => if shutdown_during 200000 tr then 42 else 0)
             quiet in
  exists w',
    _waitStart E 0%nat 1000000 (mk_world [] []) =
      Ret (Process_Started, 650000) w' /\
    sleeps (trace w') = [50000; 100000; 200000].
Proof. cbv zeta. eexists. split; [vm_compute; reflexivity|reflexivity]. Qed.

(** X11.  When the program cannot be instantiated ([Command_new] throws,
    the program having been removed) or no process comes back from
    [Command_execute], [_commandExecute] answers -1 at once: it does not
    sleep, leaves the timeout as it was, reads no output and changes no
    service; the message names the program and the reason in the first
    case, cut to the size of the buffer, and is empty in the second. *)
Theorem commandExecute_without_child (E : environment) (S : Service_T)
  (c : command_ref) (msglen : nat) (timeout : Z) (w : world) (sv : Service)
  (cmd : command_t) :
  servicelist w !! S = Some sv ->
  command_of sv c = Some cmd ->
  Command_new E (trace w) (arg0 cmd) <> None \/
  Command_execute E
    (trace w ++ Ev_Command_new (arg0 cmd) ::
       (if is_process (type sv) then [Ev_isProcessRunning S false] else []))
    = false ->
  exists msg w' evs,
    _commandExecute E S c msglen timeout w = Ret (-1, msg, timeout) w' /\
    servicelist w' = servicelist w /\
    trace w' = trace w ++ evs /\
    sleeps evs = [] /\
    forallb (fun e => negb (is_output_event e)) evs = true /\
    msg = match Command_new E (trace w) (arg0 cmd) with
          | Some reason =>
              snprintf msglen
                ("Program " ++ arg0 cmd ++ " failed: " ++ reason)%string
          | None => EmptyString
          end.
Proof.
  intros Hs Hc Hwhy. unfold _commandExecute, bind at 1, get_service.
  rewrite Hs, Hc. unfold bind at 1, ask at 1. cbn [trace servicelist].
  destruct (Command_new E (trace w) (arg0 cmd)) as [reason|] eqn:Hnew.
  { eexists _, _, [_]. split; [reflexivity|]. cbn [trace servicelist].
    repeat split. }
  destruct Hwhy as [Hwhy|Hexec]; [congruence|].
  destruct (is_process (type sv)); unfold bind, isProcessRunning, ask, ret;
    cbn [trace servicelist]; cbn [app] in Hexec.
  - rewrite <- app_assoc. cbn [app]. rewrite Hexec.
    eexists _, _, [_; _; _]. split; [reflexivity|]. cbn [trace servicelist].
    rewrite <- !app_assoc. repeat split.
  - rewrite Hexec.
    eexists _, _, [_; _]. split; [reflexivity|]. cbn [trace servicelist].
    rewrite <- !app_assoc. repeat split.
Qed.

(** The program has been removed. *)
Definition program_missing : environment :=
  mk_environment (fun _ _ _ => 0)
    (fun _ _ => Some "No such file or directory"%string) (fun _ => true)
    (fun _ => None) (fun _ _ => EmptyString) (fun _ _ => (-1, 3))
    (fun _ => false) false 256 String.eqb.

Lemma commandExecute_without_child_witness :
  exists msg w' evs,
    _commandExecute program_missing 0%nat Ref_start 256 300000 one_file =
      Ret (-1, msg, 300000) w' /\
    trace w' = [] ++ evs /\ sleeps evs = [] /\
    msg = "Program /bin/a failed: No such file or directory"%string.
Proof.
  assert (Hthrown : Command_new program_missing (trace one_file)
                      (arg0 (a_command "/bin/a" 1)) <> None)
    by discriminate.
  destruct (commandExecute_without_child program_missing 0%nat Ref_start 256
              300000 one_file
              (a_service "a" Service_File (Some (a_command "/bin/a" 1))
                 None None [])
              (a_command "/bin/a" 1) eq_refl eq_refl (or_introl Hthrown))
    as (msg & w' & evs & H1 & _ & H3 & H4 & _ & H6).
  exists msg, w', evs. auto.
Defined.

(** The start of a service whose program is missing posts the failure
    with that message and enables monitoring all the same. *)
Example start_of_a_missing_program :
  exists w',
    control_service program_missing 1 "a" Action_Start one_file = Ret true w' /\
    trace w' =
      [Ev_log (Log_start 0%nat "/bin/a"); Ev_Command_new "/bin/a";
       Ev_post 0%nat State_Failed
         (Failed_to_start (-1)
            "Program /bin/a failed: No such file or directory");
       Ev_monitorSet 0%nat].
Proof. eexists. split; [vm_compute; reflexivity|reflexivity]. Qed.

(** ** Part E -- Monitor *)

(** X12.  In a batch that starts with no service marked, the action
    Monitor enables monitoring of the service and of every service it
    depends on, directly or through other services: each of them is marked
    and, if it was not monitored, put in the state Init; a service that is
    monitored already keeps its state.  Every other service is left
    exactly as it was, and nothing else is done: no program is executed
    and nothing is posted. *)
Theorem control_service_monitor_reach (E : environment)
  (rank : Service_T -> nat) (fuel : nat) (S : string) (w : world)
  (s : Service_T) :
  acyclic E rank (servicelist w) ->
  (rank s < fuel)%nat ->
  find_service (fun n => IS E n S) (servicelist w) 0%nat = Some s ->
  (forall v, vis w v = false) ->
  exists w' evs,
    control_service E fuel S Action_Monitor w = Ret true w' /\
    trace w' = trace w ++ evs /\
    forallb is_monitor_event evs = true /\
    (forall x sv,
       x = s \/ below E (servicelist w) s x ->
       servicelist w !! x = Some sv ->
       servicelist w' !! x =
         Some (match monitor sv with
               | Monitor_Not => set_monitor Monitor_Init (set_visited true sv)
               | _ => set_visited true sv
               end)) /\
    (forall x,
       ~ (x = s \/ below E (servicelist w) s x) ->
       servicelist w' !! x = servicelist w !! x).
Proof.
  intros Hwf Hfuel Hfind Hfresh.
  destruct (find_service_lookup _ _ _ _ Hfind) as (sv & Hs & _).
  rewrite Nat.sub_0_r in Hs.
  destruct (monitor_walk E rank (servicelist w) false Hwf fuel s w sv eq_refl
              Hs Hfuel)
    as ([] & w' & Hrun & [Hchg (evs & T & F)] & Hvs & Hcl & Hin & _).
  { intros v Hv. rewrite Hfresh in Hv. discriminate. }
  exists w', evs. split.
  { unfold control_service, bind, Util_getService. rewrite Hfind, Hrun.
    reflexivity. }
  split; [exact T|]. split; [exact F|].
  apply (changed_reach visited monitored
           (fun x => x = s \/ below E (servicelist w) s x) w w'
           monitored_marked Hchg Hfresh).
  - intros x [->|Hx]; [exact Hvs|exact (Hcl x Hx)].
  - intros v Hv. destruct (Hin v Hv) as [H|H]; auto.
Qed.

(** The chain, out of monitoring. *)
Definition chain_unmonitored : world :=
  mk_world (set_monitor Monitor_Not <$> servicelist chain) [].

Lemma chain_unmonitored_acyclic :
  acyclic quiet (fun x => x) (servicelist chain_unmonitored).
Proof.
  intros x sv d Hx Hd.
  destruct x as [|[|[|x]]]; cbn in Hx; try discriminate;
    injection Hx as <-; cbn in Hd.
  - destruct Hd.
  - destruct Hd as [<-|[]]. exists 0%nat. split; [reflexivity|lia].
  - destruct Hd as [<-|[]]. exists 1%nat. split; [reflexivity|lia].
Defined.

Lemma chain_unmonitored_fresh : forall v, vis chain_unmonitored v = false.
Proof. intros [|[|[|v]]]; reflexivity. Defined.

Lemma control_service_monitor_reach_witness :
  exists w' evs,
    control_service quiet 3 "b" Action_Monitor chain_unmonitored = Ret true w' /\
    trace w' = [] ++ evs /\
    forallb is_monitor_event evs = true.
Proof.
  destruct (control_service_monitor_reach quiet (fun x => x) 3 "b"
              chain_unmonitored 1%nat chain_unmonitored_acyclic
              ltac:(cbv beta; lia)
              eq_refl chain_unmonitored_fresh)
    as (w' & evs & H1 & H2 & H3 & _).
  exists w', evs. auto.
Defined.

(** Monitor of [b] in that chain enables monitoring of [a], then of [b],
    and leaves [c] out of monitoring. *)
Example monitor_in_the_chain :
  exists w',
    control_service quiet 3 "b" Action_Monitor chain_unmonitored = Ret true w' /\
    trace w' = [Ev_monitorSet 0%nat; Ev_monitorSet 1%nat] /\
    (monitor <$> servicelist w') = [Monitor_Init; Monitor_Init; Monitor_Not].
Proof. eexists. split; [vm_compute; reflexivity|]. split; reflexivity. Qed.

(** ** Part F -- monit.c: an action on all services *)

(** The loop of [do_action] for the service name "all": every service
    that is not marked [visited] when its turn comes is handed, by name, to
    the function the pointer [_control_service] holds; each false answer
    adds one to [errors], which is the result here. *)
Fixpoint all_services (_control_service : string -> string -> M bool)
  (action : string) (l : list Service_T) (errors : Z) : M Z :=
  match l with
  | [] => ret errors
  | s :: l =>
      let* sv := get_service s in
      if visited sv then all_services _control_service action l errors
      else
        let* ok := _control_service (name sv) action in
        all_services _control_service action l
          (if ok : bool then errors else errors + 1)
  end.

Definition do_action_all (_control_service : string -> string -> M bool)
  (action : string) : M Z :=
  fun w =>
    all_services _control_service action (seq 0 (length (servicelist w))) 0 w.

(** The loop, when each call answers true: [R] relates the worlds before
    and after a call, [Inv] holds between the calls, and [Handled x] says
    that the service [x] has been dealt with. *)
Lemma do_action_all_spec (ctl : string -> string -> M bool) (action : string)
  (R : world -> world -> Prop) (Inv : world -> Prop)
  (Handled : Service_T -> world -> Prop) :
  (forall w, R w w) ->
  (forall w1 w2 w3, R w1 w2 -> R w2 w3 -> R w1 w3) ->
  (forall w w', R w w' -> length (servicelist w') = length (servicelist w)) ->
  (forall w w' x, R w w' -> Handled x w -> Handled x w') ->
  (forall x w sv,
     Inv w -> servicelist w !! x = Some sv -> visited sv = true ->
     Handled x w) ->
  (forall x w sv,
     Inv w -> servicelist w !! x = Some sv -> visited sv = false ->
     wp (ctl (name sv) action)
        (fun ok w' => ok = true /\ R w w' /\ Inv w' /\ Handled x w') w) ->
  forall w, Inv w ->
    wp (do_action_all ctl action)
       (fun errors w' =>
          errors = 0 /\ R w w' /\ Inv w' /\
          forall x, (x < length (servicelist w))%nat -> Handled x w') w.
Proof.
  intros Rrefl Rtrans Rlen Rmono Hskip Hcall w Hinv. unfold do_action_all.
  assert (Hloop : forall l wi,
            R w wi -> Inv wi ->
            Forall (fun x => (x < length (servicelist w))%nat) l ->
            wp (all_services ctl action l 0)
               (fun errors w' =>
                  errors = 0 /\ R w w' /\ Inv w' /\
                  forall x, Handled x wi \/ In x l -> Handled x w') wi).
  { induction l as [|x l IH]; intros wi Hi Hinvi Hall.
    - apply wp_ret. split; [reflexivity|]. split; [exact Hi|].
      split; [exact Hinvi|]. intros x [H|[]]. exact H.
    - pose proof (Forall_inv Hall) as Hx.
      pose proof (Forall_inv_tail Hall) as Hl.
      rewrite <- (Rlen _ _ Hi) in Hx.
      destruct (lookup_lt_is_Some_2 _ _ Hx) as [sv Hsv].
      cbn [all_services]. apply wp_bind, (wp_get_service _ _ _ _ Hsv).
      destruct (visited sv) eqn:Hv.
      + eapply wp_mono; [exact (IH wi Hi Hinvi Hl)|].
        intros errors w' (He & H' & Hinv' & Hh). split; [exact He|].
        split; [exact H'|]. split; [exact Hinv'|].
        intros y [Hy|[<-|Hy]]; [auto| |auto].
        apply Hh. left. exact (Hskip x wi sv Hinvi Hsv Hv).
      + eapply wp_seq; [exact (Hcall x wi sv Hinvi Hsv Hv)|].
        intros ok wj (-> & Hj & Hinvj & Hxj).
        eapply wp_mono; [exact (IH wj (Rtrans _ _ _ Hi Hj) Hinvj Hl)|].
        intros errors w' (He & H' & Hinv' & Hh). split; [exact He|].
        split; [exact H'|]. split; [exact Hinv'|].
        intros y [Hy|[<-|Hy]]; [|auto|auto].
        apply Hh. left. exact (Rmono _ _ _ Hj Hy). }
  eapply wp_mono.
  - apply (Hloop _ w (Rrefl w) Hinv). apply Forall_forall. intros x Hx.
    apply list_elem_of_In, in_seq in Hx. lia.
  - intros errors w' (He & H' & Hinv' & Hh). split; [exact He|].
    split; [exact H'|]. split; [exact Hinv'|]. intros x Hx. apply Hh. right.
    apply in_seq. lia.
Qed.

(** X15.  [monit unmonitor all], without a daemon: when the function
    pointer carries the verb out through [control_service] with the
    action Unmonitor (as [control_service_string] does), and the batch
    starts with no mark set, the loop calls it for every service, counts no
    error, and leaves every service out of monitoring and marked
    [depend_visited], with nothing else changed and nothing done but the
    calls of [Util_monitorUnset]. *)
Theorem unmonitor_all (E : environment) (rank : Service_T -> nat)
  (N fuel : nat) (ctl : string -> string -> M bool) (action : string)
  (w : world) :
  (forall S w0, ctl S action w0 =
                control_service E fuel S Action_Unmonitor w0) ->
  dependants_ranked E rank N (servicelist w) ->
  names_resolve E (servicelist w) ->
  (N < fuel)%nat ->
  (forall v, vis w v = false) ->
  (forall v, dvis w v = false) ->
  exists w' evs,
    do_action_all ctl action w = Ret 0 w' /\
    servicelist w' =
      (fun sv => set_monitor Monitor_Not (set_depend_visited true sv))
        <$> servicelist w /\
    trace w' = trace w ++ evs /\
    forallb is_unmonitor_event evs = true.
Proof.
  intros Hctl Hranked Hnames Hfuel Hvfresh Hfresh.
  set (l0 := servicelist w).
  destruct (do_action_all_spec ctl action unmonitor_step
              (fun wi => config <$> servicelist wi = config <$> l0 /\
                         forall v, vis wi v = false)
              (fun x wi => dvis wi x = true)) with (w := w)
    as (errors & w' & Hrun & -> & [Hchg (evs & T & F)] & _ & Hall).
  - intros w0. split; [apply touched_refl|]. exists [].
    now rewrite app_nil_r.
  - exact unmonitor_step_trans.
  - intros w0 w1 [[L _] _]. exact L.
  - intros w0 w1 x [H _].
    exact (touched_mark unmonitored w0 w1 x (fun _ => eq_refl) H).
  - intros x w0 sv [_ Hv] Hx Hvis. specialize (Hv x).
    rewrite (vis_lookup _ _ _ Hx) in Hv. congruence.
  - intros x w0 sv [Hcfg Hv] Hx _. apply (wp_same _ _ _ _ (Hctl _ _)).
    pose proof (getService_own E l0 w0 x sv Hnames Hcfg Hx) as Hfind.
    unfold control_service. apply wp_bind. unfold Util_getService.
    eexists _, _. split; [reflexivity|]. rewrite Hfind.
    eapply wp_seq.
    { apply (unmonitor_walk E rank N l0 false Hranked fuel x w0 sv Hcfg Hx).
      lia. }
    intros [] w1 (H1 & _ & _). cbv beta.
    assert (Hcfg1 : config <$> servicelist w1 = config <$> l0).
    { destruct H1 as [H1 _].
      rewrite (touched_cfg unmonitored _ _ (fun _ => eq_refl) H1).
      exact Hcfg. }
    destruct (cfg_lookup _ _ _ _ (eq_trans Hcfg1 (eq_sym Hcfg)) Hx)
      as (sv1 & Hx1 & _).
    eapply wp_seq; [exact (doUnmonitor_effect x false w1 sv1 Hx1)|].
    intros [] w2 (H2 & T2 & Hd2 & _). apply wp_ret.
    assert (H12 : unmonitor_step w1 w2).
    { split; [exact H2|]. eexists. split; [exact T2|].
      destruct (depend_visited sv1); reflexivity. }
    pose proof (unmonitor_step_trans _ _ _ H1 H12) as H02.
    split; [reflexivity|]. split; [exact H02|]. split; [|exact Hd2].
    split.
    + destruct H02 as [H02 _].
      rewrite (touched_cfg unmonitored _ _ (fun _ => eq_refl) H02).
      exact Hcfg.
    + intros v. destruct H02 as [H02 _].
      pose proof (changed_other depend_visited unmonitored visited w0 w2 v
                    (fun _ => eq_refl) H02) as Hsame.
      unfold vis. specialize (Hv v). unfold vis in Hv.
      destruct (servicelist w2 !! v), (servicelist w0 !! v);
        cbn in Hsame; congruence.
  - split; [reflexivity|exact Hvfresh].
  - exists w', evs. split; [exact Hrun|]. split; [|auto].
    exact (changed_all depend_visited unmonitored w w' Hchg Hfresh Hall).
Qed.

Lemma chain_unvisited : forall v, vis chain v = false.
Proof. intros [|[|[|v]]]; reflexivity. Defined.

Lemma chain_names : names_resolve quiet (servicelist chain).
Proof.
  intros x sv Hx.
  destruct x as [|[|[|x]]]; cbn in Hx; try discriminate;
    injection Hx as <-; reflexivity.
Defined.

Lemma unmonitor_all_witness :
  exists w' evs,
    do_action_all (fun S _ => control_service quiet 3 S Action_Unmonitor)
      "unmonitor" chain = Ret 0 w' /\
    servicelist w' =
      (fun sv => set_monitor Monitor_Not (set_depend_visited true sv))
        <$> servicelist chain /\
    trace w' = [] ++ evs /\
    forallb is_unmonitor_event evs = true.
Proof.
  exact (unmonitor_all quiet (fun x => x) 2 3
           (fun S _ => control_service quiet 3 S Action_Unmonitor) "unmonitor"
           chain (fun _ _ => eq_refl) chain_ranked chain_names ltac:(lia)
           chain_unvisited chain_fresh).
Defined.

(** On the chain, [unmonitor all] takes [c], [b] and [a] out of
    monitoring, in this order, all in the call for [a]; the calls for [b]
    and [c] find them marked. *)
Example unmonitor_all_of_the_chain :
  exists w',
    do_action_all (fun S _ => control_service quiet 3 S Action_Unmonitor)
      "unmonitor" chain = Ret 0 w' /\
    trace w' =
      [Ev_monitorUnset 2%nat; Ev_monitorUnset 1%nat; Ev_monitorUnset 0%nat].
Proof. eexists. split; [vm_compute; reflexivity|reflexivity]. Qed.

(** X16.  [monit monitor all], without a daemon: when the function
    pointer carries the verb out through [control_service] with the
    action Monitor and the batch starts with no service marked, the loop
    answers for every service, counts no error, and leaves every service
    marked [visited] and monitored: a service that was not monitored is in
    the state Init, a monitored one keeps its state.  Nothing else changes
    and nothing is done but the calls of [Util_monitorSet]. *)
Theorem monitor_all (E : environment) (rank : Service_T -> nat)
  (fuel : nat) (ctl : string -> string -> M bool) (action : string)
  (w : world) :
  (forall S w0, ctl S action w0 =
                control_service E fuel S Action_Monitor w0) ->
  acyclic E rank (servicelist w) ->
  names_resolve E (servicelist w) ->
  (forall x, (x < length (servicelist w))%nat -> (rank x < fuel)%nat) ->
  (forall v, vis w v = false) ->
  exists w' evs,
    do_action_all ctl action w = Ret 0 w' /\
    servicelist w' =
      (fun sv => match monitor sv with
                 | Monitor_Not => set_monitor Monitor_Init (set_visited true sv)
                 | _ => set_visited true sv
                 end) <$> servicelist w /\
    trace w' = trace w ++ evs /\
    forallb is_monitor_event evs = true.
Proof.
  intros Hctl Hwf Hnames Hfuel Hfresh.
  set (l0 := servicelist w).
  destruct (do_action_all_spec ctl action monitor_step
              (fun wi => config <$> servicelist wi = config <$> l0 /\
                         forall v, vis wi v = true -> closed E l0 wi v)
              (fun x wi => vis wi x = true)) with (w := w)
    as (errors & w' & Hrun & -> & [Hchg (evs & T & F)] & _ & Hall).
  - exact monitor_step_refl.
  - exact monitor_step_trans.
  - intros w0 w1 [[L _] _]. exact L.
  - intros w0 w1 x H. exact (monitor_step_vis w0 w1 x H).
  - intros x w0 sv _ Hx Hvis. now rewrite (vis_lookup _ _ _ Hx).
  - intros x w0 sv [Hcfg Hcl] Hx _. apply (wp_same _ _ _ _ (Hctl _ _)).
    pose proof (getService_own E l0 w0 x sv Hnames Hcfg Hx) as Hfind.
    unfold control_service. apply wp_bind. unfold Util_getService.
    eexists _, _. split; [reflexivity|]. rewrite Hfind.
    assert (Hlt : (x < length l0)%nat).
    { apply (f_equal length) in Hcfg. rewrite !length_fmap in Hcfg.
      rewrite <- Hcfg. exact (lookup_lt_Some _ _ _ Hx). }
    eapply wp_seq.
    { apply (monitor_walk E rank l0 false Hwf fuel x w0 sv Hcfg Hx
               (Hfuel x Hlt)).
      intros v Hv. left. exact (Hcl v Hv). }
    intros [] w1 (H1 & Hv1 & _ & _ & Hnew). apply wp_ret.
    split; [reflexivity|]. split; [exact H1|]. split; [|exact Hv1].
    split; [rewrite (monitor_step_cfg _ _ H1); exact Hcfg|].
    intros v Hv. destruct (Hnew v Hv) as [Hold|Hc]; [|exact Hc].
    exact (closed_mono E l0 w0 w1 v (fun y => monitor_step_vis w0 w1 y H1)
             (Hcl v Hold)).
  - split; [reflexivity|]. intros v Hv. rewrite Hfresh in Hv. discriminate.
  - exists w', evs. split; [exact Hrun|]. split; [|auto].
    exact (changed_all visited monitored w w' Hchg Hfresh Hall).
Qed.

Lemma chain_unmonitored_names :
  names_resolve quiet (servicelist chain_unmonitored).
Proof.
  intros x sv Hx.
  destruct x as [|[|[|x]]]; cbn in Hx; try discriminate;
    injection Hx as <-; reflexivity.
Defined.

Lemma monitor_all_witness :
  exists w' evs,
    do_action_all (fun S _ => control_service quiet 3 S Action_Monitor)
      "monitor" chain_unmonitored = Ret 0 w' /\
    servicelist w' =
      (fun sv => match monitor sv with
                 | Monitor_Not => set_monitor Monitor_Init (set_visited true sv)
                 | _ => set_visited true sv
                 end) <$> servicelist chain_unmonitored /\
    trace w' = [] ++ evs /\
    forallb is_monitor_event evs = true.
Proof.
  exact (monitor_all quiet (fun x => x) 3
           (fun S _ => control_service quiet 3 S Action_Monitor) "monitor"
           chain_unmonitored (fun _ _ => eq_refl) chain_unmonitored_acyclic
           chain_unmonitored_names ltac:(cbn; lia) chain_unmonitored_fresh).
Defined.

(** On the chain, [monitor all] enables [a], [b] and [c], each in the
    call for itself. *)
Example monitor_all_of_the_chain :
  exists w',
    do_action_all (fun S _ => control_service quiet 3 S Action_Monitor)
      "monitor" chain_unmonitored = Ret 0 w' /\
    trace w' =
      [Ev_monitorSet 0%nat; Ev_monitorSet 1%nat; Ev_monitorSet 2%nat].
Proof. eexists. split; [vm_compute; reflexivity|reflexivity]. Qed.

(** X17.  [monit stop all], without a daemon: when the function pointer
    carries the verb out through [control_service] with the action Stop
    and the batch starts with no mark set, the loop answers for every
    service and counts no error, whatever the stop programs did.  Over the
    whole batch no stop program is executed twice, each is executed after
    every service that depends on its service has completed its stop step,
    every service completes its stop step exactly once, and every service
    ends marked [depend_visited] and out of monitoring, with nothing else
    changed. *)
Theorem stop_all (E : environment) (rank : Service_T -> nat)
  (N fuel : nat) (ctl : string -> string -> M bool) (action : string)
  (w : world) :
  (forall S w0, ctl S action w0 = control_service E fuel S Action_Stop w0) ->
  dependants_ranked E rank N (servicelist w) ->
  names_resolve E (servicelist w) ->
  (N < fuel)%nat ->
  (forall v, vis w v = false) ->
  (forall v, dvis w v = false) ->
  exists w' evs,
    do_action_all ctl action w = Ret 0 w' /\
    servicelist w' =
      (fun sv => set_monitor Monitor_Not (set_depend_visited true sv))
        <$> servicelist w /\
    trace w' = trace w ++ evs /\
    (forall l1 l2 x argv env,
       evs = l1 ++ Ev_Command_execute x Ref_stop argv env :: l2 ->
       forall c, needs E (servicelist w) c x -> In c (stop_finished l1)) /\
    NoDup (stopped evs) /\
    NoDup (stop_finished evs) /\
    (forall x, (x < length (servicelist w))%nat -> In x (stop_finished evs)).
Proof.
  intros Hctl Hranked Hnames Hfuel Hvfresh Hfresh.
  set (l0 := servicelist w). set (tr0 := trace w).
  destruct (do_action_all_spec ctl action (stop_step E tr0 l0 true)
              (fun wi => config <$> servicelist wi = config <$> l0 /\
                         (forall v, vis wi v = false) /\ stop_inv tr0 wi)
              (fun x wi => dvis wi x = true)) with (w := w)
    as (errors & w' & Hrun & -> & H02 & _ & Hall).
  - apply stop_step_refl.
  - apply stop_step_trans.
  - intros w0 w1 [[L _] _]. exact L.
  - intros w0 w1 x H. exact (stop_step_mark E _ _ _ _ _ x H).
  - intros x w0 sv (_ & Hv & _) Hx Hvis. specialize (Hv x).
    rewrite (vis_lookup _ _ _ Hx) in Hv. congruence.
  - intros x w0 sv (Hcfg & Hv & Hinv) Hx _.
    apply (wp_same _ _ _ _ (Hctl _ _)).
    pose proof (getService_own E l0 w0 x sv Hnames Hcfg Hx) as Hfind.
    unfold control_service. apply wp_bind. unfold Util_getService.
    eexists _, _. split; [reflexivity|]. rewrite Hfind.
    eapply wp_seq.
    { apply (stop_walk E rank N l0 true tr0 Hranked fuel x w0 sv Hcfg Hx);
        [lia|exact Hinv]. }
    intros [] w1 (H1 & Hin1 & _). cbv beta.
    assert (Hcfg1 : config <$> servicelist w1 = config <$> l0).
    { destruct H1 as [H1 _].
      rewrite (touched_cfg _ _ _ (stopped_service_config true) H1).
      exact Hcfg. }
    destruct (cfg_lookup _ _ _ _ (eq_trans Hcfg1 (eq_sym Hcfg)) Hx)
      as (sv1 & Hx1 & _).
    eapply wp_seq.
    { exact (stop_late E tr0 l0 true x w1 sv1 Hx1
               (stop_step_inv E _ _ _ _ _ H1 Hinv) Hin1). }
    intros rv w2 (H2 & Hd2 & _). apply wp_ret.
    pose proof (stop_step_trans E _ _ _ _ _ _ H1 H2) as H12.
    split; [reflexivity|]. split; [exact H12|]. split; [|exact Hd2].
    split; [|split].
    + destruct H12 as [H12 _].
      rewrite (touched_cfg _ _ _ (stopped_service_config true) H12).
      exact Hcfg.
    + intros v. destruct H12 as [H12 _].
      pose proof (changed_other depend_visited (stopped_service true) visited
                    w0 w2 v (fun _ => eq_refl) H12) as Hsame.
      unfold vis. specialize (Hv v). unfold vis in Hv.
      destruct (servicelist w2 !! v), (servicelist w0 !! v);
        cbn in Hsame; congruence.
    + exact (stop_step_inv E _ _ _ _ _ H12 Hinv).
  - split; [reflexivity|]. split; [exact Hvfresh|].
    exists []. split; [unfold tr0; now rewrite app_nil_r|].
    intros v Hv. rewrite Hfresh in Hv. discriminate.
  - destruct H02 as [Ht (evs & T & F & Hord & [Nd1 _] & [Nd2 _] & Hfin)].
    exists w', evs. split; [exact Hrun|]. split.
    { exact (changed_all depend_visited (stopped_service true) w w' Ht Hfresh
               Hall). }
    split; [exact T|]. split.
    { intros l1 l2 x argv env -> c Hc.
      exact (stop_order_before E _ [] _ _ _ _ _
               (Hord [] (eq_sym (app_nil_r _))) c Hc). }
    split; [exact Nd1|]. split; [exact Nd2|].
    intros x Hx. destruct (Hfin x (Hall x Hx)) as [H|H]; [|exact H].
    rewrite Hfresh in H. discriminate.
Qed.

Lemma chain_with_stops_unvisited : forall v, vis chain_with_stops v = false.
Proof. intros [|[|[|v]]]; reflexivity. Defined.

Lemma chain_with_stops_names :
  names_resolve quiet (servicelist chain_with_stops).
Proof.
  intros x sv Hx.
  destruct x as [|[|[|x]]]; cbn in Hx; try discriminate;
    injection Hx as <-; reflexivity.
Defined.

Lemma stop_all_witness :
  exists w' evs,
    do_action_all (fun S _ => control_service quiet 3 S Action_Stop) "stop"
      chain_with_stops = Ret 0 w' /\
    trace w' = [] ++ evs /\
    NoDup (stopped evs) /\ NoDup (stop_finished evs) /\
    In 2%nat (stop_finished evs).
Proof.
  destruct (stop_all quiet (fun x => x) 2 3
              (fun S _ => control_service quiet 3 S Action_Stop) "stop"
              chain_with_stops (fun _ _ => eq_refl) chain_with_stops_ranked
              chain_with_stops_names ltac:(lia) chain_with_stops_unvisited
              chain_with_stops_fresh)
    as (w' & evs & H1 & _ & H3 & _ & H5 & H6 & H7).
  exists w', evs. split; [exact H1|]. split; [exact H3|].
  split; [exact H5|]. split; [exact H6|]. apply H7. cbn. lia.
Defined.

(** On that chain, [stop all] runs the stop programs of [c], [b] and [a],
    in this order, once each. *)
Example stop_all_of_the_chain :
  exists w',
    do_action_all (fun S _ => control_service quiet 3 S Action_Stop) "stop"
      chain_with_stops = Ret 0 w' /\
    stopped (trace w') = [2; 1; 0]%nat /\
    stop_finished (trace w') = [2; 1; 0]%nat /\
    (monitor <$> servicelist w') = [Monitor_Not; Monitor_Not; Monitor_Not].
Proof.
  eexists. split; [vm_compute; reflexivity|].
  split; [reflexivity|]. split; reflexivity.
Qed.

(** ** Part G -- the steps of a start and of a stop *)

(** The service an event is about, if it is about one. *)
Definition subject (e : event) : option Service_T :=
  match e with
  | Ev_isProcessRunning s _ | Ev_Command_execute s _ _ _ | Ev_post s _ _
  | Ev_monitorSet s | Ev_monitorUnset s | Ev_resetInfo s => Some s
  | Ev_log (Log_start s _) | Ev_log (Log_start_skipped s)
  | Ev_log (Log_stop s _) | Ev_log (Log_stop_skipped s)
  | Ev_log (Log_restart s _) | Ev_log (Log_restart_skipped s)
  | Ev_log (Log_trying_to_restart s) => Some s
  | _ => None
  end.

Definition about (x : Service_T) (e : event) : bool :=
  match subject e with
  | Some s => (s =? x)%nat
  | None => false
  end.

(** What the run of a program of [x] adds to the history: the events of
    the executor and of the wait loops, about no service but [x]. *)
Definition run_event (x : Service_T) (e : event) : bool :=
  match e with
  | Ev_usleep _ | Ev_Process_exitStatus | Ev_readBytes _ | Ev_Process_free
  | Ev_getpgid _ | Ev_Command_new _ | Ev_log (Log_debug_output _) => true
  | Ev_isProcessRunning s _ | Ev_Command_execute s _ _ _ => (s =? x)%nat
  | _ => false
  end.

(** The events of one step: those of a run, the log and the posting of the
    outcome, about no service but [x]. *)
Definition step_event (x : Service_T) (e : event) : bool :=
  run_event x e ||
  match e with
  | Ev_log (Log_start s _) | Ev_log (Log_start_skipped s)
  | Ev_log (Log_stop s _) | Ev_log (Log_stop_skipped s)
  | Ev_post s _ _ => (s =? x)%nat
  | _ => false
  end.

Lemma run_is_step_event x e : run_event x e = true -> step_event x e = true.
Proof. unfold step_event. now intros ->. Qed.

Lemma step_event_about x y e :
  step_event x e = true -> about y e = true -> y = x.
Proof.
  unfold step_event, about.
  destruct e as [| | | | | | | | | | | |[]]; cbn;
    rewrite ?orb_false_r; intros H1 H2; try discriminate;
    apply Nat.eqb_eq in H1, H2; congruence.
Qed.

Lemma step_event_finished x evs :
  forallb (step_event x) evs = true -> finished evs = [].
Proof.
  induction evs as [|e evs IH]; [reflexivity|]. cbn [forallb]. intros H.
  apply andb_prop in H. destruct H as [He H].
  change (e :: evs) with ([e] ++ evs). rewrite finished_app, (IH H).
  destruct e; try discriminate; reflexivity.
Qed.

Lemma step_event_stop_finished x evs :
  forallb (step_event x) evs = true -> stop_finished evs = [].
Proof.
  induction evs as [|e evs IH]; [reflexivity|]. cbn [forallb]. intros H.
  apply andb_prop in H. destruct H as [He H].
  change (e :: evs) with ([e] ++ evs). rewrite stop_finished_app, (IH H).
  destruct e; try discriminate; reflexivity.
Qed.

Section Steps.

Variable E : environment.

Lemma adds_both (P Q : event -> bool) w w' :
  adds P w w' -> adds Q w w' -> adds (fun e => P e && Q e) w w'.
Proof.
  intros [H1 (e1 & T1 & F1)] [_ (e2 & T2 & F2)]. split; [exact H1|].
  exists e1. split; [exact T1|].
  assert (e2 = e1) by (rewrite T1 in T2; now apply app_inv_head in T2).
  subst e2. apply forallb_forall. intros e He.
  rewrite (proj1 (forallb_forall _ _) F1 e He),
          (proj1 (forallb_forall _ _) F2 e He). reflexivity.
Qed.

(** *** The events of a run *)

Lemma waitStart_loop_run fuel s wait timeout w :
  wlp (waitStart_loop E fuel s wait timeout)
      (fun _ w' => adds (run_event s) w w') w.
Proof.
  revert wait timeout w.
  induction fuel as [|fuel IH]; intros wait timeout w; [discriminate|].
  cbn [waitStart_loop]. apply wlp_bind. unfold isProcessRunning.
  apply wlp_ask. set (w1 := mk_world _ _).
  assert (H1 : adds (run_event s) w w1).
  { apply adds_emit. cbn. apply Nat.eqb_refl. }
  destruct (negb _); [now apply wlp_ret|].
  apply wlp_bind. unfold Time_usleep. apply wlp_emit. set (w2 := mk_world _ _).
  assert (H2 : adds (run_event s) w w2).
  { eapply adds_trans; [exact H1|]. now apply adds_emit. }
  apply wlp_bind, wlp_peek. destruct (_ && _); [|now apply wlp_ret].
  eapply wlp_mono; [apply IH|]. intros a w' H'.
  eapply adds_trans; [exact H2|exact H'].
Qed.

Lemma waitStop_loop_run fuel x pid timeout w :
  wlp (waitStop_loop E fuel pid timeout)
      (fun _ w' => adds (run_event x) w w') w.
Proof.
  revert timeout w.
  induction fuel as [|fuel IH]; intros timeout w; [discriminate|].
  cbn [waitStop_loop]. apply wlp_bind.
  apply wlp_mono with (Q := fun _ w1 => adds (run_event x) w w1).
  { destruct (pid =? 0); [apply wlp_ret, adds_refl|].
    apply wlp_bind, wlp_ask.
    destruct (getpgid E (trace w) pid) as [r errno].
    apply wlp_ret. now apply adds_emit. }
  intros gone w1 H1. destruct gone; [now apply wlp_ret|].
  apply wlp_bind. unfold Time_usleep. apply wlp_emit. set (w2 := mk_world _ _).
  assert (H2 : adds (run_event x) w w2).
  { eapply adds_trans; [exact H1|]. now apply adds_emit. }
  apply wlp_bind, wlp_peek. destruct (_ && _); [|now apply wlp_ret].
  eapply wlp_mono; [apply IH|]. intros a w' H'.
  eapply adds_trans; [exact H2|exact H'].
Qed.

(** The executor begins with [Command_new]; the child is executed when
    [Command_new] has not thrown, and at most once. *)
Lemma commandExecute_run (S : Service_T) (c : command_ref) (msglen : nat)
  (timeout : Z) (w : world) (sv : Service) (cmd : command_t) :
  servicelist w !! S = Some sv ->
  command_of sv c = Some cmd ->
  wp (_commandExecute E S c msglen timeout)
     (fun _ w' =>
        servicelist w' = servicelist w /\
        exists run,
          trace w' = trace w ++ Ev_Command_new (arg0 cmd) :: run /\
          forallb (run_event S) run = true /\
          match Command_new E (trace w) (arg0 cmd) with
          | Some _ => run = []
          | None =>
              exists pre post,
                run = pre ++ Ev_Command_execute S c (arg cmd) (overlay sv c)
                        :: post /\
                forallb is_inner_event pre = true /\
                forallb is_inner_event post = true
          end) w.
Proof.
  intros Hs Hc.
  destruct (commandExecute_returns E S c msglen timeout w sv cmd Hs Hc)
    as (r & w' & Hrun & Hl & _).
  exists r, w'. split; [exact Hrun|]. split; [exact Hl|].
  revert Hrun. unfold _commandExecute, bind at 1, get_service.
  rewrite Hs, Hc. unfold bind at 1, ask at 1. cbn [trace servicelist].
  destruct (Command_new E (trace w) (arg0 cmd)) as [reason|].
  { intros [= <- <-]. exists []. cbn [trace]. auto. }
  set (pre := if is_process (type sv) then [Ev_isProcessRunning S false]
              else []).
  assert (Fpre : forallb (run_event S) pre = true /\
                 forallb is_inner_event pre = true).
  { unfold pre. destruct (is_process (type sv)); cbn;
      rewrite ?Nat.eqb_refl; auto. }
  set (w1 := mk_world (servicelist w)
               ((trace w ++ [Ev_Command_new (arg0 cmd)]) ++ pre)).
  assert (Hpre :
    (if is_process (type sv)
     then bind (isProcessRunning E S false) (fun _ => ret tt) else ret tt)
      (mk_world (servicelist w) (trace w ++ [Ev_Command_new (arg0 cmd)]))
    = Ret tt w1).
  { unfold w1, pre. destruct (is_process (type sv)); [reflexivity|].
    unfold ret. now rewrite app_nil_r. }
  unfold bind at 1. rewrite Hpre. unfold bind at 1, ask at 1.
  set (w2 := mk_world (servicelist w1) _).
  destruct (Command_execute E (trace w1)).
  2:{ intros [= <- <-]. eexists. unfold w2, w1. cbn [trace].
      rewrite <- !app_assoc. cbn [app]. split; [reflexivity|].
      split.
      - rewrite forallb_app, (proj1 Fpre). cbn. now rewrite Nat.eqb_refl.
      - exists pre, []. split; [reflexivity|]. split; [apply Fpre|reflexivity]. }
  intros Hrun.
  assert (Hrest : exists post,
            trace w' = trace w2 ++ post /\
            forallb (run_event S) post = true /\
            forallb is_inner_event post = true).
  { revert Hrun. unfold bind at 1.
    destruct (poll_loop E (poll_fuel timeout) timeout w2)
      as [[status left] w3| |] eqn:Hpoll; try discriminate.
    destruct (poll_loop_spec E (poll_fuel timeout) timeout w2)
      as (k & _ & Hpoll' & _).
    { apply fuel_enough. lia. }
    { unfold poll_fuel. lia. }
    rewrite Hpoll in Hpoll'. injection Hpoll' as _ _ ->.
    unfold bind at 1.
    match goal with
    | |- context [drain_loop E ?f ?p ?m ?t ?tot ?msg ?w0] =>
        destruct (drain_loop_returns E f p m t tot msg w0)
          as (msg' & w4 & Hdrain & [Hl4 (e4 & T4 & F4)] & _);
          [unfold drain_fuel; lia|unfold drain_fuel; lia|]
    end.
    rewrite Hdrain. unfold bind, emit, ret. intros [= <- <-].
    cbn [trace] in *. exists (polls k ++ e4 ++ [Ev_Process_free]).
    rewrite T4. unfold w2, w1. cbn [trace]. rewrite <- !app_assoc.
    split; [reflexivity|].
    assert (Fk : forallb (run_event S) (polls k) = true /\
                 forallb is_inner_event (polls k) = true).
    { clear. induction k as [|k IH]; [auto|]. cbn. exact IH. }
    rewrite !forallb_app, (proj1 Fk), (proj2 Fk). cbn [forallb andb].
    split; apply andb_true_iff; split; try reflexivity;
      apply forallb_forall; intros e He;
      pose proof (proj1 (forallb_forall _ _) F4 e He) as Ho;
      destruct e as [| | | | |?| | | | | | |[]]; try discriminate;
      reflexivity. }
  destruct Hrest as (post & T & F1 & F2). eexists. split.
  { rewrite T. unfold w2, w1. cbn [trace]. rewrite <- !app_assoc.
    cbn [app]. reflexivity. }
  split.
  { rewrite forallb_app, (proj1 Fpre). cbn [forallb run_event andb].
    now rewrite Nat.eqb_refl, F1. }
  exists pre, post. split; [reflexivity|]. split; [apply Fpre|exact F2].
Qed.

Lemma wp_seq_eq {A B} (m : M A) (k : A -> M B) (P : A -> world -> Prop) Q w :
  wp m P w ->
  (forall a w', m w = Ret a w' -> P a w' -> wp (k a) Q w') ->
  wp (bind m k) Q w.
Proof.
  intros (a & w' & Hm & HP) Hk. destruct (Hk a w' Hm HP) as (b & w'' & Hb & HQ).
  exists b, w''. unfold bind. rewrite Hm. auto.
Qed.

Lemma inner_not_exec evs :
  forallb is_inner_event evs = true ->
  forallb (fun e => negb (is_exec e)) evs = true.
Proof.
  intros H. apply forallb_forall. intros e He.
  pose proof (proj1 (forallb_forall _ _) H e He) as Hi.
  destruct e; try reflexivity. discriminate.
Qed.

(** *** The start step *)

(** The run of the start program [cmd] of [x] from the history [tr], the
    services being [l]: the call of the executor and, for a process, the
    wait for it to come up.  [run] is what they add to the history;
    [failed] is the verdict of [(s->type == Service_Process &&
    _waitStart(s, &timeout) != Process_Started) || status < 0]. *)
Definition start_run (l : list Service) (x : Service_T) (sv : Service)
  (cmd : command_t) (tr run : list event) (status : Z) (msg : string)
  (failed : bool) : Prop :=
  exists left w3,
    _commandExecute E x Ref_start (STRLEN E) (timeout cmd * USEC_PER_SEC)
      (mk_world l tr) = Ret (status, msg, left) w3 /\
    if is_process (type sv) then
      exists st left' w4,
        _waitStart E x left w3 = Ret (st, left') w4 /\
        trace w4 = tr ++ run /\
        failed = match st with
                 | Process_Started => status <? 0
                 | Process_Stopped => true
                 end
    else trace w3 = tr ++ run /\ failed = (status <? 0).

(** What [_doStart] does about a service [x] it has marked, once the
    services [x] depends on are dealt with and before it calls
    [Util_monitorSet]: without a start program, one line in the log; for
    a process that is found running, the look at the process and nothing
    else; otherwise the line in the log, the run of the start program and
    the posting of its outcome.  The start program is executed in the run
    exactly when [Command_new] has not thrown. *)
Definition start_step (l : list Service) (x : Service_T) (sv : Service)
  (tr step : list event) : Prop :=
  match start sv with
  | None => step = [Ev_log (Log_start_skipped x)]
  | Some cmd =>
      let probe := if is_process (type sv)
                   then [Ev_isProcessRunning x false] else [] in
      if is_process (type sv) &&
         negb (Util_isProcessRunning E tr x false =? 0)
      then step = probe
      else
        let tr1 := tr ++ probe ++ [Ev_log (Log_start x (arg0 cmd))] in
        exists run status msg failed,
          start_run l x sv cmd tr1 run status msg failed /\
          (In x (started run) <-> Command_new E tr1 (arg0 cmd) = None) /\
          step = probe ++ Ev_log (Log_start x (arg0 cmd)) :: run ++
                 [if failed : bool
                  then Ev_post x State_Failed
                         (Failed_to_start status (or_no_output msg))
                  else Ev_post x State_Succeeded Started]
  end.

Lemma start_program_step s w sv :
  servicelist w !! s = Some sv ->
  wp (start_program E s)
     (fun _ w' =>
        servicelist w' = servicelist w /\
        exists step,
          trace w' = trace w ++ step /\
          start_step (servicelist w) s sv (trace w) step /\
          forallb (step_event s) step = true /\
          (started step = [] \/ started step = [s])) w.
Proof.
  intros Hs. unfold start_program.
  apply wp_bind, (wp_get_service _ _ _ _ Hs).
  destruct (start sv) as [cmd|] eqn:Hstart.
  2:{ apply wp_emit. cbn [trace servicelist]. split; [reflexivity|].
      eexists. split; [reflexivity|]. unfold start_step. rewrite Hstart.
      split; [reflexivity|]. unfold step_event. cbn.
      rewrite Nat.eqb_refl. auto. }
  set (probe := if is_process (type sv)
                then [Ev_isProcessRunning s false] else []).
  assert (Fprobe : forallb (step_event s) probe = true /\ started probe = []).
  { unfold probe. destruct (is_process (type sv)); unfold step_event; cbn;
      rewrite ?Nat.eqb_refl; cbn; auto. }
  apply wp_seq with
    (P := fun idle w1 =>
            w1 = mk_world (servicelist w) (trace w ++ probe) /\
            idle = negb (is_process (type sv) &&
                         negb (Util_isProcessRunning E (trace w) s false =? 0))).
  { unfold probe. destruct (is_process (type sv)); cbn [negb andb].
    - apply wp_bind. unfold isProcessRunning. apply wp_ask, wp_ret.
      split; [reflexivity|]. now rewrite negb_involutive.
    - apply wp_ret. rewrite app_nil_r. now destruct w. }
  intros idle w1 [-> ->].
  destruct (is_process (type sv) &&
            negb (Util_isProcessRunning E (trace w) s false =? 0)) eqn:Hguard;
    cbn [negb].
  { apply wp_ret. cbn [trace servicelist]. split; [reflexivity|].
    exists probe. split; [reflexivity|]. unfold start_step.
    rewrite Hstart, Hguard. fold probe. split; [reflexivity|].
    split; [apply Fprobe|left; apply Fprobe]. }
  apply wp_bind, wp_emit. cbn [trace servicelist].
  set (tr1 := trace w ++ probe ++ [Ev_log (Log_start s (arg0 cmd))]).
  replace ((trace w ++ probe) ++ [Ev_log (Log_start s (arg0 cmd))])
    with tr1 by (unfold tr1; now rewrite app_assoc).
  set (w2 := mk_world (servicelist w) tr1).
  eapply wp_seq_eq;
    [exact (commandExecute_run s Ref_start _ _ w2 sv cmd Hs Hstart)|].
  intros [[status msg] left] w3 Hexec (Hl3 & run & T3 & F3 & Hnew).
  cbv beta iota. change (trace w2) with tr1 in T3, Hnew.
  change (servicelist w2) with (servicelist w) in Hl3.
  assert (Hstarted :
            (started (Ev_Command_new (arg0 cmd) :: run) = [] \/
             started (Ev_Command_new (arg0 cmd) :: run) = [s]) /\
            (In s (started (Ev_Command_new (arg0 cmd) :: run)) <->
             Command_new E tr1 (arg0 cmd) = None)).
  { destruct (Command_new E tr1 (arg0 cmd)) as [reason|].
    - subst run. cbn. split; [auto|]. split; [intros []|discriminate].
    - destruct Hnew as (pre & post & -> & Fpre & Fpost).
      change (Ev_Command_new (arg0 cmd) :: pre ++ _ :: post)
        with ([Ev_Command_new (arg0 cmd)] ++ pre ++
              [Ev_Command_execute s Ref_start (arg cmd) (overlay sv Ref_start)]
              ++ post).
      rewrite !started_app,
        (started_class _ _ inner_not_start Fpre),
        (started_class _ _ inner_not_start Fpost).
      cbn. split; [auto|]. split; [reflexivity|now left]. }
  assert (Hw3 : servicelist w3 !! s = Some sv) by now rewrite Hl3.
  assert (Hfinish : forall (failed : bool) w4 wait,
            servicelist w4 = servicelist w ->
            trace w4 = trace w3 ++ wait ->
            forallb (run_event s) wait = true -> started wait = [] ->
            start_run (servicelist w) s sv cmd tr1
              (Ev_Command_new (arg0 cmd) :: run ++ wait) status msg failed ->
            wp (if failed
                then Event_post s State_Failed
                       (Failed_to_start status (or_no_output msg))
                else Event_post s State_Succeeded Started)
               (fun _ w' =>
                  servicelist w' = servicelist w /\
                  exists step,
                    trace w' = trace w ++ step /\
                    start_step (servicelist w) s sv (trace w) step /\
                    forallb (step_event s) step = true /\
                    (started step = [] \/ started step = [s])) w4).
  { intros failed w4 wait Hl4 T4 F4 S4 Hrun.
    set (post := if failed
                 then Ev_post s State_Failed
                        (Failed_to_start status (or_no_output msg))
                 else Ev_post s State_Succeeded Started).
    assert (Hpost : wp (emit post)
              (fun _ w' =>
                 servicelist w' = servicelist w /\
                 exists step,
                   trace w' = trace w ++ step /\
                   start_step (servicelist w) s sv (trace w) step /\
                   forallb (step_event s) step = true /\
                   (started step = [] \/ started step = [s])) w4).
    { apply wp_emit. cbn [trace servicelist]. split; [exact Hl4|].
      exists (probe ++ Ev_log (Log_start s (arg0 cmd)) ::
              (Ev_Command_new (arg0 cmd) :: run ++ wait) ++ [post]).
      split.
      { rewrite T4, T3. unfold tr1. rewrite <- !app_assoc. cbn [app].
        now rewrite <- !app_assoc. }
      split.
      { unfold start_step. rewrite Hstart, Hguard. fold probe. cbv zeta.
        fold tr1. exists (Ev_Command_new (arg0 cmd) :: run ++ wait),
          status, msg, failed.
        split; [exact Hrun|]. split; [|reflexivity].
        change (Ev_Command_new (arg0 cmd) :: run ++ wait)
          with ((Ev_Command_new (arg0 cmd) :: run) ++ wait).
        rewrite started_app, S4, app_nil_r. apply Hstarted. }
      split.
      { assert (Frun : forallb (step_event s) run = true).
        { apply forallb_forall. intros e He. apply run_is_step_event.
          exact (proj1 (forallb_forall _ _) F3 e He). }
        assert (Fwait : forallb (step_event s) wait = true).
        { apply forallb_forall. intros e He. apply run_is_step_event.
          exact (proj1 (forallb_forall _ _) F4 e He). }
        assert (Fpost : step_event s post = true).
        { unfold post. destruct failed; unfold step_event; cbn;
            now rewrite Nat.eqb_refl. }
        assert (Flog : step_event s (Ev_log (Log_start s (arg0 cmd))) = true).
        { unfold step_event. cbn. now rewrite Nat.eqb_refl. }
        rewrite forallb_app, (proj1 Fprobe). cbn [forallb andb app].
        rewrite Flog. change (step_event s (Ev_Command_new (arg0 cmd)))
          with true. cbn [andb].
        rewrite !forallb_app, Frun, Fwait. cbn [forallb]. now rewrite Fpost. }
      change (probe ++ Ev_log (Log_start s (arg0 cmd)) ::
              (Ev_Command_new (arg0 cmd) :: run ++ wait) ++ [post])
        with (probe ++ [Ev_log (Log_start s (arg0 cmd))] ++
              ((Ev_Command_new (arg0 cmd) :: run) ++ wait) ++ [post]).
      rewrite !started_app, (proj2 Fprobe), S4.
      assert (Sp : started [post] = []) by (unfold post; now destruct failed).
      rewrite Sp, !app_nil_r. cbn [started omap app]. apply Hstarted. }
    unfold post in Hpost. unfold Event_post. destruct failed; exact Hpost. }
  destruct (is_process (type sv)) eqn:Hp.
  - apply wp_bind, wp_bind.
    destruct (waitStart_returns E s left w3)
      as ([st left'] & w4 & Hwait & [Hl4 (wait & T4 & F4)]).
    pose proof (waitStart_loop_run _ s _ _ w3 _ _ Hwait)
      as [_ (wait' & T4' & F4')].
    assert (wait' = wait) by (rewrite T4 in T4'; now apply app_inv_head in T4').
    subst wait'.
    exists (st, left'), w4. split; [exact Hwait|]. cbv beta iota.
    assert (Hrun : start_run (servicelist w) s sv cmd tr1
                     (Ev_Command_new (arg0 cmd) :: run ++ wait) status msg
                     (match st with
                      | Process_Started => status <? 0
                      | Process_Stopped => true
                      end)).
    { exists left, w3. split; [exact Hexec|]. rewrite Hp.
      exists st, left', w4. split; [exact Hwait|]. split; [|reflexivity].
      rewrite T4, T3. now rewrite <- app_assoc. }
    assert (S4 : started wait = [])
      by exact (started_class _ _ wait_not_start F4).
    destruct st; apply wp_ret;
      [apply (Hfinish true w4 wait)|apply (Hfinish (status <? 0) w4 wait)];
      auto; congruence.
  - apply wp_bind, wp_ret.
    apply (Hfinish (status <? 0) w3 []); auto.
    + now rewrite app_nil_r.
    + rewrite app_nil_r. exists left, w3. split; [exact Hexec|]. rewrite Hp.
      split; [exact T3|reflexivity].
Qed.

(** *** The stop step *)

Lemma stopped_inner evs :
  forallb is_inner_event evs = true -> stopped evs = [].
Proof.
  intros H. apply stopped_calm, forallb_forall. intros e He.
  apply inner_is_calm_event. exact (proj1 (forallb_forall _ _) H e He).
Qed.

Lemma stopped_wait evs :
  forallb is_wait_event evs = true -> stopped evs = [].
Proof.
  intros H. apply stopped_inner, forallb_forall. intros e He.
  apply wait_is_inner_event. exact (proj1 (forallb_forall _ _) H e He).
Qed.

(** The run of the stop program [cmd] of [x] from the history [tr], the
    services being [l] and [pid] the process seen before: the call of the
    executor and, for a process, the wait for [pid] to go away.  [failed] is
    the verdict of [(s->type == Service_Process && _waitStop(pid, &timeout)
    != Process_Stopped) || status < 0]. *)
Definition stop_run (l : list Service) (x : Service_T) (sv : Service)
  (cmd : command_t) (pid : Z) (tr run : list event) (status : Z)
  (msg : string) (failed : bool) : Prop :=
  exists left w3,
    _commandExecute E x Ref_stop (STRLEN E) (timeout cmd * USEC_PER_SEC)
      (mk_world l tr) = Ret (status, msg, left) w3 /\
    if is_process (type sv) then
      exists st left' w4,
        _waitStop E pid left w3 = Ret (st, left') w4 /\
        trace w4 = tr ++ run /\
        failed = match st with
                 | Process_Stopped => status <? 0
                 | Process_Started => true
                 end
    else trace w3 = tr ++ run /\ failed = (status <? 0).

(** What [_doStop] does about a service [x] it has marked, before it calls
    [Util_monitorUnset] or [Util_resetInfo], and what it answers: without
    a stop program, one line in the log, and true; for a process that is
    not found running, the look at the process, and true; otherwise the
    line in the log, a second look at the process, the run of the stop
    program and the posting of its outcome, and true exactly when the run
    has not failed. *)
Definition halt_step (l : list Service) (x : Service_T) (sv : Service)
  (tr step : list event) (rv : bool) : Prop :=
  match stop sv with
  | None => step = [Ev_log (Log_stop_skipped x)] /\ rv = true
  | Some cmd =>
      let probe := if is_process (type sv)
                   then [Ev_isProcessRunning x false] else [] in
      if is_process (type sv) && (Util_isProcessRunning E tr x false =? 0)
      then step = probe /\ rv = true
      else
        let tr1 := tr ++ probe ++ [Ev_log (Log_stop x (arg0 cmd))] in
        let pid := Util_isProcessRunning E tr1 x true in
        let tr2 := tr1 ++ [Ev_isProcessRunning x true] in
        exists run status msg failed,
          stop_run l x sv cmd pid tr2 run status msg failed /\
          (In x (stopped run) <-> Command_new E tr2 (arg0 cmd) = None) /\
          step = probe ++ Ev_log (Log_stop x (arg0 cmd)) ::
                 Ev_isProcessRunning x true :: run ++
                 [if failed : bool
                  then Ev_post x State_Failed
                         (Failed_to_stop status (or_no_output msg))
                  else Ev_post x State_Succeeded Stopped] /\
          rv = negb failed
  end.

Lemma doStop_step s flag w sv :
  servicelist w !! s = Some sv -> depend_visited sv = false ->
  wp (_doStop E s flag)
     (fun rv w' =>
        servicelist w' = alter (stopped_service flag) s (servicelist w) /\
        exists step,
          trace w' =
            trace w ++ step ++
            [if flag then Ev_monitorUnset s else Ev_resetInfo s] /\
          halt_step (alter (set_depend_visited true) s (servicelist w)) s sv
            (trace w) step rv /\
          forallb (step_event s) step = true /\
          (stopped step = [] \/ stopped step = [s])) w.
Proof.
  intros Hs Hd. unfold _doStop. apply wp_bind, (wp_get_service _ _ _ _ Hs).
  rewrite Hd. apply wp_bind, wp_update. set (wa := mk_world _ _).
  set (la := alter (set_depend_visited true) s (servicelist w)).
  assert (Hsa : la !! s = Some (set_depend_visited true sv))
    by now apply lookup_alter_same.
  apply wp_seq with
    (P := fun rv w1 =>
            servicelist w1 = la /\
            exists step,
              trace w1 = trace w ++ step /\
              halt_step la s sv (trace w) step rv /\
              forallb (step_event s) step = true /\
              (stopped step = [] \/ stopped step = [s])).
  2:{ intros rv w1 (Hl1 & step & T1 & Hstep & F1 & S1).
      assert (Hs1 : servicelist w1 !! s = Some (set_depend_visited true sv))
        by now rewrite Hl1.
      destruct flag.
      - unfold Util_monitorUnset.
        apply wp_bind, wp_bind, (wp_get_service _ _ _ _ Hs1), wp_bind, wp_emit,
          wp_update, wp_ret.
        cbn [servicelist trace]. split.
        + rewrite Hl1. unfold la. now rewrite list_alter_alter_eq.
        + exists step. rewrite T1, <- app_assoc. auto.
      - unfold Util_resetInfo.
        apply wp_bind, wp_bind, (wp_get_service _ _ _ _ Hs1), wp_emit, wp_ret.
        cbn [servicelist trace]. split; [exact Hl1|].
        exists step. rewrite T1, <- app_assoc. auto. }
  destruct (stop sv) as [cmd|] eqn:Hstop.
  2:{ apply wp_bind, wp_emit, wp_ret. cbn [trace servicelist].
      split; [reflexivity|]. eexists. split; [reflexivity|].
      unfold halt_step. rewrite Hstop. split; [auto|].
      unfold step_event. cbn. rewrite Nat.eqb_refl. auto. }
  set (probe := if is_process (type sv)
                then [Ev_isProcessRunning s false] else []).
  assert (Fprobe : forallb (step_event s) probe = true /\ stopped probe = []).
  { unfold probe. destruct (is_process (type sv)); unfold step_event; cbn;
      rewrite ?Nat.eqb_refl; cbn; auto. }
  apply wp_seq with
    (P := fun busy w1 =>
            w1 = mk_world la (trace w ++ probe) /\
            busy = negb (is_process (type sv) &&
                         (Util_isProcessRunning E (trace w) s false =? 0))).
  { unfold probe. destruct (is_process (type sv)); cbn [negb andb].
    - apply wp_bind. unfold isProcessRunning. apply wp_ask, wp_ret.
      split; reflexivity.
    - apply wp_ret. rewrite app_nil_r. split; reflexivity. }
  intros busy w1 [-> ->].
  destruct (is_process (type sv) &&
            (Util_isProcessRunning E (trace w) s false =? 0)) eqn:Hguard;
    cbn [negb].
  { apply wp_ret. cbn [trace servicelist]. split; [reflexivity|].
    exists probe. split; [reflexivity|]. unfold halt_step.
    rewrite Hstop, Hguard. fold probe. split; [auto|].
    split; [apply Fprobe|left; apply Fprobe]. }
  apply wp_bind, wp_emit, wp_bind. unfold isProcessRunning. apply wp_ask.
  cbn [trace servicelist].
  set (tr1 := trace w ++ probe ++ [Ev_log (Log_stop s (arg0 cmd))]).
  replace ((trace w ++ probe) ++ [Ev_log (Log_stop s (arg0 cmd))])
    with tr1 by (unfold tr1; now rewrite app_assoc).
  set (pid := Util_isProcessRunning E tr1 s true).
  set (tr2 := tr1 ++ [Ev_isProcessRunning s true]).
  set (w2 := mk_world la tr2).
  assert (Hcmd : command_of (set_depend_visited true sv) Ref_stop = Some cmd)
    by exact Hstop.
  eapply wp_seq_eq;
    [exact (commandExecute_run s Ref_stop _ _ w2 _ cmd Hsa Hcmd)|].
  intros [[status msg] left] w3 Hexec (Hl3 & run & T3 & F3 & Hnew).
  cbv beta iota. change (trace w2) with tr2 in T3, Hnew.
  change (servicelist w2) with la in Hl3.
  change (overlay (set_depend_visited true sv) Ref_stop)
    with (overlay sv Ref_stop) in Hnew.
  assert (Hstopped :
            (stopped (Ev_Command_new (arg0 cmd) :: run) = [] \/
             stopped (Ev_Command_new (arg0 cmd) :: run) = [s]) /\
            (In s (stopped (Ev_Command_new (arg0 cmd) :: run)) <->
             Command_new E tr2 (arg0 cmd) = None)).
  { destruct (Command_new E tr2 (arg0 cmd)) as [reason|].
    - subst run. cbn. split; [auto|]. split; [intros []|discriminate].
    - destruct Hnew as (pre & post & -> & Fpre & Fpost).
      change (Ev_Command_new (arg0 cmd) :: pre ++ _ :: post)
        with ([Ev_Command_new (arg0 cmd)] ++ pre ++
              [Ev_Command_execute s Ref_stop (arg cmd) (overlay sv Ref_stop)]
              ++ post).
      rewrite !stopped_app, (stopped_inner _ Fpre), (stopped_inner _ Fpost).
      cbn. split; [auto|]. split; [reflexivity|now left]. }
  assert (Hfinish : forall (failed : bool) w4 wait,
            servicelist w4 = la ->
            trace w4 = trace w3 ++ wait ->
            forallb (run_event s) wait = true -> stopped wait = [] ->
            stop_run la s sv cmd pid tr2
              (Ev_Command_new (arg0 cmd) :: run ++ wait) status msg failed ->
            wp (if failed
                then Event_post s State_Failed
                       (Failed_to_stop status (or_no_output msg)) ;;;
                     ret false
                else Event_post s State_Succeeded Stopped ;;; ret true)
               (fun rv w1 =>
                  servicelist w1 = la /\
                  exists step,
                    trace w1 = trace w ++ step /\
                    halt_step la s sv (trace w) step rv /\
                    forallb (step_event s) step = true /\
                    (stopped step = [] \/ stopped step = [s])) w4).
  { intros failed w4 wait Hl4 T4 F4 S4 Hrun.
    set (post := if failed
                 then Ev_post s State_Failed
                        (Failed_to_stop status (or_no_output msg))
                 else Ev_post s State_Succeeded Stopped).
    assert (Hpost : wp (emit post ;;; ret (negb failed))
              (fun rv w1 =>
                 servicelist w1 = la /\
                 exists step,
                   trace w1 = trace w ++ step /\
                   halt_step la s sv (trace w) step rv /\
                   forallb (step_event s) step = true /\
                   (stopped step = [] \/ stopped step = [s])) w4).
    { apply wp_bind, wp_emit, wp_ret. cbn [trace servicelist].
      split; [exact Hl4|].
      exists (probe ++ Ev_log (Log_stop s (arg0 cmd)) ::
              Ev_isProcessRunning s true ::
              (Ev_Command_new (arg0 cmd) :: run ++ wait) ++ [post]).
      split.
      { rewrite T4, T3. unfold tr2, tr1. rewrite <- !app_assoc. cbn [app].
        now rewrite <- !app_assoc. }
      split.
      { unfold halt_step. rewrite Hstop, Hguard. fold probe. cbv zeta.
        fold tr1. fold pid. fold tr2.
        exists (Ev_Command_new (arg0 cmd) :: run ++ wait),
          status, msg, failed.
        split; [exact Hrun|]. split; [|auto].
        change (Ev_Command_new (arg0 cmd) :: run ++ wait)
          with ((Ev_Command_new (arg0 cmd) :: run) ++ wait).
        rewrite stopped_app, S4, app_nil_r. apply Hstopped. }
      split.
      { assert (Frun : forallb (step_event s) run = true).
        { apply forallb_forall. intros e He. apply run_is_step_event.
          exact (proj1 (forallb_forall _ _) F3 e He). }
        assert (Fwait : forallb (step_event s) wait = true).
        { apply forallb_forall. intros e He. apply run_is_step_event.
          exact (proj1 (forallb_forall _ _) F4 e He). }
        assert (Fpost : step_event s post = true).
        { unfold post. destruct failed; unfold step_event; cbn;
            now rewrite Nat.eqb_refl. }
        assert (Flog : step_event s (Ev_log (Log_stop s (arg0 cmd))) = true).
        { unfold step_event. cbn. now rewrite Nat.eqb_refl. }
        assert (Flook : step_event s (Ev_isProcessRunning s true) = true).
        { unfold step_event. cbn. now rewrite Nat.eqb_refl. }
        rewrite forallb_app, (proj1 Fprobe). cbn [forallb andb app].
        rewrite Flog, Flook.
        change (step_event s (Ev_Command_new (arg0 cmd))) with true.
        cbn [andb].
        rewrite !forallb_app, Frun, Fwait. cbn [forallb]. now rewrite Fpost. }
      change (probe ++ Ev_log (Log_stop s (arg0 cmd)) ::
              Ev_isProcessRunning s true ::
              (Ev_Command_new (arg0 cmd) :: run ++ wait) ++ [post])
        with (probe ++ [Ev_log (Log_stop s (arg0 cmd));
                        Ev_isProcessRunning s true] ++
              ((Ev_Command_new (arg0 cmd) :: run) ++ wait) ++ [post]).
      rewrite !stopped_app, (proj2 Fprobe), S4.
      assert (Sp : stopped [post] = []) by (unfold post; now destruct failed).
      rewrite Sp, !app_nil_r. cbn [stopped omap app]. apply Hstopped. }
    unfold post in Hpost. unfold Event_post. destruct failed; exact Hpost. }
  destruct (is_process (type sv)) eqn:Hp.
  - apply wp_bind, wp_bind.
    destruct (waitStop_returns E pid left w3)
      as ([st left'] & w4 & Hwait & [Hl4 (wait & T4 & F4)]).
    pose proof (waitStop_loop_run _ s _ _ w3 _ _ Hwait)
      as [_ (wait' & T4' & F4')].
    assert (wait' = wait) by (rewrite T4 in T4'; now apply app_inv_head in T4').
    subst wait'.
    exists (st, left'), w4. split; [exact Hwait|]. cbv beta iota.
    assert (Hrun : stop_run la s sv cmd pid tr2
                     (Ev_Command_new (arg0 cmd) :: run ++ wait) status msg
                     (match st with
                      | Process_Stopped => status <? 0
                      | Process_Started => true
                      end)).
    { exists left, w3. split; [exact Hexec|]. rewrite Hp.
      exists st, left', w4. split; [exact Hwait|]. split; [|reflexivity].
      rewrite T4, T3. now rewrite <- app_assoc. }
    assert (S4 : stopped wait = []) by exact (stopped_wait _ F4).
    destruct st; apply wp_ret;
      [apply (Hfinish (status <? 0) w4 wait)|apply (Hfinish true w4 wait)];
      auto; congruence.
  - apply wp_bind, wp_ret.
    apply (Hfinish (status <? 0) w3 []); auto.
    + now rewrite app_nil_r.
    + rewrite app_nil_r. exists left, w3. split; [exact Hexec|]. rewrite Hp.
      split; [exact T3|reflexivity].
Qed.

(** *** The walk of [_doStart] *)

Lemma app_eq_middle {A} (a b l1 l2 : list A) (e : A) :
  a ++ b = l1 ++ e :: l2 ->
  (exists l2', a = l1 ++ e :: l2' /\ l2 = l2' ++ b) \/
  (exists l1', l1 = a ++ l1' /\ b = l1' ++ e :: l2).
Proof.
  revert l1. induction a as [|x a IH]; intros l1 H.
  - right. exists l1. auto.
  - destruct l1 as [|y l1]; cbn in H.
    + injection H as -> <-. left. exists a. auto.
    + injection H as -> H. destruct (IH l1 H) as [(l2' & -> & ->)|(l1' & -> & ->)].
      * left. exists l2'. auto.
      * right. exists l1'. auto.
Qed.

Lemma start_run_cfg l x sv sv' cmd tr run status msg failed :
  type sv' = type sv ->
  start_run l x sv cmd tr run status msg failed ->
  start_run l x sv' cmd tr run status msg failed.
Proof. unfold start_run. now intros ->. Qed.

Lemma start_step_cfg l x sv sv' tr step :
  config sv' = config sv ->
  start_step l x sv tr step -> start_step l x sv' tr step.
Proof.
  intros Hc. unfold start_step, start_run.
  assert (Ht : type sv' = type sv) by (unfold config in Hc; congruence).
  assert (Hs : start sv' = start sv) by (unfold config in Hc; congruence).
  now rewrite Ht, Hs.
Qed.

(** In the history [evs], added to [tr], the service [x] takes its start
    step, which ends with the call of [Util_monitorSet]; nothing else in
    [evs] is about [x].  The services are then some list [l] of the
    configuration [l0]. *)
Definition has_start_step (l0 : list Service) (x : Service_T) (sv : Service)
  (tr evs : list event) : Prop :=
  exists l l1 step l2,
    config <$> l = config <$> l0 /\
    evs = l1 ++ step ++ Ev_monitorSet x :: l2 /\
    start_step l x sv (tr ++ l1) step /\
    forall e, In e (l1 ++ l2) -> about x e = false.

Lemma has_start_step_more l0 x sv tr evs more :
  (forall e, In e more -> about x e = false) ->
  has_start_step l0 x sv tr evs -> has_start_step l0 x sv tr (evs ++ more).
Proof.
  intros Hmore (l & l1 & step & l2 & Hl & -> & Hstep & Hfree).
  exists l, l1, step, (l2 ++ more). split; [exact Hl|].
  split; [rewrite <- !app_assoc; reflexivity|]. split; [exact Hstep|].
  intros e He. rewrite app_assoc in He. apply in_app_or in He.
  destruct He; auto.
Qed.

Lemma has_start_step_later l0 x sv tr before evs :
  (forall e, In e before -> about x e = false) ->
  has_start_step l0 x sv (tr ++ before) evs ->
  has_start_step l0 x sv tr (before ++ evs).
Proof.
  intros Hbefore (l & l1 & step & l2 & Hl & -> & Hstep & Hfree).
  exists l, (before ++ l1), step, l2. split; [exact Hl|].
  split; [now rewrite <- app_assoc|]. split; [now rewrite app_assoc|].
  intros e He. rewrite <- app_assoc in He. apply in_app_or in He.
  destruct He; auto.
Qed.

Lemma not_about (P : Prop) x e :
  (about x e = true -> P) -> ~ P -> about x e = false.
Proof. destruct (about x e); intuition. Qed.

(** A part of a batch of starts: from [w] to [w'] the history grew by
    [evs], [before] being what the batch had added to the history before.
    The services that have become marked have become monitored; each of
    them has taken its start step, once; nothing was done about a service before
    every service it depends on had completed its start step; and nothing
    was done about any other service. *)
Definition walked (l0 : list Service) (before : list event) (w w' : world)
  (evs : list event) : Prop :=
  trace w' = trace w ++ evs /\
  changed visited monitored w w' /\
  (forall v, vis w' v = true ->
     vis w v = true \/ (In v (finished evs) /\ closed E l0 w' v)) /\
  once started w w' evs /\
  once finished w w' evs /\
  (forall x, vis w x = false -> vis w' x = true ->
     exists sv, l0 !! x = Some sv /\ has_start_step l0 x sv (trace w) evs) /\
  (forall l1 e l2 x p,
     evs = l1 ++ e :: l2 -> about x e = true -> below E l0 x p ->
     In p (finished (before ++ l1))) /\
  (forall e x, In e evs -> about x e = true ->
     vis w x = false /\ vis w' x = true).

Lemma walked_refl l0 before w : walked l0 before w w [].
Proof.
  split; [now rewrite app_nil_r|]. split; [apply changed_refl|].
  split; [auto|]. split; [now apply once_nil|]. split; [now apply once_nil|].
  split; [intros x H1 H2; congruence|].
  split; [intros [|? ?] ? ? ? ? H; discriminate|intros e x []].
Qed.

Lemma walked_vis l0 before w w' evs v :
  walked l0 before w w' evs -> vis w v = true -> vis w' v = true.
Proof.
  intros (_ & H & _).
  exact (changed_mark visited monitored w w' v monitored_marked H).
Qed.

Lemma walked_cfg l0 before w w' evs :
  walked l0 before w w' evs ->
  config <$> servicelist w' = config <$> servicelist w.
Proof.
  intros (_ & H & _). exact (changed_cfg visited monitored w w' monitored_config H).
Qed.

Lemma walked_trans l0 before w w1 w2 e1 e2 :
  walked l0 before w w1 e1 -> walked l0 (before ++ e1) w1 w2 e2 ->
  walked l0 before w w2 (e1 ++ e2).
Proof.
  intros Ha Hb.
  pose proof (fun v => walked_vis _ _ _ _ _ v Ha) as M1.
  pose proof (fun v => walked_vis _ _ _ _ _ v Hb) as M2.
  destruct Ha as (T1 & C1 & N1 & S1 & F1 & P1 & O1 & A1).
  destruct Hb as (T2 & C2 & N2 & S2 & F2 & P2 & O2 & A2).
  split; [rewrite T2, T1; now rewrite app_assoc|].
  split; [exact (changed_trans visited monitored _ _ _ monitored_marked C1 C2)|].
  split.
  { intros v Hv. rewrite finished_app, in_app_iff.
    destruct (N2 v Hv) as [Hv1|[Hf Hc]]; [|auto].
    destruct (N1 v Hv1) as [Hv0|[Hf Hc]]; [auto|].
    right. split; [auto|]. exact (closed_mono E l0 w1 w2 v M2 Hc). }
  split; [exact (once_app _ _ _ _ _ _ started_app S1 S2 M1 M2)|].
  split; [exact (once_app _ _ _ _ _ _ finished_app F1 F2 M1 M2)|].
  split.
  { intros x Hx0 Hx2. destruct (vis w1 x) eqn:Hx1.
    - destruct (P1 x Hx0 Hx1) as (sv & Hsv & Hstep). exists sv.
      split; [exact Hsv|]. apply has_start_step_more; [|exact Hstep].
      intros e He. apply (not_about (vis w1 x = false)); [|congruence].
      intros Hab. exact (proj1 (A2 e x He Hab)).
    - destruct (P2 x Hx1 Hx2) as (sv & Hsv & Hstep). exists sv.
      split; [exact Hsv|]. apply has_start_step_later; [|now rewrite <- T1].
      intros e He. apply (not_about (vis w1 x = true)); [|congruence].
      intros Hab. exact (proj2 (A1 e x He Hab)). }
  split.
  { intros l1 e l2 x p Heq Hab Hbel.
    destruct (app_eq_middle _ _ _ _ _ Heq) as [(l2' & -> & _)|(l1' & -> & ->)].
    - exact (O1 _ _ _ _ _ eq_refl Hab Hbel).
    - rewrite app_assoc. exact (O2 _ _ _ _ _ eq_refl Hab Hbel). }
  intros e x He Hab. apply in_app_or in He. destruct He as [He|He].
  - destruct (A1 e x He Hab). auto.
  - destruct (A2 e x He Hab) as [Hx1 Hx2]. split; [|exact Hx2].
    destruct (vis w x) eqn:Hx0; [|reflexivity].
    rewrite (M1 x Hx0) in Hx1. discriminate.
Qed.

Lemma below_rank rank l0 x p :
  acyclic E rank l0 -> below E l0 x p -> (rank p < rank x)%nat.
Proof.
  intros Hwf H. induction H as [x p (sv & d & Hx & Hd & Hp)
                               |x p q (sv & d & Hx & Hd & Hp) _ IH].
  - destruct (Hwf x sv d Hx Hd) as (p' & Hp' & Hr).
    assert (p' = p) by (unfold lookup_name in *; congruence). subst. exact Hr.
  - destruct (Hwf x sv d Hx Hd) as (p' & Hp' & Hr).
    assert (p' = p) by (unfold lookup_name in *; congruence). subst. lia.
Qed.

(** The walk of [_doStart] within a batch: every service that is marked
    has completed its start step in the batch and has everything below it
    marked, or is still being dealt with further up. *)
Lemma doStart_walk rank l0 :
  acyclic E rank l0 ->
  forall fuel s w sv before,
    config <$> servicelist w = config <$> l0 ->
    servicelist w !! s = Some sv ->
    (rank s < fuel)%nat ->
    (forall v, vis w v = true ->
               (In v (finished before) /\ closed E l0 w v) \/
               (rank s < rank v)%nat) ->
    wp (_doStart E fuel s)
       (fun _ w' =>
          exists evs,
            walked l0 before w w' evs /\
            vis w' s = true /\ closed E l0 w' s /\
            In s (finished (before ++ evs)) /\
            (forall v, vis w' v = true ->
                       vis w v = true \/ v = s \/ below E l0 s v)) w.
Proof.
  intros Hwf. induction fuel as [|fuel IH];
    intros s w sv before Hcfg Hs Hfuel Hpre; [lia|].
  cbn [_doStart]. apply wp_bind, (wp_get_service _ _ _ _ Hs).
  destruct (visited sv) eqn:Hv.
  { assert (Hvs : vis w s = true) by now rewrite (vis_lookup _ _ _ Hs).
    apply wp_ret. exists []. split; [apply walked_refl|].
    split; [exact Hvs|]. rewrite app_nil_r.
    destruct (Hpre s Hvs) as [[Hf Hc]|Hr]; [|lia]. auto. }
  assert (Hvs : vis w s = false) by now rewrite (vis_lookup _ _ _ Hs).
  apply wp_bind, wp_update. set (wa := mk_world _ _).
  assert (Hcfga : config <$> servicelist wa = config <$> l0).
  { unfold wa. cbn [servicelist]. now rewrite cfg_mark. }
  assert (Hsa : servicelist wa !! s = Some (set_visited true sv))
    by exact (lookup_alter_same _ _ _ _ Hs).
  assert (Hvsa : vis wa s = true) by exact (vis_mark_eq w s sv _ Hs).
  assert (Hwa : forall v, vis w v = true -> vis wa v = true).
  { intros v Hvv. destruct (Nat.eq_dec v s) as [->|Hne]; [exact Hvsa|].
    unfold wa. now rewrite vis_mark_ne. }
  assert (Haw : forall v, vis wa v = true -> v = s \/ vis w v = true).
  { intros v Hvv. destruct (Nat.eq_dec v s) as [->|Hne]; [now left|].
    right. unfold wa in Hvv. now rewrite vis_mark_ne in Hvv. }
  destruct (cfg_lookup _ _ _ _ (eq_sym Hcfg) Hs) as (sv0 & Hs0 & Hc0).
  assert (Hdeps : dependantlist sv = dependantlist sv0).
  { unfold config in Hc0. congruence. }
  rewrite Hdeps.
  apply wp_seq with
    (P := fun _ wb =>
            exists evs,
              walked l0 before wa wb evs /\
              (forall d p, In d (dependantlist sv0) ->
                           lookup_name E l0 d = Some p ->
                           vis wb p = true /\ closed E l0 wb p) /\
              (forall v, vis wb v = true ->
                         vis wa v = true \/ below E l0 s v)).
  { eapply wp_mono.
    - apply (wp_for_each (fun rest wi =>
        exists evs,
          walked l0 before wa wi evs /\
          (exists done, dependantlist sv0 = done ++ rest /\
             forall d p, In d done -> lookup_name E l0 d = Some p ->
                         vis wi p = true /\ closed E l0 wi p) /\
          (forall v, vis wi v = true -> vis wa v = true \/ below E l0 s v))).
      2:{ exists []. split; [apply walked_refl|]. split; [|auto].
          exists []. split; [reflexivity|]. intros d p []. }
      intros d rest wi (evs & Hi & (done & Hdone & Hd) & Hin).
      assert (Hdin : In d (dependantlist sv0)).
      { rewrite Hdone. apply in_or_app. right. now left. }
      destruct (Hwf s sv0 d Hs0 Hdin) as (p & Hp & Hrank).
      assert (Hcfgi : config <$> servicelist wi = config <$> l0).
      { rewrite (walked_cfg _ _ _ _ _ Hi). exact Hcfga. }
      pose proof (fun v => walked_vis _ _ _ _ _ v Hi) as Mi.
      apply wp_bind. unfold Util_getService. eexists _, _.
      split; [reflexivity|].
      rewrite (find_service_cfg _ _ _ _ Hcfgi). fold (lookup_name E l0 d).
      rewrite Hp.
      destruct (find_service_lookup _ _ _ _ Hp) as (svp0 & Hp0 & _).
      rewrite Nat.sub_0_r in Hp0.
      destruct (cfg_lookup _ _ _ _ Hcfgi Hp0) as (svp & Hpi & _).
      eapply wp_mono.
      { apply (IH p wi svp (before ++ evs) Hcfgi Hpi); [lia|].
        intros v Hvi. destruct Hi as (_ & _ & Ni & _).
        destruct (Ni v Hvi) as [Hva|[Hf Hc]].
        - destruct (Haw v Hva) as [->|Hvw]; [right; lia|].
          destruct (Hpre v Hvw) as [[Hf Hc]|Hr]; [|right; lia].
          left. split; [rewrite finished_app; apply in_or_app; auto|].
          apply (closed_mono E l0 w wi); [|exact Hc]. auto.
        - left. split; [rewrite finished_app; apply in_or_app; auto|exact Hc]. }
      intros [] wj (evp & Hj & Hvp & Hcp & _ & Hinj). cbv beta.
      pose proof (fun v => walked_vis _ _ _ _ _ v Hj) as Mj.
      exists (evs ++ evp). split; [exact (walked_trans _ _ _ _ _ _ _ Hi Hj)|].
      split.
      { exists (done ++ [d]). split; [rewrite Hdone; now rewrite <- app_assoc|].
        intros d' p' Hd' Hp'. apply in_app_or in Hd'.
        destruct Hd' as [Hd'|[<-|[]]].
        - destruct (Hd d' p' Hd' Hp') as [H1 H2]. split; [auto|].
          exact (closed_mono E l0 wi wj p' Mj H2).
        - assert (p' = p) by (unfold lookup_name in *; congruence).
          subst p'. auto. }
      assert (Hsp : depends_on E l0 s p) by (exists sv0, d; auto).
      intros v Hvj. destruct (Hinj v Hvj) as [Hvi|[->|Hb]]; [auto| |].
      + right. now apply below_one.
      + right. exact (below_more _ _ _ _ _ Hsp Hb).
    - intros [] wb (evs & Hb & (done & Hdone & Hd) & Hin). cbv beta.
      rewrite app_nil_r in Hdone. subst done. eauto. }
  intros [] wb (evs & Hb & Hd & Hin).
  pose proof (fun v => walked_vis _ _ _ _ _ v Hb) as Mb.
  destruct Hb as (Tb & Cb & Nb & Sb & Fb & Pb & Ob & Ab).
  change (trace wa) with (trace w) in Tb, Pb.
  assert (Hsb : servicelist wb !! s = Some (set_visited true sv)).
  { destruct Cb as [_ Cb].
    destruct (Cb s _ Hsa) as [H|[H _]]; [exact H|discriminate]. }
  assert (Hother : forall x svx, x <> s -> servicelist w !! x = Some svx ->
            servicelist wb !! x = Some svx \/
            (visited svx = false /\
             servicelist wb !! x = Some (monitored svx))).
  { intros x svx Hx Hlx. destruct Cb as [_ Cb]. apply Cb.
    unfold wa. cbn [servicelist].
    now rewrite list_lookup_alter_ne by congruence. }
  assert (Hlenb : length (servicelist wb) = length (servicelist w)).
  { destruct Cb as [-> _]. unfold wa. cbn [servicelist]. apply length_alter. }
  assert (Hclosed : closed E l0 wb s).
  { intros x Hx. destruct Hx as [p (sv' & d & Hs' & Hdin & Hp)
                                 |p x (sv' & d & Hs' & Hdin & Hp) Hx].
    - assert (sv' = sv0) by congruence. subst sv'.
      exact (proj1 (Hd d p Hdin Hp)).
    - assert (sv' = sv0) by congruence. subst sv'.
      exact (proj2 (Hd d p Hdin Hp) x Hx). }
  assert (Hdone : forall p, below E l0 s p -> In p (finished (before ++ evs))).
  { intros p Hp. pose proof (below_rank rank l0 s p Hwf Hp) as Hr.
    rewrite finished_app, in_app_iff.
    destruct (Nb p (Hclosed p Hp)) as [Hva|[Hf _]]; [|auto].
    destruct (Haw p Hva) as [->|Hvw]; [lia|].
    destruct (Hpre p Hvw) as [[Hf _]|Hr']; [auto|lia]. }
  eapply wp_seq; [exact (start_program_step s wb _ Hsb)|].
  intros [] wc (Hlc & step & Tc & Hstep & Fstep & Sstep). cbv beta.
  assert (Hsc : servicelist wc !! s = Some (set_visited true sv))
    by now rewrite Hlc.
  unfold Util_monitorSet.
  apply wp_bind, (wp_get_service _ _ _ _ Hsc), wp_bind, wp_emit.
  assert (Hfinal : forall l',
            length l' = length (servicelist wb) ->
            l' !! s = Some (monitored sv) ->
            (forall x, x <> s -> l' !! x = servicelist wb !! x) ->
            let w' := mk_world l' (trace wc ++ [Ev_monitorSet s]) in
            exists evs',
              walked l0 before w w' evs' /\
              vis w' s = true /\ closed E l0 w' s /\
              In s (finished (before ++ evs')) /\
              (forall v, vis w' v = true ->
                         vis w v = true \/ v = s \/ below E l0 s v)).
  { intros l' Hlen' Hs' Hx' w'.
    assert (Hvis' : forall v, vis w' v = vis wb v).
    { intros v. unfold vis, w'. cbn [servicelist].
      destruct (Nat.eq_dec v s) as [->|Hne].
      - rewrite Hs', Hsb. apply monitored_marked.
      - now rewrite Hx'. }
    assert (Hcl' : forall v, closed E l0 wb v -> closed E l0 w' v).
    { intros v Hc x Hx. rewrite Hvis'. auto. }
    assert (Hvs' : vis w' s = true) by (rewrite Hvis'; auto).
    set (last := step ++ [Ev_monitorSet s]).
    assert (Flast : finished last = [s]).
    { unfold last. rewrite finished_app, (step_event_finished s step Fstep).
      reflexivity. }
    assert (Slast : started last = [] \/ started last = [s]).
    { unfold last. rewrite started_app. cbn [started omap].
      rewrite app_nil_r. exact Sstep. }
    assert (Hlast : forall e x, In e last -> about x e = true -> x = s).
    { intros e x He Hab. unfold last in He. apply in_app_or in He.
      destruct He as [He|[<-|[]]].
      - exact (step_event_about s x e
                 (proj1 (forallb_forall _ _) Fstep e He) Hab).
      - unfold about in Hab. cbn in Hab. apply Nat.eqb_eq in Hab. auto. }
    exists (evs ++ last). split; [|split; [exact Hvs'|split; [auto|split]]].
    - split.
      { unfold w', last. cbn [trace]. rewrite Tc, Tb.
        now rewrite <- !app_assoc. }
      split.
      { split; [unfold w'; cbn [servicelist]; congruence|].
        intros x svx Hlx. unfold w'. cbn [servicelist].
        destruct (Nat.eq_dec x s) as [->|Hne].
        + right. assert (svx = sv) by congruence. subst svx. auto.
        + rewrite Hx' by exact Hne. exact (Hother x svx Hne Hlx). }
      split.
      { intros v Hv'. rewrite Hvis' in Hv'. rewrite finished_app, in_app_iff.
        destruct (Nb v Hv') as [Hva|[Hf Hc]]; [|auto].
        destruct (Haw v Hva) as [->|Hvw]; [|auto].
        right. rewrite Flast. split; [right; now left|auto]. }
      split.
      { apply (once_close started w wa wb w' evs last s started_app Sb Slast);
          auto. intros v Hvb. now rewrite Hvis'. }
      split.
      { apply (once_close finished w wa wb w' evs last s finished_app Fb);
          auto. intros v Hvb. now rewrite Hvis'. }
      split.
      { intros x Hx0 Hx'0. rewrite Hvis' in Hx'0.
        destruct (Nat.eq_dec x s) as [->|Hne].
        - exists sv0. split; [exact Hs0|].
          exists (servicelist wb), evs, step, [].
          assert (Hcfgb : config <$> servicelist wb = config <$> l0).
          { rewrite (changed_cfg visited monitored wa wb monitored_config Cb).
            exact Hcfga. }
          split; [exact Hcfgb|]. split; [reflexivity|].
          rewrite <- Tb. split.
          + apply (start_step_cfg _ _ (set_visited true sv)); [|exact Hstep].
            rewrite Hc0. reflexivity.
          + intros e He. rewrite app_nil_r in He.
            apply (not_about (vis wa s = false)); [|congruence].
            intros Hab. exact (proj1 (Ab e s He Hab)).
        - assert (Hxa : vis wa x = false).
          { unfold wa. now rewrite vis_mark_ne. }
          destruct (Pb x Hxa Hx'0) as (svx & Hsvx & Hst). exists svx.
          split; [exact Hsvx|]. apply has_start_step_more; [|exact Hst].
          intros e He. apply (not_about (x = s)); [|exact Hne].
          intros Hab. exact (Hlast e x He Hab). }
      split.
      { intros l1 e l2 x p Heq Hab Hbel.
        destruct (app_eq_middle _ _ _ _ _ Heq)
          as [(l2' & -> & _)|(l1' & -> & Hl)].
        - exact (Ob _ _ _ _ _ eq_refl Hab Hbel).
        - assert (x = s).
          { apply (Hlast e x); [|exact Hab]. rewrite Hl.
            apply in_or_app. right. now left. }
          subst x. rewrite app_assoc, finished_app. apply in_or_app. left.
          exact (Hdone p Hbel). }
      intros e x He Hab. apply in_app_or in He. destruct He as [He|He].
      + destruct (Ab e x He Hab) as [Hxa Hxb]. split; [|now rewrite Hvis'].
        destruct (vis w x) eqn:Hx0; [|reflexivity].
        rewrite (Hwa x Hx0) in Hxa. discriminate.
      + rewrite (Hlast e x He Hab). auto.
    - rewrite app_assoc, finished_app, Flast. apply in_or_app. right.
      now left.
    - intros v Hv'. rewrite Hvis' in Hv'.
      destruct (Hin v Hv') as [Hva|Hbl]; [|auto].
      destruct (Haw v Hva); auto. }
  change (monitor (set_visited true sv)) with (monitor sv).
  assert (Hlc' : forall x, servicelist wc !! x = servicelist wb !! x)
    by (intros x; now rewrite Hlc).
  destruct (monitor sv) eqn:Hm.
  - apply wp_update. cbn [servicelist trace]. apply Hfinal.
    + rewrite length_alter. now rewrite Hlc.
    + rewrite (lookup_alter_same _ _ _ _ Hsc). unfold monitored.
      now rewrite Hm.
    + intros x Hx. rewrite list_lookup_alter_ne by congruence. apply Hlc'.
  - apply wp_ret. cbn [servicelist trace]. apply Hfinal;
      [now rewrite Hlc| |intros; apply Hlc'].
    rewrite Hsc. unfold monitored. now rewrite Hm.
  - apply wp_ret. cbn [servicelist trace]. apply Hfinal;
      [now rewrite Hlc| |intros; apply Hlc'].
    rewrite Hsc. unfold monitored. now rewrite Hm.
  - apply wp_ret. cbn [servicelist trace]. apply Hfinal;
      [now rewrite Hlc| |intros; apply Hlc'].
    rewrite Hsc. unfold monitored. now rewrite Hm.
Qed.

(** The marks [visited] in the middle of a batch of starts, [before] being
    what the batch has added to the history: every marked service has
    completed its start step in the batch, and has every service it
    depends on marked.  At the start of a batch no service is marked. *)
Definition batch_marks (l0 : list Service) (before : list event) (w : world)
  : Prop :=
  forall v, vis w v = true -> In v (finished before) /\ closed E l0 w v.


(** C5.  On an acyclic dependency graph, at any point of a batch of
    starts, the call [_doStart(s)] returns and is post-order.  Every
    service [s] depends on, directly or through others, and [s] itself is
    marked when it returns; each of them that was not marked before has
    become monitored and has taken its start step in this call, once, and
    nothing else in the call is about it; nothing is done about a service
    before every service it depends on has completed its start step in the
    batch; nothing is done about a service that was marked already, nor
    about any other service; a further call for a marked service returns
    at once; and the marks are again those of a batch of starts. *)
Theorem doStart_post_order (rank : Service_T -> nat) (fuel : nat)
  (s : Service_T) (w : world) (sv : Service) (tr0 before : list event) :
  acyclic E rank (servicelist w) ->
  trace w = tr0 ++ before ->
  batch_marks (servicelist w) before w ->
  servicelist w !! s = Some sv ->
  (rank s < fuel)%nat ->
  exists w' evs,
    _doStart E fuel s w = Ret tt w' /\
    trace w' = tr0 ++ before ++ evs /\
    (forall x svx,
       x = s \/ below E (servicelist w) s x ->
       servicelist w !! x = Some svx ->
       if visited svx then servicelist w' !! x = Some svx
       else servicelist w' !! x = Some (monitored svx) /\
            has_start_step (servicelist w) x svx (trace w) evs) /\
    (forall x,
       ~ (x = s \/ below E (servicelist w) s x) ->
       servicelist w' !! x = servicelist w !! x) /\
    (forall l1 e l2 x p,
       evs = l1 ++ e :: l2 -> about x e = true ->
       below E (servicelist w) x p -> In p (finished (before ++ l1))) /\
    (forall e x,
       In e evs -> about x e = true ->
       (x = s \/ below E (servicelist w) s x) /\ vis w x = false) /\
    NoDup (started evs) /\
    NoDup (finished evs) /\
    (forall fuel' v,
       vis w' v = true -> _doStart E (S fuel') v w' = Ret tt w') /\
    batch_marks (servicelist w) (before ++ evs) w'.
Proof.
  intros Hwf Htr Hmarks Hs Hfuel.
  destruct (doStart_walk rank (servicelist w) Hwf fuel s w sv before eq_refl
              Hs Hfuel)
    as ([] & w' & Hrun & evs & Hw & Hvs & Hcl & _ & Hreach).
  { intros v Hv. left. exact (Hmarks v Hv). }
  pose proof (fun v => walked_vis _ _ _ _ _ v Hw) as Mono.
  destruct Hw as (T & C & Nw & [Ns _] & [Nf _] & P & O & A).
  exists w', evs. split; [exact Hrun|].
  split; [rewrite T, Htr; now rewrite <- app_assoc|].
  assert (Hin : forall x, x = s \/ below E (servicelist w) s x ->
                          vis w' x = true).
  { intros x [->|Hx]; [exact Hvs|exact (Hcl x Hx)]. }
  split.
  { intros x svx Hx Hlx. destruct (visited svx) eqn:Hv.
    - destruct C as [_ C]. destruct (C x svx Hlx) as [H|[H _]];
        [exact H|congruence].
    - assert (Hx0 : vis w x = false) by now rewrite (vis_lookup _ _ _ Hlx).
      destruct (changed_new visited monitored w w' x C Hx0 (Hin x Hx))
        as (sv' & H1 & H2).
      assert (sv' = svx) by congruence. subst sv'.
      split; [exact H2|].
      destruct (P x Hx0 (Hin x Hx)) as (sv' & H1' & Hstep).
      assert (sv' = svx) by congruence. subst sv'. exact Hstep. }
  split.
  { intros x Hx. apply (changed_same visited monitored w w' x monitored_marked C).
    change (vis w' x = vis w x).
    destruct (vis w x) eqn:Hx0; [exact (Mono x Hx0)|].
    destruct (vis w' x) eqn:Hx1; [|reflexivity].
    destruct (Hreach x Hx1) as [H|H]; [congruence|contradiction]. }
  split; [exact O|]. split.
  { intros e x He Hab. destruct (A e x He Hab) as [Hx0 Hx1].
    split; [|exact Hx0]. destruct (Hreach x Hx1) as [H|H]; [congruence|exact H]. }
  split; [exact Ns|]. split; [exact Nf|]. split.
  { intros fuel' v Hv. now apply doStart_marked. }
  intros v Hv. rewrite finished_app, in_app_iff.
  destruct (Nw v Hv) as [Hv0|[Hf Hc]]; [|auto].
  destruct (Hmarks v Hv0) as [Hf Hc]. split; [auto|].
  exact (closed_mono E _ w w' v Mono Hc).
Qed.

(** *** The dependants, before and after *)

Lemma wp_both {A} (m : M A) (P Q : A -> world -> Prop) w :
  wp m P w -> wp m Q w -> wp m (fun a w' => P a w' /\ Q a w') w.
Proof.
  intros (a & w' & Hm & HP) (a' & w'' & Hm' & HQ). rewrite Hm in Hm'.
  injection Hm' as <- <-. exists a, w'. auto.
Qed.

(** A part of a batch of stops: configuration and [visited] marks are
    kept, services that were not marked [depend_visited] have taken their
    stop step, and nothing was done about any other service. *)
Definition stop_phase (flag : bool) (w w' : world) : Prop :=
  stays is_stop_event w w' /\
  touched (stopped_service flag) w w' /\
  forall evs, trace w' = trace w ++ evs ->
    forall e x, In e evs -> about x e = true ->
      dvis w x = false /\ dvis w' x = true.

Lemma stop_phase_refl flag w : stop_phase flag w w.
Proof.
  split; [apply stays_refl|]. split; [apply touched_refl|].
  intros evs H. rewrite <- (app_nil_r (trace w)) in H at 1.
  apply app_inv_head in H. subst evs. intros e x [].
Qed.



Lemma doStop_phase c flag w cv :
  servicelist w !! c = Some cv ->
  wp (_doStop E c flag)
     (fun _ w' =>
        stop_phase flag w w' /\ dvis w' c = true /\
        forall v, dvis w' v = true -> dvis w v = true \/ v = c) w.
Proof.
  intros Hc. destruct (depend_visited cv) eqn:Hd.
  { exists true, w. split; [exact (doStop_marked E c flag w cv Hc Hd)|].
    split; [apply stop_phase_refl|].
    split; [now rewrite (dvis_lookup _ _ _ Hc)|auto]. }
  eapply wp_mono.
  { exact (wp_both _ _ _ _ (doStop_returns E c flag w cv Hc)
             (doStop_step c flag w cv Hc Hd)). }
  intros rv w' [[Hst _] (Hl & step & T & _ & Fstep & _)]. cbv beta.
  assert (Hc' : servicelist w' !! c = Some (stopped_service flag cv)).
  { rewrite Hl. exact (lookup_alter_same _ _ _ _ Hc). }
  assert (Hdc : dvis w c = false) by now rewrite (dvis_lookup _ _ _ Hc).
  assert (Hdc' : dvis w' c = true).
  { rewrite (dvis_lookup _ _ _ Hc'). apply stopped_service_marked. }
  split; [|split; [exact Hdc'|]].
  - split; [exact Hst|]. split.
    + split; [rewrite Hl; apply length_alter|]. intros x svx Hx.
      rewrite Hl. destruct (Nat.eq_dec x c) as [->|Hne].
      * right. assert (svx = cv) by congruence. subst svx.
        split; [exact Hd|]. exact (lookup_alter_same _ _ _ _ Hc).
      * left. now rewrite list_lookup_alter_ne by congruence.
    + intros evs T' e x He Hab. rewrite T in T'. apply app_inv_head in T'.
      subst evs. assert (x = c); [|subst x; auto].
      apply in_app_or in He. destruct He as [He|[<-|[]]].
      * exact (step_event_about c x e
                 (proj1 (forallb_forall _ _) Fstep e He) Hab).
      * unfold about in Hab. destruct flag; cbn in Hab;
          apply Nat.eqb_eq in Hab; auto.
  - intros v. destruct (Nat.eq_dec v c) as [->|Hne]; [auto|].
    unfold dvis, marked. rewrite Hl, list_lookup_alter_ne by congruence. auto.
Qed.





Lemma stop_run_cfg l x sv sv' cmd pid tr run status msg failed :
  type sv' = type sv ->
  stop_run l x sv cmd pid tr run status msg failed ->
  stop_run l x sv' cmd pid tr run status msg failed.
Proof. unfold stop_run. now intros ->. Qed.

Lemma halt_step_cfg l x sv sv' tr step rv :
  config sv' = config sv ->
  halt_step l x sv tr step rv -> halt_step l x sv' tr step rv.
Proof.
  intros Hc. unfold halt_step, stop_run.
  assert (Ht : type sv' = type sv) by (unfold config in Hc; congruence).
  assert (Hs : stop sv' = stop sv) by (unfold config in Hc; congruence).
  now rewrite Ht, Hs.
Qed.

(** *** Restart without a restart program *)











(** *** The marks only grow *)

(** No mark [visited] or [depend_visited] that was set in [w] is cleared
    in [w']. *)
Definition grows (w w' : world) : Prop :=
  forall v, (vis w v = true -> vis w' v = true) /\
            (dvis w v = true -> dvis w' v = true).

Lemma grows_refl w : grows w w.
Proof. intros v. auto. Qed.

Lemma grows_trans w1 w2 w3 : grows w1 w2 -> grows w2 w3 -> grows w1 w3.
Proof.
  intros H1 H2 v. destruct (H1 v), (H2 v). auto.
Qed.

Lemma grows_list w w' : servicelist w' = servicelist w -> grows w w'.
Proof. intros H v. unfold vis, dvis, marked. rewrite H. auto. Qed.

Lemma grows_alter (f : Service -> Service) w s t :
  (forall sv, visited sv = true -> visited (f sv) = true) ->
  (forall sv, depend_visited sv = true -> depend_visited (f sv) = true) ->
  grows w (mk_world (alter f s (servicelist w)) t).
Proof.
  intros Hv Hd v. unfold vis, dvis, marked. cbn [servicelist].
  destruct (decide (v = s)) as [->|Hne].
  - rewrite list_lookup_alter.
    destruct (servicelist w !! s) as [sv|]; cbn; [|split; discriminate].
    destruct (decide (s = s)); [auto|congruence].
  - rewrite list_lookup_alter_ne by congruence. auto.
Qed.

Lemma grows_changed mark (f : Service -> Service) w w' :
  (forall sv, visited sv = true -> visited (f sv) = true) ->
  (forall sv, depend_visited sv = true -> depend_visited (f sv) = true) ->
  changed mark f w w' -> grows w w'.
Proof.
  intros Hv Hd [_ H] v. unfold vis, dvis, marked.
  destruct (servicelist w !! v) as [sv|] eqn:Hs; [|split; discriminate].
  destruct (H v sv Hs) as [->|[_ ->]]; auto.
Qed.

(** A call that begins by looking up a service returns only where that
    service exists. *)
Lemma wlp_service {A} s (k : Service -> M A) (Q : A -> world -> Prop) w :
  (forall sv, servicelist w !! s = Some sv ->
              wlp (bind (get_service s) k) Q w) ->
  wlp (bind (get_service s) k) Q w.
Proof.
  intros H a w' Hr. destruct (servicelist w !! s) as [sv|] eqn:Hs.
  - exact (H sv eq_refl a w' Hr).
  - unfold bind, get_service in Hr. rewrite Hs in Hr. discriminate.
Qed.

Lemma monitorSet_grows s w :
  wlp (Util_monitorSet s) (fun _ w' => grows w w') w.
Proof.
  unfold Util_monitorSet. apply wlp_bind, wlp_get_service. intros sv Hs.
  apply wlp_bind, wlp_emit. set (w1 := mk_world _ _).
  destruct (monitor sv);
    first [apply wlp_update; apply (grows_trans _ w1);
           [now apply grows_list|apply grows_alter; auto]
          |apply wlp_ret; now apply grows_list].
Qed.

Lemma start_program_grows s w :
  wlp (start_program E s) (fun _ w' => grows w w') w.
Proof.
  unfold start_program. apply wlp_service. intros sv Hs.
  eapply wlp_mono;
    [exact (wp_to_wlp _ _ _ (start_program_events E s w sv Hs))|].
  intros [] w' [H _]. now apply grows_list.
Qed.

Lemma doStart_grows fuel s w :
  wlp (_doStart E fuel s) (fun _ w' => grows w w' /\ vis w' s = true) w.
Proof.
  revert s w. induction fuel as [|fuel IH]; intros s w; [discriminate|].
  cbn [_doStart]. apply wlp_bind, wlp_get_service. intros sv Hs.
  destruct (visited sv) eqn:Hv.
  { apply wlp_ret. split; [apply grows_refl|].
    now rewrite (vis_lookup _ _ _ Hs). }
  apply wlp_bind, wlp_update. set (wa := mk_world _ _).
  assert (Ha : grows w wa) by (apply grows_alter; auto).
  assert (Hva : vis wa s = true) by exact (vis_mark_eq w s sv _ Hs).
  apply wlp_bind.
  eapply wlp_mono.
  { apply (wlp_for_each (fun _ w' => grows wa w')); [|apply grows_refl].
    intros d rest w1 H1. apply wlp_bind. unfold Util_getService.
    intros a w' [= <- <-]. destruct (find_service _ _ _) as [parent|];
      [|discriminate].
    eapply wlp_mono; [apply IH|]. intros [] w2 [H2 _].
    exact (grows_trans _ _ _ H1 H2). }
  intros [] w1 H1. cbv beta. apply wlp_bind.
  eapply wlp_mono; [apply start_program_grows|]. intros [] w2 H2. cbv beta.
  eapply wlp_mono; [apply monitorSet_grows|]. intros [] w3 H3. cbv beta.
  assert (Hg : grows wa w3) by eauto using grows_trans.
  split; [exact (grows_trans _ _ _ Ha Hg)|]. exact (proj1 (Hg s) Hva).
Qed.

Lemma doMonitor_grows fuel s flag w :
  wlp (_doMonitor E fuel s flag)
      (fun _ w' => grows w w' /\ vis w' s = true) w.
Proof.
  revert s w. induction fuel as [|fuel IH]; intros s w; [discriminate|].
  cbn [_doMonitor]. apply wlp_bind, wlp_get_service. intros sv Hs.
  destruct (visited sv) eqn:Hv.
  { apply wlp_ret. split; [apply grows_refl|].
    now rewrite (vis_lookup _ _ _ Hs). }
  apply wlp_bind, wlp_update. set (wa := mk_world _ _).
  assert (Ha : grows w wa) by (apply grows_alter; auto).
  assert (Hva : vis wa s = true) by exact (vis_mark_eq w s sv _ Hs).
  apply wlp_bind.
  eapply wlp_mono.
  { apply (wlp_for_each (fun _ w' => grows wa w')); [|apply grows_refl].
    intros d rest w1 H1. apply wlp_bind. unfold Util_getService.
    intros a w' [= <- <-]. destruct (find_service _ _ _) as [parent|];
      [|discriminate].
    eapply wlp_mono; [apply IH|]. intros [] w2 [H2 _].
    exact (grows_trans _ _ _ H1 H2). }
  intros [] w1 H1. cbv beta.
  eapply wlp_mono; [apply monitorSet_grows|]. intros [] w3 H3. cbv beta.
  assert (Hg : grows wa w3) by eauto using grows_trans.
  split; [exact (grows_trans _ _ _ Ha Hg)|]. exact (proj1 (Hg s) Hva).
Qed.

Lemma stopped_service_visited flag sv :
  visited (stopped_service flag sv) = visited sv.
Proof. now destruct flag. Qed.

Lemma doStop_grows s flag w :
  wlp (_doStop E s flag) (fun _ w' => grows w w' /\ dvis w' s = true) w.
Proof.
  unfold _doStop. apply wlp_service. intros sv Hs.
  eapply wlp_mono; [exact (wp_to_wlp _ _ _ (doStop_phase s flag w sv Hs))|].
  intros rv w' ((_ & Ht & _) & Hd & _). split; [|exact Hd].
  apply (grows_changed depend_visited (stopped_service flag)); [| |exact Ht].
  - intros sv0. now rewrite stopped_service_visited.
  - intros sv0 _. apply stopped_service_marked.
Qed.

Lemma doUnmonitor_grows s flag w :
  wlp (_doUnmonitor s flag) (fun _ w' => grows w w' /\ dvis w' s = true) w.
Proof.
  unfold _doUnmonitor. apply wlp_service. intros sv Hs.
  eapply wlp_mono;
    [exact (wp_to_wlp _ _ _ (doUnmonitor_effect s flag w sv Hs))|].
  intros [] w' (Ht & _ & Hd & _). split; [|exact Hd].
  apply (grows_changed depend_visited unmonitored); [| |exact Ht]; auto.
Qed.

Lemma doRestart_grows s w :
  wlp (_doRestart E s) (fun _ w' => grows w w') w.
Proof.
  unfold _doRestart. apply wlp_bind, wlp_get_service. intros sv Hs.
  apply wlp_bind.
  apply wlp_mono with (Q := fun _ w1 => servicelist w1 = servicelist w).
  2:{ intros [] w1 H1. eapply wlp_mono; [apply monitorSet_grows|].
      intros [] w2 H2. exact (grows_trans _ _ _ (grows_list _ _ H1) H2). }
  destruct (restart sv) as [cmd|] eqn:Hr; [|now apply wlp_emit].
  apply wlp_bind, wlp_emit. set (w1 := mk_world _ _).
  apply wlp_bind. unfold Util_resetInfo.
  apply wlp_bind, wlp_get_service. intros sv1 Hs1. apply wlp_emit.
  set (w2 := mk_world _ _). apply wlp_bind.
  eapply wlp_mono.
  { apply wp_to_wlp.
    apply (commandExecute_adds E (fun _ => true) s Ref_restart (STRLEN E)
             (timeout cmd * USEC_PER_SEC) w2 sv cmd Hs); auto. }
  intros [[status msg] left] w3 [H3 _]. cbv beta iota.
  apply wlp_bind.
  apply wlp_mono with (Q := fun _ w4 => servicelist w4 = servicelist w).
  { destruct (is_process (type sv)); [|apply wlp_ret; now rewrite H3].
    apply wlp_bind.
    eapply wlp_mono; [exact (wp_to_wlp _ _ _ (waitStart_returns E s left w3))|].
    intros [st left'] w4 [H4 _]. cbv beta iota.
    destruct st; apply wlp_ret; now rewrite H4, H3. }
  intros failed w4 H4. unfold Event_post.
  destruct failed; now apply wlp_emit.
Qed.

Lemma doDepend_grows fuel s A flag w :
  wlp (_doDepend E fuel s A flag) (fun _ w' => grows w w') w.
Proof.
  revert s w. induction fuel as [|fuel IH]; intros s w; [discriminate|].
  cbn [_doDepend]. apply wlp_bind, wlp_get_service. intros sv Hs.
  apply (wlp_each_service (fun w' => grows w w')); [|apply grows_refl].
  intros child w1 H1.
  apply wlp_bind, wlp_get_service. intros cv Hcv.
  apply wlp_bind, wlp_get_service. intros sv1 Hsv1.
  destruct (existsb _ _); [|now apply wlp_ret].
  apply wlp_bind.
  apply wlp_mono with (Q := fun _ w2 => grows w w2).
  { destruct A; try (now apply wlp_ret).
    - eapply wlp_mono; [apply doStart_grows|]. intros [] w2 [H2 _].
      exact (grows_trans _ _ _ H1 H2).
    - eapply wlp_mono; [apply doMonitor_grows|]. intros [] w2 [H2 _].
      exact (grows_trans _ _ _ H1 H2). }
  intros [] w2 H2. apply wlp_bind.
  eapply wlp_mono; [apply IH|]. intros [] w3 H3. cbv beta.
  assert (H13 : grows w w3) by exact (grows_trans _ _ _ H2 H3).
  destruct A; try (now apply wlp_ret).
  - apply wlp_bind. eapply wlp_mono; [apply doStop_grows|].
    intros rv w4 [H4 _]. apply wlp_ret. exact (grows_trans _ _ _ H13 H4).
  - eapply wlp_mono; [apply doUnmonitor_grows|].
    intros [] w4 [H4 _]. exact (grows_trans _ _ _ H13 H4).
Qed.

(** The mark that an action leaves on the service it is asked for. *)
Definition own_mark (A : Action_Type) (sv : Service) (w' : world)
  (s : Service_T) : Prop :=
  match A with
  | Action_Start | Action_Monitor => vis w' s = true
  | Action_Stop | Action_Unmonitor => dvis w' s = true
  | Action_Restart => restart sv = None -> dvis w' s = true
  | _ => True
  end.

Lemma wlp_and {A} (m : M A) (P Q : A -> world -> Prop) w :
  wlp m P w -> wlp m Q w -> wlp m (fun a w' => P a w' /\ Q a w') w.
Proof. intros HP HQ a w' H. split; [exact (HP a w' H)|exact (HQ a w' H)]. Qed.

Lemma control_service_grows fuel S A w s sv :
  find_service (fun n => IS E n S) (servicelist w) 0%nat = Some s ->
  servicelist w !! s = Some sv ->
  wlp (control_service E fuel S A)
      (fun _ w' => grows w w' /\ own_mark A sv w' s) w.
Proof.
  intros Hfind Hs. unfold control_service. apply wlp_bind.
  unfold Util_getService. intros a w0 [= <- <-]. rewrite Hfind.
  assert (Hlog : forall line,
            wlp (emit (Ev_log line) ;;; ret false)
                (fun _ w' => grows w w' /\ True) w).
  { intros line. apply wlp_bind, wlp_emit, wlp_ret.
    split; [now apply grows_list|exact I]. }
  destruct A; cbn [own_mark]; try apply Hlog.
  - (* Restart *)
    apply wlp_bind, wlp_emit. set (w0 := mk_world _ _).
    assert (H0 : grows w w0) by now apply grows_list.
    apply wlp_bind.
    eapply wlp_mono;
      [exact (wlp_and _ _ _ _ (doDepend_grows fuel s Action_Stop false w0)
                (doDepend_stop_stays E fuel s false w0))|].
    intros [] w1 [H1 St1]. cbv beta.
    destruct (stays_lookup _ _ _ _ _ St1 Hs) as (sv1 & Hs1 & Hc1 & _).
    assert (Hr : restart sv1 = restart sv)
      by (unfold config in Hc1; congruence).
    apply wlp_bind, wlp_get_service. intros sv1' Hs1'.
    assert (sv1' = sv1) by congruence. subst sv1'. rewrite Hr.
    destruct (restart sv) as [cmd|].
    + apply wlp_bind.
      eapply wlp_mono; [apply doRestart_grows|]. intros [] w2 H2.
      apply wlp_bind.
      eapply wlp_mono; [apply doDepend_grows|]. intros [] w3 H3.
      apply wlp_ret. split; [eauto using grows_trans|discriminate].
    + apply wlp_bind.
      eapply wlp_mono; [apply doStop_grows|]. intros rv w2 [H2 Hd].
      cbv beta. destruct rv.
      * apply wlp_bind.
        eapply wlp_mono; [apply doStart_grows|]. intros [] w3 [H3 _].
        apply wlp_bind.
        eapply wlp_mono; [apply doDepend_grows|]. intros [] w4 H4.
        apply wlp_ret. split; [eauto 6 using grows_trans|]. intros _.
        exact (proj2 (H4 s) (proj2 (H3 s) Hd)).
      * apply wlp_bind.
        eapply wlp_mono; [apply monitorSet_grows|]. intros [] w3 H3.
        apply wlp_ret. split; [eauto 6 using grows_trans|]. intros _.
        exact (proj2 (H3 s) Hd).
  - (* Stop *)
    apply wlp_bind.
    eapply wlp_mono; [apply doDepend_grows|]. intros [] w1 H1. apply wlp_bind.
    eapply wlp_mono; [apply doStop_grows|]. intros rv w2 [H2 Hd].
    apply wlp_ret. split; [eauto using grows_trans|exact Hd].
  - (* Unmonitor *)
    apply wlp_bind.
    eapply wlp_mono; [apply doDepend_grows|]. intros [] w1 H1. apply wlp_bind.
    eapply wlp_mono; [apply doUnmonitor_grows|]. intros [] w2 [H2 Hd].
    apply wlp_ret. split; [eauto using grows_trans|exact Hd].
  - (* Start *)
    apply wlp_bind.
    eapply wlp_mono; [apply doDepend_grows|]. intros [] w1 H1. apply wlp_bind.
    eapply wlp_mono; [apply doStart_grows|]. intros [] w2 [H2 Hv]. cbv beta.
    apply wlp_bind.
    eapply wlp_mono; [apply doDepend_grows|]. intros [] w3 H3. apply wlp_ret.
    split; [eauto using grows_trans|]. exact (proj1 (H3 s) Hv).
  - (* Monitor *)
    apply wlp_bind.
    eapply wlp_mono; [apply doMonitor_grows|]. intros [] w1 [H1 Hv].
    apply wlp_ret. auto.
Qed.

(** C3 (as amended).  [control_service] does not reset the marks itself.
    An action Start, Stop, Restart, Monitor or Unmonitor on a service that
    exists returns true, and when it returns no mark has been cleared and
    the service itself is marked: [visited] after Start and Monitor,
    [depend_visited] after Stop, Unmonitor and a Restart by stop and start.
    The sweep [reset_depend], run after the batch, then makes every
    [visited] and [depend_visited] mark false and changes nothing else. *)
Theorem reset_depend_after_batch (rank : Service_T -> nat) (N : nat)
  (fuel : nat) (S : string) (A : Action_Type) (s : Service_T) (sv : Service)
  (w : world) :
  acyclic E rank (servicelist w) ->
  dependants_ranked E rank N (servicelist w) ->
  (2 * N < fuel)%nat ->
  find_service (fun n => IS E n S) (servicelist w) 0%nat = Some s ->
  servicelist w !! s = Some sv ->
  is_control_action A = true ->
  exists w' w'',
    control_service E fuel S A w = Ret true w' /\
    (forall v, vis w v = true -> vis w' v = true) /\
    (forall v, dvis w v = true -> dvis w' v = true) /\
    own_mark A sv w' s /\
    reset_depend w' = Ret tt w'' /\
    marks_clear w'' /\
    trace w'' = trace w' /\
    map (fun sv => (name sv, type sv, start sv, stop sv, restart sv,
                    dependantlist sv, monitor sv)) (servicelist w'') =
    map (fun sv => (name sv, type sv, start sv, stop sv, restart sv,
                    dependantlist sv, monitor sv)) (servicelist w').
Proof.
  intros Hwf Hranked Hfuel Hfind Hs HA.
  assert (HA' : match A with
                | Action_Start | Action_Stop | Action_Restart | Action_Monitor
                | Action_Unmonitor => True
                | _ => False
                end) by (destruct A; try discriminate; exact I).
  destruct (wp_wlp _ _ _ _
              (control_service_keeps E rank N fuel S A w s Hwf Hranked Hfuel
                 Hfind HA')
              (control_service_grows fuel S A w s sv Hfind Hs))
    as (r & w' & Hrun & [-> _] & Hg & Hown).
  exists w'. eexists. split; [exact Hrun|].
  split; [intros v; exact (proj1 (Hg v))|].
  split; [intros v; exact (proj2 (Hg v))|].
  split; [exact Hown|].
  split; [reflexivity|]. cbn [servicelist trace].
  split; [|split; [reflexivity|]].
  - unfold marks_clear. cbn [servicelist]. apply Forall_forall.
    intros sv0 Hin. apply list_elem_of_In, in_map_iff in Hin.
    destruct Hin as (sv1 & <- & _). auto.
  - rewrite map_map. apply map_ext. intros sv0. reflexivity.
Qed.

End Steps.

(** *** The steps on the examples *)

Lemma doStart_post_order_witness :
  exists w' evs,
    _doStart quiet 3 2%nat chain = Ret tt w' /\
    trace w' = [] ++ [] ++ evs /\
    (forall x svx, x = 2%nat \/ below quiet (servicelist chain) 2%nat x ->
       servicelist chain !! x = Some svx ->
       if visited svx then servicelist w' !! x = Some svx
       else servicelist w' !! x = Some (monitored svx) /\
            has_start_step quiet (servicelist chain) x svx (trace chain) evs) /\
    (forall x, ~ (x = 2%nat \/ below quiet (servicelist chain) 2%nat x) ->
       servicelist w' !! x = servicelist chain !! x) /\
    (forall l1 e l2 x p, evs = l1 ++ e :: l2 -> about x e = true ->
       below quiet (servicelist chain) x p -> In p (finished ([] ++ l1))) /\
    (forall e x, In e evs -> about x e = true ->
       (x = 2%nat \/ below quiet (servicelist chain) 2%nat x) /\
       vis chain x = false) /\
    NoDup (started evs) /\ NoDup (finished evs) /\
    (forall fuel' v, vis w' v = true ->
                     _doStart quiet (S fuel') v w' = Ret tt w') /\
    batch_marks quiet (servicelist chain) ([] ++ evs) w'.
Proof.
  assert (Hmarks : batch_marks quiet (servicelist chain) [] chain).
  { intros [|[|[|v]]]; discriminate. }
  exact (doStart_post_order quiet (fun x => x) 3 2%nat chain _ [] []
           chain_acyclic eq_refl Hmarks eq_refl (Nat.lt_succ_diag_r 2)).
Defined.


(** With the stop program of [a] exiting with status 0, the Restart
    executes the stop program and then the start program. *)
Example restart_with_successful_stop :
  let E := with_child_exited (fun _ => Some 0%nat) quiet in
  exists w',
    control_service E 1 "a" Action_Restart (mk_world [file_with_stop] []) =
      Ret true w' /\
    List.filter
      (fun e => match e with
                | Ev_Command_execute _ _ _ _ | Ev_post _ _ _
                | Ev_resetInfo _ | Ev_monitorSet _ => true
                | _ => false
                end) (trace w') =
    [Ev_Command_execute 0%nat Ref_stop ["/bin/stop-a"%string]
       (overlay file_with_stop Ref_stop);
     Ev_post 0%nat State_Succeeded Stopped;
     Ev_resetInfo 0%nat;
     Ev_Command_execute 0%nat Ref_start ["/bin/a"%string]
       (overlay file_with_stop Ref_start);
     Ev_post 0%nat State_Succeeded Started;
     Ev_monitorSet 0%nat].
Proof.
  cbv zeta. eexists. split; [vm_compute; reflexivity|reflexivity].
Qed.

(** Two files with start and stop programs and no restart program; [b]
    depends on [a]. *)
Definition pair_with_stops : world :=
  mk_world
    [a_service "a" Service_File (Some (a_command "/bin/a" 1))
       (Some (a_command "/bin/stop-a" 1)) None [];
     a_service "b" Service_File (Some (a_command "/bin/b" 1))
       (Some (a_command "/bin/stop-b" 1)) None ["a"%string]]
    [].


(** The same batch through the loop of [do_action]: no error is counted,
    both stop programs have been executed once and have failed, and both
    start programs have been executed after that. *)
Example restart_all_after_failed_stops :
  exists w',
    do_action_all (fun S _ => control_service quiet 3 S Action_Restart)
      "restart" pair_with_stops = Ret 0 w' /\
    List.filter is_exec (trace w') =
    [Ev_Command_execute 1%nat Ref_stop ["/bin/stop-b"%string]
       [("MONIT_SERVICE", "b"); ("MONIT_EVENT", "Stopped");
        ("MONIT_DESCRIPTION", "Stopped")]%string;
     Ev_Command_execute 0%nat Ref_stop ["/bin/stop-a"%string]
       [("MONIT_SERVICE", "a"); ("MONIT_EVENT", "Stopped");
        ("MONIT_DESCRIPTION", "Stopped")]%string;
     Ev_Command_execute 0%nat Ref_start ["/bin/a"%string]
       [("MONIT_SERVICE", "a"); ("MONIT_EVENT", "Started");
        ("MONIT_DESCRIPTION", "Started")]%string;
     Ev_Command_execute 1%nat Ref_start ["/bin/b"%string]
       [("MONIT_SERVICE", "b"); ("MONIT_EVENT", "Started");
        ("MONIT_DESCRIPTION", "Started")]%string].
Proof.
  eexists. split; [vm_compute; reflexivity|reflexivity].
Qed.


Lemma reset_depend_after_batch_witness :
  exists w' w'',
    control_service quiet 5 "b" Action_Start chain = Ret true w' /\
    (forall v, vis chain v = true -> vis w' v = true) /\
    (forall v, dvis chain v = true -> dvis w' v = true) /\
    vis w' 1%nat = true /\
    reset_depend w' = Ret tt w'' /\
    marks_clear w'' /\
    trace w'' = trace w' /\
    map (fun sv => (name sv, type sv, start sv, stop sv, restart sv,
                    dependantlist sv, monitor sv)) (servicelist w'') =
    map (fun sv => (name sv, type sv, start sv, stop sv, restart sv,
                    dependantlist sv, monitor sv)) (servicelist w').
Proof.
  exact (reset_depend_after_batch quiet (fun x => x) 2 5 "b" Action_Start
           1%nat _ chain chain_acyclic chain_ranked
           ltac:(lia) eq_refl eq_refl eq_refl).
Defined.

(** After the Start of [b] on the chain all three services are marked
    [visited]: [a] and [b] by the start of [b], and [c], which depends on
    [b], by the start of the dependants; the sweep clears the marks. *)
Example marks_after_start_in_the_chain :
  exists w' w'',
    control_service quiet 5 "b" Action_Start chain = Ret true w' /\
    visited <$> servicelist w' = [true; true; true] /\
    reset_depend w' = Ret tt w'' /\
    visited <$> servicelist w'' = [false; false; false] /\
    depend_visited <$> servicelist w'' = [false; false; false].
Proof.
  eexists _, _. split; [vm_compute; reflexivity|].
  split; [reflexivity|]. split; [reflexivity|]. split; reflexivity.
Qed.

End Control.
